(** * mm_segregated: a segregated free-list allocator

    Shallow embedding of [malloclab-handout/mm_segregated.c].

    Conventions of the embedding (LP64, little endian):
    - an address or pointer is a [Z]; [NULL] is [0]; pointer arithmetic is
      plain integer arithmetic (void and char pointers step in bytes);
    - [size_t] is a 64-bit unsigned integer: every [size_t] expression of
      the source is wrapped with [size_t], which reduces modulo 2^64;
    - [unsigned int] words live in memory as four little-endian bytes; a
      store through [PUT] keeps the low 32 bits of the value, as the
      conversion to [unsigned int] does;
    - the free-list links are [int]s stored in memory: a store keeps the low
      32 bits of the pointer difference and a load sign-extends them;
    - memory is a total map from addresses to bytes.  What a C run can do on
      top of that and a total map cannot is written out as a [fault]:
      a libc call on a null pointer, a [memcpy] between overlapping objects.
      The map also answers at addresses no C object lives at (below the
      region, past its end, around a null [eptr]), where the C program
      traps or reads foreign bytes: the model is the program as long as
      every access stays inside the region that [mem_sbrk] has handed out,
      which is the case on the heaps that [mm_init] built and that are
      still tiled by blocks ([wf] below);
    - loops whose trip count depends on the heap contents take a [fuel]. *)

From Stdlib Require Import ZArith Bool Lia List.
From stdpp Require Import base list.
Import ListNotations.
Local Open Scope Z_scope.

(** ** Machine integers *)

Definition size_t (x : Z) : Z := x mod 2 ^ 64.
Definition uint (x : Z) : Z := x mod 2 ^ 32.
Definition sint (x : Z) : Z :=
  let u := uint x in if u <? 2 ^ 31 then u else u - 2 ^ 32.

(** ** Basic constants and macros *)

Definition WSIZE : Z := 4.
Definition DSIZE : Z := 8.
Definition MIN_SIZE : Z := 24.
Definition LIST_END : Z := 0.
Definition NUM_LISTS : Z := 20.
Definition CHUNKSIZE : Z := Z.shiftl 1 8.
Definition NULL : Z := 0.

(** ** Memory *)

Definition memory : Type := Z -> Z.

Definition load8 (m : memory) (a : Z) : Z := m a mod 256.

Definition store8 (m : memory) (a v : Z) : memory :=
  fun x => if x =? a then v mod 256 else m x.

(** [GET(p)]: [*(unsigned int * )(p)]. *)
Definition GET (m : memory) (p : Z) : Z :=
  load8 m p + 256 * load8 m (p + 1) + 65536 * load8 m (p + 2)
  + 16777216 * load8 m (p + 3).

(** [PUT(p, val)]: [*(unsigned int * )(p) = (val)]. *)
Definition PUT (m : memory) (p v : Z) : memory :=
  let u := uint v in
  store8 (store8 (store8 (store8 m p u) (p + 1) (u / 256))
                 (p + 2) (u / 65536))
         (p + 3) (u / 16777216).

Definition PACK (size alloc : Z) : Z := Z.lor size alloc.

Definition GET_SIZE (m : memory) (p : Z) : Z := Z.land (GET m p) (Z.lnot 7).
Definition GET_ALLOC (m : memory) (p : Z) : Z := Z.land (GET m p) 1.

Definition HDRP (bp : Z) : Z := bp - 2 * WSIZE.
Definition FTRP (m : memory) (bp : Z) : Z :=
  bp + GET_SIZE m (HDRP bp) - 4 * WSIZE.

Definition NEXT_BLKP (m : memory) (bp : Z) : Z := bp + GET_SIZE m (HDRP bp).
Definition PREV_BLKP (m : memory) (bp : Z) : Z :=
  bp - GET_SIZE m (bp - 4 * WSIZE).

Definition PREV_PTR (m : memory) (bp : Z) : Z := FTRP m bp + WSIZE.
Definition NEXT_PTR (bp : Z) : Z := HDRP bp + WSIZE.

Definition GET_PREV_FREE (m : memory) (bp : Z) : Z :=
  let off := sint (GET m (PREV_PTR m bp)) in
  if off =? 0 then 0 else bp + off.
Definition GET_NEXT_FREE (m : memory) (bp : Z) : Z :=
  let off := sint (GET m (NEXT_PTR bp)) in
  if off =? 0 then 0 else bp + off.
Definition SET_PREV_FREE (m : memory) (bp prev : Z) : memory :=
  PUT m (PREV_PTR m bp) (prev - bp).
Definition SET_NEXT_FREE (m : memory) (bp next : Z) : memory :=
  PUT m (NEXT_PTR bp) (next - bp).

Definition SPACE_LEFT (m : memory) (eptr : Z) : Z :=
  if GET_ALLOC m (HDRP eptr) =? 0 then GET_SIZE m (HDRP eptr) else 0.

Definition ALIGNED (m : memory) (bp : Z) : bool :=
  GET_SIZE m (HDRP bp) mod DSIZE =? 0.
Definition BPALIGNED (bp : Z) : bool := bp mod DSIZE =? 0.
Definition HEF (m : memory) (bp : Z) : bool :=
  GET m (HDRP bp) =? GET m (FTRP m bp).

(** ** libc: memset and memcpy, with what C leaves undefined *)

Inductive fault : Type :=
| NullDeref      (* a libc call writes or reads through a null pointer *)
| Overlap        (* memcpy between objects that overlap *)
| OutOfFuel.     (* the model's loop bound was reached *)

Inductive outcome (A : Type) : Type :=
| Ok (a : A)
| Fault (f : fault).
Arguments Ok {A} a.
Arguments Fault {A} f.

Definition bind {A B : Type} (x : outcome A) (k : A -> outcome B)
  : outcome B :=
  match x with
  | Ok a => k a
  | Fault f => Fault f
  end.

Notation "'let*' p ':=' c1 'in' c2" := (bind c1 (fun p => c2))
  (at level 10, p pattern, c1 at level 100, c2 at level 200).

(** [memset(s, c, n)]: nothing is touched when [n = 0].  The fill is
    written out whatever [n] is; it is the C call as long as the bytes
    from [s] to [s + n] lie inside one block of the heap. *)
Definition memset (m : memory) (s c n : Z) : outcome memory :=
  if n =? 0 then Ok m
  else if s =? NULL then Fault NullDeref
  else Ok (fun a => if (s <=? a) && (a <? s + n) then c mod 256 else m a).

(** [memcpy(dst, src, n)]: the behaviour is undefined when the two objects
    overlap (C11 7.24.2.1). *)
Definition memcpy (m : memory) (dst src n : Z) : outcome memory :=
  if n =? 0 then Ok m
  else if (dst =? NULL) || (src =? NULL) then Fault NullDeref
  else if (dst <? src + n) && (src <? dst + n) then Fault Overlap
  else Ok (fun a => if (dst <=? a) && (a <? dst + n)
                    then m (a - dst + src) else m a).

(** ** Allocator state: the globals of mm_segregated.c and of memlib *)

Record state : Type := mkState {
  mem : memory;
  mem_start_brk : Z;     (* memlib: first byte of the region *)
  mem_brk : Z;           (* memlib: one past the last byte handed out *)
  mem_max_addr : Z;      (* memlib: one past the last byte of the region *)
  heap_listp : Z;
  free_lists : list Z;   (* void *free_lists[NUM_LISTS] *)
  eptr : Z
}.

Definition with_mem (st : state) (m : memory) : state :=
  mkState m (mem_start_brk st) (mem_brk st) (mem_max_addr st)
          (heap_listp st) (free_lists st) (eptr st).
Definition with_brk (st : state) (b : Z) : state :=
  mkState (mem st) (mem_start_brk st) b (mem_max_addr st)
          (heap_listp st) (free_lists st) (eptr st).
Definition with_heap_listp (st : state) (p : Z) : state :=
  mkState (mem st) (mem_start_brk st) (mem_brk st) (mem_max_addr st)
          p (free_lists st) (eptr st).
Definition with_free_lists (st : state) (l : list Z) : state :=
  mkState (mem st) (mem_start_brk st) (mem_brk st) (mem_max_addr st)
          (heap_listp st) l (eptr st).
Definition with_eptr (st : state) (e : Z) : state :=
  mkState (mem st) (mem_start_brk st) (mem_brk st) (mem_max_addr st)
          (heap_listp st) (free_lists st) e.

(** Read of [free_lists[i]] at an index the source keeps in range. *)
Definition list_head (st : state) (i : Z) : Z :=
  default NULL (free_lists st !! Z.to_nat i).
(** [free_lists[i] = p]. *)
Definition set_list_head (st : state) (i p : Z) : state :=
  with_free_lists st (<[Z.to_nat i := p]> (free_lists st)).

(** Modelled from the spec: the region-growth primitive [mem_sbrk] of
    memlib, which is not part of the allocator's source.  It grows one
    contiguous region by [incr] bytes and returns the old break, or the
    failure sentinel [(void * )-1] when the region is exhausted. *)
Definition mem_sbrk (st : state) (incr : Z) : state * Z :=
  if (incr <? 0) || (mem_brk st + incr >? mem_max_addr st)
  then (st, -1)
  else (with_brk st (mem_brk st + incr), mem_brk st).

(** Modelled from the spec: memlib's [mem_heap_lo] and [mem_heap_hi], the
    first and the last byte of the region handed out so far. *)
Definition mem_heap_lo (st : state) : Z := mem_start_brk st.
Definition mem_heap_hi (st : state) : Z := mem_brk st - 1.

(** ** Helper routines *)

Definition set_size (m : memory) (bp asize : Z) : memory :=
  let m1 := PUT m (HDRP bp) (PACK asize 0) in
  PUT m1 (FTRP m1 bp) (PACK asize 0).

Definition set_alloc (m : memory) (bp : Z) : memory :=
  let m1 := PUT m (HDRP bp) (Z.lor (GET m (HDRP bp)) 1) in
  PUT m1 (FTRP m1 bp) (Z.lor (GET m1 (FTRP m1 bp)) 1).

Definition set_free (m : memory) (bp : Z) : memory :=
  let m1 := PUT m (HDRP bp) (Z.land (GET m (HDRP bp)) (Z.lnot 1)) in
  PUT m1 (FTRP m1 bp) (Z.land (GET m1 (FTRP m1 bp)) (Z.lnot 1)).

(** [get_list]: the loop leaves as soon as [list] reaches [NUM_LISTS-1],
    so [NUM_LISTS-1] rounds are all it can make. *)
Fixpoint get_list_loop (rounds : nat) (list size : Z) : Z :=
  match rounds with
  | O => list
  | S r =>
      if (list <? NUM_LISTS - 1) && (size >? 0)
      then get_list_loop r (list + 1) (Z.shiftr size 1)
      else list
  end.
Definition get_list (size : Z) : Z :=
  get_list_loop (Z.to_nat (NUM_LISTS - 1)) 0 size.

Definition align_size (size : Z) : Z :=
  if size <=? DSIZE then MIN_SIZE
  else size_t (DSIZE * (size_t (size + 2 * DSIZE + (DSIZE - 1)) / DSIZE)).

Definition delete_block (st : state) (bp : Z) : state :=
  let m := mem st in
  let prev := GET_PREV_FREE m bp in
  let next := GET_NEXT_FREE m bp in
  let list := get_list (GET_SIZE m (HDRP bp)) in
  if (prev =? LIST_END) && (next =? LIST_END) then
    set_list_head st list NULL
  else if prev =? LIST_END then
    set_list_head (with_mem st (SET_PREV_FREE m next next)) list next
  else if next =? LIST_END then
    with_mem st (SET_NEXT_FREE m prev prev)
  else
    let m1 := SET_NEXT_FREE m prev next in
    with_mem st (SET_PREV_FREE m1 next prev).

Definition add_block (st : state) (bp : Z) : state :=
  let m := mem st in
  let list := get_list (GET_SIZE m (HDRP bp)) in
  let head := list_head st list in
  let m' :=
    if negb (head =? NULL) then
      let m1 := SET_PREV_FREE m head bp in
      let m2 := SET_NEXT_FREE m1 bp head in
      SET_PREV_FREE m2 bp bp
    else
      let m1 := SET_PREV_FREE m bp bp in
      SET_NEXT_FREE m1 bp bp
  in
  set_list_head (with_mem st m') list bp.

Definition split (st : state) (bp asize : Z) : state * Z :=
  let original_size := GET_SIZE (mem st) (HDRP bp) in
  if original_size >=? size_t (asize + MIN_SIZE) then
    let st1 := delete_block st bp in
    let m2 := set_size (mem st1) bp asize in
    let split_block := NEXT_BLKP m2 bp in
    let m3 := set_size m2 split_block (size_t (original_size - asize)) in
    (add_block (with_mem st1 m3) split_block, bp)
  else
    (delete_block st bp, bp).

Definition coalesce (st : state) (bp : Z) : state * Z :=
  let m := mem st in
  let prev := PREV_BLKP m bp in
  let next := NEXT_BLKP m bp in
  let prev_alloc := GET_ALLOC m (HDRP prev) in
  let next_alloc := GET_ALLOC m (HDRP next) in
  let size := GET_SIZE m (HDRP bp) in
  if negb (prev_alloc =? 0) && negb (next_alloc =? 0) then
    (add_block st bp, bp)
  else if negb (prev_alloc =? 0) && (next_alloc =? 0) then
    let st1 := delete_block st next in
    let size := size_t (size + GET_SIZE (mem st1) (HDRP next)) in
    let st2 := with_mem st1 (set_size (mem st1) bp size) in
    (add_block st2 bp, bp)
  else if (prev_alloc =? 0) && negb (next_alloc =? 0) then
    let st1 := delete_block st prev in
    let size := size_t (size + GET_SIZE (mem st1) (HDRP prev)) in
    let st2 := with_mem st1 (set_size (mem st1) prev size) in
    (add_block st2 prev, prev)
  else
    let st1 := delete_block st next in
    let st2 := delete_block st1 prev in
    let size := size_t (size + uint (GET_SIZE (mem st2) (HDRP prev)
                                     + GET_SIZE (mem st2) (HDRP next))) in
    let st3 := with_mem st2 (set_size (mem st2) prev size) in
    (add_block st3 prev, prev).

(** ** search_list

    The inner loop follows the links of one list; the outer loop moves on
    to the larger lists.  [free_lists] has [NUM_LISTS] entries, and a read
    of [free_lists[list]] outside of them is reported as [ReadOutOfBounds]:
    in the source the word read there is assigned to [bp], [list] is then
    past the loop bound, and the search returns [NULL]. *)

Inductive found : Type :=
| Found (bp : Z)
| NotFound
| ReadOutOfBounds (i : Z).

Fixpoint scan (fuel : nat) (m : memory) (bp asize : Z) : outcome Z :=
  match fuel with
  | O => Fault OutOfFuel
  | S f =>
      if bp =? LIST_END then Ok LIST_END
      else if GET_SIZE m (HDRP bp) >=? asize then Ok bp
      else scan f m (GET_NEXT_FREE m bp) asize
  end.

Fixpoint search_loop (fuel : nat) (st : state) (list bp asize : Z)
  : outcome found :=
  match fuel with
  | O => Fault OutOfFuel
  | S f =>
      if list <? NUM_LISTS + 1 then
        let* hit := scan f (mem st) bp asize in
        if hit =? LIST_END then
          match free_lists st !! Z.to_nat list with
          | Some bp' => search_loop f st (list + 1) bp' asize
          | None => Ok (ReadOutOfBounds list)
          end
        else Ok (Found hit)
      else Ok NotFound
  end.

Definition search_start (fuel : nat) (st : state) (asize : Z)
  : outcome found :=
  let list := get_list asize in
  search_loop fuel st list (list_head st list) asize.

Definition search_list (fuel : nat) (st : state) (asize : Z)
  : outcome (state * Z) :=
  let* r := search_start fuel st asize in
  match r with
  | Found bp => Ok (split st bp asize)
  | NotFound | ReadOutOfBounds _ => Ok (st, NULL)
  end.

(** ** extend_heap, mm_init *)

Definition extend_heap (st : state) (asize : Z) : state * Z :=
  let space_left := SPACE_LEFT (mem st) (eptr st) in
  let size := size_t (asize - space_left) in
  let size := if size <? CHUNKSIZE then CHUNKSIZE else size in
  let (st1, bp) := mem_sbrk st size in
  if bp =? -1 then (st1, NULL)
  else
    let bp := bp + WSIZE in
    let m1 := set_size (mem st1) bp size in
    let m2 := PUT m1 (HDRP (NEXT_BLKP m1 bp)) (PACK 0 1) in
    let st2 := with_eptr (with_mem st1 m2)
                         (eptr st1 + GET_SIZE m2 (HDRP bp)) in
    let (st3, bp) := coalesce st2 bp in
    split st3 bp asize.

Definition mm_init (st : state) : state * Z :=
  let (st1, p) := mem_sbrk st (5 * WSIZE) in
  let st2 := with_heap_listp st1 p in
  if p =? -1 then (st2, -1)
  else
    let st3 := with_free_lists st2 (replicate (Z.to_nat NUM_LISTS) NULL) in
    let m1 := PUT (mem st3) p (PACK (4 * WSIZE) 1) in
    let m2 := PUT m1 (p + 1 * WSIZE) 0 in
    let m3 := PUT m2 (p + 2 * WSIZE) (PACK (4 * WSIZE) 1) in
    let m4 := PUT m3 (p + 3 * WSIZE) 0 in
    let m5 := PUT m4 (p + 4 * WSIZE) (PACK 0 1) in
    let st4 := with_heap_listp (with_mem st3 m5) (p + 2 * WSIZE) in
    (with_eptr st4 (heap_listp st4 + 2 * WSIZE), 0).

(** ** The public operations *)

Definition malloc (fuel : nat) (st : state) (size : Z)
  : outcome (state * Z) :=
  let st := if heap_listp st =? 0 then fst (mm_init st) else st in
  if size =? 0 then Ok (st, NULL)
  else
    let asize := align_size size in
    let* (st1, bp) := search_list fuel st asize in
    let (st2, bp) :=
      if bp =? NULL then extend_heap st1 asize else (st1, bp) in
    if bp =? NULL then Ok (st2, NULL)
    else Ok (with_mem st2 (set_alloc (mem st2) bp), bp).

Definition free (st : state) (bp : Z) : state :=
  if bp =? 0 then st
  else
    let st := if heap_listp st =? 0 then fst (mm_init st) else st in
    let st1 := with_mem st (set_free (mem st) bp) in
    fst (coalesce st1 bp).

Definition calloc (fuel : nat) (st : state) (nmemb size : Z)
  : outcome (state * Z) :=
  let asize := size_t (nmemb * size) in
  let* (st1, bp) := malloc fuel st asize in
  let* m2 := memset (mem st1) bp 0 asize in
  Ok (with_mem st1 m2, bp).

Definition realloc (fuel : nat) (st : state) (ptr size : Z)
  : outcome (state * Z) :=
  if size =? 0 then Ok (free st ptr, 0)
  else if ptr =? NULL then malloc fuel st size
  else
    let m := mem st in
    let oldsize := GET_SIZE m (HDRP ptr) in
    let newsize := align_size size in
    if newsize <=? oldsize then
      let st1 := with_mem st (set_free m ptr) in
      let st2 := add_block st1 ptr in
      let (st3, newptr) := split st2 ptr newsize in
      Ok (with_mem st3 (set_alloc (mem st3) newptr), newptr)
    else
      let prev := PREV_BLKP m ptr in
      let next := NEXT_BLKP m ptr in
      let prev_alloc := GET_ALLOC m (HDRP prev) in
      let next_alloc := GET_ALLOC m (HDRP next) in
      let prev_size := GET_SIZE m (HDRP prev) in
      let next_size := GET_SIZE m (HDRP next) in
      let diff := size_t (newsize - oldsize) in
      if ((prev_alloc =? 0) && (prev_size >=? diff))
         || ((next_alloc =? 0) && (next_size >=? diff))
         || ((next_alloc =? 0) && (prev_alloc =? 0)
             && (size_t (prev_size + next_size) >=? diff))
      then
        let (st1, newptr) := coalesce st ptr in
        let* m2 := (if negb (newptr =? ptr)
                    then memcpy (mem st1) newptr ptr oldsize
                    else Ok (mem st1)) in
        let (st3, newptr) := split (with_mem st1 m2) newptr newsize in
        Ok (with_mem st3 (set_alloc (mem st3) newptr), newptr)
      else
        let* (st1, newptr) := malloc fuel st newsize in
        let* m2 := memcpy (mem st1) newptr ptr oldsize in
        Ok (free (with_mem st1 m2) ptr, newptr).

(** ** mm_checkheap: the error flags it accumulates

    Bit [2^(k-1)] of the result is the source's error flag number [k]; the
    report printed for each set bit and the final [exit] follow from the
    flags alone. *)

Definition count_at (l : list Z) (i : Z) : Z := default 0 (l !! Z.to_nat i).
Definition bump (l : list Z) (i : Z) : list Z :=
  <[Z.to_nat i := count_at l i + 1]> l.

Record check_acc : Type := mkAcc {
  free_token : Z;
  num_head : list Z;
  num_tail : list Z;
  error_flags : Z
}.

Definition flag (c : bool) (bit : Z) (flags : Z) : Z :=
  if c then Z.lor flags bit else flags.

Definition check_block (st : state) (bp : Z) (acc : check_acc) : check_acc :=
  let m := mem st in
  let low := mem_heap_lo st in
  let high := mem_heap_hi st in
  let f := error_flags acc in
  let f := flag (negb (ALIGNED m bp)) 1 f in
  let f := flag (negb (BPALIGNED bp)) 64 f in
  let f := flag (negb (HEF m bp)) 16 f in
  let f := flag ((bp <? low)
                 || (bp + GET_SIZE m (HDRP bp) - DSIZE >? high)) 32 f in
  let f := flag ((bp =? heap_listp st)
                 && (negb (GET_SIZE m (HDRP bp) =? 2 * DSIZE)
                     || (GET_ALLOC m (HDRP bp) =? 0))) 256 f in
  if GET_ALLOC m (HDRP bp) =? 0 then
    let token := free_token acc + 1 in
    let f := flag (token >? 1) 128 f in
    let size := GET_SIZE m (HDRP bp) in
    let list_num := get_list size in
    let '(tails, f) :=
      if GET_NEXT_FREE m bp =? NULL then
        (bump (num_tail acc) list_num,
         flag (count_at (num_tail acc) list_num >? 1) 2 f)
      else
        (num_tail acc,
         flag (negb (GET_PREV_FREE m (GET_NEXT_FREE m bp) =? bp)) 4 f) in
    let '(heads, f) :=
      if GET_PREV_FREE m bp =? NULL then
        (bump (num_head acc) list_num,
         flag (count_at (num_head acc) list_num >? 1) 8 f)
      else
        (num_head acc,
         flag (negb (GET_NEXT_FREE m (GET_PREV_FREE m bp) =? bp)) 4 f) in
    mkAcc token heads tails f
  else
    mkAcc 0 (num_head acc) (num_tail acc) f.

Fixpoint check_blocks (fuel : nat) (st : state) (bp : Z) (acc : check_acc)
  : outcome check_acc :=
  match fuel with
  | O => Fault OutOfFuel
  | S k =>
      if GET_SIZE (mem st) (HDRP bp) >? 0
      then check_blocks k st (NEXT_BLKP (mem st) bp) (check_block st bp acc)
      else Ok acc
  end.

Definition mm_checkheap (fuel : nat) (st : state) : outcome Z :=
  let m := mem st in
  let high := mem_heap_hi st in
  let zeros := replicate (Z.to_nat NUM_LISTS) 0 in
  let f := flag (negb (GET_SIZE m (high - 3) =? 0)
                 || (GET_ALLOC m (high - 3) =? 0)
                 || negb (high - 3 =? eptr st)) 512 0 in
  let* acc := check_blocks fuel st (heap_listp st) (mkAcc 0 zeros zeros f) in
  Ok (error_flags acc).

(** ** Concrete heaps *)

(** The allocator's globals before [mm_init], over a raw region of
    [capacity] bytes at [start] whose bytes are [raw]. *)
Definition fresh (raw : memory) (start capacity : Z) : state :=
  mkState raw start start (start + capacity) 0
          (replicate (Z.to_nat NUM_LISTS) NULL) 0.

Definition zeroed : memory := fun _ => 0.

(** A successfully initialized heap: 1 MiB of zeroed memory at 0x10000. *)
Definition heap0 : state := fst (mm_init (fresh zeroed 65536 1048576)).

(** The state a call leaves behind ([d] when the call faults) and the
    address it returns. *)
Definition state_after (d : state) (r : outcome (state * Z)) : state :=
  match r with Ok (st, _) => st | Fault _ => d end.
Definition returned (r : outcome (state * Z)) : option Z :=
  match r with Ok (_, p) => Some p | Fault _ => None end.

(** Bytes a block can hold between its link word and its footer tag
    ([FTRP(bp) - bp], the "Payload" column of mm_checkheap's report). *)
Definition payload_size (m : memory) (bp : Z) : Z := FTRP m bp - bp.

(** A region that is used up by [mm_init]: every later [mem_sbrk] fails. *)
Definition heap_full : state := fst (mm_init (fresh zeroed 65536 20)).

(** Three blocks A (24 bytes), B (32 bytes), C (24 bytes) in a row, A freed:
    [malloc(8); malloc(16); malloc(8); free(A)]. *)
Definition heap_ABC : state :=
  let s1 := state_after heap0 (malloc 100 heap0 8) in
  let s2 := state_after heap0 (malloc 100 s1 16) in
  let s3 := state_after heap0 (malloc 100 s2 8) in
  free s3 65560.

(** Four 24-byte blocks in a row, the first and the third freed:
    [malloc(8)] four times, [free] of 65560 and of 65608. *)
Definition heap_two_free : state :=
  let s1 := state_after heap0 (malloc 100 heap0 8) in
  let s2 := state_after heap0 (malloc 100 s1 8) in
  let s3 := state_after heap0 (malloc 100 s2 8) in
  let s4 := state_after heap0 (malloc 100 s3 8) in
  free (free s4 65560) 65608.

(** The same heap after the two link words that tie the free blocks
    together were overwritten with zero: both blocks now end and start a
    list of bucket 5. *)
Definition heap_two_ends : state :=
  let m := mem heap_two_free in
  with_mem heap_two_free
           (PUT (PUT m (NEXT_PTR 65608) 0) (PREV_PTR m 65560) 0).

(** A raw region that is zero except for three words past the first
    chunk, and the heap [mm_init] builds on it. *)
Definition raw_dirty : memory :=
  PUT (PUT (PUT zeroed 65832 32) 65836 100) 65932 24.
Definition heap_dirty : state := fst (mm_init (fresh raw_dirty 65536 1048576)).

(** [malloc(2^64-20); malloc(8); free; free] on [heap_dirty]: both calls
    of [malloc] return 65560, and both addresses are freed. *)
Definition heap_dirty_freed : state :=
  let s1 := state_after heap_dirty (malloc 100 heap_dirty (2 ^ 64 - 20)) in
  let s2 := state_after heap_dirty (malloc 100 s1 8) in
  free (free s2 65560) 65560.

(** ** Consistent heaps

    The blocks between [heap_listp] and the epilogue, as the forward scan
    of mm_checkheap meets them: block pointer, total size, allocation
    bit. *)

Record blk : Type := Blk { b_ptr : Z; b_size : Z; b_alloc : bool }.

(** The tag word of a block: its size with the allocation bit. *)
Definition tag (b : blk) : Z := b_size b + (if b_alloc b then 1 else 0).

(** Header and footer of [b] both hold its tag. *)
Definition block_ok (m : memory) (b : blk) : Prop :=
  GET m (HDRP (b_ptr b)) = tag b /\
  GET m (b_ptr b + b_size b - 4 * WSIZE) = tag b /\
  b_size b mod DSIZE = 0 /\
  2 * DSIZE <= b_size b.

(** [chain m bp bs stop]: starting at [bp], the blocks [bs] follow each
    other without a gap and the next block pointer after them is [stop]. *)
Fixpoint chain (m : memory) (bp : Z) (bs : list blk) (stop : Z) : Prop :=
  match bs with
  | [] => bp = stop
  | b :: rest =>
      b_ptr b = bp /\ block_ok m b /\ chain m (bp + b_size b) rest stop
  end.

(** The heap of [st] is exactly the blocks [bs] followed by the epilogue
    header at [eptr]. *)
Definition heap_tiled (st : state) (bs : list blk) : Prop :=
  chain (mem st) (heap_listp st) bs (eptr st + 2 * WSIZE) /\
  GET (mem st) (eptr st) = 1.

Fixpoint no_adjacent_free (bs : list blk) : bool :=
  match bs with
  | [] => true
  | b1 :: rest =>
      match rest with
      | [] => true
      | b2 :: _ => (b_alloc b1 || b_alloc b2) && no_adjacent_free rest
      end
  end.

Definition free_block_of (bs : list blk) (p : Z) : Prop :=
  exists s, In (Blk p s false) bs.

(** A link or a list head is null or leads to a free block of the heap. *)
Definition link_ok (bs : list blk) (p : Z) : Prop :=
  p = NULL \/ free_block_of bs p.

Record consistent (st : state) (bs : list blk) : Prop := mkConsistent {
  c_base : 0 < heap_listp st /\ heap_listp st mod DSIZE = 0;
  c_prologue : exists rest,
      bs = Blk (heap_listp st) (2 * DSIZE) true :: rest
      /\ Forall (fun b => MIN_SIZE <= b_size b) rest;
  c_tiled : heap_tiled st bs;
  c_extent : eptr st - heap_listp st < 2 ^ 31;
  c_coalesced : no_adjacent_free bs = true;
  c_links : forall b, In b bs -> b_alloc b = false ->
      link_ok bs (GET_NEXT_FREE (mem st) (b_ptr b))
      /\ link_ok bs (GET_PREV_FREE (mem st) (b_ptr b));
  c_heads : length (free_lists st) = Z.to_nat NUM_LISTS
      /\ Forall (link_ok bs) (free_lists st)
}.

(** The blocks of [heap_ABC]: prologue, A (free), B, C, and the free rest
    of the first chunk. *)
Definition blocks_ABC : list blk :=
  [Blk 65544 16 true; Blk 65560 24 false; Blk 65584 32 true;
   Blk 65616 24 true; Blk 65640 176 false].

(** The forward scan of mm_checkheap, as the list of blocks it meets. *)
Fixpoint heap_blocks (fuel : nat) (m : memory) (bp : Z)
  : option (list blk) :=
  match fuel with
  | O => None
  | S k =>
      let size := GET_SIZE m (HDRP bp) in
      if size >? 0 then
        option_map (cons (Blk bp size (negb (GET_ALLOC m (HDRP bp) =? 0))))
                   (heap_blocks k m (NEXT_BLKP m bp))
      else Some []
  end.

(** ** Notions used in the proofs

    Tag words sit at addresses that are multiples of 8 and link words at
    addresses that are 4 modulo 8, so a store to a link word never changes
    a tag. *)

Definition tags_agree (m m' : memory) : Prop :=
  forall q, q mod 8 = 0 -> GET m' q = GET m q.
Definition links_kept (m m' : memory) : Prop :=
  forall c, c mod 8 = 4 ->
            sint (GET m c) mod 8 = 0 -> sint (GET m' c) mod 8 = 0.
Definition quiet (m m' : memory) : Prop := tags_agree m m' /\ links_kept m m'.
Definition heads_aligned (st : state) : Prop :=
  Forall (fun p => p mod 8 = 0) (free_lists st).
Definition links_aligned (m : memory) (x : Z) : Prop :=
  sint (GET m (NEXT_PTR x)) mod 8 = 0
  /\ sint (GET m (PREV_PTR m x)) mod 8 = 0.

Definition last_alloc (l : list blk) : bool :=
  match last l with Some b => b_alloc b | None => true end.
Definition first_alloc (l : list blk) : bool :=
  match l with b :: _ => b_alloc b | [] => true end.

(** ** A decision procedure for [consistent] *)

Definition block_okb (m : memory) (b : blk) : bool :=
  (GET m (HDRP (b_ptr b)) =? tag b)
  && (GET m (b_ptr b + b_size b - 4 * WSIZE) =? tag b)
  && (b_size b mod DSIZE =? 0)
  && (2 * DSIZE <=? b_size b).

Fixpoint chainb (m : memory) (bp : Z) (bs : list blk) (stop : Z) : bool :=
  match bs with
  | [] => bp =? stop
  | b :: rest =>
      (b_ptr b =? bp) && block_okb m b && chainb m (bp + b_size b) rest stop
  end.

Definition link_okb (bs : list blk) (p : Z) : bool :=
  (p =? NULL)
  || existsb (fun b => (b_ptr b =? p) && negb (b_alloc b)) bs.

Definition prologueb (st : state) (bs : list blk) : bool :=
  match bs with
  | [] => false
  | b :: rest =>
      (b_ptr b =? heap_listp st) && (b_size b =? 2 * DSIZE) && b_alloc b
      && forallb (fun b => MIN_SIZE <=? b_size b) rest
  end.

Definition consistentb (st : state) (bs : list blk) : bool :=
  (0 <? heap_listp st) && (heap_listp st mod DSIZE =? 0)
  && prologueb st bs
  && chainb (mem st) (heap_listp st) bs (eptr st + 2 * WSIZE)
  && (GET (mem st) (eptr st) =? 1)
  && (eptr st - heap_listp st <? 2 ^ 31)
  && no_adjacent_free bs
  && forallb (fun b => b_alloc b
                       || (link_okb bs (GET_NEXT_FREE (mem st) (b_ptr b))
                           && link_okb bs (GET_PREV_FREE (mem st) (b_ptr b))))
             bs
  && (length (free_lists st) =? Z.to_nat NUM_LISTS)%nat
  && forallb (link_okb bs) (free_lists st).

(** One block of 1016 bytes: [malloc(1000)] on the fresh heap. *)
Definition heap_P : state := state_after heap0 (malloc 100 heap0 1000).
Definition blocks_P : list blk := [Blk 65544 16 true; Blk 65560 1016 true].

(** ** Sequences of calls *)

Inductive call : Type :=
| Malloc (size : Z)
| Free (ptr : Z)
| Realloc (ptr size : Z)
| Calloc (nmemb size : Z).

Definition do_call (fuel : nat) (st : state) (c : call)
  : outcome (state * Z) :=
  match c with
  | Malloc size => malloc fuel st size
  | Free ptr => Ok (free st ptr, NULL)
  | Realloc ptr size => realloc fuel st ptr size
  | Calloc nmemb size => calloc fuel st nmemb size
  end.

(** ** Well-formed heaps: blocks and doubly linked free lists

    [dllseg m prev fs cur nxt]: starting at [cur], the forward links lead
    through the blocks [fs] in order and then to [nxt], and the back link
    of each block leads to the block before it ([prev] for the first). *)
Fixpoint dllseg (m : memory) (prev : Z) (fs : list Z) (cur nxt : Z) : Prop :=
  match fs with
  | [] => cur = nxt
  | x :: rest =>
      cur = x /\ x <> NULL /\ GET_PREV_FREE m x = prev
      /\ dllseg m x rest (GET_NEXT_FREE m x) nxt
  end.

(** A whole list: it starts at [head] and both ends are marked by null. *)
Definition dll (m : memory) (fs : list Z) (head : Z) : Prop :=
  dllseg m NULL fs head NULL.

Definition bucket_upd (fl : Z -> list Z) (l : Z) (v : list Z) : Z -> list Z :=
  fun i => if i =? l then v else fl i.

(** [wf st bs fl]: the heap of [st] is the blocks [bs], prologue first,
    within a region of at most 2^31 bytes whose break is just behind the
    epilogue, and for every size class [l] the list [free_lists[l]] is the
    doubly linked list of the blocks [fl l], which are free blocks of
    that class. *)
Record wf (st : state) (bs : list blk) (fl : Z -> list Z) : Prop := mkWf {
  wf_base : 0 < heap_listp st /\ heap_listp st mod 8 = 0;
  wf_prologue : exists rest,
      bs = Blk (heap_listp st) (2 * DSIZE) true :: rest
      /\ Forall (fun b => MIN_SIZE <= b_size b) rest;
  wf_tiled : heap_tiled st bs;
  wf_brk : mem_brk st = eptr st + WSIZE /\ mem_brk st <= mem_max_addr st;
  wf_start : mem_start_brk st <= heap_listp st;
  wf_room : mem_max_addr st - heap_listp st <= 2 ^ 31;
  wf_len : length (free_lists st) = Z.to_nat NUM_LISTS;
  wf_lists : forall l, 0 <= l < NUM_LISTS ->
      dll (mem st) (fl l) (list_head st l) /\ List.NoDup (fl l);
  wf_members : forall l x, 0 <= l < NUM_LISTS -> In x (fl l) ->
      exists s, In (Blk x s false) bs /\ get_list s = l
}.

(** Every free block is on the list of its size class. *)
Definition complete (bs : list blk) (fl : Z -> list Z) : Prop :=
  forall x s, In (Blk x s false) bs -> In x (fl (get_list s)).

(** The address [a] lies in no free block of [bs] (header and link words
    included). *)
Definition outside_free (bs : list blk) (a : Z) : Prop :=
  forall b, In b bs -> b_alloc b = false ->
            ~ (b_ptr b - 8 <= a < b_ptr b + b_size b - 8).

(** The heap as it is between two calls: well-formed, every free block
    listed, no two neighbouring blocks free. *)
Definition good (st : state) (bs : list blk) (fl : Z -> list Z) : Prop :=
  wf st bs fl /\ complete bs fl /\ no_adjacent_free bs = true.

(** ** A client that keeps to the rules

    [session fuel st live]: [st] is the allocator state after [mm_init] on
    a region that starts at a multiple of 8 and spans at most 2 GiB,
    followed by calls of [malloc], [calloc] and [free] and by stores of the
    client, where no request is large enough to wrap, only blocks the
    client holds are freed, and the client stores only into the bytes it
    asked for.  [live] lists the blocks the client holds, each with the
    number of bytes asked for; a call that returns null adds nothing. *)

Inductive session (fuel : nat) : state -> list (Z * Z) -> Prop :=
| session_init st :
    mem_brk st mod 8 = 0 -> 0 <= mem_brk st ->
    mem_start_brk st <= mem_brk st -> mem_brk st + 20 <= mem_max_addr st ->
    mem_max_addr st - mem_brk st <= 2 ^ 31 ->
    session fuel (fst (mm_init st)) []
| session_malloc st live size st' p :
    session fuel st live -> 0 <= size <= 2 ^ 64 - 24 ->
    malloc fuel st size = Ok (st', p) ->
    session fuel st' (if p =? NULL then live else (p, size) :: live)
| session_calloc st live nmemb size st' p :
    session fuel st live -> 0 <= nmemb * size <= 2 ^ 64 - 24 ->
    calloc fuel st nmemb size = Ok (st', p) ->
    session fuel st' (if p =? NULL then live else (p, nmemb * size) :: live)
| session_free st live1 p n live2 :
    session fuel st (live1 ++ (p, n) :: live2) ->
    session fuel (free st p) (live1 ++ live2)
| session_store st live p n a v :
    session fuel st live -> In (p, n) live -> p <= a < p + n ->
    session fuel (with_mem st (store8 (mem st) a v)) live.

(** The calls of a session, as [call]s: [malloc] and [calloc] of sizes that
    do not wrap, [free] of null or of a block held, and the two boundary
    uses of [realloc], [realloc(NULL, size)] and [realloc(ptr, 0)], which
    the source hands to [malloc] and to [free]. *)
Definition allowed (live : list (Z * Z)) (c : call) : Prop :=
  match c with
  | Malloc size => 0 <= size <= 2 ^ 64 - 24
  | Calloc nmemb size => 0 <= nmemb * size <= 2 ^ 64 - 24
  | Free p => p = NULL \/ exists n, In (p, n) live
  | Realloc p size =>
      (p = NULL /\ 0 < size <= 2 ^ 64 - 24)
      \/ (size = 0 /\ (p = NULL \/ exists n, In (p, n) live))
  end.

(** Every block the client holds is an allocated block of the heap, past
    the prologue, with room for the bytes asked for between its link word
    and its footer. *)
Definition holds (bs : list blk) (live : list (Z * Z)) : Prop :=
  forall p n, In (p, n) live ->
    0 < n /\ exists s, In (Blk p s true) (tl bs) /\ n + 2 * DSIZE <= s.

(** ** A decision procedure for [good]

    The lists are given as a table, one row per size class. *)

Definition fl_of (fls : list (list Z)) : Z -> list Z :=
  fun l => nth (Z.to_nat l) fls [].

Fixpoint dllsegb (m : memory) (prev : Z) (fs : list Z) (cur nxt : Z) : bool :=
  match fs with
  | [] => cur =? nxt
  | x :: rest =>
      (cur =? x) && negb (x =? NULL) && (GET_PREV_FREE m x =? prev)
      && dllsegb m x rest (GET_NEXT_FREE m x) nxt
  end.

Fixpoint nodupb (l : list Z) : bool :=
  match l with
  | [] => true
  | x :: rest => negb (existsb (Z.eqb x) rest) && nodupb rest
  end.

Definition listedb (bs : list blk) (l x : Z) : bool :=
  existsb (fun b => (b_ptr b =? x) && negb (b_alloc b)
                    && (get_list (b_size b) =? l)) bs.

Definition wfb (st : state) (bs : list blk) (fls : list (list Z)) : bool :=
  (0 <? heap_listp st) && (heap_listp st mod 8 =? 0)
  && prologueb st bs
  && chainb (mem st) (heap_listp st) bs (eptr st + 2 * WSIZE)
  && (GET (mem st) (eptr st) =? 1)
  && (mem_brk st =? eptr st + WSIZE) && (mem_brk st <=? mem_max_addr st)
  && (mem_start_brk st <=? heap_listp st)
  && (mem_max_addr st - heap_listp st <=? 2 ^ 31)
  && (length (free_lists st) =? Z.to_nat NUM_LISTS)%nat
  && forallb (fun l =>
                dllsegb (mem st) NULL (fl_of fls l) (list_head st l) NULL
                && nodupb (fl_of fls l)
                && forallb (listedb bs l) (fl_of fls l))
             (map Z.of_nat (seq 0 (Z.to_nat NUM_LISTS))).

Definition completeb (bs : list blk) (fls : list (list Z)) : bool :=
  forallb (fun b => b_alloc b
                    || existsb (Z.eqb (b_ptr b))
                               (fl_of fls (get_list (b_size b)))) bs.

Definition goodb (st : state) (bs : list blk) (fls : list (list Z)) : bool :=
  wfb st bs fls && completeb bs fls && no_adjacent_free bs.

(** The lists of [heap_ABC]: A in the list of 24-byte blocks, the rest of
    the chunk in the list of 176-byte blocks. *)
Definition lists_ABC : list (list Z) :=
  [[]; []; []; []; []; [65560]; []; []; [65640]].

(** [x] is in no list of the table. *)
Definition unlistedb (fls : list (list Z)) (x : Z) : bool :=
  forallb (fun l => negb (existsb (Z.eqb x) (fl_of fls l)))
          (map Z.of_nat (seq 0 (Z.to_nat NUM_LISTS))).

(** [heap_ABC] with A taken out of its list and still marked free. *)
Definition heap_A_unlisted : state := delete_block heap_ABC 65560.
Definition lists_no_A : list (list Z) :=
  [[]; []; []; []; []; []; []; []; [65640]].

(** [heap_ABC] with B marked free and not yet in a list: the heap [free]
    hands to [coalesce]. *)
Definition heap_B_marked : state :=
  with_mem heap_ABC (set_free (mem heap_ABC) 65584).
Definition blocks_B_marked : list blk :=
  [Blk 65544 16 true; Blk 65560 24 false; Blk 65584 32 false;
   Blk 65616 24 true; Blk 65640 176 false].

(** A client that holds one block of 8 bytes, and one that holds a second
    block of 16 bytes. *)
Definition heap_one : state := state_after heap0 (malloc 100 heap0 8).
Definition heap_two : state := state_after heap0 (malloc 100 heap_one 16).

(** The checker's counters of list ends, after the blocks [done]: a
    counter is 0, or it is 1 and one of the free blocks seen so far ends
    the list ([link] is the link that is null at that end). *)
Definition counts_ok (cnt : list Z) (done : list blk) (link : Z -> Z) : Prop :=
  length cnt = Z.to_nat NUM_LISTS /\
  forall l, 0 <= l < NUM_LISTS ->
    count_at cnt l = 0
    \/ (count_at cnt l = 1
        /\ exists x s, In (Blk x s false) done /\ get_list s = l
                       /\ link x = NULL).

(** * Proofs *)

(** ** Words in memory *)

Ltac zlia := Z.div_mod_to_equations; lia.

Lemma load8_range m a : 0 <= load8 m a < 256.
Proof. unfold load8. apply Z.mod_pos_bound. lia. Qed.

Lemma GET_range m p : 0 <= GET m p < 2 ^ 32.
Proof.
  unfold GET.
  pose proof (load8_range m p). pose proof (load8_range m (p + 1)).
  pose proof (load8_range m (p + 2)). pose proof (load8_range m (p + 3)).
  lia.
Qed.

Lemma uint_range x : 0 <= uint x < 2 ^ 32.
Proof. unfold uint. apply Z.mod_pos_bound. lia. Qed.

Lemma uint_small x : 0 <= x < 2 ^ 32 -> uint x = x.
Proof. unfold uint. intros. apply Z.mod_small. lia. Qed.

Lemma size_t_small x : 0 <= x < 2 ^ 64 -> size_t x = x.
Proof. unfold size_t. intros. apply Z.mod_small. lia. Qed.

Lemma bytes_of_word u :
  0 <= u < 2 ^ 32 ->
  u mod 256 + 256 * ((u / 256) mod 256) + 65536 * ((u / 65536) mod 256)
  + 16777216 * ((u / 16777216) mod 256) = u.
Proof. intros. zlia. Qed.

Lemma GET_PUT_same m p v : GET (PUT m p v) p = uint v.
Proof.
  unfold GET, PUT, load8, store8.
  replace (p =? p + 3) with false by lia.
  replace (p =? p + 2) with false by lia.
  replace (p =? p + 1) with false by lia.
  replace (p + 1 =? p + 3) with false by lia.
  replace (p + 1 =? p + 2) with false by lia.
  replace (p + 2 =? p + 3) with false by lia.
  rewrite !Z.eqb_refl.
  rewrite !Z.mod_mod by lia.
  apply bytes_of_word, uint_range.
Qed.

Lemma PUT_byte_other m p v a : a < p \/ p + 4 <= a -> PUT m p v a = m a.
Proof.
  intros. unfold PUT, store8.
  replace (a =? p + 3) with false by lia.
  replace (a =? p + 2) with false by lia.
  replace (a =? p + 1) with false by lia.
  replace (a =? p) with false by lia. reflexivity.
Qed.

Lemma GET_PUT_other m p v q :
  p + 4 <= q \/ q + 4 <= p -> GET (PUT m p v) q = GET m q.
Proof.
  intros. unfold GET, load8. rewrite !PUT_byte_other by lia. reflexivity.
Qed.

(** Bit operations on tags, as arithmetic. *)

Lemma land_lnot7 t : Z.land t (Z.lnot 7) = t - t mod 8.
Proof.
  change 7 with (Z.ones 3). rewrite <- Z.ldiff_land, Z.ldiff_ones_r by lia.
  rewrite Z.shiftl_mul_pow2, Z.shiftr_div_pow2 by lia.
  change (2 ^ 3) with 8. zlia.
Qed.

Lemma land_1 t : Z.land t 1 = t mod 2.
Proof. change 1 with (Z.ones 1) at 1. rewrite Z.land_ones by lia. reflexivity. Qed.

Lemma land_lnot1 t : Z.land t (Z.lnot 1) = t - t mod 2.
Proof.
  change 1 with (Z.ones 1). rewrite <- Z.ldiff_land, Z.ldiff_ones_r by lia.
  rewrite Z.shiftl_mul_pow2, Z.shiftr_div_pow2 by lia.
  change (2 ^ 1) with 2. zlia.
Qed.

Lemma lor_1 t : Z.lor t 1 = t - t mod 2 + 1.
Proof.
  rewrite <- land_lnot1.
  assert (E : Z.lor t 1 = Z.lor (Z.land t (Z.lnot 1)) 1).
  { apply Z.bits_inj'. intros n Hn.
    rewrite !Z.lor_spec, Z.land_spec, Z.lnot_spec by lia.
    destruct (Z.eq_dec n 0) as [->|].
    - cbn. rewrite !orb_true_r. reflexivity.
    - replace (Z.testbit 1 n) with false.
      + rewrite andb_true_r. reflexivity.
      + symmetry. apply (Z.bits_above_log2 1 n); cbn; lia. }
  assert (Z0 : Z.land (Z.land t (Z.lnot 1)) 1 = 0).
  { rewrite land_1, land_lnot1. zlia. }
  rewrite E, <- Z.lxor_lor, <- Z.add_nocarry_lxor by exact Z0.
  reflexivity.
Qed.

Lemma lor_0 t : Z.lor t 0 = t.
Proof. apply Z.lor_0_r. Qed.

Lemma GET_SIZE_eq m p : GET_SIZE m p = GET m p - GET m p mod 8.
Proof. apply land_lnot7. Qed.

Lemma GET_ALLOC_eq m p : GET_ALLOC m p = GET m p mod 2.
Proof. apply land_1. Qed.

Lemma GET_SIZE_range m p : 0 <= GET_SIZE m p < 2 ^ 32.
Proof. rewrite GET_SIZE_eq. pose proof (GET_range m p). zlia. Qed.

Lemma GET_SIZE_mod8 m p : GET_SIZE m p mod 8 = 0.
Proof. rewrite GET_SIZE_eq. zlia. Qed.

(** ** Stores to link words leave tags alone *)

Ltac consts :=
  unfold PREV_PTR, NEXT_PTR, FTRP, NEXT_BLKP, PREV_BLKP in *;
  unfold HDRP in *;
  unfold WSIZE, DSIZE, MIN_SIZE, NULL, LIST_END, NUM_LISTS in *;
  change (2 * 4) with 8 in *; change (4 * 4) with 16 in *;
  change (2 * 8) with 16 in *.


Lemma sint_mod8 x : sint x mod 8 = x mod 8.
Proof.
  unfold sint, uint. destruct (x mod 2 ^ 32 <? 2 ^ 31); zlia.
Qed.

Lemma sint_small x : - 2 ^ 31 <= x < 2 ^ 31 -> sint (uint x) = x.
Proof.
  intros. unfold sint, uint. rewrite Z.mod_mod by lia.
  destruct (x mod 2 ^ 32 <? 2 ^ 31) eqn:E; zlia.
Qed.

Lemma quiet_refl m : quiet m m.
Proof. split; red; auto. Qed.

Lemma quiet_trans m1 m2 m3 : quiet m1 m2 -> quiet m2 m3 -> quiet m1 m3.
Proof.
  intros [T1 L1] [T2 L2]. split; red; intros.
  - rewrite T2, T1; auto.
  - auto.
Qed.

Lemma quiet_PUT m c v : c mod 8 = 4 -> v mod 8 = 0 -> quiet m (PUT m c v).
Proof.
  intros Hc Hv. split; red; intros.
  - apply GET_PUT_other. zlia.
  - destruct (Z.eq_dec c0 c) as [->|Hne].
    + rewrite GET_PUT_same, sint_mod8. unfold uint. zlia.
    + rewrite GET_PUT_other by zlia. assumption.
Qed.

Lemma PREV_PTR_mod8 m x : x mod 8 = 0 -> PREV_PTR m x mod 8 = 4.
Proof.
  intros. pose proof (GET_SIZE_mod8 m (HDRP x)). consts. zlia.
Qed.

Lemma NEXT_PTR_mod8 x : x mod 8 = 0 -> NEXT_PTR x mod 8 = 4.
Proof. intros. consts. zlia. Qed.

Lemma GET_NEXT_FREE_mod8 m x :
  x mod 8 = 0 -> sint (GET m (NEXT_PTR x)) mod 8 = 0 ->
  GET_NEXT_FREE m x mod 8 = 0.
Proof.
  intros. unfold GET_NEXT_FREE. cbv zeta.
  destruct (sint (GET m (NEXT_PTR x)) =? 0); zlia.
Qed.

Lemma GET_PREV_FREE_mod8 m x :
  x mod 8 = 0 -> sint (GET m (PREV_PTR m x)) mod 8 = 0 ->
  GET_PREV_FREE m x mod 8 = 0.
Proof.
  intros. unfold GET_PREV_FREE. cbv zeta.
  destruct (sint (GET m (PREV_PTR m x)) =? 0); zlia.
Qed.

Lemma heads_aligned_set st i p :
  heads_aligned st -> p mod 8 = 0 -> heads_aligned (set_list_head st i p).
Proof. intros. unfold heads_aligned, set_list_head. cbn. apply Forall_insert; auto. Qed.

Lemma list_head_aligned st i : heads_aligned st -> list_head st i mod 8 = 0.
Proof.
  intros H. unfold list_head.
  destruct (free_lists st !! Z.to_nat i) eqn:E; cbn.
  - eapply (Forall_lookup_1 _ _ _ _ H E).
  - reflexivity.
Qed.

Lemma delete_block_quiet st x :
  x mod 8 = 0 ->
  sint (GET (mem st) (NEXT_PTR x)) mod 8 = 0 ->
  sint (GET (mem st) (PREV_PTR (mem st) x)) mod 8 = 0 ->
  quiet (mem st) (mem (delete_block st x)).
Proof.
  intros Hx Hn Hp.
  pose proof (GET_NEXT_FREE_mod8 _ _ Hx Hn) as An.
  pose proof (GET_PREV_FREE_mod8 _ _ Hx Hp) as Ap.
  unfold delete_block. cbv zeta.
  set (prev := GET_PREV_FREE (mem st) x) in *.
  set (next := GET_NEXT_FREE (mem st) x) in *.
  destruct ((prev =? LIST_END) && (next =? LIST_END)); [apply quiet_refl|].
  destruct (prev =? LIST_END).
  { cbn. unfold SET_PREV_FREE. apply quiet_PUT.
    - apply PREV_PTR_mod8; auto.
    - zlia. }
  destruct (next =? LIST_END).
  { cbn. unfold SET_NEXT_FREE. apply quiet_PUT.
    - apply NEXT_PTR_mod8; auto.
    - zlia. }
  cbn. unfold SET_PREV_FREE, SET_NEXT_FREE.
  eapply quiet_trans; apply quiet_PUT.
  - apply NEXT_PTR_mod8; auto.
  - zlia.
  - apply PREV_PTR_mod8; auto.
  - zlia.
Qed.

Lemma delete_block_heads st x :
  x mod 8 = 0 ->
  sint (GET (mem st) (NEXT_PTR x)) mod 8 = 0 ->
  heads_aligned st -> heads_aligned (delete_block st x).
Proof.
  intros Hx Hn Hh.
  pose proof (GET_NEXT_FREE_mod8 _ _ Hx Hn) as An.
  unfold delete_block. cbv zeta.
  set (prev := GET_PREV_FREE (mem st) x) in *.
  set (next := GET_NEXT_FREE (mem st) x) in *.
  destruct ((prev =? LIST_END) && (next =? LIST_END)).
  { apply heads_aligned_set; auto. }
  destruct (prev =? LIST_END).
  { apply heads_aligned_set; auto. }
  destruct (next =? LIST_END); exact Hh.
Qed.

Lemma delete_block_globals st x :
  heap_listp (delete_block st x) = heap_listp st /\
  eptr (delete_block st x) = eptr st /\
  mem_brk (delete_block st x) = mem_brk st /\
  mem_start_brk (delete_block st x) = mem_start_brk st /\
  length (free_lists (delete_block st x)) = length (free_lists st).
Proof.
  unfold delete_block. cbv zeta.
  destruct (_ && _); [cbn; rewrite length_insert; auto|].
  destruct (_ =? _); [cbn; rewrite length_insert; auto|].
  destruct (_ =? _); cbn; auto.
Qed.

Lemma add_block_quiet st bp :
  bp mod 8 = 0 -> heads_aligned st ->
  quiet (mem st) (mem (add_block st bp)).
Proof.
  intros Hb Hh. unfold add_block. cbv zeta.
  pose proof (list_head_aligned st (get_list (GET_SIZE (mem st) (HDRP bp))) Hh) as Ah.
  set (head := list_head st _) in *.
  destruct (negb (head =? NULL)); cbn; unfold SET_PREV_FREE, SET_NEXT_FREE.
  - eapply quiet_trans; [eapply quiet_trans|]; apply quiet_PUT;
      auto using PREV_PTR_mod8, NEXT_PTR_mod8; zlia.
  - eapply quiet_trans; apply quiet_PUT;
      auto using PREV_PTR_mod8, NEXT_PTR_mod8; zlia.
Qed.

Lemma add_block_heads st bp :
  bp mod 8 = 0 -> heads_aligned st -> heads_aligned (add_block st bp).
Proof.
  intros. unfold add_block. cbv zeta. apply heads_aligned_set; auto.
Qed.

Lemma add_block_globals st bp :
  heap_listp (add_block st bp) = heap_listp st /\
  eptr (add_block st bp) = eptr st /\
  mem_brk (add_block st bp) = mem_brk st /\
  mem_start_brk (add_block st bp) = mem_start_brk st /\
  length (free_lists (add_block st bp)) = length (free_lists st).
Proof.
  unfold add_block. cbv zeta. cbn. rewrite length_insert. auto.
Qed.

(** ** Chains of blocks *)

Lemma block_ok_bounds m b :
  block_ok m b -> 16 <= b_size b < 2 ^ 32 /\ b_size b mod 8 = 0.
Proof.
  intros (H1 & _ & H3 & H4). pose proof (GET_range m (HDRP (b_ptr b))) as R.
  rewrite H1 in R. unfold tag in R. consts. destruct (b_alloc b); lia.
Qed.

Lemma tag_size b : b_size b mod 8 = 0 -> tag b - tag b mod 8 = b_size b.
Proof. unfold tag. destruct (b_alloc b); zlia. Qed.

Lemma tag_alloc b :
  b_size b mod 8 = 0 -> tag b mod 2 = if b_alloc b then 1 else 0.
Proof. unfold tag. destruct (b_alloc b); zlia. Qed.

Lemma block_ok_size m b : block_ok m b -> GET_SIZE m (HDRP (b_ptr b)) = b_size b.
Proof.
  intros H. pose proof (block_ok_bounds _ _ H) as [_ M].
  destruct H as (H1 & _). rewrite GET_SIZE_eq, H1. apply tag_size, M.
Qed.

Lemma block_ok_alloc m b :
  block_ok m b -> GET_ALLOC m (HDRP (b_ptr b)) = if b_alloc b then 1 else 0.
Proof.
  intros H. pose proof (block_ok_bounds _ _ H) as [_ M].
  destruct H as (H1 & _). rewrite GET_ALLOC_eq, H1. apply tag_alloc, M.
Qed.

Lemma block_ok_ftr_size m b :
  block_ok m b -> GET_SIZE m (b_ptr b + b_size b - 16) = b_size b.
Proof.
  intros H. pose proof (block_ok_bounds _ _ H) as [_ M].
  destruct H as (_ & H2 & _). consts. rewrite GET_SIZE_eq, H2. apply tag_size, M.
Qed.

Lemma chain_le m bs : forall bp stop, chain m bp bs stop -> bp <= stop.
Proof.
  induction bs as [|b bs IH]; cbn; intros bp stop H.
  - lia.
  - destruct H as (_ & Hb & Hc). apply block_ok_bounds in Hb.
    apply IH in Hc. lia.
Qed.

Lemma chain_app m l1 l2 : forall bp stop,
  chain m bp (l1 ++ l2) stop <->
  exists mid, chain m bp l1 mid /\ chain m mid l2 stop.
Proof.
  induction l1 as [|b l1 IH]; cbn; intros bp stop.
  - split.
    + intros H. exists bp. auto.
    + intros (mid & -> & H). exact H.
  - split.
    + intros (E & Hb & Hc). apply IH in Hc as (mid & H1 & H2).
      exists mid. auto.
    + intros (mid & (E & Hb & H1) & H2).
      split; [exact E|]. split; [exact Hb|].
      apply IH. eauto.
Qed.

Lemma chain_mod8 m bs : forall bp stop,
  chain m bp bs stop -> bp mod 8 = 0 -> stop mod 8 = 0.
Proof.
  induction bs as [|b bs IH]; cbn; intros bp stop H A.
  - subst. exact A.
  - destruct H as (_ & Hb & Hc). apply block_ok_bounds in Hb.
    apply (IH _ _ Hc). zlia.
Qed.

Lemma chain_frame m m' bs : forall bp stop,
  chain m bp bs stop -> bp mod 8 = 0 ->
  (forall q, q mod 8 = 0 -> bp - 8 <= q < stop - 8 -> GET m' q = GET m q) ->
  chain m' bp bs stop.
Proof.
  induction bs as [|b bs IH]; cbn; intros bp stop H A F; auto.
  destruct H as (E & Hb & Hc).
  pose proof (block_ok_bounds _ _ Hb) as [B1 B2].
  pose proof (chain_le _ _ _ _ Hc) as L.
  split; [exact E|]. split.
  - destruct Hb as (H1 & H2 & H3 & H4). repeat split; auto.
    + rewrite <- H1. apply F; consts; zlia.
    + rewrite <- H2. apply F; consts; zlia.
  - apply IH; auto.
    + zlia.
    + intros q Q1 Q2. apply F; auto. lia.
Qed.

Lemma chain_In m bs : forall bp stop b,
  chain m bp bs stop -> In b bs ->
  block_ok m b /\ bp <= b_ptr b /\ b_ptr b + b_size b <= stop
  /\ (bp mod 8 = 0 -> b_ptr b mod 8 = 0).
Proof.
  induction bs as [|b0 bs IH]; cbn; intros bp stop b H I; [tauto|].
  destruct H as (E & Hb & Hc).
  pose proof (block_ok_bounds _ _ Hb) as [B1 B2].
  pose proof (chain_le _ _ _ _ Hc) as L.
  destruct I as [->|I].
  - split; [exact Hb|]. split; [lia|]. split; [lia|]. intros. zlia.
  - destruct (IH _ _ _ Hc I) as (K1 & K2 & K3 & K4).
    split; [exact K1|]. split; [lia|]. split; [lia|].
    intros. apply K4. zlia.
Qed.

Lemma set_size_eq m bp s :
  16 <= s < 2 ^ 32 -> s mod 8 = 0 ->
  set_size m bp s = PUT (PUT m (bp - 8) s) (bp + s - 16) s.
Proof.
  intros R M. unfold set_size, PACK. cbv zeta. rewrite Z.lor_0_r.
  unfold FTRP. consts.
  rewrite GET_SIZE_eq, GET_PUT_same, uint_small by lia.
  replace (s - s mod 8) with s by zlia.
  f_equal; lia.
Qed.

Lemma set_free_eq m b :
  block_ok m b ->
  set_free m (b_ptr b)
  = PUT (PUT m (b_ptr b - 8) (b_size b)) (b_ptr b + b_size b - 16) (b_size b).
Proof.
  intros H. pose proof (block_ok_bounds _ _ H) as [R M].
  destruct H as (H1 & H2 & _). consts.
  unfold set_free. cbv zeta. unfold FTRP. consts.
  rewrite H1, land_lnot1.
  assert (T : tag b - tag b mod 2 = b_size b).
  { unfold tag. destruct (b_alloc b); zlia. }
  rewrite T.
  rewrite GET_SIZE_eq, GET_PUT_same, uint_small by lia.
  replace (b_size b - b_size b mod 8) with (b_size b) by zlia.
  rewrite GET_PUT_other by lia.
  rewrite H2, land_lnot1, T. reflexivity.
Qed.

Lemma set_alloc_eq m b :
  block_ok m b ->
  set_alloc m (b_ptr b)
  = PUT (PUT m (b_ptr b - 8) (b_size b + 1))
        (b_ptr b + b_size b - 16) (b_size b + 1).
Proof.
  intros H. pose proof (block_ok_bounds _ _ H) as [R M].
  pose proof (GET_range m (HDRP (b_ptr b))) as G.
  destruct H as (H1 & H2 & _). consts.
  unfold set_alloc. cbv zeta. unfold FTRP. consts.
  rewrite H1 in *. rewrite lor_1.
  assert (T : tag b - tag b mod 2 + 1 = b_size b + 1).
  { unfold tag. destruct (b_alloc b); zlia. }
  assert (b_size b + 1 < 2 ^ 32).
  { unfold tag in G. destruct (b_alloc b); zlia. }
  rewrite T.
  rewrite GET_SIZE_eq, GET_PUT_same, uint_small by lia.
  replace (b_size b + 1 - (b_size b + 1) mod 8) with (b_size b) by zlia.
  rewrite GET_PUT_other by lia.
  rewrite H2, lor_1, T. reflexivity.
Qed.

(** ** Coalescing: case analysis and re-tiling *)

Lemma blocks_around (bs : list blk) (B : blk) :
  In B (tl bs) -> exists pre P post, bs = pre ++ P :: B :: post.
Proof.
  destruct bs as [|p0 rest]; cbn; [tauto|]. intros I.
  apply in_split in I as (r1 & r2 & ->).
  destruct (exists_last (l := p0 :: r1)) as (pre & P & E); [discriminate|].
  exists pre, P, r2. rewrite app_comm_cons, E, <- app_assoc. reflexivity.
Qed.

Lemma naf_cons b l :
  no_adjacent_free (b :: l)
  = (b_alloc b || first_alloc l) && no_adjacent_free l.
Proof.
  destruct l as [|b2 l]; cbn; [rewrite orb_true_r|]; reflexivity.
Qed.

Lemma naf_app l1 : forall l2,
  no_adjacent_free (l1 ++ l2)
  = no_adjacent_free l1 && no_adjacent_free l2
    && (last_alloc l1 || first_alloc l2).
Proof.
  induction l1 as [|b l1 IH]; intros l2.
  - cbn. destruct (no_adjacent_free l2); reflexivity.
  - rewrite <- app_comm_cons, !naf_cons, IH.
    destruct l1 as [|b1 l1].
    + cbn. unfold last_alloc. cbn.
      destruct (b_alloc b), (first_alloc l2), (no_adjacent_free l2); reflexivity.
    + replace (last_alloc (b :: b1 :: l1)) with (last_alloc (b1 :: l1))
        by (unfold last_alloc; rewrite last_cons_cons; reflexivity).
      cbn [first_alloc app].
      destruct (b_alloc b), (b_alloc b1), (no_adjacent_free (b1 :: l1)),
        (no_adjacent_free l2), (last_alloc (b1 :: l1)), (first_alloc l2);
        reflexivity.
Qed.

Lemma GET_SIZE_congr m m' q q' :
  GET m' q' = GET m q -> GET_SIZE m' q' = GET_SIZE m q.
Proof. unfold GET_SIZE. intros ->. reflexivity. Qed.

Lemma GET_ALLOC_congr m m' q q' :
  GET m' q' = GET m q -> GET_ALLOC m' q' = GET_ALLOC m q.
Proof. unfold GET_ALLOC. intros ->. reflexivity. Qed.

Lemma links_kept_PUT_tag m a v : a mod 8 = 0 -> links_kept m (PUT m a v).
Proof. intros A c Hc H. rewrite GET_PUT_other by zlia. exact H. Qed.

Lemma links_kept_trans m1 m2 m3 :
  links_kept m1 m2 -> links_kept m2 m3 -> links_kept m1 m3.
Proof. unfold links_kept. auto. Qed.

Lemma links_transfer m m' x :
  x mod 8 = 0 -> GET m' (HDRP x) = GET m (HDRP x) -> links_kept m m' ->
  links_aligned m x -> links_aligned m' x.
Proof.
  intros A E K [L1 L2]. split.
  - apply K; auto using NEXT_PTR_mod8.
  - assert (EP : PREV_PTR m' x = PREV_PTR m x).
    { unfold PREV_PTR, FTRP. rewrite (GET_SIZE_congr _ _ _ _ E). reflexivity. }
    rewrite EP. apply K; auto using PREV_PTR_mod8.
Qed.

Lemma link_value_next m x :
  x mod 8 = 0 -> GET_NEXT_FREE m x mod 8 = 0 ->
  sint (GET m (NEXT_PTR x)) mod 8 = 0.
Proof.
  unfold GET_NEXT_FREE. cbv zeta. intros A.
  destruct (sint (GET m (NEXT_PTR x)) =? 0) eqn:E; intros H.
  - apply Z.eqb_eq in E. rewrite E. reflexivity.
  - zlia.
Qed.

Lemma link_value_prev m x :
  x mod 8 = 0 -> GET_PREV_FREE m x mod 8 = 0 ->
  sint (GET m (PREV_PTR m x)) mod 8 = 0.
Proof.
  unfold GET_PREV_FREE. cbv zeta. intros A.
  destruct (sint (GET m (PREV_PTR m x)) =? 0) eqn:E; intros H.
  - apply Z.eqb_eq in E. rewrite E. reflexivity.
  - zlia.
Qed.

Lemma coalesce_case1 st bp :
  GET_ALLOC (mem st) (HDRP (PREV_BLKP (mem st) bp)) = 1 ->
  GET_ALLOC (mem st) (HDRP (NEXT_BLKP (mem st) bp)) = 1 ->
  coalesce st bp = (add_block st bp, bp).
Proof. intros E1 E2. unfold coalesce. cbv zeta. rewrite E1, E2. reflexivity. Qed.

Lemma coalesce_case2 st bp :
  GET_ALLOC (mem st) (HDRP (PREV_BLKP (mem st) bp)) = 1 ->
  GET_ALLOC (mem st) (HDRP (NEXT_BLKP (mem st) bp)) = 0 ->
  coalesce st bp =
    let next := NEXT_BLKP (mem st) bp in
    let st1 := delete_block st next in
    let size := size_t (GET_SIZE (mem st) (HDRP bp)
                        + GET_SIZE (mem st1) (HDRP next)) in
    (add_block (with_mem st1 (set_size (mem st1) bp size)) bp, bp).
Proof. intros E1 E2. unfold coalesce. cbv zeta. rewrite E1, E2. reflexivity. Qed.

Lemma coalesce_case3 st bp :
  GET_ALLOC (mem st) (HDRP (PREV_BLKP (mem st) bp)) = 0 ->
  GET_ALLOC (mem st) (HDRP (NEXT_BLKP (mem st) bp)) = 1 ->
  coalesce st bp =
    let prev := PREV_BLKP (mem st) bp in
    let st1 := delete_block st prev in
    let size := size_t (GET_SIZE (mem st) (HDRP bp)
                        + GET_SIZE (mem st1) (HDRP prev)) in
    (add_block (with_mem st1 (set_size (mem st1) prev size)) prev, prev).
Proof. intros E1 E2. unfold coalesce. cbv zeta. rewrite E1, E2. reflexivity. Qed.

Lemma coalesce_case4 st bp :
  GET_ALLOC (mem st) (HDRP (PREV_BLKP (mem st) bp)) = 0 ->
  GET_ALLOC (mem st) (HDRP (NEXT_BLKP (mem st) bp)) = 0 ->
  coalesce st bp =
    let prev := PREV_BLKP (mem st) bp in
    let next := NEXT_BLKP (mem st) bp in
    let st1 := delete_block st next in
    let st2 := delete_block st1 prev in
    let size := size_t (GET_SIZE (mem st) (HDRP bp)
                        + uint (GET_SIZE (mem st2) (HDRP prev)
                                + GET_SIZE (mem st2) (HDRP next))) in
    (add_block (with_mem st2 (set_size (mem st2) prev size)) prev, prev).
Proof. intros E1 E2. unfold coalesce. cbv zeta. rewrite E1, E2. reflexivity. Qed.

Lemma chain_nonempty_lt m b bs bp stop :
  chain m bp (b :: bs) stop -> bp + 16 <= stop.
Proof.
  cbn. intros (_ & Hb & Hc). apply block_ok_bounds in Hb.
  apply chain_le in Hc. lia.
Qed.

Lemma retile m m' hl pre mid post lo hi stop :
  chain m hl pre lo -> chain m lo mid hi -> chain m hi post stop ->
  mid <> [] -> hl mod 8 = 0 ->
  (forall q, q mod 8 = 0 -> q < lo - 8 \/ hi - 8 <= q -> GET m' q = GET m q) ->
  GET m' (lo - 8) = hi - lo -> GET m' (hi - 16) = hi - lo ->
  hi - lo < 2 ^ 32 ->
  chain m' hl (pre ++ Blk lo (hi - lo) false :: post) stop.
Proof.
  intros Hpre Hmid Hpost Hne A F T1 T2 R.
  pose proof (chain_mod8 _ _ _ _ Hpre A) as Alo.
  pose proof (chain_mod8 _ _ _ _ Hmid Alo) as Ahi.
  assert (lo + 16 <= hi).
  { destruct mid; [congruence|]. eapply chain_nonempty_lt; eauto. }
  apply chain_app. exists lo. split.
  - eapply chain_frame; eauto. intros. apply F; auto. lia.
  - cbn. split; [reflexivity|]. split.
    + unfold block_ok, tag. cbn. consts.
      replace (lo + (hi - lo) - 16) with (hi - 16) by lia.
      rewrite T1, T2. repeat split; try lia. zlia.
    + replace (lo + (hi - lo)) with hi by lia.
      eapply chain_frame; eauto. intros. apply F; auto. lia.
Qed.

(** ** Steps of free *)

Lemma get_list_loop_range r : forall l s,
  0 <= l <= 19 -> l <= get_list_loop r l s <= 19.
Proof.
  induction r as [|r IH]; cbn; intros l s H; [lia|].
  destruct ((l <? NUM_LISTS - 1) && (s >? 0)) eqn:E; [|lia].
  apply andb_true_iff in E as [E _]. unfold NUM_LISTS in E.
  specialize (IH (l + 1) (Z.shiftr s 1)). lia.
Qed.

Lemma get_list_range s : 0 <= get_list s <= 19.
Proof. unfold get_list. pose proof (get_list_loop_range (Z.to_nat (NUM_LISTS - 1)) 0 s). lia. Qed.

Lemma list_head_set_same st i p :
  0 <= i -> (Z.to_nat i < length (free_lists st))%nat ->
  list_head (set_list_head st i p) i = p.
Proof.
  intros. unfold list_head, set_list_head. cbn.
  rewrite list_lookup_insert_eq by assumption. reflexivity.
Qed.

Lemma add_block_head st bp :
  length (free_lists st) = Z.to_nat NUM_LISTS ->
  list_head (add_block st bp) (get_list (GET_SIZE (mem st) (HDRP bp))) = bp.
Proof.
  intros L. unfold add_block. cbv zeta.
  pose proof (get_list_range (GET_SIZE (mem st) (HDRP bp))).
  apply list_head_set_same; cbn; try lia.
  rewrite L. unfold NUM_LISTS. lia.
Qed.

Lemma del_step st x :
  x mod 8 = 0 -> links_aligned (mem st) x -> heads_aligned st ->
  quiet (mem st) (mem (delete_block st x))
  /\ heads_aligned (delete_block st x)
  /\ heap_listp (delete_block st x) = heap_listp st
  /\ eptr (delete_block st x) = eptr st
  /\ length (free_lists (delete_block st x)) = length (free_lists st).
Proof.
  intros A [L1 L2] H.
  pose proof (delete_block_globals st x) as (G1 & G2 & _ & _ & G5).
  auto using delete_block_quiet, delete_block_heads.
Qed.

Lemma finish st X total :
  X mod 8 = 0 -> 16 <= total < 2 ^ 32 -> total mod 8 = 0 ->
  heads_aligned st -> length (free_lists st) = Z.to_nat NUM_LISTS ->
  let stf := add_block (with_mem st (set_size (mem st) X total)) X in
  heap_listp stf = heap_listp st /\ eptr stf = eptr st
  /\ (forall q, q mod 8 = 0 -> q <> X - 8 -> q <> X + total - 16 ->
        GET (mem stf) q = GET (mem st) q)
  /\ GET (mem stf) (X - 8) = total
  /\ GET (mem stf) (X + total - 16) = total
  /\ list_head stf (get_list total) = X.
Proof.
  intros A R M H L stf.
  set (std := with_mem st (set_size (mem st) X total)) in *.
  assert (Hd : heads_aligned std) by exact H.
  pose proof (add_block_quiet std X A Hd) as [T _].
  pose proof (add_block_globals std X) as (G1 & G2 & _).
  fold stf in T, G1, G2.
  assert (Em : mem std = PUT (PUT (mem st) (X - 8) total) (X + total - 16) total).
  { unfold std. cbn. apply set_size_eq; auto. }
  assert (Hs : GET_SIZE (mem std) (HDRP X) = total).
  { rewrite Em. consts. rewrite GET_SIZE_eq, GET_PUT_other, GET_PUT_same, uint_small by lia.
    zlia. }
  split; [exact G1|]. split; [exact G2|]. split; [|split; [|split]].
  - intros q Q N1 N2. rewrite T, Em by assumption.
    rewrite !GET_PUT_other by zlia. reflexivity.
  - rewrite T, Em by zlia.
    rewrite GET_PUT_other, GET_PUT_same, uint_small by lia. reflexivity.
  - rewrite T, Em by zlia. rewrite GET_PUT_same, uint_small by lia. reflexivity.
  - rewrite <- Hs at 1. apply add_block_head. exact L.
Qed.

Lemma finish0 st X total :
  X mod 8 = 0 -> GET_SIZE (mem st) (HDRP X) = total ->
  heads_aligned st -> length (free_lists st) = Z.to_nat NUM_LISTS ->
  let stf := add_block st X in
  heap_listp stf = heap_listp st /\ eptr stf = eptr st
  /\ (forall q, q mod 8 = 0 -> GET (mem stf) q = GET (mem st) q)
  /\ list_head stf (get_list total) = X.
Proof.
  intros A Hs H L stf.
  pose proof (add_block_quiet st X A H) as [T _].
  pose proof (add_block_globals st X) as (G1 & G2 & _).
  repeat split; auto.
  rewrite <- Hs. apply add_block_head. exact L.
Qed.

Lemma next_alloc_of_chain m x post stop :
  chain m x post stop -> GET m (stop - 8) = 1 ->
  GET_ALLOC m (x - 8) = if first_alloc post then 1 else 0.
Proof.
  destruct post as [|N post]; cbn.
  - intros -> E. rewrite GET_ALLOC_eq, E. reflexivity.
  - intros (E & Hb & _) _. subst x. apply (block_ok_alloc _ _ Hb).
Qed.

(** ** free merges the freed block with its free neighbours *)

Lemma free_merges (st : state) (bs : list blk) (bp size : Z) :
  consistent st bs ->
  In (Blk bp size true) (tl bs) ->
  exists bs' lo total,
    heap_tiled (free st bp) bs' /\
    heap_listp (free st bp) = heap_listp st /\
    no_adjacent_free bs' = true /\
    In (Blk lo total false) bs' /\ lo <= bp /\ bp + size <= lo + total /\
    list_head (free st bp) (get_list total) = lo.
Proof.
  intros C I.
  destruct (blocks_around _ _ I) as (pre & P & post & E).
  destruct C as [[Hpos Hal] (rest & Epro & Hmin) [Hch Hep] Hext Hnaf Hlinks
                   [Hlen Hheads]].
  unfold DSIZE in Hal.
  set (m := mem st) in *.
  assert (Hin : forall b, In b bs ->
            block_ok m b /\ heap_listp st <= b_ptr b
            /\ b_ptr b + b_size b <= eptr st + 8 /\ b_ptr b mod 8 = 0).
  { intros b Ib. destruct (chain_In _ _ _ _ _ Hch Ib) as (K1 & K2 & K3 & K4).
    consts. auto. }
  assert (Hlk : forall p, link_ok bs p -> p mod 8 = 0).
  { intros p [->|(s & Is)]; [reflexivity|]. apply Hin in Is. cbn in Is. tauto. }
  assert (Hla : forall b, In b bs -> b_alloc b = false ->
                          links_aligned m (b_ptr b)).
  { intros b Ib Fb. destruct (Hin _ Ib) as (_ & _ & _ & Ab).
    destruct (Hlinks _ Ib Fb) as [L1 L2].
    split; [apply link_value_next|apply link_value_prev]; auto. }
  assert (Hha : heads_aligned st).
  { unfold heads_aligned. eapply Forall_impl; eauto. }
  assert (HP : In P bs) by (rewrite E; apply in_elt).
  assert (HB : In (Blk bp size true) bs).
  { rewrite E. apply in_or_app. right. right. left. reflexivity. }
  (* the blocks around bp *)
  assert (Hch' := Hch). rewrite E in Hch'.
  apply chain_app in Hch' as (p0 & Hpre & Hmid).
  destruct Hmid as (EP & okP & EB & okB & Hpost).
  cbn [b_ptr b_size] in EB, Hpost.
  pose proof (block_ok_bounds _ _ okP) as [RP MP].
  pose proof (block_ok_bounds _ _ okB) as [RB MB]. cbn [b_size] in RB, MB.
  pose proof (chain_le _ _ _ _ Hpre) as Lpre.
  pose proof (chain_le _ _ _ _ Hpost) as Lpost.
  pose proof (chain_mod8 _ _ _ _ Hpre Hal) as A0.
  assert (Abp : bp mod 8 = 0) by zlia.
  unfold WSIZE in Hpost, Lpost. change (2 * 4) with 8 in Hpost, Lpost.
  rewrite <- EB in Hpost, Lpost.
  (* free: mark the block free *)
  unfold free. replace (bp =? 0) with false by lia.
  replace (heap_listp st =? 0) with false by lia. cbv zeta.
  pose proof (set_free_eq _ _ okB) as SF. cbn [b_ptr b_size] in SF.
  fold m. rewrite SF.
  set (m1 := PUT (PUT m (bp - 8) size) (bp + size - 16) size) in *.
  set (st1 := with_mem st m1).
  assert (F1 : forall q, q mod 8 = 0 -> q <> bp - 8 -> q <> bp + size - 16 ->
                         GET m1 q = GET m q).
  { intros q Q N1 N2. unfold m1. rewrite !GET_PUT_other by zlia. reflexivity. }
  assert (T1 : GET m1 (bp - 8) = size).
  { unfold m1. rewrite GET_PUT_other, GET_PUT_same, uint_small by lia. reflexivity. }
  assert (T2 : GET m1 (bp + size - 16) = size).
  { unfold m1. rewrite GET_PUT_same, uint_small by lia. reflexivity. }
  assert (K1 : links_kept m m1).
  { unfold m1. eapply links_kept_trans; apply links_kept_PUT_tag; zlia. }
  assert (S1 : GET_SIZE (mem st1) (HDRP bp) = size).
  { cbn. consts. rewrite GET_SIZE_eq, T1. zlia. }
  assert (EPV : PREV_BLKP (mem st1) bp = p0).
  { cbn. unfold PREV_BLKP. consts.
    rewrite (GET_SIZE_congr m m1 (p0 + b_size P - 16) (bp - 16)).
    - rewrite <- EP. rewrite (block_ok_ftr_size _ _ okP). lia.
    - rewrite F1 by zlia. f_equal. lia. }
  assert (ENX : NEXT_BLKP (mem st1) bp = bp + size).
  { unfold NEXT_BLKP. rewrite S1. reflexivity. }
  assert (APV : GET_ALLOC (mem st1) (HDRP p0) = if b_alloc P then 1 else 0).
  { cbn. rewrite (GET_ALLOC_congr m m1 (HDRP p0) (HDRP p0)).
    - rewrite <- EP. apply block_ok_alloc, okP.
    - apply F1; consts; zlia. }
  assert (ANX : GET_ALLOC (mem st1) (HDRP (bp + size))
                = if first_alloc post then 1 else 0).
  { cbn. rewrite (GET_ALLOC_congr m m1 (bp + size - 8) (HDRP (bp + size))).
    - apply (next_alloc_of_chain m (bp + size) post (eptr st + 8) Hpost).
      replace (eptr st + 8 - 8) with (eptr st) by lia. exact Hep.
    - apply F1; consts; zlia. }
  assert (Hha1 : heads_aligned st1) by exact Hha.
  assert (Hlen1 : length (free_lists st1) = Z.to_nat NUM_LISTS) by exact Hlen.
  (* adjacency of the old list *)
  rewrite E in Hnaf. rewrite naf_app, !naf_cons in Hnaf. cbn [b_alloc first_alloc] in Hnaf.
  (* the common conclusion *)
  assert (Fin : forall stf pre' mid post' lo hi,
     chain m (heap_listp st) pre' lo -> chain m lo mid hi ->
     chain m hi post' (eptr st + 8) -> mid <> [] ->
     lo <= bp -> bp + size <= hi ->
     no_adjacent_free pre' = true -> no_adjacent_free post' = true ->
     last_alloc pre' = true -> first_alloc post' = true ->
     heap_listp stf = heap_listp st -> eptr stf = eptr st ->
     (forall q, q mod 8 = 0 -> q < lo - 8 \/ hi - 8 <= q ->
                GET (mem stf) q = GET m q) ->
     GET (mem stf) (lo - 8) = hi - lo ->
     GET (mem stf) (hi - 16) = hi - lo ->
     list_head stf (get_list (hi - lo)) = lo ->
     exists bs' lo total,
       heap_tiled stf bs' /\ heap_listp stf = heap_listp st /\
       no_adjacent_free bs' = true /\
       In (Blk lo total false) bs' /\ lo <= bp /\ bp + size <= lo + total /\
       list_head stf (get_list total) = lo).
  { intros stf pre' mid post' lo hi C1 C2 C3 Hne Llo Lhi N1 N2 N3 N4 G1 G2 Fr Tl Th Hd.
    pose proof (chain_le _ _ _ _ C1). pose proof (chain_le _ _ _ _ C2).
    pose proof (chain_le _ _ _ _ C3).
    pose proof (chain_mod8 _ _ _ _ C1 Hal) as Alo.
    pose proof (chain_mod8 _ _ _ _ C2 Alo) as Ahi.
    pose proof (chain_mod8 _ _ _ _ C3 Ahi) as Ast.
    exists (pre' ++ Blk lo (hi - lo) false :: post'), lo, (hi - lo).
    split; [split|].
    - rewrite G1, G2. unfold WSIZE. change (2 * 4) with 8.
      eapply retile; eauto. lia.
    - rewrite G2, Fr; [exact Hep|zlia|lia].
    - split; [exact G1|]. split.
      + rewrite naf_app, naf_cons. cbn [b_alloc first_alloc].
        rewrite N1, N2, N3, N4. reflexivity.
      + split; [apply in_elt|]. split; [lia|]. split; [lia|]. exact Hd. }
  apply andb_true_iff in Hnaf as [Hn1 NL].
  apply andb_true_iff in Hn1 as [Npre Npost].
  rewrite orb_true_r in Npost. cbn in Npost.
  assert (Cpre : chain m (heap_listp st) (pre ++ [P]) bp).
  { apply chain_app. exists p0. split; auto. cbn. auto. }
  assert (NpreP : no_adjacent_free (pre ++ [P]) = true).
  { rewrite naf_app. cbn. rewrite Npre, NL. reflexivity. }
  assert (LpreP : last_alloc (pre ++ [P]) = b_alloc P).
  { unfold last_alloc. rewrite last_snoc. reflexivity. }
  destruct (b_alloc P) eqn:aP; destruct (first_alloc post) eqn:aN.
  - (* Case 1 *)
    rewrite coalesce_case1 by (rewrite ?EPV, ?ENX; assumption). cbn [fst].
    destruct (finish0 st1 bp size Abp S1 Hha1 Hlen1) as (G1 & G2 & Fr & Hd).
    change (mem st1) with m1 in Fr.
    refine (Fin _ (pre ++ [P]) [Blk bp size true] post bp (bp + size)
                _ _ _ _ _ _ _ _ _ _ _ _ _ _ _ _).
    + exact Cpre.
    + cbn. auto.
    + exact Hpost.
    + discriminate.
    + lia.
    + lia.
    + exact NpreP.
    + exact Npost.
    + exact LpreP.
    + exact aN.
    + exact G1.
    + exact G2.
    + intros q Q1 Q2. rewrite Fr by assumption. apply F1; auto; lia.
    + rewrite Fr by zlia. rewrite T1. lia.
    + rewrite Fr by zlia. rewrite T2. lia.
    + replace (bp + size - bp) with size by lia. exact Hd.
  - (* Case 2: the next block is free *)
    rewrite coalesce_case2 by (rewrite ?EPV, ?ENX; assumption).
    cbv zeta. cbn [fst]. rewrite ENX, S1.
    destruct post as [|N post']; [discriminate aN|]. cbn in aN.
    destruct Hpost as (EN & okN & Hpost').
    pose proof (block_ok_bounds _ _ okN) as [RN MN].
    pose proof (chain_le _ _ _ _ Hpost') as Lpost'.
    assert (AN : (bp + size) mod 8 = 0) by zlia.
    assert (HN : In N bs).
    { rewrite E. apply in_or_app. right. right. right. left. reflexivity. }
    assert (LN : links_aligned (mem st1) (bp + size)).
    { apply (links_transfer m); auto.
      - apply F1; consts; zlia.
      - rewrite <- EN. apply Hla; auto. }
    destruct (del_step st1 (bp + size) AN LN Hha1)
      as ([Tg Lk] & Hh2 & G1 & G2 & Ln2).
    set (st2 := delete_block st1 (bp + size)) in *.
    assert (SN : GET_SIZE (mem st2) (HDRP (bp + size)) = b_size N).
    { rewrite (GET_SIZE_congr m (mem st2) (HDRP (b_ptr N)) (HDRP (bp + size))).
      - apply block_ok_size; auto.
      - rewrite Tg by (consts; zlia). change (mem st1) with m1.
        rewrite F1 by (consts; zlia). rewrite EN. reflexivity. }
    rewrite SN. rewrite size_t_small by lia.
    rewrite naf_cons, aN in Npost. cbn in Npost.
    apply andb_true_iff in Npost as [FA Npost'].
    destruct (finish st2 bp (size + b_size N) Abp ltac:(lia) ltac:(zlia) Hh2
                ltac:(rewrite Ln2; exact Hlen1))
      as (G1' & G2' & Fr & Tl & Th & Hd).
    refine (Fin _ (pre ++ [P]) [Blk bp size true; N] post' bp
                (bp + size + b_size N) _ _ _ _ _ _ _ _ _ _ _ _ _ _ _ _).
    + exact Cpre.
    + cbn. split; [reflexivity|]. split; [exact okB|]. split; [exact EN|].
      split; [exact okN|]. reflexivity.
    + exact Hpost'.
    + discriminate.
    + lia.
    + lia.
    + exact NpreP.
    + exact Npost'.
    + exact LpreP.
    + exact FA.
    + rewrite G1'. exact G1.
    + rewrite G2'. exact G2.
    + intros q Q1 Q2. rewrite Fr by (try assumption; lia).
      rewrite Tg by assumption. apply F1; auto; lia.
    + rewrite Tl. lia.
    + replace (bp + size + b_size N - 16) with (bp + (size + b_size N) - 16) by lia.
      rewrite Th. lia.
    + replace (bp + size + b_size N - bp) with (size + b_size N) by lia. exact Hd.
  - (* Case 3: the previous block is free *)
    rewrite coalesce_case3 by (rewrite ?EPV, ?ENX; assumption).
    cbv zeta. cbn [fst]. rewrite EPV, S1.
    assert (LP : links_aligned (mem st1) p0).
    { apply (links_transfer m); auto.
      - apply F1; consts; zlia.
      - rewrite <- EP. apply Hla; auto. }
    destruct (del_step st1 p0 A0 LP Hha1) as ([Tg Lk] & Hh2 & G1 & G2 & Ln2).
    set (st2 := delete_block st1 p0) in *.
    assert (SP : GET_SIZE (mem st2) (HDRP p0) = b_size P).
    { rewrite (GET_SIZE_congr m (mem st2) (HDRP (b_ptr P)) (HDRP p0)).
      - apply block_ok_size; auto.
      - rewrite Tg by (consts; zlia). change (mem st1) with m1.
        rewrite F1 by (consts; zlia). rewrite EP. reflexivity. }
    rewrite SP. rewrite size_t_small by lia.
    rewrite orb_false_r in NL.
    destruct (finish st2 p0 (size + b_size P) A0 ltac:(lia) ltac:(zlia) Hh2
                ltac:(rewrite Ln2; exact Hlen1))
      as (G1' & G2' & Fr & Tl & Th & Hd).
    refine (Fin _ pre [P; Blk bp size true] post p0 (bp + size)
                _ _ _ _ _ _ _ _ _ _ _ _ _ _ _ _).
    + exact Hpre.
    + cbn. split; [exact EP|]. split; [exact okP|]. split; [lia|].
      split; [exact okB|]. lia.
    + exact Hpost.
    + discriminate.
    + lia.
    + lia.
    + exact Npre.
    + exact Npost.
    + exact NL.
    + exact aN.
    + rewrite G1'. exact G1.
    + rewrite G2'. exact G2.
    + intros q Q1 Q2. rewrite Fr by (try assumption; lia).
      rewrite Tg by assumption. apply F1; auto; lia.
    + rewrite Tl. lia.
    + replace (bp + size - 16) with (p0 + (size + b_size P) - 16) by lia.
      rewrite Th. lia.
    + replace (bp + size - p0) with (size + b_size P) by lia. exact Hd.
  - (* Case 4: both neighbours are free *)
    rewrite coalesce_case4 by (rewrite ?EPV, ?ENX; assumption).
    cbv zeta. cbn [fst]. rewrite EPV, ENX, S1.
    destruct post as [|N post']; [discriminate aN|]. cbn in aN.
    destruct Hpost as (EN & okN & Hpost').
    pose proof (block_ok_bounds _ _ okN) as [RN MN].
    pose proof (chain_le _ _ _ _ Hpost') as Lpost'.
    assert (AN : (bp + size) mod 8 = 0) by zlia.
    assert (HN : In N bs).
    { rewrite E. apply in_or_app. right. right. right. left. reflexivity. }
    assert (LN : links_aligned (mem st1) (bp + size)).
    { apply (links_transfer m); auto.
      - apply F1; consts; zlia.
      - rewrite <- EN. apply Hla; auto. }
    assert (LP : links_aligned (mem st1) p0).
    { apply (links_transfer m); auto.
      - apply F1; consts; zlia.
      - rewrite <- EP. apply Hla; auto. }
    destruct (del_step st1 (bp + size) AN LN Hha1)
      as ([Tg2 Lk2] & Hh2 & G12 & G22 & Ln2).
    set (st2 := delete_block st1 (bp + size)) in *.
    assert (LP2 : links_aligned (mem st2) p0).
    { apply (links_transfer (mem st1)); auto. apply Tg2. consts. zlia. }
    destruct (del_step st2 p0 A0 LP2 Hh2) as ([Tg3 Lk3] & Hh3 & G13 & G23 & Ln3).
    set (st3 := delete_block st2 p0) in *.
    assert (Tg : forall q, q mod 8 = 0 -> q <> bp - 8 -> q <> bp + size - 16 ->
                           GET (mem st3) q = GET m q).
    { intros q Q N1 N2. rewrite Tg3, Tg2 by assumption. apply F1; auto. }
    assert (SP : GET_SIZE (mem st3) (HDRP p0) = b_size P).
    { rewrite (GET_SIZE_congr m (mem st3) (HDRP (b_ptr P)) (HDRP p0)).
      - apply block_ok_size; auto.
      - rewrite Tg by (consts; zlia). rewrite EP. reflexivity. }
    assert (SN : GET_SIZE (mem st3) (HDRP (bp + size)) = b_size N).
    { rewrite (GET_SIZE_congr m (mem st3) (HDRP (b_ptr N)) (HDRP (bp + size))).
      - apply block_ok_size; auto.
      - rewrite Tg by (consts; zlia). rewrite EN. reflexivity. }
    rewrite SP, SN. rewrite uint_small by lia. rewrite size_t_small by lia.
    rewrite orb_false_r in NL.
    rewrite naf_cons, aN in Npost. cbn in Npost.
    apply andb_true_iff in Npost as [FA Npost'].
    destruct (finish st3 p0 (size + (b_size P + b_size N)) A0 ltac:(lia)
                ltac:(zlia) Hh3 ltac:(rewrite Ln3, Ln2; exact Hlen1))
      as (G1' & G2' & Fr & Tl & Th & Hd).
    refine (Fin _ pre [P; Blk bp size true; N] post' p0 (bp + size + b_size N)
                _ _ _ _ _ _ _ _ _ _ _ _ _ _ _ _).
    + exact Hpre.
    + cbn. split; [exact EP|]. split; [exact okP|]. split; [lia|].
      split; [exact okB|]. split; [lia|]. split; [exact okN|]. lia.
    + exact Hpost'.
    + discriminate.
    + lia.
    + lia.
    + exact Npre.
    + exact Npost'.
    + exact NL.
    + exact FA.
    + rewrite G1', G13. exact G12.
    + rewrite G2', G23. exact G22.
    + intros q Q1 Q2. rewrite Fr by (try assumption; lia).
      apply Tg; auto; lia.
    + rewrite Tl. lia.
    + replace (bp + size + b_size N - 16)
        with (p0 + (size + (b_size P + b_size N)) - 16) by lia.
      rewrite Th. lia.
    + replace (bp + size + b_size N - p0)
        with (size + (b_size P + b_size N)) by lia. exact Hd.
Qed.

(** ** The scan of mm_checkheap over a tiled heap *)

Lemma land_flag c bit f :
  Z.land bit 128 = 0 -> Z.land (flag c bit f) 128 = Z.land f 128.
Proof.
  intros H. unfold flag. destruct c; [|reflexivity].
  rewrite Z.land_lor_distr_l, H, Z.lor_0_r. reflexivity.
Qed.

Lemma check_block_alloc st bp acc :
  GET_ALLOC (mem st) (HDRP bp) <> 0 ->
  free_token (check_block st bp acc) = 0
  /\ Z.land (error_flags (check_block st bp acc)) 128
     = Z.land (error_flags acc) 128.
Proof.
  intros H. unfold check_block. cbv zeta.
  apply Z.eqb_neq in H. rewrite H. cbn [free_token error_flags].
  split; [reflexivity|]. rewrite !land_flag by reflexivity. reflexivity.
Qed.

Lemma check_block_free st bp acc :
  GET_ALLOC (mem st) (HDRP bp) = 0 -> free_token acc = 0 ->
  free_token (check_block st bp acc) = 1
  /\ Z.land (error_flags (check_block st bp acc)) 128
     = Z.land (error_flags acc) 128.
Proof.
  intros H T. unfold check_block. cbv zeta. rewrite H, T.
  change (0 =? 0) with true. cbv iota.
  destruct (GET_NEXT_FREE (mem st) bp =? NULL);
    destruct (GET_PREV_FREE (mem st) bp =? NULL);
    cbn [free_token error_flags]; (split; [reflexivity|]);
    rewrite !land_flag by reflexivity; change (0 + 1 >? 1) with false;
    unfold flag at 1; rewrite !land_flag by reflexivity; reflexivity.
Qed.

Lemma check_blocks_chain st stop bs : forall bp acc fuel,
  chain (mem st) bp bs stop -> GET (mem st) (stop - 8) = 1 ->
  (length bs < fuel)%nat ->
  Z.land (error_flags acc) 128 = 0 ->
  free_token acc = 0 \/ (free_token acc = 1 /\ first_alloc bs = true) ->
  no_adjacent_free bs = true ->
  exists acc', check_blocks fuel st bp acc = Ok acc'
               /\ Z.land (error_flags acc') 128 = 0.
Proof.
  induction bs as [|b bs IH]; intros bp acc fuel Hc He Hf H128 Ht Hn;
    (destruct fuel as [|fuel]; [cbn in Hf; lia|]); cbn [check_blocks].
  - cbn in Hc. subst bp. unfold HDRP, WSIZE. change (2 * 4) with 8.
    rewrite GET_SIZE_eq, He. cbn. eauto.
  - destruct Hc as (E & Hb & Hc).
    pose proof (block_ok_bounds _ _ Hb) as [R M].
    rewrite <- E. rewrite (block_ok_size _ _ Hb).
    replace (b_size b >? 0) with true by lia.
    unfold NEXT_BLKP. rewrite (block_ok_size _ _ Hb). rewrite E.
    rewrite naf_cons in Hn. apply andb_true_iff in Hn as [Hn1 Hn2].
    pose proof (block_ok_alloc _ _ Hb) as Ha. rewrite E in Ha.
    apply IH; auto.
    + cbn in Hf. lia.
    + destruct (b_alloc b) eqn:Ab.
      * destruct (check_block_alloc st bp acc) as [_ ->]; [lia|]. exact H128.
      * destruct Ht as [Ht|[_ Ht]]; [|cbn in Ht; congruence].
        destruct (check_block_free st bp acc Ha Ht) as [_ ->]. exact H128.
    + destruct (b_alloc b) eqn:Ab.
      * destruct (check_block_alloc st bp acc) as [-> _]; [lia|]. auto.
      * destruct Ht as [Ht|[_ Ht]]; [|cbn in Ht; congruence].
        destruct (check_block_free st bp acc Ha Ht) as [-> _].
        right. split; [reflexivity|]. exact Hn1.
Qed.

Lemma checkheap_no_adjacent st bs :
  heap_tiled st bs -> no_adjacent_free bs = true ->
  exists flags, mm_checkheap (S (length bs)) st = Ok flags
                /\ Z.land flags 128 = 0.
Proof.
  intros [Hc He] Hn. unfold mm_checkheap. cbv zeta.
  set (acc := mkAcc 0 _ _ _).
  assert (He' : GET (mem st) (eptr st + 2 * WSIZE - 8) = 1).
  { unfold WSIZE. replace (eptr st + 2 * 4 - 8) with (eptr st) by lia. exact He. }
  assert (H0 : Z.land (error_flags acc) 128 = 0).
  { unfold acc. cbn [error_flags]. unfold flag. destruct (_ || _); reflexivity. }
  destruct (check_blocks_chain st _ bs (heap_listp st) acc (S (length bs))
              Hc He' ltac:(lia) H0 ltac:(left; reflexivity) Hn)
    as (acc' & -> & H).
  cbn. eauto.
Qed.

(** ** add_block and delete_block, cell by cell *)

Lemma GET_SIZE_PUT_link m c v q :
  c mod 8 = 4 -> q mod 8 = 0 -> GET_SIZE (PUT m c v) q = GET_SIZE m q.
Proof. intros. apply GET_SIZE_congr, GET_PUT_other. zlia. Qed.

Lemma PREV_PTR_eq m x sx : GET_SIZE m (HDRP x) = sx -> PREV_PTR m x = x + sx - 12.
Proof. intros <-. consts. lia. Qed.

(** The memory [add_block] leaves, with the cells it writes spelled out. *)
Lemma add_block_mem st x sx H sH :
  GET_SIZE (mem st) (HDRP x) = sx -> x mod 8 = 0 ->
  list_head st (get_list sx) = H ->
  (H <> 0 -> H mod 8 = 0 /\ GET_SIZE (mem st) (HDRP H) = sH) ->
  mem (add_block st x)
  = (if H =? 0
     then PUT (PUT (mem st) (x + sx - 12) 0) (x - 4) 0
     else PUT (PUT (PUT (mem st) (H + sH - 12) (x - H)) (x - 4) (H - x))
              (x + sx - 12) 0)
  /\ free_lists (add_block st x)
     = <[Z.to_nat (get_list sx) := x]> (free_lists st).
Proof.
  intros Sx Ax EH HH. unfold add_block. cbv zeta. rewrite Sx, EH.
  split; [|reflexivity]. cbn [mem set_list_head with_mem with_free_lists].
  pose proof (GET_SIZE_mod8 (mem st) (HDRP x)) as Mx. rewrite Sx in Mx.
  unfold NULL. destruct (H =? 0) eqn:E0; cbn [negb].
  - unfold SET_PREV_FREE, SET_NEXT_FREE.
    rewrite (PREV_PTR_eq _ _ _ Sx). unfold NEXT_PTR, HDRP, WSIZE.
    repeat f_equal; lia.
  - apply Z.eqb_neq in E0. destruct (HH E0) as [AH SH].
    pose proof (GET_SIZE_mod8 (mem st) (HDRP H)) as MH. rewrite SH in MH.
    unfold SET_PREV_FREE, SET_NEXT_FREE.
    rewrite (PREV_PTR_eq _ _ _ SH).
    rewrite (PREV_PTR_eq _ x sx).
    + unfold NEXT_PTR, HDRP, WSIZE. repeat f_equal; lia.
    + unfold NEXT_PTR, HDRP, WSIZE in *. change (2 * 4) with 8 in *.
      rewrite !GET_SIZE_PUT_link by zlia. exact Sx.
Qed.

Lemma list_head_set st i p j :
  0 <= i -> 0 <= j -> (Z.to_nat i < length (free_lists st))%nat ->
  list_head (set_list_head st i p) j = if i =? j then p else list_head st j.
Proof.
  intros Hi Hj L. unfold list_head, set_list_head. cbn.
  destruct (i =? j) eqn:E.
  - apply Z.eqb_eq in E. subst j. rewrite list_lookup_insert_eq by assumption.
    reflexivity.
  - apply Z.eqb_neq in E. rewrite list_lookup_insert_ne by lia. reflexivity.
Qed.

(** [add_block] followed by [delete_block] of the same block: the lists are
    as before, and only link words were written. *)
Lemma relink st x sx H sH :
  GET_SIZE (mem st) (HDRP x) = sx -> x mod 8 = 0 -> 16 <= sx ->
  list_head st (get_list sx) = H ->
  length (free_lists st) = Z.to_nat NUM_LISTS ->
  (H <> 0 -> H mod 8 = 0 /\ GET_SIZE (mem st) (HDRP H) = sH /\ 16 <= sH
             /\ (H + sH <= x \/ x + sx <= H)
             /\ - 2 ^ 31 <= H - x < 2 ^ 31) ->
  let st3 := delete_block (add_block st x) x in
  mem st3
  = (if H =? 0
     then PUT (PUT (mem st) (x + sx - 12) 0) (x - 4) 0
     else PUT (PUT (PUT (PUT (mem st) (H + sH - 12) (x - H)) (x - 4) (H - x))
                   (x + sx - 12) 0)
              (H + sH - 12) 0)
  /\ free_lists st3 = free_lists st
  /\ heap_listp st3 = heap_listp st /\ eptr st3 = eptr st.
Proof.
  intros Sx Ax Rx EH Len HH st3.
  assert (HH' : H <> 0 -> H mod 8 = 0 /\ GET_SIZE (mem st) (HDRP H) = sH)
    by (intros K; destruct (HH K) as (? & ? & _); auto).
  destruct (add_block_mem st x sx H sH Sx Ax EH HH') as [Em Ef].
  pose proof (add_block_globals st x) as (G1 & G2 & _ & _ & G5).
  pose proof (delete_block_globals (add_block st x) x) as (D1 & D2 & _ & _ & D5).
  fold st3 in D1, D2, D5.
  pose proof (GET_SIZE_mod8 (mem st) (HDRP x)) as Mx. rewrite Sx in Mx.
  pose proof (get_list_range sx) as Rl.
  set (st2 := add_block st x) in *.
  assert (S2 : GET_SIZE (mem st2) (HDRP x) = sx).
  { rewrite Em. unfold HDRP, WSIZE in *. change (2 * 4) with 8 in *.
    destruct (H =? 0) eqn:E0.
    - rewrite !GET_SIZE_PUT_link by zlia. exact Sx.
    - apply Z.eqb_neq in E0. destruct (HH E0) as (AH & SH & RH & DH & BH).
      pose proof (GET_SIZE_mod8 (mem st) (H - 8)) as MH. rewrite SH in MH.
      rewrite !GET_SIZE_PUT_link by zlia. exact Sx. }
  assert (P2 : GET_PREV_FREE (mem st2) x = 0).
  { unfold GET_PREV_FREE. cbv zeta. rewrite (PREV_PTR_eq _ _ _ S2), Em.
    destruct (H =? 0);
      repeat (rewrite GET_PUT_same || rewrite GET_PUT_other by lia);
      reflexivity. }
  assert (N2 : GET_NEXT_FREE (mem st2) x = H).
  { unfold GET_NEXT_FREE. cbv zeta. unfold NEXT_PTR, HDRP, WSIZE.
    replace (x - 2 * 4 + 4) with (x - 4) by lia. rewrite Em.
    destruct (H =? 0) eqn:E0.
    - apply Z.eqb_eq in E0. rewrite GET_PUT_same, E0. reflexivity.
    - apply Z.eqb_neq in E0. destruct (HH E0) as (AH & SH & RH & DH & BH).
      rewrite GET_PUT_other, GET_PUT_same by lia.
      rewrite sint_small by lia.
      replace (H - x =? 0) with false by lia. lia. }
  assert (Lk : free_lists st !! Z.to_nat (get_list sx) = Some H).
  { destruct (lookup_lt_is_Some_2 (free_lists st) (Z.to_nat (get_list sx)))
      as [v Ev]; [rewrite Len; unfold NUM_LISTS; lia|].
    unfold list_head in EH. rewrite Ev in EH. cbn in EH. congruence. }
  assert (Fl : forall p m', p = H ->
            free_lists (set_list_head (with_mem st2 m') (get_list sx) p)
            = free_lists st).
  { intros p m' ->. cbn [free_lists set_list_head with_mem with_free_lists].
    rewrite Ef, list_insert_insert_eq. apply list_insert_id, Lk. }
  assert (Es : st3 = delete_block st2 x) by reflexivity.
  unfold delete_block in Es. cbv zeta in Es. rewrite P2, N2, S2 in Es.
  unfold LIST_END in Es. change (0 =? 0) with true in Es. cbn [andb] in Es.
  destruct (H =? 0) eqn:E0.
  - apply Z.eqb_eq in E0. rewrite Es. split; [exact Em|].
    split; [|split; congruence].
    apply (Fl NULL (mem st2)). unfold NULL. congruence.
  - apply Z.eqb_neq in E0. destruct (HH E0) as (AH & SH & RH & DH & BH).
    rewrite Es. split; [|split; [|split; congruence]].
    + cbn [mem set_list_head with_mem with_free_lists].
      unfold SET_PREV_FREE.
      assert (SH2 : GET_SIZE (mem st2) (HDRP H) = sH).
      { rewrite Em. unfold HDRP, WSIZE in *. change (2 * 4) with 8 in *.
        pose proof (GET_SIZE_mod8 (mem st) (H - 8)) as MH. rewrite SH in MH.
        rewrite !GET_SIZE_PUT_link by zlia. exact SH. }
      rewrite (PREV_PTR_eq _ _ _ SH2), Em. f_equal. lia.
    + apply Fl. reflexivity.
Qed.

(** ** The shrinking path of realloc: up to the split *)

Lemma chain_disjoint m bs : forall bp stop b1 b2,
  chain m bp bs stop -> In b1 bs -> In b2 bs ->
  b1 = b2 \/ b_ptr b1 + b_size b1 <= b_ptr b2
  \/ b_ptr b2 + b_size b2 <= b_ptr b1.
Proof.
  induction bs as [|b0 bs IH]; cbn; intros bp stop b1 b2 H I1 I2; [tauto|].
  destruct H as (E & Hb & Hc).
  destruct I1 as [<-|I1], I2 as [<-|I2].
  - left. reflexivity.
  - destruct (chain_In _ _ _ _ _ Hc I2) as (_ & K & _). right. left. lia.
  - destruct (chain_In _ _ _ _ _ Hc I1) as (_ & K & _). right. right. lia.
  - eapply IH; eauto.
Qed.

Lemma list_head_link_ok st bs i :
  Forall (link_ok bs) (free_lists st) -> link_ok bs (list_head st i).
Proof.
  intros F. unfold list_head.
  destruct (free_lists st !! Z.to_nat i) eqn:E; cbn.
  - eapply (Forall_lookup_1 _ _ _ _ F E).
  - left. reflexivity.
Qed.

Lemma add_block_bytes st x sx H sH a :
  GET_SIZE (mem st) (HDRP x) = sx -> x mod 8 = 0 ->
  list_head st (get_list sx) = H ->
  (H <> 0 -> H mod 8 = 0 /\ GET_SIZE (mem st) (HDRP H) = sH) ->
  ~ (x - 4 <= a < x) -> ~ (x + sx - 12 <= a < x + sx - 8) ->
  (H <> 0 -> ~ (H + sH - 12 <= a < H + sH - 8)) ->
  mem (add_block st x) a = mem st a.
Proof.
  intros Sx Ax EH HH N1 N2 N3.
  destruct (add_block_mem st x sx H sH Sx Ax EH HH) as [-> _].
  destruct (H =? 0) eqn:E0.
  - rewrite !PUT_byte_other by lia. reflexivity.
  - apply Z.eqb_neq in E0. specialize (N3 E0).
    rewrite !PUT_byte_other by lia. reflexivity.
Qed.

Lemma GET_bytes m m' q :
  (forall a, q <= a < q + 4 -> m' a = m a) -> GET m' q = GET m q.
Proof.
  intros H. unfold GET, load8. rewrite !H by lia. reflexivity.
Qed.

(** What a block of a consistent heap gives: its tag words, its place. *)
Lemma consistent_block st bs b :
  consistent st bs -> In b bs ->
  block_ok (mem st) b /\ b_ptr b mod 8 = 0 /\ b_size b mod 8 = 0
  /\ 16 <= b_size b /\ heap_listp st <= b_ptr b
  /\ b_ptr b + b_size b <= eptr st + 8.
Proof.
  intros C I. destruct C as [[_ Hal] _ [Hch _] _ _ _ _].
  destruct (chain_In _ _ _ _ _ Hch I) as (K1 & K2 & K3 & K4).
  pose proof (block_ok_bounds _ _ K1) as [R M]. unfold DSIZE, WSIZE in *.
  repeat split; auto; try lia. apply K1. apply K1. apply K1.
Qed.

(** A non-null list head is a free block, away from any allocated one. *)
Lemma head_facts st bs B j :
  consistent st bs -> In B bs -> b_alloc B = true ->
  let H := list_head st j in
  let sH := GET_SIZE (mem st) (HDRP H) in
  H <> 0 ->
  H mod 8 = 0 /\ 16 <= sH /\ sH mod 8 = 0
  /\ (H + sH <= b_ptr B \/ b_ptr B + b_size B <= H)
  /\ heap_listp st <= H /\ H + sH <= eptr st + 8.
Proof.
  intros C IB AB H sH NH.
  pose proof (list_head_link_ok st bs j (proj2 (c_heads _ _ C))) as LK.
  fold H in LK. destruct LK as [E|(s & Is)]; [unfold NULL in E; lia|].
  destruct (consistent_block _ _ _ C Is) as (ok & K1 & K2 & K3 & K4 & K5).
  cbn [b_ptr b_size] in *.
  assert (Es : sH = s) by apply (block_ok_size _ _ ok).
  rewrite Es.
  destruct C as [_ _ [Hch _] _ _ _ _].
  destruct (chain_disjoint _ _ _ _ _ _ Hch Is IB) as [E|D].
  - rewrite <- E in AB. discriminate.
  - cbn [b_ptr b_size] in D. repeat split; auto; lia.
Qed.

Lemma shrink_prefix st bs ptr old :
  consistent st bs -> In (Blk ptr old true) (tl bs) ->
  let m := mem st in
  let st1 := with_mem st (set_free m ptr) in
  let st2 := add_block st1 ptr in
  let st3 := delete_block st2 ptr in
  GET_SIZE (mem st2) (HDRP ptr) = old
  /\ (forall q, q mod 8 = 0 -> q <> ptr - 8 -> q <> ptr + old - 16 ->
                GET (mem st3) q = GET m q)
  /\ GET (mem st3) (ptr - 8) = old /\ GET (mem st3) (ptr + old - 16) = old
  /\ (forall a, ptr <= a < ptr + old - 16 -> mem st3 a = m a)
  /\ free_lists st3 = free_lists st
  /\ heap_listp st3 = heap_listp st /\ eptr st3 = eptr st.
Proof.
  intros C I m st1 st2 st3.
  assert (IB : In (Blk ptr old true) bs).
  { destruct bs; cbn in I; [tauto|]. right. exact I. }
  destruct (consistent_block _ _ _ C IB) as (okB & Ap & Mo & Ro & Lo & Hi).
  cbn [b_ptr b_size] in *.
  pose proof (c_extent _ _ C) as Hext.
  destruct (blocks_around _ _ I) as (pre & P & post & E).
  assert (Lo' : heap_listp st + 16 <= ptr).
  { destruct C as [_ _ [Hch _] _ _ _ _]. rewrite E in Hch.
    apply chain_app in Hch as (p0 & Hpre & (EP & okP & EB & _)).
    apply chain_le in Hpre. apply block_ok_bounds in okP.
    cbn [b_ptr] in EB. lia. }
  pose proof (set_free_eq _ _ okB) as SF. cbn [b_ptr b_size] in SF.
  fold m in SF.
  set (m1 := PUT (PUT m (ptr - 8) old) (ptr + old - 16) old) in *.
  assert (Rg : old < 2 ^ 32) by (apply block_ok_bounds in okB; cbn in okB; lia).
  assert (S1 : GET_SIZE (mem st1) (HDRP ptr) = old).
  { unfold st1. cbn [mem with_mem]. rewrite SF. unfold m1, HDRP, WSIZE.
    change (2 * 4) with 8.
    rewrite GET_SIZE_eq, GET_PUT_other, GET_PUT_same, uint_small by lia. zlia. }
  set (H := list_head st (get_list old)).
  set (sH := GET_SIZE m (HDRP H)).
  pose proof (head_facts st bs _ (get_list old) C IB eq_refl) as HF.
  cbn [b_ptr b_size] in HF. fold H in HF. fold m in HF. fold sH in HF.
  assert (HH : H <> 0 ->
     H mod 8 = 0 /\ GET_SIZE (mem st1) (HDRP H) = sH /\ 16 <= sH
     /\ (H + sH <= ptr \/ ptr + old <= H) /\ - 2 ^ 31 <= H - ptr < 2 ^ 31).
  { intros NH. destruct (HF NH) as (K1 & K2 & K3 & K4 & K5 & K6).
    repeat split; auto; try lia.
    unfold st1. cbn [mem with_mem]. rewrite SF. unfold m1, sH, HDRP, WSIZE.
    change (2 * 4) with 8. apply GET_SIZE_congr.
    rewrite !GET_PUT_other by lia. reflexivity. }
  assert (Len1 : length (free_lists st1) = Z.to_nat NUM_LISTS)
    by apply (c_heads _ _ C).
  destruct (relink st1 ptr old H sH S1 Ap Ro eq_refl Len1 HH)
    as (Em & Ef & G1 & G2).
  fold st2 in Em, Ef, G1, G2. fold st3 in Em, Ef, G1, G2.
  assert (Em1 : mem st1 = m1) by exact SF.
  rewrite Em1 in Em.
  assert (S2 : GET_SIZE (mem st2) (HDRP ptr) = old).
  { assert (HH' : H <> 0 -> H mod 8 = 0 /\ GET_SIZE (mem st1) (HDRP H) = sH)
      by (intros K; destruct (HH K) as (? & ? & _); auto).
    destruct (add_block_mem st1 ptr old H sH S1 Ap eq_refl HH') as [Em2 _].
    change (mem st2) with (mem (add_block st1 ptr)). rewrite Em2.
    rewrite <- S1. unfold HDRP, WSIZE in *. change (2 * 4) with 8 in *.
    destruct (H =? 0) eqn:E0.
    - rewrite !GET_SIZE_PUT_link by zlia. reflexivity.
    - apply Z.eqb_neq in E0. destruct (HF E0) as (K1 & K2 & K3 & _).
      rewrite !GET_SIZE_PUT_link by zlia. reflexivity. }
  split; [exact S2|].
  destruct (H =? 0) eqn:E0.
  - rewrite Em. unfold m1. repeat split; auto.
    + intros q Q N1 N2. rewrite !GET_PUT_other by zlia. reflexivity.
    + rewrite !GET_PUT_other, GET_PUT_same, uint_small by lia. reflexivity.
    + rewrite !GET_PUT_other, GET_PUT_same, uint_small by lia. reflexivity.
    + intros a Ha. rewrite !PUT_byte_other by lia. reflexivity.
  - apply Z.eqb_neq in E0. destruct (HF E0) as (K1 & K2 & K3 & K4 & K5 & K6).
    rewrite Em. unfold m1. repeat split; auto.
    + intros q Q N1 N2. rewrite !GET_PUT_other by zlia. reflexivity.
    + rewrite !GET_PUT_other, GET_PUT_same, uint_small by lia. reflexivity.
    + rewrite !GET_PUT_other, GET_PUT_same, uint_small by lia. reflexivity.
    + intros a Ha. rewrite !PUT_byte_other by lia. reflexivity.
Qed.

(** ** The shrinking path of realloc: the two outcomes *)

Lemma align_size_mod8 size : align_size size mod 8 = 0.
Proof.
  unfold align_size, size_t, MIN_SIZE, DSIZE.
  destruct (size <=? 8); [reflexivity|]. zlia.
Qed.

Lemma consistent_heads_aligned st bs : consistent st bs -> heads_aligned st.
Proof.
  intros C. unfold heads_aligned.
  eapply Forall_impl; [apply (c_heads _ _ C)|].
  intros p [->|(s & Is)]; [reflexivity|].
  destruct (consistent_block _ _ _ C Is) as (_ & K & _). exact K.
Qed.

Section Shrink.

Variables (st st3 : state) (bs : list blk) (ptr old : Z).
Hypothesis C : consistent st bs.
Hypothesis IB : In (Blk ptr old true) bs.
Hypothesis P1 : forall q, q mod 8 = 0 -> q <> ptr - 8 ->
                          q <> ptr + old - 16 ->
                          GET (mem st3) q = GET (mem st) q.
Hypothesis P2 : GET (mem st3) (ptr - 8) = old.
Hypothesis P2' : GET (mem st3) (ptr + old - 16) = old.
Hypothesis P3 : forall a, ptr <= a < ptr + old - 16 ->
                          mem st3 a = mem st a.
Hypothesis Ef : free_lists st3 = free_lists st.
Hypothesis G1 : heap_listp st3 = heap_listp st.
Hypothesis G2 : eptr st3 = eptr st.

Lemma shrink_keep :
  let st' := with_mem st3 (set_alloc (mem st3) ptr) in
  block_ok (mem st') (Blk ptr old true)
  /\ (forall a, ptr <= a < ptr + old - 2 * DSIZE -> mem st' a = mem st a)
  /\ heap_tiled st' bs.
Proof.
  destruct (consistent_block _ _ _ C IB) as (okB & Ap & Mo & Ro & Lo & Hi).
  cbn [b_ptr b_size] in *.
  pose proof (c_base _ _ C) as [Hpos Hal]. unfold DSIZE in Hal.
  destruct (c_tiled _ _ C) as [Hch Hep].
  unfold WSIZE in Hch. change (2 * 4) with 8 in Hch.
  assert (Rg : old + 1 < 2 ^ 32).
  { pose proof (GET_range (mem st) (HDRP ptr)) as G.
    destruct okB as (F & _). cbn in F. rewrite F in G. unfold tag in G.
    cbn in G. lia. }
  assert (ok3 : block_ok (mem st3) (Blk ptr old false)).
  { unfold block_ok, tag. cbn. unfold HDRP, WSIZE, DSIZE.
    change (2 * 4) with 8. change (4 * 4) with 16. rewrite P2, P2'.
    repeat split; lia. }
  pose proof (set_alloc_eq _ _ ok3) as SA. cbn [b_ptr b_size] in SA.
  cbv zeta. cbn [mem with_mem]. rewrite SA.
  assert (T' : forall q, q mod 8 = 0 ->
     GET (PUT (PUT (mem st3) (ptr - 8) (old + 1)) (ptr + old - 16) (old + 1)) q
     = GET (mem st) q).
  { intros q Q.
    destruct (Z.eq_dec q (ptr + old - 16)) as [->|N1].
    - rewrite GET_PUT_same, uint_small by lia.
      destruct okB as (_ & F & _). cbn in F. unfold WSIZE in F.
      change (4 * 4) with 16 in F. rewrite F. reflexivity.
    - rewrite GET_PUT_other by zlia.
      destruct (Z.eq_dec q (ptr - 8)) as [->|N2].
      + rewrite GET_PUT_same, uint_small by lia.
        destruct okB as (F & _). cbn in F. unfold HDRP, WSIZE in F.
        change (2 * 4) with 8 in F. rewrite F. reflexivity.
      + rewrite GET_PUT_other by zlia. apply P1; auto. }
  split; [|split].
  - unfold block_ok, tag. cbn. unfold HDRP, WSIZE, DSIZE.
    change (2 * 4) with 8. change (4 * 4) with 16.
    rewrite GET_PUT_same, GET_PUT_other, GET_PUT_same, !uint_small by lia.
    repeat split; lia.
  - intros a Ha. unfold DSIZE in Ha.
    rewrite !PUT_byte_other by lia. apply P3. lia.
  - split; cbn [mem heap_listp eptr with_mem].
    + rewrite G1, G2. unfold WSIZE. change (2 * 4) with 8.
      eapply chain_frame; eauto.
    + rewrite G2, T'; [exact Hep|].
      pose proof (chain_mod8 _ _ _ _ Hch Hal). zlia.
Qed.

Variable newsize : Z.
Hypothesis Mn : newsize mod 8 = 0.
Hypothesis Hn : 24 <= newsize.
Hypothesis Hr : 24 <= old - newsize.

Lemma shrink_split :
  let m4 := set_size (mem st3) ptr newsize in
  let m5 := set_size m4 (NEXT_BLKP m4 ptr) (old - newsize) in
  let st6 := add_block (with_mem st3 m5) (NEXT_BLKP m4 ptr) in
  let st' := with_mem st6 (set_alloc (mem st6) ptr) in
  block_ok (mem st') (Blk ptr newsize true)
  /\ block_ok (mem st') (Blk (ptr + newsize) (old - newsize) false)
  /\ list_head st' (get_list (old - newsize)) = ptr + newsize
  /\ (forall a, ptr <= a < ptr + newsize - 2 * DSIZE ->
                mem st' a = mem st a)
  /\ exists pre post,
       bs = pre ++ Blk ptr old true :: post
       /\ heap_tiled st'
            (pre ++ Blk ptr newsize true
                 :: Blk (ptr + newsize) (old - newsize) false :: post).
Proof.
  destruct (consistent_block _ _ _ C IB) as (okB & Ap & Mo & Ro & Lo & Hi).
  cbn [b_ptr b_size] in *.
  pose proof (c_base _ _ C) as [Hpos Hal]. unfold DSIZE in Hal.
  pose proof (consistent_heads_aligned _ _ C) as Hha.
  pose proof (proj1 (c_heads _ _ C)) as Hlen.
  destruct (c_tiled _ _ C) as [Hch Hep].
  unfold WSIZE in Hch. change (2 * 4) with 8 in Hch.
  assert (Rg : old < 2 ^ 32)
    by (apply block_ok_bounds in okB; cbn in okB; lia).
  cbv zeta.
  rewrite (set_size_eq (mem st3) ptr newsize) by lia.
  set (m4 := PUT (PUT (mem st3) (ptr - 8) newsize) (ptr + newsize - 16)
                 newsize).
  assert (N4 : NEXT_BLKP m4 ptr = ptr + newsize).
  { unfold NEXT_BLKP, HDRP, WSIZE, m4. change (2 * 4) with 8.
    rewrite GET_SIZE_eq, GET_PUT_other, GET_PUT_same, uint_small by lia.
    zlia. }
  rewrite N4.
  rewrite (set_size_eq m4 (ptr + newsize) (old - newsize))
    by (try lia; zlia).
  replace (ptr + newsize + (old - newsize) - 16) with (ptr + old - 16)
    by lia.
  set (m5 := PUT (PUT m4 (ptr + newsize - 8) (old - newsize))
                 (ptr + old - 16) (old - newsize)).
  assert (Ax : (ptr + newsize) mod 8 = 0) by zlia.
  assert (Mr : (old - newsize) mod 8 = 0) by zlia.
  assert (T5 : forall q, q mod 8 = 0 ->
                         q < ptr - 8 \/ ptr + old - 8 <= q ->
                         GET m5 q = GET (mem st) q).
  { intros q Q Hq. unfold m5, m4.
    rewrite !GET_PUT_other by zlia. apply P1; auto; lia. }
  assert (S5 : GET_SIZE (mem (with_mem st3 m5)) (HDRP (ptr + newsize))
               = old - newsize).
  { cbn [mem with_mem]. unfold m5, HDRP, WSIZE. change (2 * 4) with 8.
    rewrite GET_SIZE_eq, GET_PUT_other, GET_PUT_same, uint_small by lia.
    zlia. }
  assert (Hha5 : heads_aligned (with_mem st3 m5)).
  { unfold heads_aligned. cbn [free_lists with_mem]. rewrite Ef. exact Hha. }
  assert (Hlen5 : length (free_lists (with_mem st3 m5))
                  = Z.to_nat NUM_LISTS).
  { cbn [free_lists with_mem]. rewrite Ef. exact Hlen. }
  pose proof (head_facts st bs _ (get_list (old - newsize)) C IB eq_refl)
    as HF. cbn [b_ptr b_size] in HF. cbv zeta in HF.
  set (H' := list_head st (get_list (old - newsize))) in *.
  set (sH' := GET_SIZE (mem st) (HDRP H')) in *.
  assert (EH5 : list_head (with_mem st3 m5) (get_list (old - newsize)) = H').
  { unfold H', list_head. cbn [free_lists with_mem]. rewrite Ef.
    reflexivity. }
  assert (HH5 : H' <> 0 ->
            H' mod 8 = 0
            /\ GET_SIZE (mem (with_mem st3 m5)) (HDRP H') = sH').
  { intros NH. destruct (HF NH) as (K1 & K2 & K3 & K4 & K5 & K6).
    split; [exact K1|]. unfold sH'. cbn [mem with_mem].
    apply GET_SIZE_congr. apply T5; unfold HDRP, WSIZE; zlia. }
  pose proof (add_block_quiet _ _ Ax Hha5) as [T6 _].
  pose proof (add_block_head _ (ptr + newsize) Hlen5) as Hd6.
  rewrite S5 in Hd6.
  pose proof (add_block_globals (with_mem st3 m5) (ptr + newsize))
    as (G61 & G62 & _).
  pose proof (fun a => add_block_bytes _ _ _ _ _ a S5 Ax EH5 HH5) as B6.
  cbn [mem heap_listp eptr with_mem] in T6, B6, G61, G62.
  remember (add_block (with_mem st3 m5) (ptr + newsize)) as st6 eqn:E6.
  clear E6.
  assert (ok6 : block_ok (mem st6) (Blk ptr newsize false)).
  { unfold block_ok, tag. cbn. unfold HDRP, WSIZE, DSIZE.
    change (2 * 4) with 8. change (4 * 4) with 16.
    rewrite !T6 by zlia. unfold m5, m4.
    repeat (rewrite GET_PUT_same || rewrite GET_PUT_other by lia).
    rewrite uint_small by lia. repeat split; lia. }
  pose proof (set_alloc_eq _ _ ok6) as SA. cbn [b_ptr b_size] in SA.
  cbn [mem with_mem]. rewrite SA.
  set (m' := PUT (PUT (mem st6) (ptr - 8) (newsize + 1))
                 (ptr + newsize - 16) (newsize + 1)).
  assert (B1 : block_ok m' (Blk ptr newsize true)).
  { unfold block_ok, tag. cbn. unfold HDRP, WSIZE, DSIZE.
    change (2 * 4) with 8. change (4 * 4) with 16. unfold m'.
    rewrite GET_PUT_same, GET_PUT_other, GET_PUT_same, !uint_small by lia.
    repeat split; lia. }
  assert (B2 : block_ok m' (Blk (ptr + newsize) (old - newsize) false)).
  { unfold block_ok, tag. cbn. unfold HDRP, WSIZE, DSIZE.
    change (2 * 4) with 8. change (4 * 4) with 16. unfold m'.
    rewrite !GET_PUT_other by lia.
    rewrite !T6 by zlia. unfold m5.
    replace (ptr + newsize + (old - newsize) - 16) with (ptr + old - 16)
      by lia.
    rewrite GET_PUT_other, !GET_PUT_same, uint_small by lia.
    repeat split; lia. }
  assert (T' : forall q, q mod 8 = 0 ->
                         q < ptr - 8 \/ ptr + old - 8 <= q ->
                         GET m' q = GET (mem st) q).
  { intros q Q Hq. unfold m'. rewrite !GET_PUT_other by zlia.
    rewrite T6 by assumption. apply T5; auto. }
  split; [exact B1|]. split; [exact B2|]. split; [exact Hd6|]. split.
  - intros a Ha. unfold DSIZE in Ha. unfold m'.
    rewrite !PUT_byte_other by lia. rewrite B6.
    + unfold m5, m4. rewrite !PUT_byte_other by lia. apply P3. lia.
    + lia.
    + lia.
    + intros NH. destruct (HF NH) as (K1 & K2 & K3 & K4 & K5 & K6). lia.
  - destruct (in_split _ _ IB) as (l1 & l2 & E).
    exists l1, l2. split; [exact E|].
    rewrite E in Hch. apply chain_app in Hch as (p0 & Hc1 & Hc2).
    destruct Hc2 as (Ep & _ & Hc2). cbn [b_ptr b_size] in Ep, Hc2. subst p0.
    pose proof (chain_le _ _ _ _ Hc2) as L2.
    split; cbn [mem heap_listp eptr with_mem].
    + rewrite G61, G62, G1, G2. unfold WSIZE. change (2 * 4) with 8.
      apply chain_app. exists ptr. split.
      * eapply chain_frame; eauto. intros. apply T'; auto. lia.
      * cbn [chain b_ptr b_size]. split; [reflexivity|]. split; [exact B1|].
        split; [reflexivity|]. split; [exact B2|].
        replace (ptr + newsize + (old - newsize)) with (ptr + old) by lia.
        eapply chain_frame; eauto.
        -- zlia.
        -- intros. apply T'; auto. lia.
    + rewrite G62, G2.
      rewrite T'; [exact Hep| |lia].
      pose proof (chain_mod8 _ _ _ _ Hc2 ltac:(zlia)). zlia.
Qed.

End Shrink.

Lemma realloc_shrink (fuel : nat) (st : state) (bs : list blk)
      (ptr old size : Z) :
  consistent st bs ->
  In (Blk ptr old true) (tl bs) ->
  0 < size < 2 ^ 64 ->
  MIN_SIZE <= align_size size <= old ->
  let newsize := align_size size in
  exists st',
    realloc fuel st ptr size = Ok (st', ptr) /\
    (old - newsize < MIN_SIZE ->
       block_ok (mem st') (Blk ptr old true)
       /\ (forall a, ptr <= a < ptr + old - 2 * DSIZE -> mem st' a = mem st a)
       /\ heap_tiled st' bs) /\
    (MIN_SIZE <= old - newsize ->
       block_ok (mem st') (Blk ptr newsize true)
       /\ block_ok (mem st') (Blk (ptr + newsize) (old - newsize) false)
       /\ list_head st' (get_list (old - newsize)) = ptr + newsize
       /\ (forall a, ptr <= a < ptr + newsize - 2 * DSIZE ->
                     mem st' a = mem st a)
       /\ exists pre post,
            bs = pre ++ Blk ptr old true :: post
            /\ heap_tiled st'
                 (pre ++ Blk ptr newsize true
                      :: Blk (ptr + newsize) (old - newsize) false :: post)).
Proof.
  intros C I Hs Hn newsize.
  assert (IB : In (Blk ptr old true) bs).
  { destruct bs; cbn in I; [tauto|]. right. exact I. }
  destruct (consistent_block _ _ _ C IB) as (okB & Ap & Mo & Ro & Lo & Hi).
  cbn [b_ptr b_size] in *.
  pose proof (c_base _ _ C) as [Hpos _].
  assert (Rg : old < 2 ^ 32)
    by (apply block_ok_bounds in okB; cbn in okB; lia).
  pose proof (align_size_mod8 size) as Mn. fold newsize in Mn, Hn.
  unfold MIN_SIZE in Hn.
  destruct (shrink_prefix st bs ptr old C I)
    as (S2 & P1 & P2 & P2' & P3 & Ef & G1 & G2).
  pose proof (block_ok_size _ _ okB) as SB. cbn [b_ptr b_size] in SB.
  unfold realloc.
  replace (size =? 0) with false by lia.
  replace (ptr =? NULL) with false by (unfold NULL; lia).
  cbv zeta. rewrite SB.
  fold newsize. replace (newsize <=? old) with true by lia.
  unfold split. cbv zeta. rewrite S2. unfold MIN_SIZE.
  rewrite (size_t_small (newsize + 24)) by lia.
  destruct (old >=? newsize + 24) eqn:Esplit.
  - rewrite (size_t_small (old - newsize)) by lia.
    eexists. split; [reflexivity|]. split; [intros; lia|]. intros _.
    apply (shrink_split st _ bs ptr old C IB P1 P3 Ef G1 G2 newsize
                        Mn ltac:(lia) ltac:(lia)).
  - eexists. split; [reflexivity|]. split; [|intros; lia]. intros _.
    apply (shrink_keep st _ bs ptr old C IB P1 P2 P2' P3 G1 G2).
Qed.

(** ** The search, calloc and align_size *)

Lemma scan_result fuel : forall m bp asize hit,
  scan fuel m bp asize = Ok hit ->
  hit = LIST_END \/ (hit <> LIST_END /\ asize <= GET_SIZE m (HDRP hit)).
Proof.
  induction fuel as [|f IH]; cbn; intros m bp asize hit H; [discriminate|].
  destruct (bp =? LIST_END) eqn:E0.
  - left. congruence.
  - destruct (GET_SIZE m (HDRP bp) >=? asize) eqn:E1.
    + right. apply Z.eqb_neq in E0. inversion H. subst hit. split; [exact E0|lia].
    + eapply IH; eauto.
Qed.

Lemma search_loop_result fuel : forall st list bp asize r,
  length (free_lists st) = Z.to_nat NUM_LISTS ->
  0 <= list <= NUM_LISTS ->
  search_loop fuel st list bp asize = Ok r ->
  r = ReadOutOfBounds NUM_LISTS
  \/ exists hit, r = Found hit /\ hit <> NULL
                 /\ asize <= GET_SIZE (mem st) (HDRP hit).
Proof.
  induction fuel as [|f IH]; cbn; intros st list bp asize r L R H;
    [discriminate|].
  unfold NUM_LISTS in *.
  replace (list <? 20 + 1) with true in H by lia.
  destruct (scan f (mem st) bp asize) as [hit|] eqn:Es; cbn in H;
    [|discriminate].
  destruct (scan_result _ _ _ _ _ Es) as [->|[Nz Hz]].
  - change (LIST_END =? LIST_END) with true in H. cbv iota in H.
    destruct (free_lists st !! Z.to_nat list) as [bp'|] eqn:El.
    + apply lookup_lt_Some in El. rewrite L in El.
      apply (IH st (list + 1) bp' asize r L); [lia|exact H].
    + apply lookup_ge_None in El. rewrite L in El.
      left. inversion H. f_equal. lia.
  - replace (hit =? LIST_END) with false in H by (unfold LIST_END in *; lia).
    right. exists hit. inversion H. auto.
Qed.

Lemma search_start_result fuel st asize r :
  length (free_lists st) = Z.to_nat NUM_LISTS ->
  search_start fuel st asize = Ok r ->
  r = ReadOutOfBounds NUM_LISTS
  \/ exists hit, r = Found hit /\ hit <> NULL
                 /\ asize <= GET_SIZE (mem st) (HDRP hit).
Proof.
  intros L H. unfold search_start in H. cbv zeta in H.
  pose proof (get_list_range asize).
  eapply search_loop_result; eauto. unfold NUM_LISTS. lia.
Qed.

Lemma calloc_zero_fills fuel st nmemb size st1 bp :
  malloc fuel st (size_t (nmemb * size)) = Ok (st1, bp) -> bp <> NULL ->
  exists st', calloc fuel st nmemb size = Ok (st', bp)
    /\ (forall a, bp <= a < bp + size_t (nmemb * size) -> mem st' a = 0)
    /\ (forall a, ~ (bp <= a < bp + size_t (nmemb * size)) ->
                  mem st' a = mem st1 a).
Proof.
  intros Hm Nz. unfold calloc. cbv zeta. rewrite Hm. cbn [bind].
  unfold memset.
  destruct (size_t (nmemb * size) =? 0) eqn:E0.
  - apply Z.eqb_eq in E0. rewrite E0. cbn [bind]. eexists. split; [reflexivity|].
    cbn. split; [intros; lia|auto].
  - replace (bp =? NULL) with false by lia. cbn [bind].
    eexists. split; [reflexivity|]. cbn [mem with_mem]. split; intros a Ha.
    + replace ((bp <=? a) && (a <? bp + size_t (nmemb * size))) with true by lia.
      reflexivity.
    + replace ((bp <=? a) && (a <? bp + size_t (nmemb * size))) with false by lia.
      reflexivity.
Qed.

Lemma align_size_covers size :
  0 < size <= 2 ^ 64 - 24 ->
  size + 2 * DSIZE <= align_size size /\ MIN_SIZE <= align_size size
  /\ align_size size mod DSIZE = 0 /\ align_size size < size + 2 * DSIZE + DSIZE + 1.
Proof.
  intros H. unfold align_size, size_t, MIN_SIZE, DSIZE.
  destruct (size <=? 8) eqn:E.
  - repeat split; try lia.
  - rewrite (Z.mod_small (size + 2 * 8 + (8 - 1))) by lia.
    rewrite Z.mod_small by zlia. repeat split; zlia.
Qed.

(** ** Deciding consistency *)

Lemma block_okb_sound m b : block_okb m b = true -> block_ok m b.
Proof.
  unfold block_okb, block_ok. rewrite !andb_true_iff.
  intros [[[H1 H2] H3] H4]. apply Z.eqb_eq in H3.
  split; [lia|]. split; [lia|]. split; [exact H3|lia].
Qed.

Lemma chainb_sound m bs : forall bp stop,
  chainb m bp bs stop = true -> chain m bp bs stop.
Proof.
  induction bs as [|b bs IH]; cbn; intros bp stop H.
  - lia.
  - rewrite !andb_true_iff in H. destruct H as [[H1 H2] H3].
    split; [lia|]. split; [apply block_okb_sound, H2|]. apply IH, H3.
Qed.

Lemma link_okb_sound bs p : link_okb bs p = true -> link_ok bs p.
Proof.
  unfold link_okb, link_ok. rewrite orb_true_iff, existsb_exists.
  intros [H|([q s a] & I & H)].
  - left. unfold NULL in *. lia.
  - right. cbn in H. rewrite andb_true_iff, negb_true_iff in H.
    destruct H as [H ->]. exists s. replace p with q by lia. exact I.
Qed.

Lemma consistentb_sound st bs : consistentb st bs = true -> consistent st bs.
Proof.
  unfold consistentb. rewrite !andb_true_iff.
  intros [[[[[[[[[H1 H2] H3] H4] H5] H6] H7] H8] H9] H10].
  constructor.
  - apply Z.eqb_eq in H2. apply Z.ltb_lt in H1. split; assumption.
  - destruct bs as [|[p s a] rest]; [discriminate|]. cbn in H3.
    rewrite !andb_true_iff in H3. destruct H3 as [[[E1 E2] E3] E4].
    exists rest. split.
    + apply Z.eqb_eq in E1, E2. cbn in E1, E2, E3. subst p s a. reflexivity.
    + apply List.Forall_forall. intros b Ib.
      rewrite forallb_forall in E4. specialize (E4 _ Ib). lia.
  - apply Z.eqb_eq in H5. split; [apply chainb_sound, H4|exact H5].
  - apply Z.ltb_lt in H6. exact H6.
  - exact H7.
  - intros b Ib Fb. rewrite forallb_forall in H8. specialize (H8 _ Ib).
    rewrite Fb in H8. cbn in H8. apply andb_true_iff in H8 as [K1 K2].
    split; apply link_okb_sound; assumption.
  - split; [apply Nat.eqb_eq, H9|].
    apply List.Forall_forall. intros p Ip. rewrite forallb_forall in H10.
    apply link_okb_sound, H10, Ip.
Qed.


Lemma heap_P_consistent : consistent heap_P blocks_P.
Proof. apply consistentb_sound. vm_compute. reflexivity. Qed.

(** ** Helper routines, the checker and mm_init *)

(** Number of binary digits of [s]. *)
Lemma bits_half s :
  0 < s ->
  (if Z.shiftr s 1 =? 0 then 0 else Z.log2 (Z.shiftr s 1) + 1) = Z.log2 s.
Proof.
  intros Hs. destruct (Z.eq_dec s 1) as [->|N]; [reflexivity|].
  assert (H2 : 0 < Z.shiftr s 1).
  { rewrite Z.shiftr_div_pow2 by lia. change (2 ^ 1) with 2. zlia. }
  replace (Z.shiftr s 1 =? 0) with false by lia.
  rewrite Z.log2_shiftr by lia.
  assert (0 < Z.log2 s) by (apply Z.log2_pos; lia). lia.
Qed.

Lemma get_list_loop_bits r : forall l s,
  0 <= l -> 0 <= s -> l + Z.of_nat r = 19 ->
  get_list_loop r l s
  = Z.min 19 (l + (if s =? 0 then 0 else Z.log2 s + 1)).
Proof.
  induction r as [|r IH]; intros l s Hl Hs E; cbn [get_list_loop].
  - pose proof (Z.log2_nonneg s). destruct (s =? 0); lia.
  - unfold NUM_LISTS. replace (l <? 20 - 1) with true by lia. cbn [andb].
    destruct (s >? 0) eqn:Es.
    + rewrite IH; [|lia|apply Z.shiftr_nonneg; lia|lia].
      rewrite bits_half by lia. replace (s =? 0) with false by lia. f_equal. lia.
    + replace s with 0 by lia. cbn. lia.
Qed.

Lemma get_list_bits s :
  0 < s -> get_list s = Z.min (NUM_LISTS - 1) (Z.log2 s + 1).
Proof.
  intros Hs. unfold get_list.
  rewrite (get_list_loop_bits _ 0 s); [|lia|lia|reflexivity].
  replace (s =? 0) with false by lia. reflexivity.
Qed.

Lemma get_list_0 : get_list 0 = 0.
Proof. reflexivity. Qed.

Lemma get_list_mono a b : 0 <= a <= b -> get_list a <= get_list b.
Proof.
  intros H. destruct (Z.eq_dec a 0) as [->|N].
  - rewrite get_list_0. apply get_list_range.
  - rewrite !get_list_bits by lia.
    pose proof (Z.log2_le_mono a b). lia.
Qed.

Lemma PACK_range size alloc :
  0 <= size < 2 ^ 32 -> alloc = 0 \/ alloc = 1 ->
  0 <= PACK size alloc < 2 ^ 32
  /\ PACK size alloc - PACK size alloc mod 8 = size - size mod 8
  /\ (size mod 8 = 0 -> PACK size alloc mod 2 = alloc).
Proof.
  intros R [->| ->]; unfold PACK; [rewrite lor_0|rewrite lor_1]; zlia.
Qed.

Lemma tag_decodes m p size alloc :
  0 <= size < 2 ^ 32 -> alloc = 0 \/ alloc = 1 ->
  GET_SIZE (PUT m p (PACK size alloc)) p = size - size mod 8
  /\ (size mod 8 = 0 -> GET_ALLOC (PUT m p (PACK size alloc)) p = alloc).
Proof.
  intros R A. destruct (PACK_range size alloc R A) as (P1 & P2 & P3).
  rewrite GET_SIZE_eq, GET_ALLOC_eq, GET_PUT_same, uint_small by exact P1.
  split; [exact P2|exact P3].
Qed.

Lemma next_link_decodes m bp next :
  - 2 ^ 31 <= next - bp < 2 ^ 31 ->
  GET_NEXT_FREE (SET_NEXT_FREE m bp next) bp
  = if next =? bp then NULL else next.
Proof.
  intros R. unfold GET_NEXT_FREE, SET_NEXT_FREE. cbv zeta.
  rewrite GET_PUT_same, sint_small by exact R.
  destruct (next =? bp) eqn:E.
  - replace (next - bp =? 0) with true by lia. reflexivity.
  - replace (next - bp =? 0) with false by lia. lia.
Qed.

Lemma PREV_PTR_PUT_self m bp v :
  PREV_PTR (PUT m (PREV_PTR m bp) v) bp = PREV_PTR m bp.
Proof.
  pose proof (GET_SIZE_range m (HDRP bp)) as R.
  pose proof (GET_SIZE_mod8 m (HDRP bp)) as M.
  unfold PREV_PTR at 1. unfold FTRP at 1.
  rewrite (GET_SIZE_congr m _ (HDRP bp) (HDRP bp)); [reflexivity|].
  apply GET_PUT_other. consts. zlia.
Qed.

Lemma prev_link_decodes m bp prev :
  - 2 ^ 31 <= prev - bp < 2 ^ 31 ->
  GET_PREV_FREE (SET_PREV_FREE m bp prev) bp
  = if prev =? bp then NULL else prev.
Proof.
  intros R. unfold GET_PREV_FREE, SET_PREV_FREE. cbv zeta.
  rewrite PREV_PTR_PUT_self, GET_PUT_same, sint_small by exact R.
  destruct (prev =? bp) eqn:E.
  - replace (prev - bp =? 0) with true by lia. reflexivity.
  - replace (prev - bp =? 0) with false by lia. lia.
Qed.

Lemma set_size_stamps m bp asize :
  0 <= asize -> asize mod 8 = 0 ->
  let s := asize mod 2 ^ 32 in
  let m' := set_size m bp asize in
  GET m' (HDRP bp) = s /\ GET m' (bp + s - 4 * WSIZE) = s
  /\ forall a, ~ (bp - 8 <= a < bp - 4) -> ~ (bp + s - 16 <= a < bp + s - 12) ->
               m' a = m a.
Proof.
  intros P M. cbv zeta. unfold set_size. cbv zeta.
  unfold PACK. rewrite lor_0.
  assert (Rs : 0 <= asize mod 2 ^ 32 < 2 ^ 32) by (apply Z.mod_pos_bound; lia).
  assert (Ms : (asize mod 2 ^ 32) mod 8 = 0) by zlia.
  assert (F : FTRP (PUT m (HDRP bp) asize) bp = bp + asize mod 2 ^ 32 - 16).
  { unfold FTRP. rewrite GET_SIZE_eq, GET_PUT_same. unfold uint, WSIZE. lia. }
  rewrite F. unfold HDRP, WSIZE. change (2 * 4) with 8. change (4 * 4) with 16.
  split; [|split].
  - destruct (Z.eq_dec (asize mod 2 ^ 32) 8) as [E|N].
    + replace (bp + asize mod 2 ^ 32 - 16) with (bp - 8) by lia.
      rewrite GET_PUT_same. reflexivity.
    + rewrite GET_PUT_other by zlia. rewrite GET_PUT_same. reflexivity.
  - rewrite GET_PUT_same. reflexivity.
  - intros a N1 N2. rewrite !PUT_byte_other by lia. reflexivity.
Qed.

Lemma set_alloc_free_block m bp s a :
  block_ok m (Blk bp s a) ->
  block_ok (set_alloc m bp) (Blk bp s true)
  /\ block_ok (set_free m bp) (Blk bp s false)
  /\ forall x, ~ (bp - 8 <= x < bp - 4) -> ~ (bp + s - 16 <= x < bp + s - 12) ->
               set_alloc m bp x = m x /\ set_free m bp x = m x.
Proof.
  intros ok. pose proof (block_ok_bounds _ _ ok) as [R M]. cbn in R, M.
  pose proof (set_alloc_eq _ _ ok) as SA. pose proof (set_free_eq _ _ ok) as SF.
  cbn [b_ptr b_size] in SA, SF. rewrite SA, SF.
  assert (R1 : s + 1 < 2 ^ 32) by zlia.
  split; [|split].
  - unfold block_ok, tag. cbn. unfold HDRP, WSIZE, DSIZE.
    change (2 * 4) with 8. change (4 * 4) with 16.
    rewrite GET_PUT_same, GET_PUT_other, GET_PUT_same, !uint_small by lia.
    repeat split; lia.
  - unfold block_ok, tag. cbn. unfold HDRP, WSIZE, DSIZE.
    change (2 * 4) with 8. change (4 * 4) with 16.
    rewrite GET_PUT_same, GET_PUT_other, GET_PUT_same, !uint_small by lia.
    repeat split; lia.
  - intros x N1 N2. rewrite !PUT_byte_other by lia. auto.
Qed.

Lemma testbit_flag c bit f n :
  Z.testbit (flag c bit f) n = Z.testbit f n || (c && Z.testbit bit n).
Proof.
  unfold flag. destruct c; cbn [andb].
  - apply Z.lor_spec.
  - rewrite orb_false_r. reflexivity.
Qed.

Lemma ALIGNED_always m bp : ALIGNED m bp = true.
Proof.
  unfold ALIGNED, DSIZE. rewrite GET_SIZE_mod8. reflexivity.
Qed.

Lemma check_block_bit0 st bp acc :
  Z.testbit (error_flags (check_block st bp acc)) 0
  = Z.testbit (error_flags acc) 0.
Proof.
  unfold check_block. cbv zeta. rewrite ALIGNED_always.
  destruct (GET_ALLOC (mem st) (HDRP bp) =? 0);
    [destruct (GET_NEXT_FREE (mem st) bp =? NULL);
     destruct (GET_PREV_FREE (mem st) bp =? NULL)|];
    cbn [error_flags]; rewrite !testbit_flag; cbn [negb andb];
    change (Z.testbit 1 0) with true; change (Z.testbit 2 0) with false;
    change (Z.testbit 4 0) with false; change (Z.testbit 8 0) with false;
    change (Z.testbit 16 0) with false; change (Z.testbit 32 0) with false;
    change (Z.testbit 64 0) with false; change (Z.testbit 128 0) with false;
    change (Z.testbit 256 0) with false;
    rewrite ?andb_false_r, ?orb_false_r; reflexivity.
Qed.

Lemma check_blocks_bit0 fuel : forall st bp acc acc',
  check_blocks fuel st bp acc = Ok acc' ->
  Z.testbit (error_flags acc') 0 = Z.testbit (error_flags acc) 0.
Proof.
  induction fuel as [|k IH]; cbn [check_blocks]; intros st bp acc acc' H;
    [discriminate|].
  destruct (GET_SIZE (mem st) (HDRP bp) >? 0).
  - rewrite (IH _ _ _ _ H). apply check_block_bit0.
  - inversion H. reflexivity.
Qed.

Lemma checkheap_bit0 fuel st flags :
  mm_checkheap fuel st = Ok flags -> Z.testbit flags 0 = false.
Proof.
  unfold mm_checkheap. cbv zeta. intros H.
  destruct (check_blocks fuel st (heap_listp st) _) as [acc'|e] eqn:E;
    cbn in H; [|discriminate].
  inversion H. subst flags. rewrite (check_blocks_bit0 _ _ _ _ _ E).
  cbn [error_flags]. rewrite testbit_flag. rewrite andb_false_r. reflexivity.
Qed.




Lemma checkheap_prologue_only k st :
  heap_listp st mod 8 = 0 -> mem_start_brk st <= heap_listp st ->
  eptr st = heap_listp st + 8 -> mem_brk st = heap_listp st + 12 ->
  GET (mem st) (heap_listp st - 8) = 17 ->
  GET (mem st) (heap_listp st) = 17 ->
  GET (mem st) (heap_listp st + 8) = 1 ->
  mm_checkheap (S (S k)) st = Ok 0.
Proof.
  intros A Lo Ee Eb G0 G1 G2.
  assert (S0 : GET_SIZE (mem st) (HDRP (heap_listp st)) = 16).
  { unfold HDRP, WSIZE. change (2 * 4) with 8. rewrite GET_SIZE_eq, G0.
    reflexivity. }
  assert (A0 : GET_ALLOC (mem st) (HDRP (heap_listp st)) = 1).
  { unfold HDRP, WSIZE. change (2 * 4) with 8. rewrite GET_ALLOC_eq, G0.
    reflexivity. }
  assert (S2 : GET_SIZE (mem st) (heap_listp st + 8) = 0).
  { rewrite GET_SIZE_eq, G2. reflexivity. }
  assert (A2 : GET_ALLOC (mem st) (heap_listp st + 8) = 1).
  { rewrite GET_ALLOC_eq, G2. reflexivity. }
  unfold mm_checkheap, mem_heap_hi. cbv zeta. rewrite Eb, Ee.
  replace (heap_listp st + 12 - 1 - 3) with (heap_listp st + 8) by lia.
  rewrite S2, A2, Z.eqb_refl. cbn [Z.eqb negb orb flag].
  cbn [check_blocks]. rewrite S0. change (16 >? 0) with true. cbv iota.
  unfold NEXT_BLKP. rewrite S0.
  replace (HDRP (heap_listp st + 16)) with (heap_listp st + 8)
    by (unfold HDRP, WSIZE; lia).
  rewrite S2. change (0 >? 0) with false. cbv iota. cbn [bind]. f_equal.
  unfold check_block. cbv zeta. rewrite A0, S0, ALIGNED_always.
  change (1 =? 0) with false. cbv iota. cbn [error_flags].
  unfold BPALIGNED, HEF, FTRP, mem_heap_lo, mem_heap_hi, DSIZE, WSIZE.
  rewrite S0, A, Eb.
  replace (heap_listp st + 16 - 4 * 4) with (heap_listp st) by lia.
  replace (HDRP (heap_listp st)) with (heap_listp st - 8)
    by (unfold HDRP, WSIZE; lia).
  rewrite G0, G1, Z.eqb_refl.
  replace (heap_listp st <? mem_start_brk st) with false by lia.
  replace (heap_listp st + 16 - 8 >? heap_listp st + 12 - 1) with false by lia.
  rewrite ?Z.eqb_refl. reflexivity.
Qed.

Lemma mm_init_builds st :
  mem_brk st mod 8 = 0 -> 0 <= mem_brk st ->
  mem_start_brk st <= mem_brk st -> mem_brk st + 20 <= mem_max_addr st ->
  exists st1,
    mm_init st = (st1, 0)
    /\ heap_listp st1 = mem_brk st + 8 /\ eptr st1 = mem_brk st + 16
    /\ mem_brk st1 = mem_brk st + 20
    /\ mem_start_brk st1 = mem_start_brk st
    /\ mem_max_addr st1 = mem_max_addr st
    /\ free_lists st1 = replicate (Z.to_nat NUM_LISTS) NULL
    /\ GET (mem st1) (mem_brk st) = 17
    /\ GET (mem st1) (mem_brk st + 8) = 17
    /\ GET (mem st1) (mem_brk st + 16) = 1
    /\ (forall a, a < mem_brk st \/ mem_brk st + 20 <= a ->
                  mem st1 a = mem st a).
Proof.
  intros A P Lo Hi. unfold mm_init, mem_sbrk, WSIZE.
  replace ((5 * 4 <? 0) || (mem_brk st + 5 * 4 >? mem_max_addr st))
    with false by (symmetry; apply orb_false_iff; split; lia).
  cbv iota beta zeta. replace (mem_brk st =? -1) with false by lia.
  eexists. split; [reflexivity|]. cbn.
  unfold PACK. change (Z.lor (4 * 4) 1) with 17. change (Z.lor 0 1) with 1.
  change (1 * 4) with 4. change (2 * 4) with 8. change (3 * 4) with 12.
  change (4 * 4) with 16.
  split; [lia|]. split; [lia|]. split; [reflexivity|].
  split; [reflexivity|]. split; [reflexivity|]. split; [reflexivity|].
  split; [|split; [|split]].
  - rewrite !GET_PUT_other by lia. rewrite GET_PUT_same. reflexivity.
  - rewrite !GET_PUT_other by lia. rewrite GET_PUT_same. reflexivity.
  - rewrite GET_PUT_same. reflexivity.
  - intros a Ha. rewrite !PUT_byte_other by lia. reflexivity.
Qed.

Lemma mm_init_consistent st st1 :
  mem_brk st mod 8 = 0 -> 0 <= mem_brk st ->
  mem_start_brk st <= mem_brk st -> mem_brk st + 20 <= mem_max_addr st ->
  mm_init st = (st1, 0) ->
  consistent st1 [Blk (heap_listp st1) (2 * DSIZE) true].
Proof.
  intros A P Lo Hi E.
  destruct (mm_init_builds st A P Lo Hi)
    as (st1' & E' & Hh & He & Hb & _ & _ & Hf & G0 & G1 & G2 & _).
  rewrite E in E'. inversion E'. subst st1'. clear E'.
  constructor.
  - unfold DSIZE. rewrite Hh. split; zlia.
  - exists []. split; [reflexivity|constructor].
  - split.
    + cbn. unfold block_ok, tag. cbn. unfold HDRP, WSIZE, DSIZE.
      rewrite Hh, He.
      replace (mem_brk st + 8 - 2 * 4) with (mem_brk st) by lia.
      replace (mem_brk st + 8 + 2 * 8 - 4 * 4) with (mem_brk st + 8) by lia.
      rewrite G0, G1. repeat split; lia.
    + rewrite He. exact G2.
  - rewrite Hh, He. lia.
  - reflexivity.
  - intros b [<-|[]] Fb. discriminate.
  - rewrite Hf. split; [reflexivity|]. cbn.
    repeat (constructor; [left; reflexivity|]). constructor.
Qed.

Lemma malloc_no_room fuel st size r :
  heap_listp st <> 0 -> size <> 0 ->
  search_start fuel st (align_size size) = Ok r ->
  (forall hit, r <> Found hit) ->
  mem_max_addr st
  < mem_brk st
    + Z.max CHUNKSIZE
            (size_t (align_size size - SPACE_LEFT (mem st) (eptr st))) ->
  malloc fuel st size = Ok (st, NULL).
Proof.
  intros Hh Hs Es Hr Hm. unfold malloc.
  replace (heap_listp st =? 0) with false by lia.
  replace (size =? 0) with false by lia. cbv zeta.
  unfold search_list. rewrite Es. cbn [bind].
  assert (E : (match r with
               | Found bp => Ok (split st bp (align_size size))
               | _ => Ok (st, NULL)
               end) = Ok (st, NULL)).
  { destruct r as [hit| |i]; [destruct (Hr hit eq_refl)|reflexivity..]. }
  rewrite E. cbn [bind]. change (NULL =? NULL) with true. cbv iota.
  unfold extend_heap. cbv zeta.
  set (s0 := size_t (align_size size - SPACE_LEFT (mem st) (eptr st))) in *.
  unfold mem_sbrk.
  replace ((_ <? 0) || (_ >? mem_max_addr st)) with true.
  - reflexivity.
  - symmetry. apply orb_true_iff. right. change CHUNKSIZE with 256 in *.
    destruct (s0 <? 256) eqn:E1; lia.
Qed.

(** ** Doubly linked lists *)

Lemma dllseg_ext m m' fs : forall p c n,
  (forall x, In x fs -> GET_PREV_FREE m' x = GET_PREV_FREE m x
                        /\ GET_NEXT_FREE m' x = GET_NEXT_FREE m x) ->
  dllseg m p fs c n -> dllseg m' p fs c n.
Proof.
  induction fs as [|x fs IH]; cbn; intros p c n H D; [exact D|].
  destruct D as (E & Nx & Pv & D).
  destruct (H x (or_introl eq_refl)) as [H1 H2].
  split; [exact E|]. split; [exact Nx|]. split; [congruence|].
  rewrite H2. apply IH; auto.
Qed.

Lemma last_default {A : Type} (l : list A) d d' :
  l <> [] -> List.last l d = List.last l d'.
Proof.
  induction l as [|a l IH]; [congruence|]. intros _.
  destruct l as [|b l]; [reflexivity|].
  change (List.last (b :: l) d = List.last (b :: l) d').
  apply IH. discriminate.
Qed.

Lemma last_cons {A : Type} (x : A) (l : list A) d :
  List.last (x :: l) d = List.last l x.
Proof.
  destruct l as [|b l]; [reflexivity|].
  change (List.last (b :: l) d = List.last (b :: l) x).
  apply last_default. discriminate.
Qed.

Lemma dllseg_app m A : forall B p c n,
  dllseg m p (A ++ B) c n <->
  exists mid, dllseg m p A c mid /\ dllseg m (List.last A p) B mid n.
Proof.
  induction A as [|x A IH]; intros B p c n.
  - cbn. split.
    + intros D. exists c. auto.
    + intros (mid & -> & D). exact D.
  - change ((x :: A) ++ B) with (x :: A ++ B). cbn [dllseg].
    rewrite last_cons. split.
    + intros (E & Nx & Pv & D). apply IH in D as (mid & D1 & D2).
      exists mid. auto.
    + intros (mid & (E & Nx & Pv & D1) & D2).
      split; [exact E|]. split; [exact Nx|]. split; [exact Pv|].
      apply IH. exists mid. auto.
Qed.

Lemma dllseg_head m p fs c n :
  dllseg m p fs c n -> c = hd n fs.
Proof. destruct fs; cbn; [auto|tauto]. Qed.

Lemma dllseg_nonnull m fs : forall p c n x,
  dllseg m p fs c n -> In x fs -> x <> NULL.
Proof.
  induction fs as [|y fs IH]; cbn; intros p c n x D I; [tauto|].
  destruct D as (_ & Ny & _ & D). destruct I as [<-|I]; [exact Ny|].
  eapply IH; eauto.
Qed.

(** The links of an element of a list. *)
Lemma dll_links m A x B h :
  dll m (A ++ x :: B) h ->
  GET_PREV_FREE m x = List.last A NULL /\ GET_NEXT_FREE m x = hd NULL B
  /\ h = hd x A.
Proof.
  unfold dll. intros D. apply dllseg_app in D as (mid & D1 & D2).
  cbn in D2. destruct D2 as (E & Nx & Pv & D2).
  split; [exact Pv|]. split; [exact (dllseg_head _ _ _ _ _ D2)|].
  rewrite (dllseg_head _ _ _ _ _ D1). subst mid. reflexivity.
Qed.

Lemma last_In {A : Type} (l : list A) d : l <> [] -> In (List.last l d) l.
Proof.
  induction l as [|a l IH]; [congruence|]. intros _.
  destruct l as [|b l]; [left; reflexivity|].
  right. apply IH. discriminate.
Qed.

(** The segment before a removed element, with its end redirected. *)
Lemma seg_retarget m m' N A : forall p c x,
  dllseg m p A c x ->
  (forall y, In y A -> GET_PREV_FREE m' y = GET_PREV_FREE m y) ->
  (forall y, In y A -> y <> List.last A NULL ->
             GET_NEXT_FREE m' y = GET_NEXT_FREE m y) ->
  (A <> [] -> GET_NEXT_FREE m' (List.last A NULL) = N) ->
  List.NoDup A ->
  dllseg m' p A (hd N A) N.
Proof.
  induction A as [|a A IH]; intros p c x D Hp Hn Hl Nd; [reflexivity|].
  cbn [dllseg hd] in *. destruct D as (E & Na & Pa & D).
  split; [reflexivity|]. split; [exact Na|].
  split; [rewrite Hp by (left; reflexivity); exact Pa|].
  apply List.NoDup_cons_iff in Nd as [Nin Nd'].
  destruct A as [|b A].
  - cbn in D. cbn. apply Hl. discriminate.
  - assert (Eb : GET_NEXT_FREE m' a = b).
    { rewrite Hn; [|left; reflexivity|].
      - cbn in D. tauto.
      - intros Hc. apply Nin. rewrite Hc.
        change (List.last (a :: b :: A) NULL) with (List.last (b :: A) NULL).
        apply last_In. discriminate. }
    rewrite Eb.
    change b with (hd N (b :: A)) at 1.
    apply (IH a (GET_NEXT_FREE m a) x D).
    + intros y I. apply Hp. right. exact I.
    + intros y I Ny. apply Hn; [right; exact I|exact Ny].
    + intros _. apply Hl. discriminate.
    + exact Nd'.
Qed.

(** The segment behind a removed element, with its first back link
    redirected. *)
Lemma seg_reprev m m' P B : forall p c n,
  dllseg m p B c n ->
  (forall y, In y B -> GET_NEXT_FREE m' y = GET_NEXT_FREE m y) ->
  (forall y, In y (tl B) -> GET_PREV_FREE m' y = GET_PREV_FREE m y) ->
  (B <> [] -> GET_PREV_FREE m' (hd NULL B) = P) ->
  dllseg m' P B c n.
Proof.
  intros p c n D Hn Hp Hh. destruct B as [|b B]; [exact D|].
  cbn [dllseg] in *. destruct D as (E & Nb & Pb & D).
  split; [exact E|]. split; [exact Nb|].
  split; [apply Hh; discriminate|].
  rewrite Hn by (left; reflexivity).
  apply (dllseg_ext m m' B); [|exact D].
  intros y I. split; [apply Hp; exact I|apply Hn; right; exact I].
Qed.

Lemma NoDup_app_inv {A : Type} (l1 l2 : list A) :
  List.NoDup (l1 ++ l2) ->
  List.NoDup l1 /\ List.NoDup l2 /\ (forall x, In x l1 -> ~ In x l2).
Proof.
  induction l1 as [|a l1 IH]; cbn; intros H.
  - split; [constructor|]. split; [exact H|]. tauto.
  - inversion H as [|? ? Nin Nd]. subst. destruct (IH Nd) as (H1 & H2 & H3).
    split; [constructor; [|exact H1]|].
    + intros I. apply Nin. apply in_or_app. left. exact I.
    + split; [exact H2|]. intros x [<-|I] I2.
      * apply Nin. apply in_or_app. right. exact I2.
      * exact (H3 x I I2).
Qed.

(** Removing one element from a list, given how the links changed. *)
Lemma dll_remove m m' A x B h :
  dll m (A ++ x :: B) h -> List.NoDup (A ++ x :: B) ->
  (forall y, In y (A ++ B) ->
     GET_PREV_FREE m' y
     = (if (negb (hd NULL B =? NULL)) && (y =? hd NULL B)
        then List.last A NULL else GET_PREV_FREE m y)
     /\ GET_NEXT_FREE m' y
        = (if (negb (List.last A NULL =? NULL)) && (y =? List.last A NULL)
           then hd NULL B else GET_NEXT_FREE m y)) ->
  dll m' (A ++ B) (if List.last A NULL =? NULL then hd NULL B else h).
Proof.
  intros D Nd H.
  assert (NN : forall y, In y (A ++ x :: B) -> y <> NULL)
    by (intros y; apply (dllseg_nonnull _ _ _ _ _ _ D)).
  apply NoDup_app_inv in Nd as (NdA & NdxB & Dis).
  apply List.NoDup_cons_iff in NdxB as [NxB NdB].
  pose proof (dll_links _ _ _ _ _ D) as (Lp & Ln & Lh).
  unfold dll in *. apply dllseg_app in D as (mid & D1 & D2).
  cbn [dllseg] in D2. destruct D2 as (-> & Nx & Px & D2).
  assert (HA : A <> [] -> In (List.last A NULL) A) by (apply last_In).
  assert (HlA : A <> [] -> List.last A NULL <> NULL).
  { intros Ne. apply NN. apply in_or_app. left. auto. }
  assert (HB : B <> [] -> In (hd NULL B) B).
  { destruct B; [congruence|]. left. reflexivity. }
  assert (HhB : B <> [] -> hd NULL B <> NULL).
  { intros Ne. apply NN. apply in_or_app. right. right. auto. }
  apply dllseg_app. exists (hd NULL B). split.
  - replace (if List.last A NULL =? NULL then hd NULL B else h)
      with (hd (hd NULL B) A).
    + apply (seg_retarget m m' (hd NULL B) A NULL h x D1); [| | |exact NdA].
      * intros y I. destruct (H y) as [H1 _]; [apply in_or_app; auto|].
        rewrite H1. destruct (negb (hd NULL B =? NULL)) eqn:E1; [|reflexivity].
        destruct (y =? hd NULL B) eqn:E2; [|reflexivity].
        exfalso. apply Z.eqb_eq in E2. subst y.
        apply (Dis _ I). right. apply HB. intros ->. cbn in E1. discriminate.
      * intros y I Ny. destruct (H y) as [_ H2]; [apply in_or_app; auto|].
        rewrite H2. replace (y =? List.last A NULL) with false by lia.
        rewrite andb_false_r. reflexivity.
      * intros Ne. destruct (H (List.last A NULL)) as [_ H2];
          [apply in_or_app; auto|].
        rewrite H2. rewrite Z.eqb_refl.
        replace (List.last A NULL =? NULL) with false
          by (specialize (HlA Ne); lia).
        reflexivity.
    + destruct A as [|a A].
      * reflexivity.
      * replace (List.last (a :: A) NULL =? NULL) with false
          by (assert (X := HlA ltac:(discriminate)); lia).
        cbn [hd]. rewrite Lh. reflexivity.
  - assert (Elast : List.last A NULL = List.last A NULL) by reflexivity.
    apply (seg_reprev m m' (List.last A NULL) B x _ NULL).
    + rewrite <- Ln. exact D2.
    + intros y I. destruct (H y) as [_ H2]; [apply in_or_app; auto|].
      rewrite H2. destruct (negb (List.last A NULL =? NULL)) eqn:E1;
        [|reflexivity].
      destruct (y =? List.last A NULL) eqn:E2; [|reflexivity].
      exfalso. apply Z.eqb_eq in E2. subst y.
      assert (Ne : A <> []) by (intros ->; cbn in E1; discriminate).
      apply (Dis _ (HA Ne)). right. exact I.
    + intros y I. destruct (H y) as [H1 _].
      { apply in_or_app. right. destruct B; [destruct I|right; exact I]. }
      rewrite H1. destruct B as [|b B]; [destruct I|]. cbn [hd tl] in *.
      replace (y =? b) with false; [rewrite andb_false_r; reflexivity|].
      symmetry. apply Z.eqb_neq. intros ->.
      apply List.NoDup_cons_iff in NdB. tauto.
    + intros Ne. destruct (H (hd NULL B)) as [H1 _];
        [apply in_or_app; auto|].
      rewrite H1, Z.eqb_refl.
      replace (hd NULL B =? NULL) with false by (specialize (HhB Ne); lia).
      reflexivity.
Qed.

(** Putting a new element in front of a list. *)
Lemma dll_cons m m' x fs h :
  dll m fs h -> x <> NULL -> ~ In x fs ->
  GET_PREV_FREE m' x = NULL -> GET_NEXT_FREE m' x = h ->
  (forall y, In y fs -> GET_NEXT_FREE m' y = GET_NEXT_FREE m y) ->
  (forall y, In y (tl fs) -> GET_PREV_FREE m' y = GET_PREV_FREE m y) ->
  (fs <> [] -> GET_PREV_FREE m' (hd NULL fs) = x) ->
  dll m' (x :: fs) x.
Proof.
  intros D Nx Nin Px Ex Hn Hp Hh. unfold dll in *. cbn [dllseg].
  split; [reflexivity|]. split; [exact Nx|]. split; [exact Px|].
  rewrite Ex. apply (seg_reprev m m' x fs NULL h NULL D Hn Hp Hh).
Qed.

Lemma in_remove_mid (A B : list Z) x :
  List.NoDup (A ++ x :: B) ->
  forall y, In y (A ++ B) <-> In y (A ++ x :: B) /\ y <> x.
Proof.
  intros Nd y. apply NoDup_app_inv in Nd as (_ & NdxB & Dis).
  apply List.NoDup_cons_iff in NdxB as [NxB _].
  rewrite !in_app_iff. cbn [In]. split.
  - intros [I|I].
    + split; [left; exact I|]. intros ->. apply (Dis _ I). left. reflexivity.
    + split; [right; right; exact I|]. intros ->. exact (NxB I).
  - intros [[I|[I|I]] Ny]; [left; exact I|congruence|right; exact I].
Qed.

Lemma NoDup_remove_mid (A B : list Z) x :
  List.NoDup (A ++ x :: B) -> List.NoDup (A ++ B).
Proof. apply List.NoDup_remove_1. Qed.

(** ** Link words of a tiled heap *)

(** Reading links after a store. *)
Lemma nx_PUT_other m c v y :
  c + 4 <= y - 4 \/ y <= c ->
  GET_NEXT_FREE (PUT m c v) y = GET_NEXT_FREE m y.
Proof.
  intros H. unfold GET_NEXT_FREE, NEXT_PTR, HDRP, WSIZE. cbv zeta.
  rewrite GET_PUT_other by lia. reflexivity.
Qed.

Lemma hdr_PUT_other m c v y :
  c + 4 <= y - 8 \/ y - 4 <= c ->
  GET_SIZE (PUT m c v) (HDRP y) = GET_SIZE m (HDRP y).
Proof.
  intros H. apply GET_SIZE_congr. apply GET_PUT_other.
  unfold HDRP, WSIZE. lia.
Qed.

Lemma pv_PUT_other m c v y :
  c + 4 <= y - 8 \/ y - 4 <= c ->
  c + 4 <= y + GET_SIZE m (HDRP y) - 12
  \/ y + GET_SIZE m (HDRP y) - 8 <= c ->
  GET_PREV_FREE (PUT m c v) y = GET_PREV_FREE m y.
Proof.
  intros H1 H2. unfold GET_PREV_FREE, PREV_PTR, FTRP. cbv zeta.
  rewrite hdr_PUT_other by exact H1.
  rewrite GET_PUT_other by (unfold WSIZE; lia). reflexivity.
Qed.

Lemma nx_PUT_same m y v :
  - 2 ^ 31 <= v < 2 ^ 31 ->
  GET_NEXT_FREE (PUT m (y - 4) v) y = if v =? 0 then 0 else y + v.
Proof.
  intros R. unfold GET_NEXT_FREE, NEXT_PTR, HDRP, WSIZE. cbv zeta.
  replace (y - 2 * 4 + 4) with (y - 4) by lia.
  rewrite GET_PUT_same, sint_small by exact R. reflexivity.
Qed.

Lemma pv_PUT_same m y s v :
  GET_SIZE m (HDRP y) = s -> 8 <= s \/ s = 0 -> - 2 ^ 31 <= v < 2 ^ 31 ->
  GET_PREV_FREE (PUT m (y + s - 12) v) y = if v =? 0 then 0 else y + v.
Proof.
  intros Hs Rs R. unfold GET_PREV_FREE, PREV_PTR, FTRP. cbv zeta.
  rewrite hdr_PUT_other by lia. rewrite Hs. unfold WSIZE.
  replace (y + s - 4 * 4 + 4) with (y + s - 12) by lia.
  rewrite GET_PUT_same, sint_small by exact R. reflexivity.
Qed.

(** Blocks of a tiling. *)
Section Tiling.

Variables (m : memory) (hl stop : Z) (bs : list blk).
Hypothesis Hch : chain m hl bs stop.
Hypothesis Hal : hl mod 8 = 0.

Lemma tiling_block b :
  In b bs ->
  block_ok m b /\ b_ptr b mod 8 = 0 /\ b_size b mod 8 = 0
  /\ 16 <= b_size b < 2 ^ 32 /\ hl <= b_ptr b /\ b_ptr b + b_size b <= stop
  /\ GET_SIZE m (HDRP (b_ptr b)) = b_size b.
Proof.
  intros I. destruct (chain_In _ _ _ _ _ Hch I) as (K1 & K2 & K3 & K4).
  pose proof (block_ok_bounds _ _ K1) as [R M].
  pose proof (block_ok_size _ _ K1).
  repeat (split; [solve [auto | lia]|]). assumption.
Qed.

Lemma tiling_apart b1 b2 :
  In b1 bs -> In b2 bs ->
  b1 = b2 \/ b_ptr b1 + b_size b1 <= b_ptr b2
  \/ b_ptr b2 + b_size b2 <= b_ptr b1.
Proof. apply (chain_disjoint _ _ _ _ _ _ Hch). Qed.

Lemma tiling_unique x s a s' a' :
  In (Blk x s a) bs -> In (Blk x s' a') bs -> s = s' /\ a = a'.
Proof.
  intros I1 I2. destruct (tiling_apart _ _ I1 I2) as [E|D].
  - inversion E. auto.
  - destruct (tiling_block _ I1) as (_ & _ & _ & R1 & _).
    destruct (tiling_block _ I2) as (_ & _ & _ & R2 & _).
    cbn in *. lia.
Qed.

(** A store into a link word leaves the tiling and every other link. *)
Lemma tiling_link_store c v :
  c mod 8 = 4 -> chain (PUT m c v) hl bs stop.
Proof.
  intros Hc. apply (chain_frame m _ bs hl stop Hch Hal).
  intros q Q _. apply GET_PUT_other. zlia.
Qed.

Lemma next_store_view z v y :
  In z bs -> In y bs ->
  GET_PREV_FREE (PUT m (b_ptr z - 4) v) (b_ptr y) = GET_PREV_FREE m (b_ptr y)
  /\ (y <> z ->
      GET_NEXT_FREE (PUT m (b_ptr z - 4) v) (b_ptr y)
      = GET_NEXT_FREE m (b_ptr y)).
Proof.
  intros Iz Iy.
  destruct (tiling_block _ Iz) as (_ & Az & Mz & Rz & _).
  destruct (tiling_block _ Iy) as (_ & Ay & My & Ry & _ & _ & Sy).
  pose proof (tiling_apart _ _ Iy Iz) as D.
  split.
  - apply pv_PUT_other; [zlia|]. rewrite Sy.
    destruct D as [->|D]; lia.
  - intros Ne. apply nx_PUT_other.
    destruct D as [->|D]; [congruence|]. lia.
Qed.

Lemma prev_store_view z v y :
  In z bs -> In y bs ->
  GET_NEXT_FREE (PUT m (b_ptr z + b_size z - 12) v) (b_ptr y)
  = GET_NEXT_FREE m (b_ptr y)
  /\ (y <> z ->
      GET_PREV_FREE (PUT m (b_ptr z + b_size z - 12) v) (b_ptr y)
      = GET_PREV_FREE m (b_ptr y)).
Proof.
  intros Iz Iy.
  destruct (tiling_block _ Iz) as (_ & Az & Mz & Rz & _).
  destruct (tiling_block _ Iy) as (_ & Ay & My & Ry & _ & _ & Sy).
  pose proof (tiling_apart _ _ Iy Iz) as D.
  split.
  - apply nx_PUT_other. destruct D as [->|D]; lia.
  - intros Ne. apply pv_PUT_other; [zlia|]. rewrite Sy.
    destruct D as [->|D]; [congruence|]. lia.
Qed.

End Tiling.

Lemma delete_block_mem st x P N sN :
  GET_PREV_FREE (mem st) x = P -> GET_NEXT_FREE (mem st) x = N ->
  (N <> 0 -> N mod 8 = 0 /\ GET_SIZE (mem st) (HDRP N) = sN) ->
  (P <> 0 -> P mod 8 = 0) ->
  let l := get_list (GET_SIZE (mem st) (HDRP x)) in
  mem (delete_block st x)
  = (if P =? 0
     then (if N =? 0 then mem st else PUT (mem st) (N + sN - 12) 0)
     else if N =? 0 then PUT (mem st) (P - 4) 0
          else PUT (PUT (mem st) (P - 4) (N - P)) (N + sN - 12) (P - N))
  /\ free_lists (delete_block st x)
     = (if P =? 0 then <[Z.to_nat l := N]> (free_lists st)
        else free_lists st)
  /\ heap_listp (delete_block st x) = heap_listp st
  /\ eptr (delete_block st x) = eptr st
  /\ mem_brk (delete_block st x) = mem_brk st
  /\ mem_start_brk (delete_block st x) = mem_start_brk st
  /\ mem_max_addr (delete_block st x) = mem_max_addr st.
Proof.
  intros EP EN HN HP l. unfold delete_block. cbv zeta. rewrite EP, EN.
  fold l. unfold LIST_END. clear EP EN.
  destruct (P =? 0) eqn:E1; destruct (N =? 0) eqn:E2; cbn [andb];
    cbn [mem free_lists heap_listp eptr mem_brk mem_start_brk mem_max_addr
         set_list_head with_mem with_free_lists].
  - apply Z.eqb_eq in E2. subst N. unfold NULL. auto 10.
  - destruct HN as [AN SN]; [lia|].
    unfold SET_PREV_FREE. rewrite (PREV_PTR_eq _ _ _ SN), Z.sub_diag. auto 10.
  - unfold SET_NEXT_FREE, NEXT_PTR, HDRP, WSIZE.
    replace (P - 2 * 4 + 4) with (P - 4) by lia. rewrite Z.sub_diag. auto 10.
  - destruct HN as [AN SN]; [lia|]. specialize (HP ltac:(lia)).
    unfold SET_PREV_FREE, SET_NEXT_FREE, NEXT_PTR, HDRP, WSIZE.
    replace (P - 2 * 4 + 4) with (P - 4) by lia.
    rewrite (PREV_PTR_eq _ N sN).
    + auto 10.
    + rewrite <- SN. apply GET_SIZE_PUT_link; [zlia|].
      unfold HDRP, WSIZE. zlia.
Qed.

Lemma tiling_ptr_inj m hl stop bs y z :
  chain m hl bs stop -> hl mod 8 = 0 ->
  In y bs -> In z bs -> b_ptr y = b_ptr z -> y = z.
Proof.
  intros Hch Hal Iy Iz E. destruct y as [y sy ay], z as [z sz az]. cbn in E.
  subst z. destruct (tiling_unique m hl stop bs Hch Hal y sy ay sz az Iy Iz).
  congruence.
Qed.

(** How the links of the blocks read after [delete_block] took a block
    with neighbours [P] and [N] (each possibly null) out of its list. *)
Lemma delete_view m hl stop bs bP bN P N :
  chain m hl bs stop -> hl mod 8 = 0 -> stop - hl <= 2 ^ 31 + 8 ->
  (P <> 0 -> In bP bs /\ b_ptr bP = P) ->
  (N <> 0 -> In bN bs /\ b_ptr bN = N) ->
  (P <> 0 -> N <> 0 -> P <> N) ->
  let m' := if P =? 0
            then (if N =? 0 then m else PUT m (N + b_size bN - 12) 0)
            else if N =? 0 then PUT m (P - 4) 0
                 else PUT (PUT m (P - 4) (N - P)) (N + b_size bN - 12) (P - N)
  in
  chain m' hl bs stop
  /\ (forall q, q mod 8 = 0 -> GET m' q = GET m q)
  /\ (forall a, ~ (P <> 0 /\ P - 4 <= a < P) ->
                ~ (N <> 0 /\ N + b_size bN - 12 <= a < N + b_size bN - 8) ->
                m' a = m a)
  /\ forall y, In y bs ->
       GET_PREV_FREE m' (b_ptr y)
       = (if negb (N =? 0) && (b_ptr y =? N) then P
          else GET_PREV_FREE m (b_ptr y))
       /\ GET_NEXT_FREE m' (b_ptr y)
          = (if negb (P =? 0) && (b_ptr y =? P) then N
             else GET_NEXT_FREE m (b_ptr y)).
Proof.
  intros Hch Hal Hext HP HN HPN.
  destruct (P =? 0) eqn:E1; destruct (N =? 0) eqn:E2; cbv zeta; cbn [negb andb].
  - split; [exact Hch|]. split; [auto|]. split; [auto|]. auto.
  - destruct HN as [IN EN]; [lia|].
    destruct (tiling_block m hl stop bs Hch Hal bN IN)
      as (_ & AN & MN & RN & _ & _ & SN).
    rewrite <- EN.
    split; [apply tiling_link_store; auto; zlia|].
    split; [intros q Q; apply GET_PUT_other; zlia|].
    split; [intros a _ Ha; apply PUT_byte_other; lia|].
    intros y Iy.
    destruct (prev_store_view m hl stop bs Hch Hal bN 0 y IN Iy) as [V1 V2].
    split; [|exact V1].
    destruct (b_ptr y =? b_ptr bN) eqn:Ey.
    + apply Z.eqb_eq in Ey. rewrite Ey.
      rewrite (pv_PUT_same m (b_ptr bN) (b_size bN) 0 SN) by lia.
      cbn. lia.
    + apply V2. intros ->. lia.
  - destruct HP as [IP EP]; [lia|].
    destruct (tiling_block m hl stop bs Hch Hal bP IP)
      as (_ & AP & MP & RP & _ & _ & SP).
    rewrite <- EP.
    split; [apply tiling_link_store; auto; zlia|].
    split; [intros q Q; apply GET_PUT_other; zlia|].
    split; [intros a Ha _; apply PUT_byte_other; lia|].
    intros y Iy.
    destruct (next_store_view m hl stop bs Hch Hal bP 0 y IP Iy) as [V1 V2].
    split; [exact V1|].
    destruct (b_ptr y =? b_ptr bP) eqn:Ey.
    + apply Z.eqb_eq in Ey. rewrite Ey.
      rewrite (nx_PUT_same m (b_ptr bP) 0) by lia. cbn. lia.
    + apply V2. intros ->. lia.
  - destruct HP as [IP EP]; [lia|]. destruct HN as [IN EN]; [lia|].
    specialize (HPN ltac:(lia) ltac:(lia)).
    destruct (tiling_block m hl stop bs Hch Hal bP IP)
      as (_ & AP & MP & RP & LP & UP & SP).
    destruct (tiling_block m hl stop bs Hch Hal bN IN)
      as (_ & AN & MN & RN & LN & UN & SN).
    rewrite <- EP, <- EN. rewrite <- EP, <- EN in HPN.
    set (m1 := PUT m (b_ptr bP - 4) (b_ptr bN - b_ptr bP)).
    assert (Hch1 : chain m1 hl bs stop)
      by (apply tiling_link_store; auto; zlia).
    assert (SN1 : GET_SIZE m1 (HDRP (b_ptr bN)) = b_size bN).
    { rewrite <- SN. apply GET_SIZE_PUT_link; [zlia|]. unfold HDRP, WSIZE. zlia. }
    split; [apply tiling_link_store; auto; zlia|].
    split.
    { intros q Q. unfold m1. rewrite !GET_PUT_other by zlia. reflexivity. }
    split.
    { intros a H1 H2. unfold m1. rewrite !PUT_byte_other by lia. reflexivity. }
    intros y Iy.
    destruct (next_store_view m hl stop bs Hch Hal bP (b_ptr bN - b_ptr bP)
                y IP Iy) as [V1 V2].
    destruct (prev_store_view m1 hl stop bs Hch1 Hal bN (b_ptr bP - b_ptr bN)
                y IN Iy) as [W1 W2].
    fold m1 in V1, V2. split.
    + destruct (b_ptr y =? b_ptr bN) eqn:Ey.
      * apply Z.eqb_eq in Ey. rewrite Ey.
        rewrite (pv_PUT_same m1 (b_ptr bN) (b_size bN) _ SN1) by lia.
        replace (b_ptr bP - b_ptr bN =? 0) with false by lia. lia.
      * rewrite W2 by (intros ->; lia). exact V1.
    + rewrite W1. destruct (b_ptr y =? b_ptr bP) eqn:Ey.
      * apply Z.eqb_eq in Ey. rewrite Ey. unfold m1.
        rewrite (nx_PUT_same m (b_ptr bP)) by lia.
        replace (b_ptr bN - b_ptr bP =? 0) with false by lia. lia.
      * apply V2. intros ->. lia.
Qed.

(** How the links read after [add_block] put the block [x] in front of
    the list that started with [H] (possibly null). *)
Lemma add_view m hl stop bs bx bH H :
  chain m hl bs stop -> hl mod 8 = 0 -> stop - hl <= 2 ^ 31 + 8 ->
  In bx bs -> (H <> 0 -> In bH bs /\ b_ptr bH = H) -> H <> b_ptr bx ->
  let x := b_ptr bx in
  let m' := if H =? 0
            then PUT (PUT m (x + b_size bx - 12) 0) (x - 4) 0
            else PUT (PUT (PUT m (H + b_size bH - 12) (x - H)) (x - 4) (H - x))
                     (x + b_size bx - 12) 0
  in
  chain m' hl bs stop
  /\ (forall q, q mod 8 = 0 -> GET m' q = GET m q)
  /\ (forall a, ~ (x - 4 <= a < x) ->
                ~ (x + b_size bx - 12 <= a < x + b_size bx - 8) ->
                ~ (H <> 0 /\ H + b_size bH - 12 <= a < H + b_size bH - 8) ->
                m' a = m a)
  /\ forall y, In y bs ->
       GET_PREV_FREE m' (b_ptr y)
       = (if b_ptr y =? x then 0
          else if negb (H =? 0) && (b_ptr y =? H) then x
               else GET_PREV_FREE m (b_ptr y))
       /\ GET_NEXT_FREE m' (b_ptr y)
          = (if b_ptr y =? x then H else GET_NEXT_FREE m (b_ptr y)).
Proof.
  intros Hch Hal Hext Ix HH Hne x.
  destruct (tiling_block m hl stop bs Hch Hal bx Ix)
    as (_ & Ax & Mx & Rx & Lx & Ux & Sx).
  fold x in Ax, Rx, Lx, Ux, Sx, Hne.
  destruct (H =? 0) eqn:E1; cbv zeta; cbn [negb andb].
  - apply Z.eqb_eq in E1. subst H.
    set (m1 := PUT m (x + b_size bx - 12) 0).
    assert (Hch1 : chain m1 hl bs stop)
      by (apply tiling_link_store; auto; zlia).
    split; [apply tiling_link_store; auto; zlia|].
    split.
    { intros q Q. unfold m1. rewrite !GET_PUT_other by zlia. reflexivity. }
    split.
    { intros a H1 H2 _. unfold m1. rewrite !PUT_byte_other by lia. reflexivity. }
    intros y Iy.
    destruct (prev_store_view m hl stop bs Hch Hal bx 0 y Ix Iy) as [V1 V2].
    destruct (next_store_view m1 hl stop bs Hch1 Hal bx 0 y Ix Iy) as [W1 W2].
    fold x in V1, V2, W1, W2. fold m1 in V1, V2.
    assert (Sx1 : GET_SIZE m (HDRP x) = b_size bx) by exact Sx.
    split.
    + rewrite W1. destruct (b_ptr y =? x) eqn:Ey.
      * apply Z.eqb_eq in Ey. rewrite Ey. unfold m1.
        rewrite (pv_PUT_same m x (b_size bx) 0 Sx1) by lia. reflexivity.
      * apply V2. intros ->. fold x in Ey. lia.
    + destruct (b_ptr y =? x) eqn:Ey.
      * apply Z.eqb_eq in Ey. rewrite Ey.
        rewrite (nx_PUT_same m1 x 0) by lia. reflexivity.
      * rewrite W2 by (intros ->; fold x in Ey; lia). exact V1.
  - destruct HH as [IH EH]; [lia|].
    destruct (tiling_block m hl stop bs Hch Hal bH IH)
      as (_ & AH & MH & RH & LH & UH & SH).
    rewrite <- EH. rewrite <- EH in Hne.
    set (h := b_ptr bH) in *.
    set (m1 := PUT m (h + b_size bH - 12) (x - h)).
    set (m2 := PUT m1 (x - 4) (h - x)).
    assert (Hch1 : chain m1 hl bs stop)
      by (apply tiling_link_store; auto; zlia).
    assert (Hch2 : chain m2 hl bs stop)
      by (apply tiling_link_store; auto; zlia).
    assert (Sx2 : GET_SIZE m2 (HDRP x) = b_size bx).
    { rewrite <- Sx. unfold m2, m1.
      rewrite !GET_SIZE_PUT_link; try reflexivity; try zlia;
        unfold HDRP, WSIZE; zlia. }
    assert (SH0 : GET_SIZE m (HDRP h) = b_size bH) by exact SH.
    split; [apply tiling_link_store; auto; zlia|].
    split.
    { intros q Q. unfold m2, m1. rewrite !GET_PUT_other by zlia. reflexivity. }
    split.
    { intros a H1 H2 H3. unfold m2, m1.
      rewrite !PUT_byte_other by lia. reflexivity. }
    intros y Iy.
    destruct (prev_store_view m hl stop bs Hch Hal bH (x - h) y IH Iy)
      as [V1 V2].
    destruct (next_store_view m1 hl stop bs Hch1 Hal bx (h - x) y Ix Iy)
      as [W1 W2].
    destruct (prev_store_view m2 hl stop bs Hch2 Hal bx 0 y Ix Iy)
      as [U1 U2].
    fold x h in V1, V2, W1, W2, U1, U2. fold m1 in V1, V2, W1, W2.
    fold m2 in W1, W2, U1, U2.
    split.
    + destruct (b_ptr y =? x) eqn:Ey.
      * apply Z.eqb_eq in Ey. rewrite Ey.
        rewrite (pv_PUT_same m2 x (b_size bx) 0 Sx2) by lia. reflexivity.
      * rewrite U2 by (intros ->; fold x in Ey; lia). rewrite W1.
        destruct (b_ptr y =? h) eqn:Eh.
        -- apply Z.eqb_eq in Eh. rewrite Eh. unfold m1.
           rewrite (pv_PUT_same m h (b_size bH) _ SH0) by lia.
           replace (x - h =? 0) with false by lia. lia.
        -- apply V2. intros ->. fold h in Eh. lia.
    + rewrite U1. destruct (b_ptr y =? x) eqn:Ey.
      * apply Z.eqb_eq in Ey. rewrite Ey. unfold m2.
        rewrite (nx_PUT_same m1 x) by lia.
        replace (h - x =? 0) with false by lia. lia.
      * rewrite W2 by (intros ->; fold x in Ey; lia). exact V1.
Qed.

Lemma add_block_others st x :
  mem_max_addr (add_block st x) = mem_max_addr st.
Proof. reflexivity. Qed.

(** ** delete_block and add_block keep the lists well formed *)

Lemma wf_chain st bs fl :
  wf st bs fl ->
  chain (mem st) (heap_listp st) bs (eptr st + 8)
  /\ heap_listp st mod 8 = 0
  /\ eptr st + 8 - heap_listp st <= 2 ^ 31 + 8
  /\ GET (mem st) (eptr st) = 1.
Proof.
  intros W. destruct (wf_tiled _ _ _ W) as [Hch He].
  destruct (wf_base _ _ _ W) as [_ Hal].
  destruct (wf_brk _ _ _ W) as [Hb Hm]. pose proof (wf_room _ _ _ W).
  unfold WSIZE in *. change (2 * 4) with 8 in Hch. repeat split; auto; lia.
Qed.

Lemma wf_block st bs fl b :
  wf st bs fl -> In b bs ->
  block_ok (mem st) b /\ b_ptr b mod 8 = 0 /\ b_size b mod 8 = 0
  /\ 16 <= b_size b <= 2 ^ 31 + 8 /\ heap_listp st <= b_ptr b
  /\ b_ptr b + b_size b <= eptr st + 8
  /\ GET_SIZE (mem st) (HDRP (b_ptr b)) = b_size b.
Proof.
  intros W I. destruct (wf_chain _ _ _ W) as (Hch & Hal & Hext & _).
  destruct (tiling_block _ _ _ _ Hch Hal b I) as (K1 & K2 & K3 & K4 & K5 & K6 & K7).
  destruct (wf_base _ _ _ W) as [Hp _].
  repeat (split; [solve [auto | lia]|]). assumption.
Qed.

Lemma wf_member st bs fl l x :
  wf st bs fl -> 0 <= l < NUM_LISTS -> In x (fl l) ->
  exists s, In (Blk x s false) bs /\ get_list s = l /\ x <> 0.
Proof.
  intros W Hl I. destruct (wf_members _ _ _ W l x Hl I) as (s & Is & Gs).
  exists s. split; [exact Is|]. split; [exact Gs|].
  destruct (wf_block _ _ _ _ W Is) as (_ & _ & _ & _ & Lo & _).
  destruct (wf_base _ _ _ W). cbn in Lo. lia.
Qed.

Lemma list_head_lists st st' :
  free_lists st' = free_lists st -> forall i, list_head st' i = list_head st i.
Proof. intros E i. unfold list_head. rewrite E. reflexivity. Qed.

Lemma list_head_insert st st' l v i :
  free_lists st' = <[Z.to_nat l := v]> (free_lists st) ->
  0 <= l -> 0 <= i -> (Z.to_nat l < length (free_lists st))%nat ->
  list_head st' i = if i =? l then v else list_head st i.
Proof.
  intros E Hl Hi Hlen. unfold list_head. rewrite E.
  destruct (i =? l) eqn:Ei.
  - apply Z.eqb_eq in Ei. subst i.
    rewrite list_lookup_insert_eq by exact Hlen. reflexivity.
  - rewrite list_lookup_insert_ne by lia. reflexivity.
Qed.

(** [delete_block] takes a listed block out of its list and leaves
    everything else in place. *)
Lemma wf_delete st bs fl x s :
  wf st bs fl -> In (Blk x s false) bs -> In x (fl (get_list s)) ->
  exists fs',
    (forall y, In y fs' <-> In y (fl (get_list s)) /\ y <> x)
    /\ wf (delete_block st x) bs (bucket_upd fl (get_list s) fs')
    /\ (forall q, q mod 8 = 0 ->
                  GET (mem (delete_block st x)) q = GET (mem st) q)
    /\ (forall a, outside_free bs a -> mem (delete_block st x) a = mem st a).
Proof.
  intros W Ix Il.
  pose proof (get_list_range s) as Rl. set (l := get_list s) in *.
  assert (Rl' : 0 <= l < NUM_LISTS) by (unfold NUM_LISTS; lia).
  destruct (wf_chain _ _ _ W) as (Hch & Hal & Hext & Hep).
  destruct (wf_lists _ _ _ W l Rl') as [D Nd].
  destruct (in_split _ _ Il) as (A & B & EAB). rewrite EAB in D, Nd.
  pose proof (dll_links _ _ _ _ _ D) as (LP & LN & LH).
  set (P := List.last A NULL) in *. set (N := hd NULL B) in *.
  destruct (wf_block _ _ _ _ W Ix) as (_ & Ax & _ & _ & _ & _ & Sx).
  cbn [b_ptr b_size] in Ax, Sx.
  assert (InA : forall y, In y A -> In y (fl l))
    by (intros y Iy; rewrite EAB; apply in_or_app; auto).
  assert (InB : forall y, In y B -> In y (fl l))
    by (intros y Iy; rewrite EAB; apply in_or_app; right; right; auto).
  assert (HP : P <> 0 -> exists sP, In (Blk P sP false) bs /\ In P A).
  { intros NP. assert (IA : In P A).
    { apply last_In. intros ->. apply NP. reflexivity. }
    destruct (wf_member _ _ _ _ _ W Rl' (InA _ IA)) as (sP & IP & _).
    eauto. }
  assert (HN : N <> 0 -> exists sN, In (Blk N sN false) bs /\ In N B).
  { intros NN. assert (IB : In N B).
    { unfold N. destruct B; [exfalso; apply NN; reflexivity|left; reflexivity]. }
    destruct (wf_member _ _ _ _ _ W Rl' (InB _ IB)) as (sN & IN & _).
    eauto. }
  assert (PA : P = 0 -> A = []).
  { intros E. destruct A as [|a A]; [reflexivity|]. exfalso.
    assert (IA : In P (a :: A)) by (apply last_In; discriminate).
    destruct (wf_member _ _ _ _ _ W Rl' (InA _ IA)) as (_ & _ & _ & NP).
    lia. }
  assert (NB : N = 0 -> B = []).
  { intros E. destruct B as [|b B]; [reflexivity|]. exfalso.
    destruct (wf_member _ _ _ _ _ W Rl' (InB b (or_introl eq_refl)))
      as (_ & _ & _ & NP).
    unfold N in E. cbn in E. lia. }
  (* representatives of the two neighbours *)
  set (bP := match Z.eq_dec P 0 with
             | left _ => Blk 0 0 false
             | right n => Blk P (GET_SIZE (mem st) (HDRP P)) false
             end).
  set (bN := Blk N (GET_SIZE (mem st) (HDRP N)) false).
  assert (HbP : P <> 0 -> In bP bs /\ b_ptr bP = P).
  { intros NP. destruct (HP NP) as (sP & IP & _).
    destruct (wf_block _ _ _ _ W IP) as (_ & _ & _ & _ & _ & _ & SP).
    cbn in SP. unfold bP. destruct (Z.eq_dec P 0); [lia|].
    rewrite SP. auto. }
  assert (HbN : N <> 0 -> In bN bs /\ b_ptr bN = N).
  { intros NN. destruct (HN NN) as (sN & IN & _).
    destruct (wf_block _ _ _ _ W IN) as (_ & _ & _ & _ & _ & _ & SN).
    cbn in SN. unfold bN. rewrite SN. auto. }
  assert (HPN : P <> 0 -> N <> 0 -> P <> N).
  { intros NP NN E. destruct (HP NP) as (_ & _ & IA).
    destruct (HN NN) as (_ & _ & IB).
    apply NoDup_app_inv in Nd as (_ & _ & Dis).
    apply (Dis _ IA). right. rewrite E. exact IB. }
  destruct (delete_block_mem st x P N (b_size bN) LP LN) as
      (Em & Ef & G1 & G2 & G3 & G4 & G5).
  { intros NN. destruct (HbN NN) as [IN _].
    destruct (wf_block _ _ _ _ W IN) as (_ & AN & _). cbn in AN. auto. }
  { intros NP. destruct (HbP NP) as [IP EP].
    destruct (wf_block _ _ _ _ W IP) as (_ & AP & _). rewrite EP in AP. auto. }
  rewrite Sx in Ef. fold l in Ef.
  destruct (delete_view _ _ _ _ bP bN P N Hch Hal Hext HbP HbN HPN)
    as (Hch' & Tg & By & Vw).
  rewrite <- Em in Hch', Tg, By, Vw.
  remember (delete_block st x) as st' eqn:Est. clear Est Em.
  exists (A ++ B). split; [|split; [|split]].
  - intros y. rewrite EAB. apply in_remove_mid. exact Nd.
  - constructor.
    + rewrite G1. exact (wf_base _ _ _ W).
    + rewrite G1. exact (wf_prologue _ _ _ W).
    + split.
      * rewrite G1, G2. unfold WSIZE. change (2 * 4) with 8. exact Hch'.
      * rewrite G2, Tg; [exact Hep|].
        pose proof (chain_mod8 _ _ _ _ Hch Hal). zlia.
    + rewrite G3, G2, G5. exact (wf_brk _ _ _ W).
    + rewrite G4, G1. exact (wf_start _ _ _ W).
    + rewrite G5, G1. exact (wf_room _ _ _ W).
    + destruct (P =? 0); rewrite Ef; [rewrite length_insert|];
        exact (wf_len _ _ _ W).
    + intros i Ri. unfold bucket_upd.
      assert (Hh : list_head st' i
                   = if (i =? l) && (P =? 0) then N else list_head st i).
      { destruct (P =? 0).
        - rewrite (list_head_insert st st' l N i Ef); try lia.
          + rewrite andb_true_r. reflexivity.
          + rewrite (wf_len _ _ _ W). unfold NUM_LISTS in *. lia.
        - rewrite andb_false_r. apply list_head_lists. exact Ef. }
      rewrite Hh. destruct (i =? l) eqn:Ei; cbn [andb].
      * split.
        -- replace (if P =? 0 then N else list_head st i)
             with (if List.last A NULL =? NULL then hd NULL B
                   else list_head st l).
           ++ apply (dll_remove (mem st) (mem st') A x B _ D Nd).
              intros y Iy.
              assert (Iy' : In y (fl l)).
              { apply in_app_or in Iy as [I|I]; auto. }
              destruct (wf_member _ _ _ _ _ W Rl' Iy') as (sy & Iby & _).
              exact (Vw _ Iby).
           ++ apply Z.eqb_eq in Ei. subst i. reflexivity.
        -- exact (NoDup_remove_mid _ _ _ Nd).
      * destruct (wf_lists _ _ _ W i Ri) as [Di Ndi]. split; [|exact Ndi].
        apply (dllseg_ext (mem st) (mem st') (fl i)); [|exact Di].
        intros y Iy.
        destruct (wf_member _ _ _ _ _ W Ri Iy) as (sy & Iby & Gy & _).
        destruct (Vw _ Iby) as [V1 V2]. cbn [b_ptr] in V1, V2.
        assert (Ny : forall z, In z (fl l) -> y <> z).
        { intros z Iz ->. destruct (wf_member _ _ _ _ _ W Rl' Iz)
            as (sz & Ibz & Gz & _).
          destruct (tiling_unique _ _ _ _ Hch Hal _ _ _ _ _ Iby Ibz) as [E _].
          subst sz. lia. }
        rewrite V1, V2. split.
        -- destruct (N =? 0) eqn:EN0; [reflexivity|]. cbn [negb andb].
           replace (y =? N) with false; [reflexivity|].
           symmetry. apply Z.eqb_neq. apply Ny.
           destruct (HN ltac:(lia)) as (_ & _ & IB). auto.
        -- destruct (P =? 0) eqn:EP0; [reflexivity|]. cbn [negb andb].
           replace (y =? P) with false; [reflexivity|].
           symmetry. apply Z.eqb_neq. apply Ny.
           destruct (HP ltac:(lia)) as (_ & _ & IA). auto.
    + intros i y Ri Iy. unfold bucket_upd in Iy.
      destruct (i =? l) eqn:Ei.
      * apply Z.eqb_eq in Ei. subst i.
        apply (wf_members _ _ _ W l y Rl').
        apply in_app_or in Iy as [I|I]; auto.
      * exact (wf_members _ _ _ W i y Ri Iy).
  - exact Tg.
  - intros a Ha. apply By.
    + intros [NP R]. destruct (HbP NP) as [IP EP].
      destruct (wf_block _ _ _ _ W IP) as (_ & _ & _ & RP & _).
      apply (Ha bP IP).
      * unfold bP. destruct (Z.eq_dec P 0); reflexivity.
      * rewrite EP. lia.
    + intros [NN R]. destruct (HbN NN) as [IN EN].
      destruct (wf_block _ _ _ _ W IN) as (_ & _ & _ & RN & _).
      apply (Ha bN IN); [reflexivity|]. rewrite EN. lia.
Qed.

(** [add_block] puts an unlisted free block in front of the list of its
    size class. *)
Lemma wf_add st bs fl x s :
  wf st bs fl -> In (Blk x s false) bs ->
  (forall l, 0 <= l < NUM_LISTS -> ~ In x (fl l)) ->
  wf (add_block st x) bs
     (bucket_upd fl (get_list s) (x :: fl (get_list s)))
  /\ (forall q, q mod 8 = 0 -> GET (mem (add_block st x)) q = GET (mem st) q)
  /\ (forall a, outside_free bs a -> mem (add_block st x) a = mem st a).
Proof.
  intros W Ix Nl.
  pose proof (get_list_range s) as Rl. set (l := get_list s) in *.
  assert (Rl' : 0 <= l < NUM_LISTS) by (unfold NUM_LISTS; lia).
  destruct (wf_chain _ _ _ W) as (Hch & Hal & Hext & Hep).
  destruct (wf_lists _ _ _ W l Rl') as [D Nd].
  destruct (wf_block _ _ _ _ W Ix) as (_ & Ax & _ & Rx & Lx & _ & Sx).
  cbn [b_ptr b_size] in Ax, Sx, Rx, Lx.
  destruct (wf_base _ _ _ W) as [Hpos _].
  set (H := list_head st l) in *.
  pose proof (dllseg_head _ _ _ _ _ D) as EH.
  assert (HH : H <> 0 -> In H (fl l)).
  { intros NH. rewrite EH. destruct (fl l);
      [cbn in EH; unfold NULL in EH; lia|].
    left. reflexivity. }
  set (bH := Blk H (GET_SIZE (mem st) (HDRP H)) false).
  assert (HbH : H <> 0 -> In bH bs /\ b_ptr bH = H).
  { intros NH. destruct (wf_member _ _ _ _ _ W Rl' (HH NH)) as (sH & IH & _).
    destruct (wf_block _ _ _ _ W IH) as (_ & _ & _ & _ & _ & _ & SH).
    cbn in SH. unfold bH. rewrite SH. auto. }
  assert (Hne : H <> x).
  { intros E. destruct (Z.eq_dec H 0) as [E0|N0]; [lia|].
    apply (Nl l Rl'). rewrite <- E. auto. }
  destruct (add_block_mem st x s H (b_size bH) Sx Ax) as [Em Ef].
  { reflexivity. }
  { intros NH. destruct (HbH NH) as [IH _].
    destruct (wf_block _ _ _ _ W IH) as (_ & AH & _). cbn in AH. auto. }
  fold l in Ef.
  destruct (add_view _ _ _ _ (Blk x s false) bH H Hch Hal Hext Ix HbH Hne)
    as (Hch' & Tg & By & Vw).
  cbn [b_ptr b_size] in Hch', Tg, By, Vw.
  rewrite <- Em in Hch', Tg, By, Vw.
  pose proof (add_block_globals st x) as (G1 & G2 & G3 & G4 & G6).
  pose proof (add_block_others st x) as G5.
  remember (add_block st x) as st' eqn:Est. clear Est Em.
  split; [|split].
  - constructor.
    + rewrite G1. exact (wf_base _ _ _ W).
    + rewrite G1. exact (wf_prologue _ _ _ W).
    + split.
      * rewrite G1, G2. unfold WSIZE. change (2 * 4) with 8. exact Hch'.
      * rewrite G2, Tg; [exact Hep|].
        pose proof (chain_mod8 _ _ _ _ Hch Hal). zlia.
    + rewrite G3, G2, G5. exact (wf_brk _ _ _ W).
    + rewrite G4, G1. exact (wf_start _ _ _ W).
    + rewrite G5, G1. exact (wf_room _ _ _ W).
    + rewrite G6. exact (wf_len _ _ _ W).
    + intros i Ri. unfold bucket_upd.
      rewrite (list_head_insert st st' l x i Ef); try lia;
        [|rewrite (wf_len _ _ _ W); unfold NUM_LISTS in *; lia].
      destruct (i =? l) eqn:Ei.
      * split.
        -- apply (dll_cons (mem st) (mem st') x (fl l) H D).
           ++ unfold NULL. lia.
           ++ exact (Nl l Rl').
           ++ destruct (Vw _ Ix) as [V1 _]. cbn [b_ptr] in V1.
              rewrite V1, Z.eqb_refl. reflexivity.
           ++ destruct (Vw _ Ix) as [_ V2]. cbn [b_ptr] in V2.
              rewrite V2, Z.eqb_refl. reflexivity.
           ++ intros y Iy.
              destruct (wf_member _ _ _ _ _ W Rl' Iy) as (sy & Iby & _).
              destruct (Vw _ Iby) as [_ V2]. cbn [b_ptr] in V2. rewrite V2.
              replace (y =? x) with false; [reflexivity|].
              symmetry. apply Z.eqb_neq. intros ->. exact (Nl l Rl' Iy).
           ++ intros y Iy.
              assert (Iy' : In y (fl l))
                by (destruct (fl l); [destruct Iy|right; exact Iy]).
              destruct (wf_member _ _ _ _ _ W Rl' Iy') as (sy & Iby & _).
              destruct (Vw _ Iby) as [V1 _]. cbn [b_ptr] in V1. rewrite V1.
              replace (y =? x) with false
                by (symmetry; apply Z.eqb_neq; intros ->; exact (Nl l Rl' Iy')).
              replace (y =? H) with false; [rewrite andb_false_r; reflexivity|].
              symmetry. apply Z.eqb_neq. intros ->.
              rewrite EH in Iy. destruct (fl l) as [|h r]; [destruct Iy|].
              cbn in Iy. apply List.NoDup_cons_iff in Nd as [Nh _].
              cbn in Nh. exact (Nh Iy).
           ++ intros Ne.
              assert (Ih : In (hd NULL (fl l)) (fl l))
                by (destruct (fl l); [congruence|left; reflexivity]).
              destruct (wf_member _ _ _ _ _ W Rl' Ih) as (_ & _ & _ & NH).
              rewrite <- EH in NH |- *.
              destruct (HbH NH) as [IH EbH].
              destruct (Vw _ IH) as [V1 _]. rewrite EbH in V1. rewrite V1.
              replace (H =? x) with false by lia.
              replace (H =? 0) with false by lia.
              rewrite Z.eqb_refl. reflexivity.
        -- constructor; [exact (Nl l Rl')|exact Nd].
      * destruct (wf_lists _ _ _ W i Ri) as [Di Ndi]. split; [|exact Ndi].
        apply (dllseg_ext (mem st) (mem st') (fl i)); [|exact Di].
        intros y Iy.
        destruct (wf_member _ _ _ _ _ W Ri Iy) as (sy & Iby & Gy & _).
        destruct (Vw _ Iby) as [V1 V2]. cbn [b_ptr] in V1, V2.
        rewrite V1, V2.
        replace (y =? x) with false
          by (symmetry; apply Z.eqb_neq; intros ->; exact (Nl i Ri Iy)).
        split; [|reflexivity].
        destruct (H =? 0) eqn:EH0; [reflexivity|]. cbn [negb andb].
        replace (y =? H) with false; [reflexivity|].
        symmetry. apply Z.eqb_neq. intros ->.
        destruct (wf_member _ _ _ _ _ W Rl' (HH ltac:(lia)))
          as (sz & Ibz & Gz & _).
        destruct (tiling_unique _ _ _ _ Hch Hal _ _ _ _ _ Iby Ibz) as [E _].
        subst sz. lia.
    + intros i y Ri Iy. unfold bucket_upd in Iy.
      destruct (i =? l) eqn:Ei.
      * apply Z.eqb_eq in Ei. subst i. destruct Iy as [<-|Iy].
        -- exists s. auto.
        -- exact (wf_members _ _ _ W l y Rl' Iy).
      * exact (wf_members _ _ _ W i y Ri Iy).
  - exact Tg.
  - intros a Ha. apply By.
    + intros R. apply (Ha _ Ix); [reflexivity|]. cbn. lia.
    + intros R. apply (Ha _ Ix); [reflexivity|]. cbn. lia.
    + intros [NH R]. destruct (HbH NH) as [IH EbH].
      destruct (wf_block _ _ _ _ W IH) as (_ & _ & _ & RH & _).
      apply (Ha bH IH); [reflexivity|]. rewrite EbH. lia.
Qed.

(** ** Re-tagging a stretch of the heap *)

(** The links of a block read the same when the bytes of the block are
    the same. *)
Lemma links_bytes m m' y s :
  GET_SIZE m (HDRP y) = s -> 16 <= s ->
  (forall a, y - 8 <= a < y + s - 8 -> m' a = m a) ->
  GET_PREV_FREE m' y = GET_PREV_FREE m y
  /\ GET_NEXT_FREE m' y = GET_NEXT_FREE m y.
Proof.
  intros Hs Rs By.
  assert (Hh : GET m' (HDRP y) = GET m (HDRP y)).
  { apply GET_bytes. intros a Ha. apply By. unfold HDRP, WSIZE in Ha. lia. }
  assert (Hs' : GET_SIZE m' (HDRP y) = s).
  { rewrite <- Hs. apply GET_SIZE_congr. exact Hh. }
  unfold GET_PREV_FREE, GET_NEXT_FREE, PREV_PTR, NEXT_PTR, FTRP. cbv zeta.
  rewrite Hs, Hs'. unfold HDRP, WSIZE.
  rewrite (GET_bytes m m' (y + s - 4 * 4 + 4)) by (intros a Ha; apply By; lia).
  rewrite (GET_bytes m m' (y - 2 * 4 + 4)) by (intros a Ha; apply By; lia).
  auto.
Qed.

Lemma chain_bytes m m' bs : forall bp stop,
  chain m bp bs stop -> bp mod 8 = 0 ->
  (forall a, bp - 8 <= a < stop - 8 -> m' a = m a) ->
  chain m' bp bs stop.
Proof.
  intros bp stop Hc Hal By. pose proof (chain_mod8 _ _ _ _ Hc Hal) as As.
  apply (chain_frame m m' bs bp stop Hc Hal).
  intros q Q R. apply GET_bytes. intros a Ha. apply By. zlia.
Qed.

(** Blocks before and behind a part of the tiling. *)
Lemma chain_split m hl stop pre mid post :
  chain m hl (pre ++ mid ++ post) stop ->
  exists lo hi, chain m hl pre lo /\ chain m lo mid hi /\ chain m hi post stop.
Proof.
  intros H. apply chain_app in H as (lo & H1 & H2).
  apply chain_app in H2 as (hi & H2 & H3). eauto.
Qed.

Lemma Forall_app_3 {A : Type} (P : A -> Prop) l1 l2 l3 :
  List.Forall P l1 -> List.Forall P l2 -> List.Forall P l3 ->
  List.Forall P (l1 ++ l2 ++ l3).
Proof.
  intros H1 H2 H3. apply List.Forall_app. split; [exact H1|].
  apply List.Forall_app. split; assumption.
Qed.

(** Changing the tags of a range of blocks none of which is on a list. *)
Lemma wf_retag st bs fl m' pre mid post new lo hi :
  wf st bs fl -> bs = pre ++ mid ++ post -> pre <> [] ->
  chain (mem st) (heap_listp st) pre lo -> chain (mem st) lo mid hi ->
  chain (mem st) hi post (eptr st + 8) ->
  chain m' lo new hi ->
  (forall a, a < lo - 8 \/ hi - 8 <= a -> m' a = mem st a) ->
  (forall b l, In b mid -> 0 <= l < NUM_LISTS -> ~ In (b_ptr b) (fl l)) ->
  List.Forall (fun b => MIN_SIZE <= b_size b) new ->
  wf (with_mem st m') (pre ++ new ++ post) fl.
Proof.
  intros W E Npre Cpre Cmid Cpost Cnew By Nl Hmin.
  destruct (wf_chain _ _ _ W) as (Hch & Hal & Hext & Hep).
  pose proof (chain_le _ _ _ _ Cpre) as L1.
  pose proof (chain_le _ _ _ _ Cmid) as L2.
  pose proof (chain_le _ _ _ _ Cpost) as L3.
  pose proof (chain_mod8 _ _ _ _ Cpre Hal) as A1.
  pose proof (chain_mod8 _ _ _ _ Cmid A1) as A2.
  assert (Lpre : 16 <= lo - heap_listp st).
  { destruct pre as [|p pre]; [congruence|].
    apply (chain_nonempty_lt _ _ _ _ _) in Cpre. lia. }
  constructor; cbn [mem heap_listp eptr mem_brk mem_start_brk mem_max_addr
                    free_lists with_mem].
  - exact (wf_base _ _ _ W).
  - destruct (wf_prologue _ _ _ W) as (rest & Er & Fr).
    destruct pre as [|p pre]; [congruence|].
    rewrite E in Er. cbn in Er. inversion Er as [[Ep Erest]].
    exists (pre ++ new ++ post). split; [reflexivity|].
    rewrite <- Erest in Fr. apply List.Forall_app in Fr as [F1 F2].
    apply List.Forall_app in F2 as [_ F3].
    apply Forall_app_3; assumption.
  - split.
    + unfold WSIZE. change (2 * 4) with 8.
      apply chain_app. exists lo. split.
      * apply (chain_bytes _ _ _ _ _ Cpre Hal). intros a Ha. apply By. lia.
      * apply chain_app. exists hi. split; [exact Cnew|].
        apply (chain_bytes _ _ _ _ _ Cpost A2). intros a Ha. apply By. lia.
    + rewrite <- Hep. apply GET_bytes. intros a Ha. apply By. lia.
  - exact (wf_brk _ _ _ W).
  - exact (wf_start _ _ _ W).
  - exact (wf_room _ _ _ W).
  - exact (wf_len _ _ _ W).
  - intros i Ri. destruct (wf_lists _ _ _ W i Ri) as [Di Ndi].
    split; [|exact Ndi].
    change (list_head (with_mem st m') i) with (list_head st i).
    apply (dllseg_ext (mem st) m' (fl i)); [|exact Di].
    intros y Iy.
    destruct (wf_member _ _ _ _ _ W Ri Iy) as (sy & Iby & Gy & _).
    destruct (wf_block _ _ _ _ W Iby) as (_ & _ & _ & Ry & _ & _ & Sy).
    cbn [b_ptr b_size] in Ry, Sy.
    apply (links_bytes (mem st) m' y sy Sy); [lia|].
    intros a Ha. apply By.
    rewrite E in Iby. apply in_app_or in Iby as [I|I].
    * destruct (chain_In _ _ _ _ _ Cpre I) as (_ & _ & K & _). cbn in K. lia.
    * apply in_app_or in I as [I|I].
      -- exfalso. apply (Nl _ i I Ri). exact Iy.
      -- destruct (chain_In _ _ _ _ _ Cpost I) as (_ & K & _). cbn in K. lia.
  - intros i y Ri Iy.
    destruct (wf_members _ _ _ W i y Ri Iy) as (sy & Iby & Gy).
    exists sy. split; [|exact Gy].
    rewrite E in Iby. apply in_app_or in Iby as [I|I].
    + apply in_or_app. left. exact I.
    + apply in_app_or in I as [I|I].
      * exfalso. apply (Nl _ i I Ri). exact Iy.
      * apply in_or_app. right. apply in_or_app. right. exact I.
Qed.

(** ** The search on well-formed lists *)

(** The inner loop of the search walks down a list. *)
Lemma scan_dll fuel m asize : forall fs p c hit,
  dllseg m p fs c NULL -> scan fuel m c asize = Ok hit ->
  hit = LIST_END
  \/ (In hit fs /\ hit <> NULL /\ asize <= GET_SIZE m (HDRP hit)).
Proof.
  induction fuel as [|f IH]; cbn [scan]; intros fs p c hit D H; [discriminate|].
  destruct fs as [|x r]; cbn [dllseg] in D.
  - subst c. cbn in H. inversion H. left. reflexivity.
  - destruct D as (-> & Nx & _ & D).
    replace (x =? LIST_END) with false in H by (unfold LIST_END, NULL in *; lia).
    destruct (GET_SIZE m (HDRP x) >=? asize) eqn:E.
    + inversion H. subst hit. right. split; [left; reflexivity|].
      split; [exact Nx|lia].
    + destruct (IH r x _ hit D H) as [->|(I & K)]; [left; reflexivity|].
      right. split; [right; exact I|exact K].
Qed.

Lemma scan_returns m asize : forall fs fuel p c,
  dllseg m p fs c NULL -> (length fs < fuel)%nat ->
  exists hit, scan fuel m c asize = Ok hit.
Proof.
  induction fs as [|x r IH]; intros fuel p c D Hf;
    (destruct fuel as [|f]; [cbn in Hf; lia|]); cbn [scan dllseg] in *.
  - subst c. cbn. eauto.
  - destruct D as (-> & Nx & _ & D).
    replace (x =? LIST_END) with false by (unfold LIST_END, NULL in *; lia).
    destruct (GET_SIZE m (HDRP x) >=? asize); [eauto|].
    apply (IH f x _ D). cbn in Hf. lia.
Qed.

Lemma lookup_list_head st i p :
  free_lists st !! Z.to_nat i = Some p -> 0 <= i ->
  list_head st i = p /\ (Z.to_nat i < length (free_lists st))%nat.
Proof.
  intros E Hi. unfold list_head. rewrite E. split; [reflexivity|].
  apply lookup_lt_Some in E. exact E.
Qed.

Lemma search_loop_wf st bs fl asize fuel : forall list bp hit j,
  wf st bs fl -> 0 <= j < NUM_LISTS -> bp = list_head st j -> 0 <= list ->
  search_loop fuel st list bp asize = Ok (Found hit) ->
  exists i s, 0 <= i < NUM_LISTS /\ In hit (fl i)
              /\ In (Blk hit s false) bs /\ get_list s = i /\ asize <= s.
Proof.
  induction fuel as [|f IH]; cbn [search_loop]; intros list bp hit j W Rj Eb Hl H;
    [discriminate|].
  destruct (list <? NUM_LISTS + 1); [|discriminate].
  destruct (wf_lists _ _ _ W j Rj) as [D _]. rewrite <- Eb in D.
  destruct (scan f (mem st) bp asize) as [h|e] eqn:Es; cbn [bind] in H;
    [|discriminate].
  destruct (h =? LIST_END) eqn:Eh.
  - destruct (free_lists st !! Z.to_nat list) as [bp'|] eqn:El; [|discriminate].
    destruct (lookup_list_head _ _ _ El Hl) as [E1 E2].
    rewrite (wf_len _ _ _ W) in E2.
    apply (IH (list + 1) bp' hit list W); auto; unfold NUM_LISTS in *; lia.
  - inversion H. subst h.
    destruct (scan_dll _ _ _ _ _ _ _ D Es) as [E|(I & Nh & Sz)].
    + unfold LIST_END in *. lia.
    + destruct (wf_member _ _ _ _ _ W Rj I) as (s & Is & Gs & _).
      destruct (wf_block _ _ _ _ W Is) as (_ & _ & _ & _ & _ & _ & Ss).
      cbn in Ss. rewrite Ss in Sz. exists j, s. auto 10.
Qed.

Lemma search_start_wf st bs fl asize fuel hit :
  wf st bs fl -> search_start fuel st asize = Ok (Found hit) ->
  exists i s, 0 <= i < NUM_LISTS /\ In hit (fl i)
              /\ In (Blk hit s false) bs /\ get_list s = i /\ asize <= s.
Proof.
  intros W H. unfold search_start in H. cbv zeta in H.
  pose proof (get_list_range asize).
  apply (search_loop_wf st bs fl asize fuel (get_list asize)
           (list_head st (get_list asize)) hit (get_list asize) W);
    auto; unfold NUM_LISTS; lia.
Qed.

(** A list is no longer than the heap has blocks. *)
Lemma list_length st bs fl i :
  wf st bs fl -> 0 <= i < NUM_LISTS -> (length (fl i) <= length bs)%nat.
Proof.
  intros W Ri. destruct (wf_lists _ _ _ W i Ri) as [_ Nd].
  rewrite <- (length_map b_ptr bs).
  apply List.NoDup_incl_length; [exact Nd|].
  intros x Ix. destruct (wf_members _ _ _ W i x Ri Ix) as (s & Is & _).
  apply in_map_iff. exists (Blk x s false). auto.
Qed.

Lemma search_loop_returns st bs fl asize : forall fuel list bp j,
  wf st bs fl -> 0 <= j < NUM_LISTS -> bp = list_head st j ->
  0 <= list <= NUM_LISTS + 1 ->
  (length bs + Z.to_nat (NUM_LISTS + 2 - list) < fuel)%nat ->
  exists r, search_loop fuel st list bp asize = Ok r.
Proof.
  induction fuel as [|f IH]; intros list bp j W Rj Eb Hl Hf; [lia|].
  cbn [search_loop].
  destruct (list <? NUM_LISTS + 1) eqn:E; [|eauto].
  destruct (wf_lists _ _ _ W j Rj) as [D _]. rewrite <- Eb in D.
  pose proof (list_length _ _ _ j W Rj) as Ll.
  destruct (scan_returns (mem st) asize (fl j) f NULL bp D) as [h Es]; [lia|].
  rewrite Es. cbn [bind].
  destruct (h =? LIST_END); [|eauto].
  destruct (free_lists st !! Z.to_nat list) as [bp'|] eqn:El; [|eauto].
  destruct (lookup_list_head _ _ _ El ltac:(lia)) as [E1 E2].
  rewrite (wf_len _ _ _ W) in E2.
  apply (IH (list + 1) bp' list W); auto; unfold NUM_LISTS in *; lia.
Qed.

Lemma search_start_returns st bs fl asize fuel :
  wf st bs fl -> (length bs + 22 < fuel)%nat ->
  exists r, search_start fuel st asize = Ok r.
Proof.
  intros W Hf. unfold search_start. cbv zeta.
  pose proof (get_list_range asize).
  apply (search_loop_returns st bs fl asize fuel (get_list asize)
           (list_head st (get_list asize)) (get_list asize) W);
    auto; unfold NUM_LISTS; lia.
Qed.

(** ** Marking, cutting and joining blocks; split *)

Lemma wf_pre_nonempty st bs fl pre x s post :
  wf st bs fl -> bs = pre ++ Blk x s false :: post -> pre <> [].
Proof.
  intros W E ->. destruct (wf_prologue _ _ _ W) as (rest & Er & _).
  rewrite E in Er. cbn in Er. inversion Er.
Qed.

Lemma unlisted_alloc st bs fl x s :
  wf st bs fl -> In (Blk x s true) bs ->
  forall l, 0 <= l < NUM_LISTS -> ~ In x (fl l).
Proof.
  intros W Ix l Rl Il.
  destruct (wf_chain _ _ _ W) as (Hch & Hal & _).
  destruct (wf_members _ _ _ W l x Rl Il) as (s' & Is & _).
  destruct (tiling_unique _ _ _ _ Hch Hal _ _ _ _ _ Ix Is) as [_ E].
  discriminate.
Qed.

Lemma unlisted_other_class st bs fl x s :
  wf st bs fl -> In (Blk x s false) bs ->
  forall l, 0 <= l < NUM_LISTS -> l <> get_list s -> ~ In x (fl l).
Proof.
  intros W Ix l Rl Nl Il.
  destruct (wf_chain _ _ _ W) as (Hch & Hal & _).
  destruct (wf_members _ _ _ W l x Rl Il) as (s' & Is & Gs).
  destruct (tiling_unique _ _ _ _ Hch Hal _ _ _ _ _ Ix Is) as [E _].
  subst s'. congruence.
Qed.

Lemma unlisted_inside st bs fl b y :
  wf st bs fl -> In b bs -> b_ptr b < y < b_ptr b + b_size b ->
  forall l, 0 <= l < NUM_LISTS -> ~ In y (fl l).
Proof.
  intros W Ib Hy l Rl Il.
  destruct (wf_chain _ _ _ W) as (Hch & Hal & _).
  destruct (wf_members _ _ _ W l y Rl Il) as (s' & Is & _).
  destruct (wf_block _ _ _ _ W Is) as (_ & _ & _ & R & _). cbn in R.
  destruct (tiling_apart _ _ _ _ Hch b _ Ib Is) as [->|D]; cbn in *; lia.
Qed.

Lemma wf_retag1 st bs fl m' pre b post new :
  wf st bs fl -> bs = pre ++ b :: post -> pre <> [] ->
  chain m' (b_ptr b) new (b_ptr b + b_size b) ->
  (forall a, a < b_ptr b - 8 \/ b_ptr b + b_size b - 8 <= a ->
             m' a = mem st a) ->
  (forall l, 0 <= l < NUM_LISTS -> ~ In (b_ptr b) (fl l)) ->
  List.Forall (fun b => MIN_SIZE <= b_size b) new ->
  wf (with_mem st m') (pre ++ new ++ post) fl.
Proof.
  intros W E Npre Cnew By Nl Hmin.
  destruct (wf_chain _ _ _ W) as (Hch & _).
  rewrite E in Hch. change (b :: post) with ([b] ++ post) in Hch.
  destruct (chain_split _ _ _ _ _ _ Hch) as (lo & hi & C1 & C2 & C3).
  cbn in C2. destruct C2 as (Eb & _ & Eh). subst lo hi.
  eapply (wf_retag st bs fl m' pre [b] post new); eauto.
  - cbn. split; [reflexivity|]. split; [|reflexivity].
    destruct (wf_block _ _ _ b W) as (K & _); [|exact K].
    rewrite E. apply in_or_app. right. left. reflexivity.
  - intros b' l [<-|[]] Rl. apply Nl. exact Rl.
Qed.

Lemma in_mid {A : Type} (pre post : list A) (b : A) : In b (pre ++ b :: post).
Proof. apply in_or_app. right. left. reflexivity. Qed.

(** Marking an unlisted free block allocated. *)
Lemma wf_mark_alloc st bs fl pre x s post :
  wf st bs fl -> bs = pre ++ Blk x s false :: post ->
  (forall l, 0 <= l < NUM_LISTS -> ~ In x (fl l)) -> MIN_SIZE <= s ->
  wf (with_mem st (set_alloc (mem st) x)) (pre ++ Blk x s true :: post) fl
  /\ (forall a, a < x - 8 \/ x + s - 8 <= a ->
                set_alloc (mem st) x a = mem st a).
Proof.
  intros W E Nl Hs.
  assert (Ix : In (Blk x s false) bs) by (rewrite E; apply in_mid).
  destruct (wf_block _ _ _ _ W Ix) as (ok & _ & _ & R & _). cbn in R.
  destruct (set_alloc_free_block _ _ _ _ ok) as (okA & _ & Fr).
  assert (By : forall a, a < x - 8 \/ x + s - 8 <= a ->
                         set_alloc (mem st) x a = mem st a).
  { intros a Ha. apply Fr; lia. }
  split; [|exact By].
  apply (wf_retag1 st bs fl _ pre (Blk x s false) post [Blk x s true] W E).
  - exact (wf_pre_nonempty _ _ _ _ _ _ _ W E).
  - cbn. auto.
  - exact By.
  - exact Nl.
  - constructor; [exact Hs|constructor].
Qed.

(** Marking an allocated block free. *)
Lemma wf_mark_free st bs fl pre x s post :
  wf st bs fl -> bs = pre ++ Blk x s true :: post -> pre <> [] ->
  MIN_SIZE <= s ->
  wf (with_mem st (set_free (mem st) x)) (pre ++ Blk x s false :: post) fl
  /\ (forall a, a < x - 8 \/ x + s - 8 <= a ->
                set_free (mem st) x a = mem st a).
Proof.
  intros W E Npre Hs.
  assert (Ix : In (Blk x s true) bs) by (rewrite E; apply in_mid).
  destruct (wf_block _ _ _ _ W Ix) as (ok & _ & _ & R & _). cbn in R.
  destruct (set_alloc_free_block _ _ _ _ ok) as (_ & okF & Fr).
  assert (By : forall a, a < x - 8 \/ x + s - 8 <= a ->
                         set_free (mem st) x a = mem st a).
  { intros a Ha. apply Fr; lia. }
  split; [|exact By].
  apply (wf_retag1 st bs fl _ pre (Blk x s true) post [Blk x s false] W E Npre).
  - cbn. auto.
  - exact By.
  - exact (unlisted_alloc _ _ _ _ _ W Ix).
  - constructor; [exact Hs|constructor].
Qed.

(** Cutting an unlisted free block in two. *)
Lemma wf_cut st bs fl pre x s post asize :
  wf st bs fl -> bs = pre ++ Blk x s false :: post ->
  (forall l, 0 <= l < NUM_LISTS -> ~ In x (fl l)) ->
  asize mod 8 = 0 -> MIN_SIZE <= asize -> asize + MIN_SIZE <= s ->
  let m2 := set_size (mem st) x asize in
  let m3 := set_size m2 (NEXT_BLKP m2 x) (size_t (s - asize)) in
  NEXT_BLKP m2 x = x + asize
  /\ wf (with_mem st m3)
        (pre ++ Blk x asize false :: Blk (x + asize) (s - asize) false :: post)
        fl
  /\ (forall a, a < x - 8 \/ x + s - 8 <= a -> m3 a = mem st a).
Proof.
  intros W E Nl Ma Ha Hr. unfold MIN_SIZE in *.
  assert (Ix : In (Blk x s false) bs) by (rewrite E; apply in_mid).
  destruct (wf_block _ _ _ _ W Ix) as (ok & Ax & Ms & R & _).
  cbn [b_ptr b_size] in Ax, Ms, R.
  cbv zeta. rewrite (set_size_eq (mem st) x asize) by lia.
  set (m2 := PUT (PUT (mem st) (x - 8) asize) (x + asize - 16) asize).
  assert (N2 : NEXT_BLKP m2 x = x + asize).
  { unfold NEXT_BLKP, HDRP, WSIZE, m2. change (2 * 4) with 8.
    rewrite GET_SIZE_eq, GET_PUT_other, GET_PUT_same, uint_small by lia. zlia. }
  rewrite N2. rewrite size_t_small by lia.
  rewrite (set_size_eq m2 (x + asize) (s - asize)) by (try lia; zlia).
  replace (x + asize + (s - asize) - 16) with (x + s - 16) by lia.
  set (m3 := PUT (PUT m2 (x + asize - 8) (s - asize)) (x + s - 16) (s - asize)).
  assert (By : forall a, a < x - 8 \/ x + s - 8 <= a -> m3 a = mem st a).
  { intros a Hb. unfold m3, m2. rewrite !PUT_byte_other by lia. reflexivity. }
  split; [reflexivity|]. split; [|exact By].
  apply (wf_retag1 st bs fl m3 pre (Blk x s false) post
           [Blk x asize false; Blk (x + asize) (s - asize) false] W E).
  - exact (wf_pre_nonempty _ _ _ _ _ _ _ W E).
  - cbn [chain b_ptr b_size]. split; [reflexivity|]. split.
    + unfold block_ok, tag. cbn. unfold HDRP, WSIZE, DSIZE, m3, m2.
      change (2 * 4) with 8. change (4 * 4) with 16.
      repeat (rewrite GET_PUT_same || rewrite GET_PUT_other by lia).
      rewrite uint_small by lia. repeat split; lia.
    + split; [reflexivity|]. split; [|lia].
      unfold block_ok, tag. cbn. unfold HDRP, WSIZE, DSIZE, m3, m2.
      change (2 * 4) with 8. change (4 * 4) with 16.
      replace (x + asize + (s - asize) - 16) with (x + s - 16) by lia.
      repeat (rewrite GET_PUT_same || rewrite GET_PUT_other by lia).
      rewrite uint_small by lia. repeat split; try lia. zlia.
  - exact By.
  - exact Nl.
  - constructor; [unfold MIN_SIZE; cbn; lia|].
    constructor; [unfold MIN_SIZE; cbn; lia|constructor].
Qed.

(** Joining a run of unlisted blocks into one free block. *)
Lemma wf_join st bs fl pre mid post lo hi :
  wf st bs fl -> bs = pre ++ mid ++ post -> pre <> [] ->
  chain (mem st) (heap_listp st) pre lo -> chain (mem st) lo mid hi ->
  chain (mem st) hi post (eptr st + 8) ->
  (forall b l, In b mid -> 0 <= l < NUM_LISTS -> ~ In (b_ptr b) (fl l)) ->
  MIN_SIZE <= hi - lo ->
  wf (with_mem st (set_size (mem st) lo (hi - lo)))
     (pre ++ Blk lo (hi - lo) false :: post) fl
  /\ (forall a, a < lo - 8 \/ hi - 8 <= a ->
                set_size (mem st) lo (hi - lo) a = mem st a).
Proof.
  intros W E Npre Cpre Cmid Cpost Nl Hs. unfold MIN_SIZE in Hs.
  destruct (wf_chain _ _ _ W) as (Hch & Hal & Hext & Hep).
  pose proof (chain_le _ _ _ _ Cpre) as L1.
  pose proof (chain_le _ _ _ _ Cpost) as L3.
  pose proof (chain_mod8 _ _ _ _ Cpre Hal) as A1.
  pose proof (chain_mod8 _ _ _ _ Cmid A1) as A2.
  assert (M : (hi - lo) mod 8 = 0) by zlia.
  rewrite (set_size_eq (mem st) lo (hi - lo)) by lia.
  replace (lo + (hi - lo) - 16) with (hi - 16) by lia.
  set (m' := PUT (PUT (mem st) (lo - 8) (hi - lo)) (hi - 16) (hi - lo)).
  assert (By : forall a, a < lo - 8 \/ hi - 8 <= a -> m' a = mem st a).
  { intros a Ha. unfold m'. rewrite !PUT_byte_other by lia. reflexivity. }
  split; [|exact By].
  apply (wf_retag st bs fl m' pre mid post [Blk lo (hi - lo) false] lo hi
           W E Npre Cpre Cmid Cpost).
  - cbn [chain b_ptr b_size]. split; [reflexivity|]. split; [|lia].
    unfold block_ok, tag. cbn. unfold HDRP, WSIZE, DSIZE, m'.
    change (2 * 4) with 8. change (4 * 4) with 16.
    replace (lo + (hi - lo) - 16) with (hi - 16) by lia.
    repeat (rewrite GET_PUT_same || rewrite GET_PUT_other by lia).
    rewrite uint_small by lia. repeat split; lia.
  - exact By.
  - exact Nl.
  - constructor; [unfold MIN_SIZE; cbn; lia|constructor].
Qed.

Lemma bucket_upd_in fl l v i y :
  In y (bucket_upd fl l v i) <-> (i = l /\ In y v) \/ (i <> l /\ In y (fl i)).
Proof.
  unfold bucket_upd. destruct (i =? l) eqn:E.
  - apply Z.eqb_eq in E. split; [auto|]. intros [[_ H]|[H _]]; [exact H|lia].
  - apply Z.eqb_neq in E. split; [auto|]. intros [[H _]|[_ H]]; [lia|exact H].
Qed.

Lemma outside_free_retag bs pre x s post new a :
  bs = pre ++ Blk x s false :: post ->
  (forall b, In b new -> x <= b_ptr b /\ b_ptr b + b_size b <= x + s) ->
  outside_free bs a -> outside_free (pre ++ new ++ post) a.
Proof.
  intros E Hn O b Ib Fb. rewrite !in_app_iff in Ib.
  destruct Ib as [I|[I|I]].
  - apply O; [|exact Fb]. rewrite E. apply in_or_app. left. exact I.
  - destruct (Hn b I) as [H1 H2].
    assert (X := O (Blk x s false) ltac:(rewrite E; apply in_mid) eq_refl).
    cbn in X. lia.
  - apply O; [|exact Fb]. rewrite E. apply in_or_app. right. right. exact I.
Qed.

(** [split] followed by [set_alloc]: a listed block that is large enough
    is taken off its list and handed out, its tail going back to a list
    when it is at least [MIN_SIZE] bytes. *)
Lemma wf_take st bs fl pre x s post asize :
  wf st bs fl -> bs = pre ++ Blk x s false :: post ->
  In x (fl (get_list s)) ->
  asize mod 8 = 0 -> MIN_SIZE <= asize <= s ->
  exists st1 fl' mid,
    split st x asize = (st1, x)
    /\ wf (with_mem st1 (set_alloc (mem st1) x)) (pre ++ mid ++ post) fl'
    /\ ((mid = [Blk x s true] /\ s < asize + MIN_SIZE
         /\ forall i y, 0 <= i < NUM_LISTS ->
              (In y (fl' i) <-> In y (fl i) /\ y <> x))
        \/ (mid = [Blk x asize true; Blk (x + asize) (s - asize) false]
            /\ asize + MIN_SIZE <= s
            /\ forall i y, 0 <= i < NUM_LISTS ->
                 (In y (fl' i) <->
                  (In y (fl i) /\ y <> x)
                  \/ (y = x + asize /\ i = get_list (s - asize)))))
    /\ (forall a, outside_free bs a -> set_alloc (mem st1) x a = mem st a).
Proof.
  intros W E Il Ma [Ha Hs].
  assert (Ix : In (Blk x s false) bs) by (rewrite E; apply in_mid).
  destruct (wf_block _ _ _ _ W Ix) as (_ & Ax & Ms & R & _ & _ & Sx).
  cbn [b_ptr b_size] in Ax, Ms, R, Sx.
  pose proof (get_list_range s) as Rl.
  assert (Rl' : 0 <= get_list s < NUM_LISTS) by (unfold NUM_LISTS; lia).
  destruct (wf_delete st bs fl x s W Ix Il) as (fs' & Hfs & W1 & Tg1 & By1).
  set (fl1 := bucket_upd fl (get_list s) fs') in *.
  assert (Hfl1 : forall i y, 0 <= i < NUM_LISTS ->
            (In y (fl1 i) <-> In y (fl i) /\ y <> x)).
  { intros i y Ri. unfold fl1. rewrite bucket_upd_in. rewrite Hfs. split.
    - intros [[-> H]|[Ni H]]; [exact H|]. split; [exact H|].
      intros ->. exact (unlisted_other_class _ _ _ _ _ W Ix i Ri Ni H).
    - intros [H Ny]. destruct (Z.eq_dec i (get_list s)) as [->|Ni]; auto. }
  assert (Nl1 : forall l, 0 <= l < NUM_LISTS -> ~ In x (fl1 l)).
  { intros l Rl1 I. apply Hfl1 in I; [|exact Rl1]. destruct I. congruence. }
  unfold split. cbv zeta. rewrite Sx. unfold MIN_SIZE in *.
  rewrite (size_t_small (asize + 24)) by lia.
  remember (delete_block st x) as st1 eqn:Est. clear Est.
  destruct (s >=? asize + 24) eqn:Ec.
  - (* the block is cut *)
    destruct (wf_cut st1 bs fl1 pre x s post asize W1 E Nl1 Ma)
      as (N2 & W2 & By2); [unfold MIN_SIZE; lia..|].
    cbv zeta in N2, W2, By2. rewrite N2 in *.
    set (m3 := set_size (set_size (mem st1) x asize) (x + asize)
                        (size_t (s - asize))) in *.
    set (bs2 := pre ++ Blk x asize false
                    :: Blk (x + asize) (s - asize) false :: post) in *.
    assert (Ir : In (Blk (x + asize) (s - asize) false) bs2).
    { unfold bs2. apply in_or_app. right. right. left. reflexivity. }
    assert (Nlr : forall l, 0 <= l < NUM_LISTS -> ~ In (x + asize) (fl1 l)).
    { apply (unlisted_inside _ _ _ (Blk x s false) _ W1 Ix). cbn. lia. }
    destruct (wf_add (with_mem st1 m3) bs2 fl1 _ _ W2 Ir Nlr)
      as (W3 & Tg3 & By3).
    set (fl2 := bucket_upd fl1 (get_list (s - asize))
                           ((x + asize) :: fl1 (get_list (s - asize)))) in *.
    remember (add_block (with_mem st1 m3) (x + asize)) as st3 eqn:Est3.
    assert (Nl2 : forall l, 0 <= l < NUM_LISTS -> ~ In x (fl2 l)).
    { intros l Rl2 I. unfold fl2 in I. apply bucket_upd_in in I.
      destruct I as [[-> [I|I]]|[_ I]]; [lia| |]; exact (Nl1 _ Rl2 I). }
    destruct (wf_mark_alloc st3 bs2 fl2 pre x asize
                (Blk (x + asize) (s - asize) false :: post) W3 eq_refl Nl2)
      as (W4 & By4); [unfold MIN_SIZE; lia|].
    exists st3, fl2, [Blk x asize true; Blk (x + asize) (s - asize) false].
    split; [reflexivity|]. split; [exact W4|]. split.
    + right. split; [reflexivity|]. split; [lia|].
      intros i y Ri. unfold fl2. rewrite bucket_upd_in. cbn [In].
      rewrite !Hfl1 by (exact Ri || (pose proof (get_list_range (s - asize));
                                    unfold NUM_LISTS; lia)).
      split.
      * intros [[-> [<-|H]]|[Ni H]]; auto.
      * intros [H|[-> ->]]; [|auto].
        destruct (Z.eq_dec i (get_list (s - asize))) as [->|Ni]; auto.
    + intros a O.
      assert (Ox : a < x - 8 \/ x + s - 8 <= a).
      { specialize (O _ Ix eq_refl). cbn in O. lia. }
      rewrite By4 by lia. rewrite By3.
      * cbn [mem with_mem]. rewrite By2 by exact Ox. apply By1. exact O.
      * apply (outside_free_retag bs pre x s post
                 [Blk x asize false; Blk (x + asize) (s - asize) false] a E);
          [|exact O].
        intros b [<-|[<-|[]]]; cbn; lia.
  - (* the block is handed out whole *)
    destruct (wf_mark_alloc st1 bs fl1 pre x s post W1 E Nl1)
      as (W4 & By4); [unfold MIN_SIZE; lia|].
    exists st1, fl1, [Blk x s true].
    split; [reflexivity|]. split; [exact W4|]. split.
    + left. split; [reflexivity|]. split; [lia|]. exact Hfl1.
    + intros a O.
      assert (Ox : a < x - 8 \/ x + s - 8 <= a).
      { specialize (O _ Ix eq_refl). cbn in O. lia. }
      rewrite By4 by exact Ox. apply By1. exact O.
Qed.

(** ** Unlisting and listing several blocks *)

(** [delete_block] on a listed block, with the lists it leaves. *)
Lemma wf_unlist st bs fl x s :
  wf st bs fl -> In (Blk x s false) bs -> In x (fl (get_list s)) ->
  exists fl1,
    wf (delete_block st x) bs fl1
    /\ (forall i y, 0 <= i < NUM_LISTS ->
          (In y (fl1 i) <-> In y (fl i) /\ y <> x))
    /\ (forall q, q mod 8 = 0 ->
          GET (mem (delete_block st x)) q = GET (mem st) q)
    /\ (forall a, outside_free bs a -> mem (delete_block st x) a = mem st a).
Proof.
  intros W Ix Il.
  destruct (wf_delete st bs fl x s W Ix Il) as (fs' & Hfs & W1 & Tg1 & By1).
  exists (bucket_upd fl (get_list s) fs').
  split; [exact W1|]. split; [|split; [exact Tg1|exact By1]].
  intros i y Ri. rewrite bucket_upd_in. rewrite Hfs. split.
  - intros [[-> H]|[Ni H]]; [exact H|]. split; [exact H|].
    intros ->. exact (unlisted_other_class _ _ _ _ _ W Ix i Ri Ni H).
  - intros [H Ny]. destruct (Z.eq_dec i (get_list s)) as [->|Ni]; auto.
Qed.

(** [add_block] on an unlisted block, with the lists it leaves. *)
Lemma wf_enlist st bs fl x s :
  wf st bs fl -> In (Blk x s false) bs ->
  (forall l, 0 <= l < NUM_LISTS -> ~ In x (fl l)) ->
  exists fl1,
    wf (add_block st x) bs fl1
    /\ (forall i y, 0 <= i < NUM_LISTS ->
          (In y (fl1 i) <-> In y (fl i) \/ (y = x /\ i = get_list s)))
    /\ (forall q, q mod 8 = 0 -> GET (mem (add_block st x)) q = GET (mem st) q)
    /\ (forall a, outside_free bs a -> mem (add_block st x) a = mem st a).
Proof.
  intros W Ix Nl.
  destruct (wf_add st bs fl x s W Ix Nl) as (W1 & Tg1 & By1).
  exists (bucket_upd fl (get_list s) (x :: fl (get_list s))).
  split; [exact W1|]. split; [|split; [exact Tg1|exact By1]].
  intros i y Ri. rewrite bucket_upd_in. cbn [In]. split.
  - intros [[-> [<-|H]]|[Ni H]]; auto.
  - intros [H|[-> ->]]; [|auto].
    destruct (Z.eq_dec i (get_list s)) as [->|Ni]; auto.
Qed.

(** Joining a run of unlisted blocks and listing the result. *)
Lemma wf_join_add st bs fl pre mid post lo hi :
  wf st bs fl -> bs = pre ++ mid ++ post -> pre <> [] -> mid <> [] ->
  chain (mem st) (heap_listp st) pre lo -> chain (mem st) lo mid hi ->
  chain (mem st) hi post (eptr st + 8) ->
  (forall b l, In b mid -> 0 <= l < NUM_LISTS -> ~ In (b_ptr b) (fl l)) ->
  MIN_SIZE <= hi - lo ->
  let st1 := with_mem st (set_size (mem st) lo (hi - lo)) in
  exists fl1,
    wf (add_block st1 lo) (pre ++ Blk lo (hi - lo) false :: post) fl1
    /\ (forall i y, 0 <= i < NUM_LISTS ->
          (In y (fl1 i) <-> In y (fl i) \/ (y = lo /\ i = get_list (hi - lo))))
    /\ (forall a, a < lo - 8 \/ hi - 8 <= a ->
                  outside_free bs a -> mem (add_block st1 lo) a = mem st a).
Proof.
  intros W E Npre Nmid Cpre Cmid Cpost Nl Hs st1.
  destruct (wf_join st bs fl pre mid post lo hi W E Npre Cpre Cmid Cpost Nl Hs)
    as (W1 & By1). fold st1 in W1.
  set (bs1 := pre ++ Blk lo (hi - lo) false :: post) in *.
  assert (I1 : In (Blk lo (hi - lo) false) bs1) by apply in_mid.
  assert (Nlo : forall l, 0 <= l < NUM_LISTS -> ~ In lo (fl l)).
  { intros l Rl. destruct mid as [|b mid]; [congruence|].
    cbn in Cmid. destruct Cmid as (Eb & _). rewrite <- Eb.
    apply (Nl b l); [left; reflexivity|exact Rl]. }
  destruct (wf_enlist st1 bs1 fl lo (hi - lo) W1 I1 Nlo)
    as (fl1 & W2 & Hfl & _ & By2).
  exists fl1. split; [exact W2|]. split; [exact Hfl|].
  intros a Ha O. rewrite By2.
  - unfold st1. cbn [mem with_mem]. apply By1. exact Ha.
  - intros b Ib Fb. unfold bs1 in Ib. rewrite in_app_iff in Ib. cbn [In] in Ib.
    destruct Ib as [I|[<-|I]].
    + apply O; [|exact Fb]. rewrite E. apply in_or_app. left. exact I.
    + cbn. lia.
    + apply O; [|exact Fb]. rewrite E. apply in_or_app. right.
      apply in_or_app. right. exact I.
Qed.

(** ** Adding a joined block *)

Lemma naf_around pre b post :
  no_adjacent_free (pre ++ b :: post)
  = no_adjacent_free pre && no_adjacent_free post
    && (last_alloc pre || b_alloc b) && (b_alloc b || first_alloc post).
Proof.
  rewrite naf_app, naf_cons. cbn [first_alloc].
  destruct (no_adjacent_free pre), (no_adjacent_free post), (last_alloc pre),
    (b_alloc b), (first_alloc post); reflexivity.
Qed.

Lemma last_alloc_snoc pre b : last_alloc (pre ++ [b]) = b_alloc b.
Proof. unfold last_alloc. rewrite last_snoc. reflexivity. Qed.

(** Blocks of a chain occur once. *)
Lemma chain_once m hl stop pre b post :
  chain m hl (pre ++ b :: post) stop ->
  (forall c, In c pre -> b_ptr c + b_size c <= b_ptr b)
  /\ (forall c, In c post -> b_ptr b + b_size b <= b_ptr c)
  /\ 16 <= b_size b.
Proof.
  intros H. apply chain_app in H as (lo & C1 & C2).
  cbn in C2. destruct C2 as (E & ok & C2).
  pose proof (block_ok_bounds _ _ ok) as [R _].
  split; [|split; [|lia]].
  - intros c I. destruct (chain_In _ _ _ _ _ C1 I) as (_ & _ & K & _). lia.
  - intros c I. destruct (chain_In _ _ _ _ _ C2 I) as (_ & K & _). lia.
Qed.

Lemma chain_parts m hl stop pre mid post :
  chain m hl (pre ++ mid ++ post) stop ->
  exists lo hi, chain m hl pre lo /\ chain m lo mid hi /\ chain m hi post stop
    /\ (forall c, In c pre -> b_ptr c + b_size c <= lo /\ 16 <= b_size c)
    /\ (forall c, In c mid -> lo <= b_ptr c /\ b_ptr c + b_size c <= hi
                              /\ 16 <= b_size c)
    /\ (forall c, In c post -> hi <= b_ptr c /\ 16 <= b_size c).
Proof.
  intros H. destruct (chain_split _ _ _ _ _ _ H) as (lo & hi & C1 & C2 & C3).
  exists lo, hi. split; [exact C1|]. split; [exact C2|]. split; [exact C3|].
  split; [|split].
  - intros c I. destruct (chain_In _ _ _ _ _ C1 I) as (ok & _ & K & _).
    pose proof (block_ok_bounds _ _ ok). lia.
  - intros c I. destruct (chain_In _ _ _ _ _ C2 I) as (ok & K1 & K2 & _).
    pose proof (block_ok_bounds _ _ ok). lia.
  - intros c I. destruct (chain_In _ _ _ _ _ C3 I) as (ok & K & _).
    pose proof (block_ok_bounds _ _ ok). lia.
Qed.

(** The final step of coalescing when blocks are joined. *)
Lemma good_join_add st bs fl pre mid post :
  wf st bs fl -> bs = pre ++ mid ++ post -> pre <> [] -> mid <> [] ->
  (forall b l, In b mid -> 0 <= l < NUM_LISTS -> ~ In (b_ptr b) (fl l)) ->
  (forall b, In b mid -> b_alloc b = false) ->
  (forall y sy, In (Blk y sy false) bs ->
                (forall b, In b mid -> b_ptr b <> y) ->
                In y (fl (get_list sy))) ->
  no_adjacent_free pre = true -> last_alloc pre = true ->
  no_adjacent_free post = true -> first_alloc post = true ->
  (forall lo hi, chain (mem st) lo mid hi -> MIN_SIZE <= hi - lo) ->
  exists lo hi fl1,
    chain (mem st) lo mid hi
    /\ good (add_block (with_mem st (set_size (mem st) lo (hi - lo))) lo)
            (pre ++ Blk lo (hi - lo) false :: post) fl1
    /\ (forall a, a < lo - 8 \/ hi - 8 <= a -> outside_free bs a ->
          mem (add_block (with_mem st (set_size (mem st) lo (hi - lo))) lo) a
          = mem st a).
Proof.
  intros W E Npre Nmid Nl Fm Cm N1 La N2 Fa Hs.
  destruct (wf_chain _ _ _ W) as (Hch & Hal & Hext & Hep).
  rewrite E in Hch.
  destruct (chain_parts _ _ _ _ _ _ Hch) as (lo & hi & C1 & C2 & C3 & B1 & B2 & B3).
  specialize (Hs lo hi C2).
  destruct (wf_join_add st bs fl pre mid post lo hi W E Npre Nmid C1 C2 C3 Nl Hs)
    as (fl1 & W1 & Hfl & By). cbv zeta in W1, By.
  exists lo, hi, fl1. split; [exact C2|]. split; [|exact By].
  split; [exact W1|]. split.
  - intros y sy Iy. rewrite in_app_iff in Iy. cbn [In] in Iy.
    pose proof (get_list_range sy) as Ry.
    apply Hfl; [unfold NUM_LISTS; lia|].
    destruct Iy as [I|[Ey|I]].
    + left. apply Cm.
      * rewrite E. apply in_or_app. left. exact I.
      * intros b Ib Eb. destruct (B1 _ I) as [K1 K2]. destruct (B2 _ Ib).
        cbn in K1, K2. lia.
    + inversion Ey. subst y sy. right. auto.
    + left. apply Cm.
      * rewrite E. apply in_or_app. right. apply in_or_app. right. exact I.
      * intros b Ib Eb. destruct (B3 _ I) as [K1 K2]. destruct (B2 _ Ib).
        cbn in K1, K2. lia.
  - rewrite naf_around, N1, N2, La, Fa. reflexivity.
Qed.

(** The final step of coalescing when both neighbours are in use. *)
Lemma good_add st bs fl pre x s post :
  wf st bs fl -> bs = pre ++ Blk x s false :: post ->
  (forall l, 0 <= l < NUM_LISTS -> ~ In x (fl l)) ->
  (forall y sy, In (Blk y sy false) bs -> y <> x -> In y (fl (get_list sy))) ->
  no_adjacent_free pre = true -> last_alloc pre = true ->
  no_adjacent_free post = true -> first_alloc post = true ->
  exists fl1,
    good (add_block st x) bs fl1
    /\ (forall a, outside_free bs a -> mem (add_block st x) a = mem st a).
Proof.
  intros W E Nl Cm N1 La N2 Fa.
  assert (Ix : In (Blk x s false) bs) by (rewrite E; apply in_mid).
  destruct (wf_enlist st bs fl x s W Ix Nl) as (fl1 & W1 & Hfl & _ & By).
  exists fl1. split; [|exact By]. split; [exact W1|]. split.
  - intros y sy Iy. pose proof (get_list_range sy) as Ry.
    apply Hfl; [unfold NUM_LISTS; lia|].
    destruct (Z.eq_dec y x) as [->|Ny].
    + right. split; [reflexivity|].
      destruct (wf_chain _ _ _ W) as (Hch & Hal & _).
      destruct (tiling_unique _ _ _ _ Hch Hal _ _ _ _ _ Ix Iy) as [-> _].
      reflexivity.
    + left. apply Cm; assumption.
  - rewrite E, naf_around, N1, N2, La, Fa. reflexivity.
Qed.

(** ** coalesce keeps the heap good *)

(** The neighbours of a block as [coalesce] reads them. *)
Lemma coalesce_reads m hl stop pre P x s post :
  chain m hl (pre ++ P :: Blk x s false :: post) stop ->
  GET m (stop - 8) = 1 ->
  PREV_BLKP m x = b_ptr P /\ NEXT_BLKP m x = x + s
  /\ GET_SIZE m (HDRP x) = s
  /\ GET_ALLOC m (HDRP (b_ptr P)) = (if b_alloc P then 1 else 0)
  /\ GET_ALLOC m (HDRP (x + s)) = (if first_alloc post then 1 else 0)
  /\ GET_SIZE m (HDRP (b_ptr P)) = b_size P
  /\ b_ptr P + b_size P = x
  /\ (forall N post', post = N :: post' ->
        b_ptr N = x + s /\ GET_SIZE m (HDRP (x + s)) = b_size N).
Proof.
  intros Hch Hep. apply chain_app in Hch as (p0 & C1 & C2).
  cbn [chain b_ptr b_size] in C2.
  destruct C2 as (EP & okP & EX & okX & C3).
  pose proof (block_ok_size _ _ okX) as SX. cbn in SX.
  pose proof (block_ok_ftr_size _ _ okP) as FP.
  split.
  { unfold PREV_BLKP, WSIZE. change (4 * 4) with 16.
    replace (x - 16) with (b_ptr P + b_size P - 16) by lia. rewrite FP. lia. }
  split; [unfold NEXT_BLKP; rewrite SX; reflexivity|].
  split; [exact SX|]. split; [exact (block_ok_alloc _ _ okP)|].
  split.
  { replace (HDRP (x + s)) with (p0 + b_size P + s - 8)
      by (unfold HDRP, WSIZE; lia).
    apply (next_alloc_of_chain m _ post stop); [exact C3|exact Hep]. }
  split; [exact (block_ok_size _ _ okP)|]. split; [lia|].
  intros N post' ->. cbn in C3. destruct C3 as (EN & okN & _).
  split; [lia|]. replace (x + s) with (b_ptr N) by lia.
  exact (block_ok_size _ _ okN).
Qed.

Lemma app_cons_assoc {A : Type} (pre : list A) P X post :
  pre ++ P :: X :: post = (pre ++ [P]) ++ X :: post.
Proof. rewrite <- app_assoc. reflexivity. Qed.

Lemma wf_head_alloc st bs fl b rest :
  wf st bs fl -> bs = b :: rest -> b_alloc b = true.
Proof.
  intros W E. destruct (wf_prologue _ _ _ W) as (r & Er & _).
  rewrite E in Er. inversion Er. reflexivity.
Qed.

Lemma first_alloc_false post :
  first_alloc post = false ->
  exists n sN post', post = Blk n sN false :: post'.
Proof.
  destruct post as [|[n sN aN] post']; cbn; [discriminate|].
  intros ->. eauto.
Qed.

Lemma naf_tail b post :
  no_adjacent_free (b :: post) = true ->
  no_adjacent_free post = true /\ (b_alloc b = false -> first_alloc post = true).
Proof.
  rewrite naf_cons. intros H. apply andb_true_iff in H as [H1 H2].
  split; [exact H2|]. intros F. rewrite F in H1. exact H1.
Qed.

Lemma naf_snoc pre b :
  no_adjacent_free (pre ++ [b]) = true ->
  no_adjacent_free pre = true /\ (b_alloc b = false -> last_alloc pre = true).
Proof.
  rewrite naf_around. intros H. rewrite !andb_true_iff in H.
  destruct H as [[[H1 _] H3] _]. split; [exact H1|].
  intros F. rewrite F, orb_false_r in H3. exact H3.
Qed.

(** [coalesce] on an unlisted free block, in a heap where every other
    free block is listed and no other two neighbours are free. *)
Lemma good_coalesce_detail st bs fl pre P x s post :
  wf st bs fl -> bs = pre ++ P :: Blk x s false :: post ->
  (forall l, 0 <= l < NUM_LISTS -> ~ In x (fl l)) ->
  (forall y sy, In (Blk y sy false) bs -> y <> x -> In y (fl (get_list sy))) ->
  no_adjacent_free (pre ++ [P]) = true -> no_adjacent_free post = true ->
  MIN_SIZE <= s ->
  exists st' lo total pre' dP dN post' fl',
    coalesce st x = (st', lo)
    /\ good st' (pre' ++ Blk lo total false :: post') fl'
    /\ pre ++ [P] = pre' ++ dP /\ post = dN ++ post'
    /\ (forall b, In b (dP ++ dN) -> b_alloc b = false)
    /\ lo = (if b_alloc P then x else b_ptr P)
    /\ lo + total
       = x + s + (if first_alloc post then 0 else b_size (hd P post))
    /\ dP = (if b_alloc P then [] else [P])
    /\ dN = (if first_alloc post then [] else [hd P post])
    /\ (forall a, a < x - 8 \/ x + s - 8 <= a -> outside_free bs a ->
                  mem st' a = mem st a).
Proof.
  intros W E Nl Cm NP Npost Hs. unfold MIN_SIZE in Hs.
  destruct (wf_chain _ _ _ W) as (Hch & Hal & Hext & Hep).
  assert (Hep' : GET (mem st) (eptr st + 8 - 8) = 1)
    by (replace (eptr st + 8 - 8) with (eptr st) by lia; exact Hep).
  rewrite E in Hch.
  destruct (coalesce_reads _ _ _ _ _ _ _ _ Hch Hep')
    as (RP & RN & SX & AP & AN & SP & EPX & HN).
  assert (IX : In (Blk x s false) bs).
  { rewrite E. apply in_or_app. right. right. left. reflexivity. }
  assert (IP : In P bs) by (rewrite E; apply in_mid).
  destruct (wf_block _ _ _ _ W IX) as (_ & Ax & Ms & Rs & _).
  cbn [b_ptr b_size] in Ax, Ms, Rs.
  destruct (wf_block _ _ _ _ W IP) as (_ & AxP & MsP & RsP & _).
  destruct (naf_snoc _ _ NP) as [Npre LP].
  assert (Epre : pre ++ P :: Blk x s false :: post
                 = (pre ++ [P]) ++ Blk x s false :: post)
    by apply app_cons_assoc.
  destruct (b_alloc P) eqn:EaP; destruct (first_alloc post) eqn:EaN.
  - (* both neighbours in use *)
    rewrite (coalesce_case1 st x) by (rewrite ?RP, ?RN; assumption).
    destruct (good_add st bs fl (pre ++ [P]) x s post W) as (fl1 & G & By);
      auto.
    + rewrite E. exact Epre.
    + rewrite last_alloc_snoc. exact EaP.
    + exists (add_block st x), x, s, (pre ++ [P]), [], [], post, fl1.
      split; [reflexivity|]. split; [rewrite <- Epre, <- E; exact G|].
      split; [rewrite app_nil_r; reflexivity|]. split; [reflexivity|].
      split; [intros b []|]. split; [reflexivity|]. split; [lia|].
      split; [reflexivity|]. split; [reflexivity|].
      intros a _ O. exact (By a O).
  - (* the next block is free *)
    destruct (first_alloc_false _ EaN) as (n & sN & post' & Epost).
    destruct (HN _ _ Epost) as [En SN]. cbn [b_ptr b_size] in En, SN.
    subst n. rewrite Epost in E, Npost.
    destruct (naf_tail _ _ Npost) as [Npost' FN]. specialize (FN eq_refl).
    assert (IN : In (Blk (x + s) sN false) bs).
    { rewrite E. apply in_or_app. right. right. right. left. reflexivity. }
    destruct (wf_block _ _ _ _ W IN) as (_ & AxN & MsN & RsN & _).
    cbn [b_ptr b_size] in AxN, MsN, RsN.
    destruct (wf_unlist st bs fl (x + s) sN W IN) as (fl1 & W1 & Hfl1 & Tg1 & By1).
    { apply Cm; [exact IN|lia]. }
    rewrite (coalesce_case2 st x) by (rewrite ?RP, ?RN; assumption).
    cbv zeta. rewrite RN, SX.
    assert (SN1 : GET_SIZE (mem (delete_block st (x + s))) (HDRP (x + s)) = sN).
    { rewrite <- SN. apply GET_SIZE_congr. apply Tg1. unfold HDRP, WSIZE. zlia. }
    rewrite SN1. rewrite size_t_small by lia.
    remember (delete_block st (x + s)) as st1 eqn:Est. clear Est.
    destruct (good_join_add st1 bs fl1 (pre ++ [P])
                [Blk x s false; Blk (x + s) sN false] post' W1)
      as (lo & hi & fl2 & C2 & G & By2).
    + rewrite E. rewrite <- app_assoc. reflexivity.
    + intros H. apply app_eq_nil in H as [_ H]. discriminate.
    + discriminate.
    + intros b l [<-|[<-|[]]] Rl I; apply Hfl1 in I; try exact Rl;
        destruct I as [I Ny]; cbn in *; [exact (Nl l Rl I)|lia].
    + intros b [<-|[<-|[]]]; reflexivity.
    + intros y sy Iy Ny. pose proof (get_list_range sy).
      apply Hfl1; [unfold NUM_LISTS; lia|]. split.
      * apply Cm; [exact Iy|]. intros ->. exact (Ny (Blk x s false) ltac:(left; reflexivity) eq_refl).
      * intros ->. exact (Ny (Blk (x + s) sN false) ltac:(right; left; reflexivity) eq_refl).
    + exact NP.
    + rewrite last_alloc_snoc. exact EaP.
    + exact Npost'.
    + exact FN.
    + intros lo hi C. cbn in C. unfold MIN_SIZE. lia.
    + cbn [chain b_ptr b_size] in C2. destruct C2 as (El & _ & _ & _ & Eh).
      subst lo hi. replace (x + s + sN - x) with (s + sN) in * by lia.
      exists (add_block (with_mem st1 (set_size (mem st1) x (s + sN))) x),
        x, (s + sN), (pre ++ [P]), [], [Blk (x + s) sN false], post', fl2.
      split; [reflexivity|]. split; [exact G|].
      split; [rewrite app_nil_r; reflexivity|]. split; [exact Epost|].
      split; [intros b [<-|[]]; reflexivity|]. split; [reflexivity|].
      split; [rewrite Epost; cbn; lia|].
      split; [reflexivity|]. split; [rewrite Epost; reflexivity|].
      intros a Ha O. rewrite By2.
      * apply By1. exact O.
      * specialize (O _ IN eq_refl). cbn in O. lia.
      * exact O.
  - (* the previous block is free *)
    destruct P as [p sP aP]. cbn [b_ptr b_size b_alloc] in *. subst aP.
    assert (Np : pre <> []).
    { intros ->. cbn in E. pose proof (wf_head_alloc _ _ _ _ _ W E) as K.
      discriminate. }
    specialize (LP eq_refl).
    destruct (wf_unlist st bs fl p sP W IP) as (fl1 & W1 & Hfl1 & Tg1 & By1).
    { apply Cm; [exact IP|lia]. }
    rewrite (coalesce_case3 st x) by (rewrite ?RP, ?RN; assumption).
    cbv zeta. rewrite RP, SX.
    assert (SP1 : GET_SIZE (mem (delete_block st p)) (HDRP p) = sP).
    { rewrite <- SP. apply GET_SIZE_congr. apply Tg1. unfold HDRP, WSIZE. zlia. }
    rewrite SP1. rewrite size_t_small by lia.
    remember (delete_block st p) as st1 eqn:Est. clear Est.
    destruct (good_join_add st1 bs fl1 pre
                [Blk p sP false; Blk x s false] post W1)
      as (lo & hi & fl2 & C2 & G & By2).
    + rewrite E. reflexivity.
    + exact Np.
    + discriminate.
    + intros b l [<-|[<-|[]]] Rl I; apply Hfl1 in I; try exact Rl;
        destruct I as [I Ny]; cbn in *; [lia|exact (Nl l Rl I)].
    + intros b [<-|[<-|[]]]; reflexivity.
    + intros y sy Iy Ny. pose proof (get_list_range sy).
      apply Hfl1; [unfold NUM_LISTS; lia|]. split.
      * apply Cm; [exact Iy|]. intros ->. exact (Ny (Blk x s false) ltac:(right; left; reflexivity) eq_refl).
      * intros ->. exact (Ny (Blk p sP false) ltac:(left; reflexivity) eq_refl).
    + exact Npre.
    + exact LP.
    + exact Npost.
    + exact EaN.
    + intros lo hi C. cbn in C. unfold MIN_SIZE. lia.
    + cbn [chain b_ptr b_size] in C2. destruct C2 as (El & _ & _ & _ & Eh).
      subst lo hi. replace (p + sP + s - p) with (s + sP) in * by lia.
      exists (add_block (with_mem st1 (set_size (mem st1) p (s + sP))) p),
        p, (s + sP), pre, [Blk p sP false], [], post, fl2.
      split; [reflexivity|]. split; [exact G|].
      split; [reflexivity|]. split; [reflexivity|].
      split; [intros b [<-|[]]; reflexivity|]. split; [reflexivity|].
      split; [lia|].
      split; [reflexivity|]. split; [reflexivity|].
      intros a Ha O. rewrite By2.
      * apply By1. exact O.
      * specialize (O _ IP eq_refl). cbn in O. lia.
      * exact O.
  - (* both neighbours are free *)
    destruct P as [p sP aP]. cbn [b_ptr b_size b_alloc] in *. subst aP.
    assert (Np : pre <> []).
    { intros ->. cbn in E. pose proof (wf_head_alloc _ _ _ _ _ W E) as K.
      discriminate. }
    specialize (LP eq_refl).
    destruct (first_alloc_false _ EaN) as (n & sN & post' & Epost).
    destruct (HN _ _ Epost) as [En SN]. cbn [b_ptr b_size] in En, SN.
    subst n. rewrite Epost in E, Npost.
    destruct (naf_tail _ _ Npost) as [Npost' FN]. specialize (FN eq_refl).
    assert (IN : In (Blk (x + s) sN false) bs).
    { rewrite E. apply in_or_app. right. right. right. left. reflexivity. }
    destruct (wf_block _ _ _ _ W IN) as (_ & AxN & MsN & RsN & _ & UN & _).
    cbn [b_ptr b_size] in AxN, MsN, RsN, UN.
    destruct (wf_block _ _ _ _ W IP) as (_ & _ & _ & _ & LoP & _).
    cbn [b_ptr] in LoP.
    destruct (wf_unlist st bs fl (x + s) sN W IN) as (fl1 & W1 & Hfl1 & Tg1 & By1).
    { apply Cm; [exact IN|lia]. }
    destruct (wf_unlist (delete_block st (x + s)) bs fl1 p sP W1 IP)
      as (fl2 & W2 & Hfl2 & Tg2 & By2).
    { pose proof (get_list_range sP).
      apply Hfl1; [unfold NUM_LISTS; lia|]. split; [|lia].
      apply Cm; [exact IP|lia]. }
    rewrite (coalesce_case4 st x) by (rewrite ?RP, ?RN; assumption).
    cbv zeta. rewrite RP, RN, SX.
    assert (SP2 : GET_SIZE (mem (delete_block (delete_block st (x + s)) p))
                    (HDRP p) = sP).
    { rewrite <- SP. apply GET_SIZE_congr. rewrite Tg2, Tg1; try reflexivity;
        unfold HDRP, WSIZE; zlia. }
    assert (SN2 : GET_SIZE (mem (delete_block (delete_block st (x + s)) p))
                    (HDRP (x + s)) = sN).
    { rewrite <- SN. apply GET_SIZE_congr. rewrite Tg2, Tg1; try reflexivity;
        unfold HDRP, WSIZE; zlia. }
    rewrite SP2, SN2.
    assert (Hsum : sP + s + sN <= 2 ^ 31 + 8).
    { destruct (wf_chain _ _ _ W) as (_ & _ & K & _). lia. }
    rewrite (uint_small (sP + sN)) by lia. rewrite size_t_small by lia.
    remember (delete_block (delete_block st (x + s)) p) as st2 eqn:Est.
    clear Est.
    destruct (good_join_add st2 bs fl2 pre
                [Blk p sP false; Blk x s false; Blk (x + s) sN false] post' W2)
      as (lo & hi & fl3 & C2 & G & By3).
    + rewrite E. reflexivity.
    + exact Np.
    + discriminate.
    + intros b l [<-|[<-|[<-|[]]]] Rl I; apply Hfl2 in I; try exact Rl;
        destruct I as [I Ny]; cbn in *; [lia| |];
        apply Hfl1 in I; try exact Rl; destruct I as [I Ny'];
        [exact (Nl l Rl I)|lia].
    + intros b [<-|[<-|[<-|[]]]]; reflexivity.
    + intros y sy Iy Ny. pose proof (get_list_range sy).
      apply Hfl2; [unfold NUM_LISTS; lia|]. split.
      * apply Hfl1; [unfold NUM_LISTS; lia|]. split.
        -- apply Cm; [exact Iy|]. intros ->. exact (Ny (Blk x s false) ltac:(right; left; reflexivity) eq_refl).
        -- intros ->. exact (Ny (Blk (x + s) sN false) ltac:(right; right; left; reflexivity) eq_refl).
      * intros ->. exact (Ny (Blk p sP false) ltac:(left; reflexivity) eq_refl).
    + exact Npre.
    + exact LP.
    + exact Npost'.
    + exact FN.
    + intros lo hi C. cbn in C. unfold MIN_SIZE. lia.
    + cbn [chain b_ptr b_size] in C2.
      destruct C2 as (El & _ & _ & _ & _ & _ & Eh).
      subst lo hi. replace (p + sP + s + sN - p) with (s + (sP + sN)) in * by lia.
      exists (add_block (with_mem st2 (set_size (mem st2) p (s + (sP + sN)))) p),
        p, (s + (sP + sN)), pre, [Blk p sP false], [Blk (x + s) sN false],
        post', fl3.
      split; [reflexivity|]. split; [exact G|].
      split; [reflexivity|]. split; [exact Epost|].
      split; [intros b [<-|[<-|[]]]; reflexivity|]. split; [reflexivity|].
      split; [rewrite Epost; cbn; lia|].
      split; [reflexivity|]. split; [rewrite Epost; reflexivity|].
      intros a Ha O. rewrite By3.
      * rewrite By2 by exact O. apply By1. exact O.
      * pose proof (O _ IN eq_refl) as O1. pose proof (O _ IP eq_refl) as O2.
        cbn in O1, O2. lia.
      * exact O.
Qed.

Lemma good_coalesce st bs fl pre P x s post :
  wf st bs fl -> bs = pre ++ P :: Blk x s false :: post ->
  (forall l, 0 <= l < NUM_LISTS -> ~ In x (fl l)) ->
  (forall y sy, In (Blk y sy false) bs -> y <> x -> In y (fl (get_list sy))) ->
  no_adjacent_free (pre ++ [P]) = true -> no_adjacent_free post = true ->
  MIN_SIZE <= s ->
  exists st' lo total pre' dP dN post' fl',
    coalesce st x = (st', lo)
    /\ good st' (pre' ++ Blk lo total false :: post') fl'
    /\ pre ++ [P] = pre' ++ dP /\ post = dN ++ post'
    /\ (forall b, In b (dP ++ dN) -> b_alloc b = false)
    /\ lo = (if b_alloc P then x else b_ptr P)
    /\ lo + total
       = x + s + (if first_alloc post then 0 else b_size (hd P post))
    /\ (forall a, a < x - 8 \/ x + s - 8 <= a -> outside_free bs a ->
                  mem st' a = mem st a).
Proof.
  intros W E Nl Cm NP Npost Hs.
  destruct (good_coalesce_detail st bs fl pre P x s post W E Nl Cm NP Npost Hs)
    as (st' & lo & total & pre' & dP & dN & post' & fl' & H1 & H2 & H3 & H4
        & H5 & H6 & H7 & _ & _ & H8).
  exists st', lo, total, pre', dP, dN, post', fl'. auto 10.
Qed.

(** ** free, and the allocation of a listed block *)

Lemma tl_min st bs fl b :
  wf st bs fl -> In b (tl bs) -> MIN_SIZE <= b_size b.
Proof.
  intros W I. destruct (wf_prologue _ _ _ W) as (rest & Er & F).
  rewrite Er in I. cbn in I.
  exact (proj1 (List.Forall_forall _ _) F b I).
Qed.

Lemma free_block_min st bs fl x s :
  wf st bs fl -> In (Blk x s false) bs -> MIN_SIZE <= s.
Proof.
  intros W I. destruct (wf_prologue _ _ _ W) as (rest & Er & F).
  rewrite Er in I. destruct I as [I|I]; [inversion I|].
  exact (proj1 (List.Forall_forall _ _) F _ I).
Qed.

(** [free] of a block in use keeps the heap good, merges the block with
    its free neighbours and leaves every other block in use alone. *)
Lemma good_free st bs fl bp s :
  good st bs fl -> In (Blk bp s true) (tl bs) ->
  exists bs' fl' lo total,
    good (free st bp) bs' fl'
    /\ In (Blk lo total false) bs' /\ lo <= bp /\ bp + s <= lo + total
    /\ (forall b, b_alloc b = true ->
          (In b bs' <-> In b bs /\ b <> Blk bp s true))
    /\ (forall a, a < bp - 8 \/ bp + s - 8 <= a -> outside_free bs a ->
                  mem (free st bp) a = mem st a).
Proof.
  intros (W & Cm & Naf) I.
  pose proof (tl_min _ _ _ _ W I) as Hs. cbn in Hs.
  assert (Hs24 : 24 <= s) by exact Hs.
  destruct (blocks_around _ _ I) as (pre & P & post & E).
  assert (E' : bs = (pre ++ [P]) ++ Blk bp s true :: post)
    by (rewrite E; apply app_cons_assoc).
  assert (IB : In (Blk bp s true) bs) by (rewrite E'; apply in_mid).
  destruct (wf_block _ _ _ _ W IB) as (_ & _ & _ & _ & Lo & _).
  destruct (wf_base _ _ _ W) as [Hpos _]. cbn in Lo.
  destruct (wf_chain _ _ _ W) as (Hch & Hal & _).
  pose proof Hch as Hch'. rewrite E' in Hch'.
  destruct (chain_once _ _ _ _ _ _ Hch') as (O1 & O2 & _).
  cbn [b_ptr b_size] in O1, O2.
  destruct (wf_mark_free st bs fl (pre ++ [P]) bp s post W E') as (W1 & By1);
    [intros H; apply app_eq_nil in H as [_ H]; discriminate|exact Hs|].
  rewrite <- app_cons_assoc in W1.
  rewrite E', naf_around in Naf. rewrite !andb_true_iff in Naf.
  destruct Naf as [[[N1 N2] _] _].
  set (bs1 := pre ++ P :: Blk bp s false :: post) in *.
  assert (Fr1 : forall y sy, In (Blk y sy false) bs1 -> y <> bp ->
                             In (Blk y sy false) bs).
  { intros y sy Iy Ny. unfold bs1 in Iy. rewrite E.
    rewrite in_app_iff in *. cbn [In] in *.
    destruct Iy as [Iy|[Iy|[Iy|Iy]]]; auto. inversion Iy. congruence. }
  destruct (good_coalesce (with_mem st (set_free (mem st) bp)) bs1 fl
              pre P bp s post W1 eq_refl)
    as (st' & lo & total & pre' & dP & dN & post' & fl' & Ec & G & Ep & Eq
        & Fd & L1' & L2' & By2).
  - exact (unlisted_alloc _ _ _ _ _ W IB).
  - intros y sy Iy Ny. apply Cm. apply Fr1; assumption.
  - exact N1.
  - exact N2.
  - exact Hs.
  - exists (pre' ++ Blk lo total false :: post'), fl', lo, total.
    assert (L1 : lo <= bp /\ bp + s <= lo + total).
    { destruct (wf_chain _ _ _ W1) as (Hch1 & _ & _ & Hep1).
      unfold bs1 in Hch1.
      destruct (coalesce_reads _ _ _ _ P bp s post Hch1)
        as (_ & _ & _ & _ & _ & _ & EPX & HN).
      - replace (eptr (with_mem st (set_free (mem st) bp)) + 8 - 8)
          with (eptr (with_mem st (set_free (mem st) bp))) by lia.
        exact Hep1.
      - destruct (wf_block _ _ _ P W) as (_ & _ & _ & RP & _);
          [rewrite E; apply in_mid|].
        rewrite L2'. destruct (b_alloc P); subst lo;
          destruct (first_alloc post) eqn:Ef.
        + lia.
        + destruct (first_alloc_false _ Ef) as (n & sN & post0 & Epost0).
          rewrite Epost0. cbn.
          destruct (wf_block _ _ _ (Blk n sN false) W) as (_ & _ & _ & RN & _).
          { rewrite E, Epost0. apply in_or_app. right. right. right. left.
            reflexivity. }
          cbn in RN. lia.
        + lia.
        + destruct (first_alloc_false _ Ef) as (n & sN & post0 & Epost0).
          rewrite Epost0. cbn.
          destruct (wf_block _ _ _ (Blk n sN false) W) as (_ & _ & _ & RN & _).
          { rewrite E, Epost0. apply in_or_app. right. right. right. left.
            reflexivity. }
          cbn in RN. lia. }
    destruct L1 as [L1 L2].
    assert (Ef : free st bp = st').
    { unfold free. replace (bp =? 0) with false by lia.
      replace (heap_listp st =? 0) with false by lia. cbv zeta.
      rewrite Ec. reflexivity. }
    rewrite Ef. split; [exact G|]. split; [apply in_mid|].
    split; [exact L1|]. split; [exact L2|]. split.
    + intros b Ab. rewrite E'.
      assert (Hp : In b (pre ++ [P]) <-> In b pre').
      { rewrite Ep, in_app_iff. split; [|auto]. intros [H|H]; [exact H|].
        rewrite (Fd b) in Ab; [discriminate|]. apply in_or_app. auto. }
      assert (Hq : In b post <-> In b post').
      { rewrite Eq, in_app_iff. split; [|auto]. intros [H|H]; [|exact H].
        rewrite (Fd b) in Ab; [discriminate|]. apply in_or_app. auto. }
      split.
      * intros H. apply in_app_or in H as [H|[H|H]].
        -- apply Hp in H. split; [apply in_or_app; left; exact H|].
           intros ->. specialize (O1 _ H). cbn in O1. lia.
        -- subst b. discriminate.
        -- apply Hq in H. split; [apply in_or_app; right; right; exact H|].
           intros ->. specialize (O2 _ H). cbn in O2. lia.
      * intros [H Nb]. apply in_app_or in H as [H|[H|H]].
        -- apply in_or_app. left. apply Hp. exact H.
        -- congruence.
        -- apply in_or_app. right. right. apply Hq. exact H.
    + intros a Ha O. rewrite By2.
      * cbn [mem with_mem]. apply By1. exact Ha.
      * exact Ha.
      * intros b Ib Fb. destruct b as [y sy ay]. cbn in Fb. subst ay.
        destruct (Z.eq_dec y bp) as [->|Ny].
        -- destruct (wf_chain _ _ _ W1) as (Hch1 & Hal1 & _).
           cbn [mem heap_listp eptr with_mem] in Hch1, Hal1.
           assert (IX : In (Blk bp s false) bs1).
           { unfold bs1. apply in_or_app. right. right. left. reflexivity. }
           destruct (tiling_unique _ _ _ _ Hch1 Hal1 _ _ _ _ _ Ib IX) as [-> _].
           cbn. lia.
        -- apply (O _ (Fr1 _ _ Ib Ny)). reflexivity.
Qed.

Lemma good_free_detail st bs fl bp s :
  good st bs fl -> In (Blk bp s true) (tl bs) ->
  exists pre P post lo total pre' dP dN post' fl',
    bs = pre ++ P :: Blk bp s true :: post
    /\ good (free st bp) (pre' ++ Blk lo total false :: post') fl'
    /\ pre ++ [P] = pre' ++ dP /\ post = dN ++ post'
    /\ dP = (if b_alloc P then [] else [P])
    /\ dN = (if first_alloc post then [] else [hd P post])
    /\ lo = (if b_alloc P then bp else b_ptr P)
    /\ lo + total
       = bp + s + (if first_alloc post then 0 else b_size (hd P post)).
Proof.
  intros (W & Cm & Naf) I.
  pose proof (tl_min _ _ _ _ W I) as Hs. cbn in Hs.
  assert (Hs24 : 24 <= s) by exact Hs.
  destruct (blocks_around _ _ I) as (pre & P & post & E).
  assert (E' : bs = (pre ++ [P]) ++ Blk bp s true :: post)
    by (rewrite E; apply app_cons_assoc).
  assert (IB : In (Blk bp s true) bs) by (rewrite E'; apply in_mid).
  destruct (wf_block _ _ _ _ W IB) as (_ & _ & _ & _ & Lo & _).
  destruct (wf_base _ _ _ W) as [Hpos _]. cbn in Lo.
  destruct (wf_chain _ _ _ W) as (Hch & Hal & _).
  pose proof Hch as Hch'. rewrite E' in Hch'.
  destruct (chain_once _ _ _ _ _ _ Hch') as (O1 & O2 & _).
  cbn [b_ptr b_size] in O1, O2.
  destruct (wf_mark_free st bs fl (pre ++ [P]) bp s post W E') as (W1 & By1);
    [intros H; apply app_eq_nil in H as [_ H]; discriminate|exact Hs|].
  rewrite <- app_cons_assoc in W1.
  rewrite E', naf_around in Naf. rewrite !andb_true_iff in Naf.
  destruct Naf as [[[N1 N2] _] _].
  set (bs1 := pre ++ P :: Blk bp s false :: post) in *.
  assert (Fr1 : forall y sy, In (Blk y sy false) bs1 -> y <> bp ->
                             In (Blk y sy false) bs).
  { intros y sy Iy Ny. unfold bs1 in Iy. rewrite E.
    rewrite in_app_iff in *. cbn [In] in *.
    destruct Iy as [Iy|[Iy|[Iy|Iy]]]; auto. inversion Iy. congruence. }
  destruct (good_coalesce_detail (with_mem st (set_free (mem st) bp)) bs1 fl
              pre P bp s post W1 eq_refl)
    as (st' & lo & total & pre' & dP & dN & post' & fl' & Ec & G & Ep & Eq
        & Fd & L1' & L2' & EdP & EdN & By2).
  - exact (unlisted_alloc _ _ _ _ _ W IB).
  - intros y sy Iy Ny. apply Cm. apply Fr1; assumption.
  - exact N1.
  - exact N2.
  - exact Hs.
  - assert (Ef : free st bp = st').
    { unfold free. replace (bp =? 0) with false by lia.
      replace (heap_listp st =? 0) with false by lia. cbv zeta.
      rewrite Ec. reflexivity. }
    exists pre, P, post, lo, total, pre', dP, dN, post', fl'.
    rewrite Ef. auto 12.
Qed.

Lemma in_tl_app {A : Type} (pre l : list A) b :
  pre <> [] -> In b l -> In b (tl (pre ++ l)).
Proof.
  destruct pre as [|p pre]; [congruence|]. intros _ I. cbn.
  apply in_or_app. right. exact I.
Qed.

(** [split] and [set_alloc] on a free block that is large enough keep the
    heap good and hand the block out. *)
Lemma good_take st bs fl pre x s post asize :
  good st bs fl -> bs = pre ++ Blk x s false :: post ->
  asize mod 8 = 0 -> MIN_SIZE <= asize <= s ->
  exists st1 bs' fl' total,
    split st x asize = (st1, x)
    /\ good (with_mem st1 (set_alloc (mem st1) x)) bs' fl'
    /\ In (Blk x total true) (tl bs') /\ asize <= total <= s
    /\ (forall b, b_alloc b = true ->
          (In b bs' <-> In b bs \/ b = Blk x total true))
    /\ (forall a, outside_free bs a -> set_alloc (mem st1) x a = mem st a).
Proof.
  intros (W & Cm & Naf) E Ma Hs.
  assert (Ix : In (Blk x s false) bs) by (rewrite E; apply in_mid).
  pose proof (wf_pre_nonempty _ _ _ _ _ _ _ W E) as Np.
  destruct (wf_chain _ _ _ W) as (Hch & Hal & _).
  pose proof Hch as Hch'. rewrite E in Hch'.
  destruct (chain_once _ _ _ _ _ _ Hch') as (O1 & O2 & R).
  cbn [b_ptr b_size] in O1, O2, R.
  destruct (wf_take st bs fl pre x s post asize W E (Cm _ _ Ix) Ma Hs)
    as (st1 & fl' & mid & Es & W' & Hmid & By).
  rewrite E, naf_around in Naf. rewrite !andb_true_iff in Naf.
  destruct Naf as [[[N1 N2] N3] N4]. cbn [b_alloc] in N3, N4.
  rewrite orb_false_r in N3. rewrite orb_false_l in N4.
  assert (Hpre : forall y sy, In (Blk y sy false) pre ->
            In y (fl (get_list sy)) /\ y <> x).
  { intros y sy Iy. split.
    - apply Cm. rewrite E. apply in_or_app. left. exact Iy.
    - specialize (O1 _ Iy).
      destruct (wf_block _ _ _ (Blk y sy false) W) as (_ & _ & _ & Ry & _);
        [rewrite E; apply in_or_app; auto|].
      cbn in *. lia. }
  assert (Hpost : forall y sy, In (Blk y sy false) post ->
            In y (fl (get_list sy)) /\ y <> x).
  { intros y sy Iy. split.
    - apply Cm. rewrite E. apply in_or_app. right. right. exact Iy.
    - specialize (O2 _ Iy). cbn in *. lia. }
  destruct Hmid as [(-> & Hlt & Hfl)|(-> & Hge & Hfl)].
  - exists st1, (pre ++ [Blk x s true] ++ post), fl', s.
    split; [exact Es|]. split; [|split; [|split; [|split]]].
    + split; [exact W'|]. split.
      * intros y sy Iy. pose proof (get_list_range sy).
        apply Hfl; [unfold NUM_LISTS; lia|].
        apply in_app_or in Iy as [Iy|[Iy|Iy]]; [auto|inversion Iy|auto].
      * cbn [app]. rewrite naf_around, N1, N2. cbn. rewrite orb_true_r.
        reflexivity.
    + apply in_tl_app; [exact Np|]. left. reflexivity.
    + lia.
    + intros b Ab. rewrite E. cbn [app]. rewrite !in_app_iff. cbn [In].
      split.
      * intros [H|[H|H]]; auto.
      * intros [[H|[H|H]]|H]; auto. subst b. discriminate.
    + exact By.
  - exists st1, (pre ++ [Blk x asize true; Blk (x + asize) (s - asize) false]
                     ++ post), fl', asize.
    split; [exact Es|]. split; [|split; [|split; [|split]]].
    + split; [exact W'|]. split.
      * intros y sy Iy. pose proof (get_list_range sy).
        apply Hfl; [unfold NUM_LISTS; lia|].
        apply in_app_or in Iy as [Iy|[Iy|[Iy|Iy]]];
          [left; auto|inversion Iy| |left; auto].
        inversion Iy. subst y sy. right. auto.
      * cbn [app]. rewrite naf_around, N1. rewrite naf_cons, N2, N4. cbn.
        rewrite orb_true_r. reflexivity.
    + apply in_tl_app; [exact Np|]. left. reflexivity.
    + lia.
    + intros b Ab. rewrite E. cbn [app]. rewrite !in_app_iff. cbn [In].
      split.
      * intros [H|[H|[H|H]]]; auto. subst b. discriminate.
      * intros [[H|[H|H]]|H]; auto. subst b. discriminate.
    + exact By.
Qed.

(** ** Growing the heap by one block *)

(** The heap after [extend_heap] has stamped the new block and the new
    epilogue: one more free block, not yet on a list. *)
Lemma wf_grow st bs fl size :
  wf st bs fl -> size mod 8 = 0 -> MIN_SIZE <= size ->
  mem_brk st + size <= mem_max_addr st ->
  let bp := mem_brk st + WSIZE in
  let st1 := with_brk st (mem_brk st + size) in
  let m1 := set_size (mem st1) bp size in
  let m2 := PUT m1 (HDRP (NEXT_BLKP m1 bp)) (PACK 0 1) in
  let st2 := with_eptr (with_mem st1 m2) (eptr st1 + GET_SIZE m2 (HDRP bp)) in
  wf st2 (bs ++ [Blk bp size false]) fl
  /\ bp = eptr st + 8
  /\ (forall a, a < eptr st -> mem st2 a = mem st a).
Proof.
  intros W Ms Hs Hm. unfold MIN_SIZE in Hs.
  destruct (wf_chain _ _ _ W) as (Hch & Hal & Hext & Hep).
  destruct (wf_brk _ _ _ W) as [Hb Hmax]. unfold WSIZE in Hb.
  pose proof (wf_room _ _ _ W) as Hroom.
  destruct (wf_base _ _ _ W) as [Hpos _].
  pose proof (chain_le _ _ _ _ Hch) as Lch.
  pose proof (chain_mod8 _ _ _ _ Hch Hal) as Ae.
  cbv zeta. cbn [mem eptr with_brk].
  assert (Ebp : mem_brk st + WSIZE = eptr st + 8) by (unfold WSIZE; lia).
  rewrite Ebp. clear Ebp.
  set (bp := eptr st + 8).
  rewrite (set_size_eq (mem st) bp size) by lia.
  set (m1 := PUT (PUT (mem st) (bp - 8) size) (bp + size - 16) size).
  assert (S1 : GET_SIZE m1 (HDRP bp) = size).
  { unfold HDRP, WSIZE, m1. change (2 * 4) with 8.
    rewrite GET_SIZE_eq, GET_PUT_other, GET_PUT_same, uint_small by lia. zlia. }
  unfold NEXT_BLKP. rewrite S1.
  replace (HDRP (bp + size)) with (bp + size - 8) by (unfold HDRP, WSIZE; lia).
  change (PACK 0 1) with 1.
  set (m2 := PUT m1 (bp + size - 8) 1).
  assert (S2 : GET_SIZE m2 (HDRP bp) = size).
  { rewrite <- S1. apply GET_SIZE_congr. unfold m2. apply GET_PUT_other.
    unfold HDRP, WSIZE. lia. }
  rewrite S2.
  assert (By : forall a, a < eptr st -> m2 a = mem st a).
  { intros a Ha. unfold m2, m1, bp. rewrite !PUT_byte_other by lia.
    reflexivity. }
  split; [|split; [reflexivity|exact By]].
  constructor; cbn [mem heap_listp eptr mem_brk mem_start_brk mem_max_addr
                    free_lists with_mem with_eptr with_brk].
  - exact (wf_base _ _ _ W).
  - destruct (wf_prologue _ _ _ W) as (rest & Er & Fr).
    exists (rest ++ [Blk bp size false]). split; [rewrite Er; reflexivity|].
    apply List.Forall_app. split; [exact Fr|].
    constructor; [unfold MIN_SIZE; cbn; lia|constructor].
  - split; cbn [mem heap_listp eptr with_mem with_eptr with_brk].
    + unfold WSIZE. change (2 * 4) with 8. apply chain_app. exists bp. split.
      * apply (chain_bytes _ _ _ _ _ Hch Hal). intros a Ha. apply By.
        unfold bp in Ha. lia.
      * cbn [chain b_ptr b_size]. split; [reflexivity|]. split; [|unfold bp; lia].
        unfold block_ok, tag. cbn. unfold HDRP, WSIZE, DSIZE, m2, m1.
        change (2 * 4) with 8. change (4 * 4) with 16.
        repeat (rewrite GET_PUT_same || rewrite GET_PUT_other by lia).
        rewrite uint_small by lia. repeat split; lia.
    + unfold m2. replace (eptr st + size) with (bp + size - 8)
        by (unfold bp; lia).
      rewrite GET_PUT_same. reflexivity.
  - unfold WSIZE. split; lia.
  - exact (wf_start _ _ _ W).
  - exact Hroom.
  - exact (wf_len _ _ _ W).
  - intros i Ri. destruct (wf_lists _ _ _ W i Ri) as [Di Ndi].
    split; [|exact Ndi].
    match goal with |- dll _ _ ?h => change h with (list_head st i) end.
    apply (dllseg_ext (mem st) m2 (fl i)); [|exact Di].
    intros y Iy.
    destruct (wf_member _ _ _ _ _ W Ri Iy) as (sy & Iby & Gy & _).
    destruct (wf_block _ _ _ _ W Iby) as (_ & _ & _ & Ry & _ & Uy & Sy).
    cbn [b_ptr b_size] in Ry, Sy, Uy.
    apply (links_bytes (mem st) m2 y sy Sy); [lia|].
    intros a Ha. apply By. lia.
  - intros i y Ri Iy.
    destruct (wf_members _ _ _ W i y Ri Iy) as (sy & Iby & Gy).
    exists sy. split; [apply in_or_app; left; exact Iby|exact Gy].
Qed.

(** ** extend_heap *)

Lemma wf_last st bs fl :
  wf st bs fl -> exists pre P, bs = pre ++ [P]
    /\ b_ptr P + b_size P = eptr st + 8
    /\ SPACE_LEFT (mem st) (eptr st) = (if b_alloc P then 0 else b_size P).
Proof.
  intros W. destruct (wf_prologue _ _ _ W) as (rest & Er & _).
  assert (Ne : bs <> []) by (rewrite Er; discriminate).
  destruct (exists_last Ne) as (pre & P & E).
  exists pre, P. split; [exact E|].
  destruct (wf_chain _ _ _ W) as (Hch & Hal & _).
  rewrite E in Hch. apply chain_app in Hch as (lo & C1 & C2).
  cbn in C2. destruct C2 as (EP & ok & Ee).
  split; [lia|].
  pose proof (block_ok_bounds _ _ ok) as [R M].
  destruct ok as (_ & F & _). unfold WSIZE in F. change (4 * 4) with 16 in F.
  unfold SPACE_LEFT, HDRP, WSIZE. change (2 * 4) with 8.
  replace (eptr st - 8) with (b_ptr P + b_size P - 16) by lia.
  rewrite GET_ALLOC_eq, GET_SIZE_eq, F. unfold tag.
  destruct (b_alloc P).
  - replace ((b_size P + 1) mod 2 =? 0) with false; [reflexivity|].
    symmetry. apply Z.eqb_neq. zlia.
  - replace ((b_size P + 0) mod 2 =? 0) with true; [zlia|].
    symmetry. apply Z.eqb_eq. zlia.
Qed.

Lemma SPACE_LEFT_mod8 m e : SPACE_LEFT m e mod 8 = 0.
Proof.
  unfold SPACE_LEFT. destruct (_ =? 0); [apply GET_SIZE_mod8|reflexivity].
Qed.

(** A block found by the search is handed out. *)
Lemma good_malloc_hit st bs fl asize hit s :
  good st bs fl -> asize mod 8 = 0 -> MIN_SIZE <= asize <= s ->
  In (Blk hit s false) bs ->
  exists st1 bs' fl' total,
    split st hit asize = (st1, hit)
    /\ good (with_mem st1 (set_alloc (mem st1) hit)) bs' fl'
    /\ In (Blk hit total true) (tl bs') /\ asize <= total
    /\ (forall b, b_alloc b = true ->
          (In b bs' <-> In b bs \/ b = Blk hit total true))
    /\ (forall s', ~ In (Blk hit s' true) bs)
    /\ (forall a, outside_free bs a -> set_alloc (mem st1) hit a = mem st a).
Proof.
  intros G Ma Hs I. destruct (in_split _ _ I) as (pre & post & E).
  destruct (good_take st bs fl pre hit s post asize G E Ma Hs)
    as (st1 & bs' & fl' & total & Es & G' & It & Rt & Ha & By).
  exists st1, bs', fl', total.
  split; [exact Es|]. split; [exact G'|]. split; [exact It|].
  split; [lia|]. split; [exact Ha|]. split; [|exact By].
  intros s' I'. destruct G as (W & _).
  destruct (wf_chain _ _ _ W) as (Hch & Hal & _).
  destruct (tiling_unique _ _ _ _ Hch Hal _ _ _ _ _ I I') as [_ K].
  discriminate.
Qed.

(** The heap is extended, and the new block, joined with a free last
    block, is handed out. *)
Lemma good_extend st bs fl asize :
  good st bs fl -> asize mod 8 = 0 -> MIN_SIZE <= asize < 2 ^ 64 ->
  exists st1 bp, extend_heap st asize = (st1, bp)
  /\ ((bp = NULL /\ st1 = st
       /\ mem_max_addr st
          < mem_brk st
            + Z.max CHUNKSIZE
                    (size_t (asize - SPACE_LEFT (mem st) (eptr st))))
      \/ (bp <> NULL /\ exists bs' fl' total,
            good (with_mem st1 (set_alloc (mem st1) bp)) bs' fl'
            /\ In (Blk bp total true) (tl bs') /\ asize <= total
            /\ (forall b, b_alloc b = true ->
                  (In b bs' <-> In b bs \/ b = Blk bp total true))
            /\ (forall s', ~ In (Blk bp s' true) bs)
            /\ (forall a, a < eptr st -> outside_free bs a ->
                          set_alloc (mem st1) bp a = mem st a))).
Proof.
  intros (W & Cm & Naf) Ma Hs. unfold MIN_SIZE in Hs.
  destruct (wf_last _ _ _ W) as (pre & P & E & EP & SL).
  destruct (wf_brk _ _ _ W) as [Hb Hmax]. unfold WSIZE in Hb.
  pose proof (wf_room _ _ _ W) as Hroom.
  destruct (wf_base _ _ _ W) as [Hpos _].
  destruct (wf_chain _ _ _ W) as (Hch & Hal & Hext & Hep).
  pose proof (chain_le _ _ _ _ Hch) as Lch.
  assert (IP : In P bs) by (rewrite E; apply in_mid).
  destruct (wf_block _ _ _ _ W IP) as (_ & AxP & MsP & RsP & LoP & _).
  unfold extend_heap. cbv zeta.
  pose proof (SPACE_LEFT_mod8 (mem st) (eptr st)) as Msl.
  set (sl := SPACE_LEFT (mem st) (eptr st)) in *.
  set (s0 := size_t (asize - sl)).
  set (sz := if s0 <? CHUNKSIZE then CHUNKSIZE else s0).
  assert (Hsz : sz mod 8 = 0 /\ 256 <= sz /\ s0 <= sz).
  { unfold sz. change CHUNKSIZE with 256. unfold s0, size_t.
    destruct (_ <? 256) eqn:Ec; [split; [reflexivity|lia]|].
    split; [zlia|lia]. }
  destruct Hsz as (Msz & Rsz & Rs0).
  unfold mem_sbrk.
  destruct ((sz <? 0) || (mem_brk st + sz >? mem_max_addr st)) eqn:Eb.
  - exists st, NULL. split; [reflexivity|]. left.
    split; [reflexivity|]. split; [reflexivity|].
    apply orb_true_iff in Eb as [Eb|Eb]; [lia|].
    fold sl. fold s0. unfold sz in *. change CHUNKSIZE with 256 in *.
    destruct (s0 <? 256) eqn:Ec; lia.
  - apply orb_false_iff in Eb as [_ Eb].
    assert (Hfit : mem_brk st + sz <= mem_max_addr st) by lia.
    cbv iota beta. replace (mem_brk st =? -1) with false by lia.
    destruct (wf_grow st bs fl sz W Msz ltac:(unfold MIN_SIZE; lia) Hfit)
      as (W2 & Ebp & By2).
    cbv zeta in W2, By2, Ebp.
    set (bp := mem_brk st + WSIZE) in *.
    match type of W2 with wf ?s _ _ => remember s as st2 eqn:Est2 end.
    clear Est2.
    assert (E2 : bs ++ [Blk bp sz false] = pre ++ P :: Blk bp sz false :: []).
    { rewrite E, <- app_assoc. reflexivity. }
    destruct (good_coalesce st2 (bs ++ [Blk bp sz false]) fl pre P bp sz []
                W2 E2)
      as (st3 & lo & total & pre' & dP & dN & post' & fl3 & Ec & G3 & Ep & Eq
          & Fd & Llo & Ltot & By3).
    + intros l Rl I. destruct (wf_member _ _ _ _ _ W Rl I) as (sy & Iy & _).
      destruct (wf_block _ _ _ _ W Iy) as (_ & _ & _ & Ry & _ & Uy & _).
      cbn in Ry, Uy. lia.
    + intros y sy Iy Ny. apply Cm. apply in_app_or in Iy as [Iy|[Iy|[]]];
        [exact Iy|]. inversion Iy. congruence.
    + rewrite <- E. exact Naf.
    + reflexivity.
    + unfold MIN_SIZE. lia.
    + rewrite Ec. symmetry in Eq. apply app_eq_nil in Eq as [-> ->].
      rewrite app_nil_r in Fd. cbn [first_alloc] in Ltot.
      assert (Hat : asize <= total).
      { destruct (b_alloc P) eqn:Ea.
        - subst lo. unfold s0 in Rs0. rewrite SL in *.
          rewrite size_t_small in Rs0 by lia. lia.
        - unfold s0, size_t in Rs0. rewrite SL in *. subst lo.
          destruct (Z_le_dec (b_size P) asize) as [Hle|Hgt].
          + rewrite Z.mod_small in Rs0 by lia. lia.
          + exfalso.
            assert (asize - b_size P + 2 ^ 64 <= sz); [|lia].
            replace ((asize - b_size P) mod 2 ^ 64)
              with (asize - b_size P + 2 ^ 64) in Rs0; [exact Rs0|].
            apply Z.mod_unique with (q := -1); lia. }
      destruct (good_take st3 _ fl3 pre' lo total [] asize G3 eq_refl Ma)
        as (st4 & bs' & fl' & tot' & Es & G' & It & Rt & Ha & By4);
        [unfold MIN_SIZE; lia|].
      assert (Hlo : lo <> NULL).
      { unfold NULL. destruct (b_alloc P); subst lo; unfold bp, WSIZE; lia. }
      exists st4, lo. split; [rewrite Es; reflexivity|]. right.
      split; [exact Hlo|].
      exists bs', fl', tot'. split; [exact G'|]. split; [exact It|].
      split; [lia|]. split; [|split].
      * intros b Ab. rewrite (Ha b Ab). rewrite E, Ep.
        rewrite !in_app_iff. cbn [In]. split.
        -- intros [[H|[H|[]]]|H]; auto. subst b. discriminate.
        -- intros [[H|H]|H]; auto.
           rewrite (Fd b H) in Ab. discriminate.
      * intros s' I'.
        destruct (wf_block _ _ _ _ W I') as (_ & _ & _ & Ry & _ & Uy & _).
        cbn in Ry, Uy.
        destruct (b_alloc P) eqn:Ea; subst lo.
        -- unfold bp, WSIZE in Uy. lia.
        -- pose proof (tiling_ptr_inj _ _ _ _ (Blk (b_ptr P) s' true) P
                         Hch Hal I' IP eq_refl) as K.
           rewrite <- K in Ea. discriminate.
      * intros a Ha' O. rewrite By4.
        -- rewrite By3; [apply By2; exact Ha'| |].
           ++ unfold bp, WSIZE. lia.
           ++ intros b Ib Fb. apply in_app_or in Ib as [Ib|[<-|[]]].
              ** exact (O b Ib Fb).
              ** cbn. unfold bp, WSIZE. lia.
        -- intros b Ib Fb. apply in_app_or in Ib as [Ib|[<-|[]]].
           ++ apply O; [|exact Fb]. rewrite E, Ep. apply in_or_app. left.
              exact Ib.
           ++ cbn. destruct (b_alloc P) eqn:Ea; subst lo.
              ** unfold bp, WSIZE. lia.
              ** specialize (O P IP Ea). lia.
Qed.

(** ** malloc *)

Lemma malloc_returns fuel st bs fl size :
  wf st bs fl -> (length bs + 22 < fuel)%nat ->
  exists r, malloc fuel st size = Ok r.
Proof.
  intros W Hf. destruct (wf_base _ _ _ W) as [Hpos _].
  unfold malloc. replace (heap_listp st =? 0) with false by lia.
  destruct (size =? 0); [eauto|]. cbv zeta. unfold search_list.
  destruct (search_start_returns st bs fl (align_size size) fuel W Hf)
    as (r & Er).
  rewrite Er. cbn [bind].
  destruct r as [hit| |i]; cbn [bind].
  - destruct (split st hit (align_size size)) as [s1 b1]. cbn [bind].
    destruct (b1 =? NULL).
    + destruct (extend_heap s1 (align_size size)) as [s2 b2].
      destruct (b2 =? NULL); eauto.
    + destruct (b1 =? NULL); eauto.
  - change (NULL =? NULL) with true. cbv iota.
    destruct (extend_heap st (align_size size)) as [s2 b2].
    destruct (b2 =? NULL); eauto.
  - change (NULL =? NULL) with true. cbv iota.
    destruct (extend_heap st (align_size size)) as [s2 b2].
    destruct (b2 =? NULL); eauto.
Qed.

Lemma good_malloc fuel st bs fl size st0 bp0 :
  good st bs fl -> 0 < size <= 2 ^ 64 - 24 ->
  malloc fuel st size = Ok (st0, bp0) ->
  exists st' bp, malloc fuel st size = Ok (st', bp)
  /\ ((bp = NULL /\ st' = st
       /\ mem_max_addr st
          < mem_brk st
            + Z.max CHUNKSIZE
                (size_t (align_size size - SPACE_LEFT (mem st) (eptr st))))
      \/ (bp <> NULL /\ exists bs' fl' total,
            good st' bs' fl'
            /\ In (Blk bp total true) (tl bs') /\ size + 2 * DSIZE <= total
            /\ (forall b, b_alloc b = true ->
                  (In b bs' <-> In b bs \/ b = Blk bp total true))
            /\ (forall s', ~ In (Blk bp s' true) bs)
            /\ (forall a, a < eptr st -> outside_free bs a ->
                          mem st' a = mem st a))).
Proof.
  intros G Hs Hret. pose proof G as (W & _).
  destruct (align_size_covers size Hs) as (Cv & Mn & Ma & Up).
  unfold DSIZE in Ma, Cv, Up.
  assert (Hsz : MIN_SIZE <= align_size size < 2 ^ 64).
  { split; [exact Mn|]. unfold align_size, size_t, MIN_SIZE, DSIZE.
    destruct (size <=? 8); [lia|]. zlia. }
  destruct (wf_base _ _ _ W) as [Hpos _].
  unfold malloc. replace (heap_listp st =? 0) with false by lia.
  replace (size =? 0) with false by lia. cbv zeta.
  unfold search_list.
  assert (Hr : exists r, search_start fuel st (align_size size) = Ok r).
  { unfold malloc in Hret. replace (heap_listp st =? 0) with false in Hret by lia.
    replace (size =? 0) with false in Hret by lia. cbv zeta in Hret.
    unfold search_list in Hret.
    destruct (search_start fuel st (align_size size)) as [r|f];
      [eauto|discriminate]. }
  destruct Hr as (r & Er).
  rewrite Er. cbn [bind].
  assert (Miss : exists st' bp,
    (let (st2, bp0) := extend_heap st (align_size size) in
     if bp0 =? NULL then Ok (st2, NULL)
     else Ok (with_mem st2 (set_alloc (mem st2) bp0), bp0)) = Ok (st', bp)
    /\ ((bp = NULL /\ st' = st
       /\ mem_max_addr st
          < mem_brk st
            + Z.max CHUNKSIZE
                (size_t (align_size size - SPACE_LEFT (mem st) (eptr st))))
      \/ (bp <> NULL /\ exists bs' fl' total,
            good st' bs' fl'
            /\ In (Blk bp total true) (tl bs') /\ size + 2 * 8 <= total
            /\ (forall b, b_alloc b = true ->
                  (In b bs' <-> In b bs \/ b = Blk bp total true))
            /\ (forall s', ~ In (Blk bp s' true) bs)
            /\ (forall a, a < eptr st -> outside_free bs a ->
                          mem st' a = mem st a)))).
  { destruct (good_extend st bs fl (align_size size) G Ma Hsz)
      as (st1 & bp & Ee & [(-> & -> & Room)|(Nn & bs' & fl' & total & G' & I' & Rt
                                    & Ha & Fr & By)]).
    - rewrite Ee. exists st, NULL. split; [reflexivity|]. left. auto.
    - rewrite Ee. replace (bp =? NULL) with false by lia.
      eexists _, bp. split; [reflexivity|]. right. split; [exact Nn|].
      exists bs', fl', total. split; [exact G'|]. split; [exact I'|].
      split; [lia|]. split; [exact Ha|]. split; [exact Fr|]. exact By. }
  destruct r as [hit| |i].
  - destruct (search_start_wf _ _ _ _ _ _ W Er)
      as (i & s & Ri & Ii & Ib & Eg & Le).
    assert (Hr : MIN_SIZE <= align_size size <= s).
    { split; [exact Mn|lia]. }
    destruct (good_malloc_hit st bs fl (align_size size) hit s G Ma
                Hr Ib)
      as (st1 & bs' & fl' & total & Es & G' & I' & Rt & Ha & Fr & By).
    rewrite Es. cbn [bind].
    assert (Hn : hit <> NULL).
    { destruct (wf_block _ _ _ _ W Ib) as (_ & _ & _ & _ & Lo & _).
      cbn in Lo. unfold NULL. lia. }
    replace (hit =? NULL) with false by lia.
    replace (hit =? NULL) with false by lia.
    eexists _, hit. split; [reflexivity|]. right. split; [exact Hn|].
    exists bs', fl', total. split; [exact G'|]. split; [exact I'|].
    unfold DSIZE. split; [lia|]. split; [exact Ha|]. split; [exact Fr|].
    intros a _ O. apply By. exact O.
  - cbn [bind]. change (NULL =? NULL) with true. cbv iota. exact Miss.
  - cbn [bind]. change (NULL =? NULL) with true. cbv iota. exact Miss.
Qed.

(** ** Stores of the client, mm_init and the number of blocks *)

Lemma in_tl_wf st bs fl b :
  wf st bs fl -> (In b (tl bs) <-> In b bs /\ MIN_SIZE <= b_size b).
Proof.
  intros W. destruct (wf_prologue _ _ _ W) as (rest & -> & F).
  cbn [tl]. split.
  - intros I. split; [right; exact I|].
    rewrite List.Forall_forall in F. exact (F b I).
  - intros [[<-|I] H]; [|exact I]. cbn in H. unfold MIN_SIZE, DSIZE in H. lia.
Qed.

(** The bytes of an allocated block lie in no free block and below the
    epilogue. *)
Lemma alloc_outside st bs fl q s a :
  wf st bs fl -> In (Blk q s true) bs -> q - 8 <= a < q + s - 8 ->
  outside_free bs a /\ a < eptr st.
Proof.
  intros W I Ha. destruct (wf_chain _ _ _ W) as (Hch & Hal & _).
  destruct (wf_block _ _ _ _ W I) as (_ & _ & _ & _ & _ & U & _). cbn in U.
  split; [|lia]. intros b Ib Fb.
  destruct (tiling_apart _ _ _ _ Hch _ _ I Ib) as [<-|D]; [discriminate|].
  cbn in D. lia.
Qed.

(** A store between the link word and the footer of an allocated block
    leaves the heap good. *)
Lemma good_store st bs fl m' p s :
  good st bs fl -> In (Blk p s true) (tl bs) ->
  (forall a, ~ (p <= a < p + s - 16) -> m' a = mem st a) ->
  good (with_mem st m') bs fl.
Proof.
  intros (W & Cm & Naf) I By.
  apply (in_tl_wf _ _ _ _ W) in I as [I Hs]. cbn in Hs.
  destruct (in_split _ _ I) as (pre & post & E).
  assert (Npre : pre <> []).
  { intros ->. destruct (wf_prologue _ _ _ W) as (rest & Er & _).
    rewrite E in Er. cbn in Er. inversion Er. subst s.
    unfold MIN_SIZE, DSIZE in Hs. lia. }
  destruct (wf_block _ _ _ _ W I) as (ok & _ & _ & R & _). cbn in R.
  assert (W' : wf (with_mem st m') (pre ++ [Blk p s true] ++ post) fl).
  { apply (wf_retag1 st bs fl m' pre (Blk p s true) post [Blk p s true] W E Npre).
    - cbn. split; [reflexivity|]. split; [|reflexivity].
      destruct ok as (H1 & H2 & H3 & H4). cbn in H1, H2, H3, H4.
      unfold HDRP, WSIZE in *. cbn [b_ptr b_size].
      repeat split; try assumption.
      + rewrite <- H1. apply GET_bytes. intros a Ha. apply By. lia.
      + rewrite <- H2. apply GET_bytes. intros a Ha. apply By. lia.
    - cbn [b_ptr b_size]. intros a Ha. apply By. lia.
    - intros l Rl. exact (unlisted_alloc st bs fl p s W I l Rl).
    - constructor; [exact Hs|constructor]. }
  cbn [app] in W'. rewrite <- E in W'. split; [exact W'|]. split; assumption.
Qed.

Lemma with_mem_same st : with_mem st (mem st) = st.
Proof. destruct st. reflexivity. Qed.

(** [mm_init] builds a good heap. *)
Lemma good_init st :
  mem_brk st mod 8 = 0 -> 0 <= mem_brk st ->
  mem_start_brk st <= mem_brk st -> mem_brk st + 20 <= mem_max_addr st ->
  mem_max_addr st - mem_brk st <= 2 ^ 31 ->
  good (fst (mm_init st)) [Blk (mem_brk st + 8) (2 * DSIZE) true] (fun _ => []).
Proof.
  intros A P Lo Hi Hr.
  destruct (mm_init_builds st A P Lo Hi)
    as (st1 & E & Hh & He & Hb & Hs & Hm & Hf & G0 & G1 & G2 & Fr).
  pose proof (mm_init_consistent st st1 A P Lo Hi E) as C.
  rewrite E. cbn [fst]. rewrite <- Hh.
  split; [|split; [|reflexivity]].
  - constructor.
    + destruct (c_base _ _ C) as [H1 H2]. unfold DSIZE in H2. auto.
    + exists []. split; [reflexivity|constructor].
    + exact (c_tiled _ _ C).
    + unfold WSIZE. lia.
    + lia.
    + lia.
    + rewrite Hf. apply length_replicate.
    + intros l Rl. split; [|constructor].
      unfold dll. cbn [dllseg]. unfold list_head. rewrite Hf.
      rewrite lookup_replicate_2; [reflexivity|]. unfold NUM_LISTS in *. lia.
    + intros l x _ [].
  - intros x s [H|[]]. discriminate.
Qed.

(** Each block takes at least 16 bytes of the region. *)
Lemma chain_count m bs : forall bp stop,
  chain m bp bs stop -> bp + 16 * Z.of_nat (length bs) <= stop.
Proof.
  induction bs as [|b bs IH]; cbn [chain length]; intros bp stop H; [lia|].
  destruct H as (_ & ok & H). apply block_ok_bounds in ok.
  apply IH in H. lia.
Qed.

Lemma wf_count st bs fl :
  wf st bs fl ->
  Z.of_nat (length bs) <= (mem_brk st - heap_listp st) / 16 + 1.
Proof.
  intros W. destruct (wf_chain _ _ _ W) as (Hch & _).
  apply chain_count in Hch. destruct (wf_brk _ _ _ W) as [Hb Hm].
  unfold WSIZE in Hb. zlia.
Qed.

(** ** Sessions keep the heap good *)

Lemma holds_kept st bs fl st' bs' fl' live :
  wf st bs fl -> wf st' bs' fl' ->
  (forall p n s, In (p, n) live -> In (Blk p s true) bs ->
                 In (Blk p s true) bs') ->
  holds bs live -> holds bs' live.
Proof.
  intros W W' K H p n I. destruct (H p n I) as (Hn & s & Is & Hs).
  split; [exact Hn|]. exists s. split; [|exact Hs].
  apply (in_tl_wf _ _ _ _ W) in Is as [Is M].
  apply (in_tl_wf _ _ _ _ W'). split; [|exact M]. exact (K p n s I Is).
Qed.

Lemma holds_block st bs fl live q k :
  wf st bs fl -> holds bs live -> In (q, k) live ->
  0 < k /\ exists s, In (Blk q s true) bs /\ In (Blk q s true) (tl bs)
                     /\ k + 16 <= s.
Proof.
  intros W H I. destruct (H q k I) as (Hk & s & Is & Hs).
  split; [exact Hk|]. exists s. unfold DSIZE in Hs.
  split; [|split; [exact Is|lia]].
  apply (in_tl_wf _ _ _ _ W) in Is as [Is _]. exact Is.
Qed.

Lemma in_map_fst (live : list (Z * Z)) p :
  In p (map fst live) -> exists n, In (p, n) live.
Proof.
  intros I. apply in_map_iff in I as ([q n] & E & I). cbn in E. subst q.
  eauto.
Qed.

Lemma malloc_zero fuel st : heap_listp st <> 0 -> malloc fuel st 0 = Ok (st, NULL).
Proof.
  intros H. unfold malloc. replace (heap_listp st =? 0) with false by lia.
  reflexivity.
Qed.

Lemma session_malloc_step fuel st bs fl live size st' p :
  good st bs fl -> holds bs live -> List.NoDup (map fst live) ->
  0 <= size <= 2 ^ 64 - 24 -> malloc fuel st size = Ok (st', p) ->
  (exists bs' fl', good st' bs' fl'
     /\ holds bs' (if p =? NULL then live else (p, size) :: live)
     /\ List.NoDup (map fst (if p =? NULL then live else (p, size) :: live)))
  /\ (forall q k a, In (q, k) live -> q <= a < q + k -> mem st' a = mem st a)
  /\ ((p = NULL /\ st' = st) \/ (p <> NULL /\ 0 < size)).
Proof.
  intros G H Nd Hs E. pose proof G as (W & _).
  destruct (wf_base _ _ _ W) as [Hpos _].
  destruct (Z.eq_dec size 0) as [->|Nz].
  { rewrite malloc_zero in E by lia. inversion E. subst st' p.
    change (NULL =? NULL) with true. cbv iota.
    split; [exists bs, fl; auto|]. split; [reflexivity|]. left. auto. }
  destruct (good_malloc fuel st bs fl size st' p G ltac:(lia) E)
    as (st1 & p1 & E1 & C).
  rewrite E in E1. inversion E1. subst st1 p1. clear E1.
  destruct C as [(-> & -> & _)|(Nn & bs' & fl' & total & G' & I' & Rt & Ha & Fr & By)].
  { change (NULL =? NULL) with true. cbv iota.
    split; [exists bs, fl; auto|]. split; [reflexivity|]. left. auto. }
  replace (p =? NULL) with false by (symmetry; apply Z.eqb_neq; exact Nn).
  pose proof G' as (W' & _).
  split; [|split].
  - exists bs', fl'. split; [exact G'|]. split.
    + intros q k [Eq|I].
      * inversion Eq. subst q k. split; [lia|]. exists total. auto.
      * apply (holds_kept st bs fl st' bs' fl' live W W'); [|exact H|exact I].
        intros q0 k0 s0 _ I0. apply (Ha (Blk q0 s0 true) eq_refl). left.
        exact I0.
    + cbn [map fst]. constructor; [|exact Nd].
      intros I. apply in_map_fst in I as (k & I).
      destruct (holds_block _ _ _ _ _ _ W H I) as (_ & s & Is & _).
      exact (Fr s Is).
  - intros q k a I Ra.
    destruct (holds_block _ _ _ _ _ _ W H I) as (_ & s & Is & _ & Hs').
    destruct (alloc_outside st bs fl q s a W Is ltac:(lia)) as [O L].
    exact (By a L O).
  - right. split; [exact Nn|lia].
Qed.

Lemma NoDup_map_remove (l1 l2 : list (Z * Z)) x :
  List.NoDup (map fst (l1 ++ x :: l2)) ->
  List.NoDup (map fst (l1 ++ l2))
  /\ forall y, In y (l1 ++ l2) -> fst y <> fst x.
Proof.
  rewrite !map_app. cbn [map]. intros Nd.
  split; [exact (List.NoDup_remove_1 _ _ _ Nd)|].
  intros y I E. apply List.NoDup_remove_2 in Nd. apply Nd.
  rewrite <- E, <- map_app. apply in_map. exact I.
Qed.

Lemma session_free_step st bs fl live1 p n live2 :
  good st bs fl -> holds bs (live1 ++ (p, n) :: live2) ->
  List.NoDup (map fst (live1 ++ (p, n) :: live2)) ->
  (exists bs' fl', good (free st p) bs' fl' /\ holds bs' (live1 ++ live2)
     /\ List.NoDup (map fst (live1 ++ live2)))
  /\ (forall q k a, In (q, k) (live1 ++ live2) -> q <= a < q + k ->
                    mem (free st p) a = mem st a).
Proof.
  intros G H Nd. pose proof G as (W & _).
  destruct (wf_chain _ _ _ W) as (Hch & Hal & _).
  destruct (NoDup_map_remove _ _ _ Nd) as [Nd' Ne]. cbn [fst] in Ne.
  destruct (holds_block _ _ _ _ p n W H (in_mid _ _ _)) as (Hn & s & Is & It & Hs).
  destruct (good_free st bs fl p s G It)
    as (bs' & fl' & lo & total & G' & _ & _ & _ & Ha & By).
  pose proof G' as (W' & _).
  assert (Sub : forall y, In y (live1 ++ live2) ->
                          In y (live1 ++ (p, n) :: live2)).
  { intros y I. apply in_app_or in I. apply in_or_app. cbn [In]. tauto. }
  split.
  - exists bs', fl'. split; [exact G'|]. split; [|exact Nd'].
    intros q k I. destruct (H q k (Sub _ I)) as (Hk & s' & Is' & Hs').
    split; [exact Hk|]. exists s'. split; [|exact Hs'].
    apply (in_tl_wf _ _ _ _ W) in Is' as [Is' M].
    apply (in_tl_wf _ _ _ _ W'). split; [|exact M].
    apply (Ha (Blk q s' true) eq_refl). split; [exact Is'|].
    intros Eq. inversion Eq. exact (Ne (q, k) I ltac:(assumption)).
  - intros q k a I Ra.
    destruct (holds_block _ _ _ _ q k W H (Sub _ I)) as (_ & s' & Is' & _ & Hs').
    destruct (alloc_outside st bs fl q s' a W Is' ltac:(lia)) as [O _].
    apply By; [|exact O].
    destruct (tiling_apart _ _ _ _ Hch _ _ Is Is') as [Eq|D].
    + inversion Eq. exfalso. exact (Ne (q, k) I ltac:(cbn; congruence)).
    + cbn in D. lia.
Qed.

Lemma session_store_step st bs fl live p n a v :
  good st bs fl -> holds bs live -> In (p, n) live -> p <= a < p + n ->
  good (with_mem st (store8 (mem st) a v)) bs fl.
Proof.
  intros G H I Ra. pose proof G as (W & _).
  destruct (holds_block _ _ _ _ p n W H I) as (_ & s & _ & It & Hs).
  apply (good_store st bs fl _ p s G It).
  intros x Nx. unfold store8. destruct (x =? a) eqn:E; [lia|reflexivity].
Qed.

Lemma session_calloc_step fuel st bs fl live nmemb size st' p :
  good st bs fl -> holds bs live -> List.NoDup (map fst live) ->
  0 <= nmemb * size <= 2 ^ 64 - 24 ->
  calloc fuel st nmemb size = Ok (st', p) ->
  (exists bs' fl', good st' bs' fl'
     /\ holds bs' (if p =? NULL then live else (p, nmemb * size) :: live)
     /\ List.NoDup (map fst (if p =? NULL then live
                             else (p, nmemb * size) :: live)))
  /\ (forall q k a, In (q, k) live -> q <= a < q + k -> mem st' a = mem st a)
  /\ (p <> NULL -> forall a, p <= a < p + nmemb * size -> mem st' a = 0).
Proof.
  intros G H Nd Hs E. pose proof G as (W & _).
  unfold calloc in E. cbv zeta in E.
  rewrite (size_t_small (nmemb * size)) in E by lia.
  destruct (malloc fuel st (nmemb * size)) as [[st1 bp]|f] eqn:Em;
    [|discriminate].
  cbn [bind] in E.
  destruct (session_malloc_step fuel st bs fl live _ st1 bp G H Nd Hs Em)
    as ((bs' & fl' & G' & H' & Nd') & By & C).
  unfold memset in E.
  destruct (nmemb * size =? 0) eqn:Ez.
  - inversion E. subst st' p. rewrite with_mem_same.
    split; [exists bs', fl'; auto|]. split; [exact By|].
    intros _ a Ra. lia.
  - destruct (bp =? NULL) eqn:En; [discriminate|].
    inversion E. subst st' p. clear E. cbn [mem]. rewrite En.
    pose proof G' as (W' & _).
    destruct (holds_block _ _ _ _ bp (nmemb * size) W' H' (or_introl eq_refl))
      as (_ & s & Is & It & Hs').
    split; [|split].
    + exists bs', fl'. split; [|split; [exact H'|exact Nd']].
      apply (good_store st1 bs' fl' _ bp s G' It).
      intros a Na.
      destruct ((bp <=? a) && (a <? bp + nmemb * size)) eqn:Eb;
        [|reflexivity].
      apply andb_true_iff in Eb as [E1 E2]. lia.
    + intros q k a I Ra. rewrite <- (By q k a I Ra). cbn [mem with_mem].
      destruct ((bp <=? a) && (a <? bp + nmemb * size)) eqn:Eb;
        [|reflexivity].
      apply andb_true_iff in Eb as [E1 E2]. exfalso.
      destruct (wf_chain _ _ _ W') as (Hch & _).
      assert (Iq : In (q, k) ((bp, nmemb * size) :: live)) by (right; exact I).
      destruct (holds_block _ _ _ _ q k W' H' Iq) as (_ & s' & Is' & _ & Hq).
      destruct (tiling_apart _ _ _ _ Hch _ _ Is Is') as [Eq|D].
      * inversion Eq. subst q. cbn [map fst] in Nd'.
        apply List.NoDup_cons_iff in Nd' as [Nd' _]. apply Nd'.
        change bp with (fst (bp, k)). apply in_map. exact I.
      * cbn in D. lia.
    + intros _ a Ra. cbn [mem with_mem].
      replace ((bp <=? a) && (a <? bp + nmemb * size)) with true;
        [reflexivity|].
      symmetry. apply andb_true_iff. lia.
Qed.

Lemma session_good fuel st live :
  session fuel st live ->
  exists bs fl, good st bs fl /\ holds bs live /\ List.NoDup (map fst live).
Proof.
  induction 1 as [st A P Lo Hi Hr
                 |st live size st' p S IH Hs E
                 |st live nmemb size st' p S IH Hs E
                 |st live1 p n live2 S IH
                 |st live p n a v S IH I Ra].
  - eexists _, _. split; [exact (good_init st A P Lo Hi Hr)|].
    split; [intros p n []|constructor].
  - destruct IH as (bs & fl & G & H & Nd).
    exact (proj1 (session_malloc_step fuel st bs fl live size st' p G H Nd Hs E)).
  - destruct IH as (bs & fl & G & H & Nd).
    exact (proj1 (session_calloc_step fuel st bs fl live nmemb size st' p
                    G H Nd Hs E)).
  - destruct IH as (bs & fl & G & H & Nd).
    exact (proj1 (session_free_step st bs fl live1 p n live2 G H Nd)).
  - destruct IH as (bs & fl & G & H & Nd).
    exists bs, fl. split; [|auto].
    exact (session_store_step st bs fl live p n a v G H I Ra).
Qed.

(** ** The search is complete *)

(** The list routines leave the break and the bounds of the region alone. *)
Lemma delete_block_brk st bp : mem_brk (delete_block st bp) = mem_brk st.
Proof.
  unfold delete_block. cbv zeta.
  repeat match goal with |- context [if ?c then _ else _] => destruct c end;
    reflexivity.
Qed.

Lemma add_block_brk st bp : mem_brk (add_block st bp) = mem_brk st.
Proof. reflexivity. Qed.

Lemma split_brk st bp asize : mem_brk (fst (split st bp asize)) = mem_brk st.
Proof.
  unfold split. cbv zeta.
  destruct (_ >=? _); cbn [fst].
  - rewrite add_block_brk. cbn [mem_brk with_mem]. apply delete_block_brk.
  - apply delete_block_brk.
Qed.

Lemma with_mem_brk st m : mem_brk (with_mem st m) = mem_brk st.
Proof. reflexivity. Qed.

Lemma coalesce_brk st bp : mem_brk (fst (coalesce st bp)) = mem_brk st.
Proof.
  unfold coalesce. cbv zeta.
  destruct (negb _ && negb _); [unfold fst; apply add_block_brk|].
  destruct (negb _ && _).
  { unfold fst. rewrite add_block_brk, with_mem_brk. apply delete_block_brk. }
  destruct (_ && negb _).
  { unfold fst. rewrite add_block_brk, with_mem_brk. apply delete_block_brk. }
  unfold fst. rewrite add_block_brk, with_mem_brk, delete_block_brk.
  apply delete_block_brk.
Qed.

Lemma free_brk st bp : heap_listp st <> 0 -> mem_brk (free st bp) = mem_brk st.
Proof.
  intros H. unfold free. destruct (bp =? 0); [reflexivity|].
  replace (heap_listp st =? 0) with false by lia.
  exact (coalesce_brk _ bp).
Qed.

(** A scan that reaches the end of a list has passed only blocks that are
    too small. *)
Lemma scan_miss fuel m asize : forall fs p c,
  dllseg m p fs c NULL -> scan fuel m c asize = Ok LIST_END ->
  forall x, In x fs -> GET_SIZE m (HDRP x) < asize.
Proof.
  induction fuel as [|f IH]; cbn [scan]; intros fs p c D H; [discriminate|].
  destruct fs as [|x r]; cbn [dllseg] in D; [intros x []|].
  destruct D as (-> & Nx & _ & D).
  replace (x =? LIST_END) with false in H by (unfold LIST_END, NULL in *; lia).
  destruct (GET_SIZE m (HDRP x) >=? asize) eqn:E.
  - inversion H. unfold LIST_END, NULL in *. lia.
  - intros y [<-|I]; [lia|]. exact (IH r x _ D H y I).
Qed.

Lemma search_loop_miss st bs fl asize fuel : forall list bp r j,
  wf st bs fl -> 0 <= j < NUM_LISTS -> bp = list_head st j ->
  0 <= list <= NUM_LISTS ->
  search_loop fuel st list bp asize = Ok r -> (forall hit, r <> Found hit) ->
  forall i x, (i = j \/ list <= i < NUM_LISTS) -> In x (fl i) ->
              GET_SIZE (mem st) (HDRP x) < asize.
Proof.
  induction fuel as [|f IH]; cbn [search_loop];
    intros list bp r j W Rj Eb Hl H Nf; [discriminate|].
  replace (list <? NUM_LISTS + 1) with true in H by (unfold NUM_LISTS in *; lia).
  destruct (wf_lists _ _ _ W j Rj) as [D _]. rewrite <- Eb in D.
  destruct (scan f (mem st) bp asize) as [h|e] eqn:Es; cbn [bind] in H;
    [|discriminate].
  destruct (h =? LIST_END) eqn:Eh.
  - apply Z.eqb_eq in Eh. subst h.
    pose proof (scan_miss _ _ _ _ _ _ D Es) as Mj.
    destruct (free_lists st !! Z.to_nat list) as [bp'|] eqn:El.
    + destruct (lookup_list_head _ _ _ El ltac:(lia)) as [E1 E2].
      rewrite (wf_len _ _ _ W) in E2.
      assert (Rl : 0 <= list < NUM_LISTS) by (unfold NUM_LISTS in *; lia).
      pose proof (IH (list + 1) bp' r list W Rl (eq_sym E1)
                     ltac:(unfold NUM_LISTS in *; lia) H Nf) as Ml.
      intros i x [->|Ri] I; [exact (Mj x I)|].
      apply (Ml i x); [|exact I]. lia.
    + apply lookup_ge_None in El. rewrite (wf_len _ _ _ W) in El.
      intros i x [->|Ri] I; [exact (Mj x I)|].
      unfold NUM_LISTS in *. lia.
  - inversion H. subst r. exfalso. exact (Nf h eq_refl).
Qed.

(** A search that finds nothing: no free block of the heap is large
    enough. *)
Lemma search_miss_no_fit fuel st bs fl asize r :
  good st bs fl -> 0 <= asize ->
  search_start fuel st asize = Ok r -> (forall hit, r <> Found hit) ->
  forall x s, In (Blk x s false) bs -> s < asize.
Proof.
  intros (W & Cm & _) Ha H Nf x s I.
  destruct (Z_lt_dec s asize) as [L|L]; [exact L|exfalso].
  unfold search_start in H. cbv zeta in H.
  pose proof (get_list_range asize) as Rg.
  pose proof (get_list_range s) as Rs.
  pose proof (get_list_mono asize s ltac:(lia)) as Mo.
  pose proof (search_loop_miss st bs fl asize fuel (get_list asize) _ r
                (get_list asize) W ltac:(unfold NUM_LISTS; lia) eq_refl
                ltac:(unfold NUM_LISTS in *; lia) H Nf
                (get_list s) x ltac:(right; unfold NUM_LISTS; lia)
                (Cm x s I)) as K.
  destruct (wf_block _ _ _ _ W I) as (_ & _ & _ & _ & _ & _ & Ss).
  cbn in Ss. lia.
Qed.

Lemma malloc_unfold fuel st size :
  heap_listp st <> 0 -> size <> 0 ->
  malloc fuel st size =
  (let* r := search_start fuel st (align_size size) in
   match r with
   | Found hit =>
       let (st1, bp) := split st hit (align_size size) in
       let (st2, bp) :=
         if bp =? NULL then extend_heap st1 (align_size size) else (st1, bp) in
       if bp =? NULL then Ok (st2, NULL)
       else Ok (with_mem st2 (set_alloc (mem st2) bp), bp)
   | _ =>
       let (st2, bp) := extend_heap st (align_size size) in
       if bp =? NULL then Ok (st2, NULL)
       else Ok (with_mem st2 (set_alloc (mem st2) bp), bp)
   end).
Proof.
  intros H1 H2. unfold malloc.
  replace (heap_listp st =? 0) with false by lia.
  replace (size =? 0) with false by lia. cbv zeta. unfold search_list.
  destruct (search_start fuel st (align_size size)) as [r|f]; [|reflexivity].
  cbn [bind]. destruct r; cbn [bind]; reflexivity.
Qed.

Lemma align_size_fits size s :
  0 < size <= 2 ^ 64 - 24 -> s mod 8 = 0 -> MIN_SIZE <= s ->
  size + 16 <= s -> align_size size <= s.
Proof.
  intros Hs Ms Mn Le.
  unfold align_size, size_t, MIN_SIZE, DSIZE in *.
  destruct (size <=? 8) eqn:E; [lia|]. zlia.
Qed.

(** When some free block is large enough, [malloc] succeeds without growing
    the region. *)
Lemma good_malloc_fit fuel st bs fl size st' bp x s :
  good st bs fl -> 0 < size <= 2 ^ 64 - 24 ->
  malloc fuel st size = Ok (st', bp) ->
  In (Blk x s false) bs -> align_size size <= s ->
  bp <> NULL /\ mem_brk st' = mem_brk st.
Proof.
  intros G Hs E I Le. pose proof G as (W & _).
  destruct (wf_base _ _ _ W) as [Hpos _].
  destruct (align_size_covers size Hs) as (Cv & Mn & Ma & Up).
  unfold DSIZE in Ma.
  rewrite malloc_unfold in E by lia.
  destruct (search_start fuel st (align_size size)) as [r|f] eqn:Er;
    [|discriminate].
  cbn [bind] in E.
  assert (Hf : exists hit, r = Found hit).
  { assert (Ha : 0 <= align_size size) by (unfold MIN_SIZE in Mn; lia).
    destruct r as [hit| |i]; [eauto| |]; exfalso.
    - pose proof (search_miss_no_fit fuel st bs fl (align_size size) NotFound
                    G Ha Er ltac:(discriminate) x s I). lia.
    - pose proof (search_miss_no_fit fuel st bs fl (align_size size)
                    (ReadOutOfBounds i)
                    G Ha Er ltac:(discriminate) x s I). lia. }
  destruct Hf as (hit & ->).
  destruct (search_start_wf _ _ _ _ _ _ W Er)
    as (i & s' & Ri & Ii & Ib & Eg & Le').
  destruct (good_malloc_hit st bs fl (align_size size) hit s' G Ma
              ltac:(split; [exact Mn|exact Le']) Ib)
    as (st1 & bs' & fl' & total & Es & _).
  pose proof (split_brk st hit (align_size size)) as Eb.
  rewrite Es in E, Eb. cbn [fst] in Eb.
  assert (Hn : hit <> NULL).
  { destruct (wf_block _ _ _ _ W Ib) as (_ & _ & _ & _ & Lo & _).
    cbn in Lo. unfold NULL. lia. }
  replace (hit =? NULL) with false in E by lia.
  replace (hit =? NULL) with false in E by lia.
  inversion E. subst st' bp. split; [exact Hn|]. exact Eb.
Qed.

(** [malloc] returns null only when no free block is large enough and the
    region cannot grow by what is missing. *)
Lemma good_malloc_null fuel st bs fl size st' :
  good st bs fl -> 0 < size <= 2 ^ 64 - 24 ->
  malloc fuel st size = Ok (st', NULL) ->
  (forall x s, In (Blk x s false) bs -> s < align_size size)
  /\ mem_max_addr st
     < mem_brk st
       + Z.max CHUNKSIZE (align_size size - SPACE_LEFT (mem st) (eptr st)).
Proof.
  intros G Hs E. pose proof G as (W & _).
  assert (Nf : forall x s, In (Blk x s false) bs -> s < align_size size).
  { intros x s I. destruct (Z_lt_dec s (align_size size)) as [L|L]; [exact L|].
    destruct (good_malloc_fit fuel st bs fl size st' NULL x s G Hs E I
                ltac:(lia)) as [K _]. congruence. }
  split; [exact Nf|].
  destruct (good_malloc fuel st bs fl size st' NULL G Hs E)
    as (st1 & p1 & E1 & C).
  rewrite E in E1. inversion E1. subst st1 p1.
  destruct C as [(_ & _ & Room)|(Nn & _)]; [|congruence].
  destruct (wf_last _ _ _ W) as (pre & P & Eb & _ & SL).
  destruct (align_size_covers size Hs) as (Cv & Mn & Ma & Up).
  unfold MIN_SIZE, DSIZE in *.
  assert (IP : In P bs) by (rewrite Eb; apply in_mid).
  rewrite size_t_small in Room; [exact Room|].
  rewrite SL. split.
  - destruct (b_alloc P) eqn:Ea; cbv iota; [lia|].
    destruct P as [x s a]. cbn in Ea. subst a. specialize (Nf x s IP).
    cbn. lia.
  - destruct (wf_block _ _ _ _ W IP) as (_ & _ & _ & R & _).
    assert (align_size size < 2 ^ 64).
    { unfold align_size, size_t, DSIZE, MIN_SIZE. destruct (size <=? 8); [lia|]. zlia. }
    destruct (b_alloc P); cbv iota; lia.
Qed.

(** ** Deciding the invariant *)

Lemma dllsegb_sound m : forall fs prev cur nxt,
  dllsegb m prev fs cur nxt = true -> dllseg m prev fs cur nxt.
Proof.
  induction fs as [|x r IH]; cbn [dllsegb dllseg]; intros prev cur nxt H.
  - lia.
  - rewrite !andb_true_iff, negb_true_iff in H.
    destruct H as [[[H1 H2] H3] H4].
    split; [lia|]. split; [lia|]. split; [lia|]. apply IH, H4.
Qed.

Lemma nodupb_sound l : nodupb l = true -> List.NoDup l.
Proof.
  induction l as [|x r IH]; cbn [nodupb]; intros H; [constructor|].
  rewrite andb_true_iff, negb_true_iff in H. destruct H as [H1 H2].
  constructor; [|apply IH, H2].
  intros I. assert (existsb (Z.eqb x) r = true); [|congruence].
  apply existsb_exists. exists x. split; [exact I|apply Z.eqb_refl].
Qed.

Lemma in_classes l :
  0 <= l < NUM_LISTS -> In l (map Z.of_nat (seq 0 (Z.to_nat NUM_LISTS))).
Proof.
  intros H. rewrite <- (Z2Nat.id l) by lia. apply in_map. apply in_seq.
  unfold NUM_LISTS in *. lia.
Qed.

Lemma wfb_sound st bs fls : wfb st bs fls = true -> wf st bs (fl_of fls).
Proof.
  unfold wfb. rewrite !andb_true_iff.
  intros [[[[[[[[[[H1 H2] H3] H4] H5] H6] H7] H8] H9] H10] H11].
  rewrite forallb_forall in H11.
  constructor.
  - split; lia.
  - destruct bs as [|[p s a] rest]; [discriminate|]. cbn in H3.
    rewrite !andb_true_iff in H3. destruct H3 as [[[E1 E2] E3] E4].
    exists rest. split.
    + apply Z.eqb_eq in E1, E2. cbn in E1, E2, E3. subst p s a. reflexivity.
    + apply List.Forall_forall. intros b Ib.
      rewrite forallb_forall in E4. specialize (E4 _ Ib). lia.
  - apply Z.eqb_eq in H5. split; [apply chainb_sound, H4|exact H5].
  - split; lia.
  - lia.
  - lia.
  - apply Nat.eqb_eq, H10.
  - intros l Rl. specialize (H11 l (in_classes l Rl)).
    rewrite !andb_true_iff in H11. destruct H11 as [[K1 K2] _].
    split; [apply dllsegb_sound, K1|apply nodupb_sound, K2].
  - intros l x Rl I. specialize (H11 l (in_classes l Rl)).
    rewrite !andb_true_iff in H11. destruct H11 as [_ K3].
    rewrite forallb_forall in K3. specialize (K3 x I).
    unfold listedb in K3. apply existsb_exists in K3 as ([q s a] & Ib & K).
    cbn in K. rewrite !andb_true_iff, negb_true_iff in K.
    destruct K as [[K1 K2] K3]. subst a.
    exists s. replace x with q by lia. split; [exact Ib|lia].
Qed.

Lemma goodb_sound st bs fls : goodb st bs fls = true -> good st bs (fl_of fls).
Proof.
  unfold goodb. rewrite !andb_true_iff. intros [[H1 H2] H3].
  split; [apply wfb_sound, H1|]. split; [|exact H3].
  intros x s I. unfold completeb in H2. rewrite forallb_forall in H2.
  specialize (H2 _ I). cbn in H2. apply existsb_exists in H2 as (y & Iy & E).
  replace x with y by lia. exact Iy.
Qed.

Lemma heap_ABC_good : good heap_ABC blocks_ABC (fl_of lists_ABC).
Proof. apply goodb_sound. vm_compute. reflexivity. Qed.

Lemma heap0_good : good heap0 [Blk 65544 16 true] (fl_of []).
Proof. apply goodb_sound. vm_compute. reflexivity. Qed.

Lemma unlistedb_sound fls x :
  unlistedb fls x = true ->
  forall l, 0 <= l < NUM_LISTS -> ~ In x (fl_of fls l).
Proof.
  unfold unlistedb. rewrite forallb_forall. intros H l Rl I.
  specialize (H l (in_classes l Rl)). apply negb_true_iff in H.
  assert (existsb (Z.eqb x) (fl_of fls l) = true); [|congruence].
  apply existsb_exists. exists x. split; [exact I|apply Z.eqb_refl].
Qed.

Lemma heap_A_unlisted_wf : wf heap_A_unlisted blocks_ABC (fl_of lists_no_A).
Proof. apply wfb_sound. vm_compute. reflexivity. Qed.

Lemma heap_B_marked_wf : wf heap_B_marked blocks_B_marked (fl_of lists_ABC).
Proof. apply wfb_sound. vm_compute. reflexivity. Qed.

(** ** Sessions: where the blocks lie and what the calls leave alone *)

(** Where the blocks of a client lie. *)
Lemma holds_place st bs fl live p n :
  wf st bs fl -> holds bs live -> In (p, n) live ->
  p mod 8 = 0 /\ 0 < n /\ heap_listp st + 16 <= p /\ p + n + 12 <= mem_brk st.
Proof.
  intros W H I.
  destruct (holds_block _ _ _ _ p n W H I) as (Hn & s & Is & It & Hs).
  destruct (wf_block _ _ _ _ W Is) as (_ & A & _ & _ & Lo & Up & _).
  cbn in A, Lo, Up. destruct (wf_brk _ _ _ W) as [Hb _]. unfold WSIZE in Hb.
  split; [exact A|]. split; [exact Hn|]. split; [|lia].
  destruct (wf_chain _ _ _ W) as (Hch & _).
  destruct (wf_prologue _ _ _ W) as (rest & Er & _).
  assert (Ip : In (Blk (heap_listp st) (2 * DSIZE) true) bs)
    by (rewrite Er; left; reflexivity).
  destruct (tiling_apart _ _ _ _ Hch _ _ Ip Is) as [E|D].
  - inversion E. unfold DSIZE in *. lia.
  - cbn in D. unfold DSIZE in D. lia.
Qed.

Lemma holds_apart st bs fl live l1 p n l2 q k l3 :
  wf st bs fl -> holds bs live -> List.NoDup (map fst live) ->
  live = l1 ++ (p, n) :: l2 ++ (q, k) :: l3 ->
  p + n <= q \/ q + k <= p.
Proof.
  intros W H Nd E.
  assert (Ip : In (p, n) live) by (rewrite E; apply in_mid).
  assert (Iq : In (q, k) live).
  { rewrite E. apply in_or_app. right. right. apply in_mid. }
  destruct (holds_block _ _ _ _ p n W H Ip) as (_ & s & Is & _ & Hs).
  destruct (holds_block _ _ _ _ q k W H Iq) as (Hk & s' & Is' & _ & Hs').
  destruct (wf_chain _ _ _ W) as (Hch & _).
  destruct (tiling_apart _ _ _ _ Hch _ _ Is Is') as [Eq|D].
  - exfalso. inversion Eq. subst q.
    rewrite E, map_app in Nd. cbn [map fst] in Nd.
    apply List.NoDup_remove_2 in Nd. apply Nd.
    apply in_or_app. right. rewrite map_app. apply in_or_app. right.
    left. reflexivity.
  - cbn in D. lia.
Qed.

Lemma session_live fuel st live :
  session fuel st live ->
  (forall p n, In (p, n) live ->
     p mod 8 = 0 /\ 0 < n /\ heap_listp st + 16 <= p
     /\ p + n + 12 <= mem_brk st)
  /\ (forall l1 p n l2 q k l3, live = l1 ++ (p, n) :: l2 ++ (q, k) :: l3 ->
        p + n <= q \/ q + k <= p).
Proof.
  intros S. destruct (session_good fuel st live S) as (bs & fl & (W & _) & H & Nd).
  split.
  - intros p n I. exact (holds_place st bs fl live p n W H I).
  - intros l1 p n l2 q k l3 E.
    exact (holds_apart st bs fl live l1 p n l2 q k l3 W H Nd E).
Qed.

Lemma session_malloc_total fuel st live size :
  session fuel st live -> 0 < size <= 2 ^ 64 - 24 ->
  (mem_brk st - heap_listp st) / 16 + 24 <= Z.of_nat fuel ->
  exists st' p,
    malloc fuel st size = Ok (st', p)
    /\ (p = NULL -> st' = st)
    /\ (p <> NULL ->
        p mod 8 = 0 /\ heap_listp st' + 16 <= p /\ p + size + 12 <= mem_brk st'
        /\ forall q k, In (q, k) live -> p + size <= q \/ q + k <= p)
    /\ (forall q k a, In (q, k) live -> q <= a < q + k ->
                      mem st' a = mem st a).
Proof.
  intros S Hs Hf.
  destruct (session_good fuel st live S) as (bs & fl & G & H & Nd).
  pose proof G as (W & _). pose proof (wf_count _ _ _ W) as Hc.
  destruct (malloc_returns fuel st bs fl size W ltac:(lia)) as ([st' p] & E).
  exists st', p. split; [exact E|].
  destruct (session_malloc_step fuel st bs fl live size st' p G H Nd
              ltac:(lia) E) as (_ & By & C).
  split; [|split; [|exact By]].
  - intros ->. destruct C as [[_ K]|[K _]]; [exact K|congruence].
  - intros Np.
    pose proof (session_malloc fuel st live size st' p S ltac:(lia) E) as S'.
    replace (p =? NULL) with false in S'
      by (symmetry; apply Z.eqb_neq; exact Np).
    destruct (session_live _ _ _ S') as [Pl Ap].
    destruct (Pl p size (or_introl eq_refl)) as (A & _ & Lo & Up).
    split; [exact A|]. split; [exact Lo|]. split; [exact Up|].
    intros q k I. destruct (in_split _ _ I) as (l2 & l3 & E3).
    apply (Ap [] p size l2 q k l3). rewrite E3. reflexivity.
Qed.

Lemma session_free_frame fuel st live1 p n live2 :
  session fuel st (live1 ++ (p, n) :: live2) ->
  forall q k a, In (q, k) (live1 ++ live2) -> q <= a < q + k ->
                mem (free st p) a = mem st a.
Proof.
  intros S.
  destruct (session_good fuel st _ S) as (bs & fl & G & H & Nd).
  exact (proj2 (session_free_step st bs fl live1 p n live2 G H Nd)).
Qed.

Lemma session_malloc_null fuel st live size st' :
  session fuel st live -> 0 < size <= 2 ^ 64 - 24 ->
  malloc fuel st size = Ok (st', NULL) ->
  st' = st
  /\ mem_max_addr st
     < mem_brk st
       + Z.max CHUNKSIZE (align_size size - SPACE_LEFT (mem st) (eptr st)).
Proof.
  intros S Hs E.
  destruct (session_good fuel st live S) as (bs & fl & G & H & Nd).
  destruct (good_malloc_null fuel st bs fl size st' G Hs E) as [_ Room].
  split; [|exact Room].
  destruct (session_malloc_step fuel st bs fl live size st' NULL G H Nd
              ltac:(lia) E) as (_ & _ & [[_ K]|[K _]]); [exact K|congruence].
Qed.

Lemma session_reuse fuel st live1 p n live2 size st' q :
  session fuel st (live1 ++ (p, n) :: live2) -> 0 < size <= n ->
  malloc fuel (free st p) size = Ok (st', q) ->
  q <> NULL /\ mem_brk st' = mem_brk st.
Proof.
  intros S Hs E.
  destruct (session_good fuel st _ S) as (bs & fl & G & H & Nd).
  pose proof G as (W & _).
  destruct (holds_block _ _ _ _ p n W H (in_mid _ _ _))
    as (Hn & s & Is & It & Hs').
  destruct (wf_block _ _ _ _ W Is) as (_ & _ & Ms & Rs & _).
  cbn in Ms, Rs.
  destruct (good_free st bs fl p s G It)
    as (bs' & fl' & lo & total & G' & If & L1 & L2 & _).
  pose proof G' as (W' & _).
  destruct (wf_block _ _ _ _ W' If) as (_ & _ & Mt & Rt & _).
  cbn in Mt, Rt.
  assert (Hr : 0 < size <= 2 ^ 64 - 24) by lia.
  assert (Hfit : align_size size <= total).
  { apply align_size_fits; [exact Hr|exact Mt| |lia].
    apply (in_tl_wf _ _ _ _ W) in It as [_ M]. cbn in M. lia. }
  destruct (good_malloc_fit fuel (free st p) bs' fl' size st' q lo total
              G' Hr E If Hfit) as [Nq Eb].
  split; [exact Nq|]. rewrite Eb. apply free_brk.
  destruct (wf_base _ _ _ W). lia.
Qed.

Lemma session_calloc_frame fuel st live nmemb size st' p :
  session fuel st live -> 0 <= nmemb * size <= 2 ^ 64 - 24 ->
  calloc fuel st nmemb size = Ok (st', p) ->
  (p <> NULL -> forall a, p <= a < p + nmemb * size -> mem st' a = 0)
  /\ (forall q k a, In (q, k) live -> q <= a < q + k -> mem st' a = mem st a).
Proof.
  intros S Hs E.
  destruct (session_good fuel st live S) as (bs & fl & G & H & Nd).
  destruct (session_calloc_step fuel st bs fl live nmemb size st' p G H Nd
              Hs E) as (_ & By & Z0).
  split; [exact Z0|exact By].
Qed.

(** The sessions of the examples. *)
Lemma session_heap0 : session 100 heap0 [].
Proof.
  apply (session_init 100 (fresh zeroed 65536 1048576));
    [reflexivity|discriminate..].
Qed.

Lemma session_heap_one : session 100 heap_one [(65560, 8)].
Proof.
  apply (session_malloc 100 heap0 [] 8 heap_one 65560 session_heap0);
    [lia|]. vm_compute. reflexivity.
Qed.

Lemma session_heap_two : session 100 heap_two [(65584, 16); (65560, 8)].
Proof.
  apply (session_malloc 100 heap_one [(65560, 8)] 16 heap_two 65584
           session_heap_one); [lia|]. vm_compute. reflexivity.
Qed.

Lemma session_heap_full : session 100 heap_full [].
Proof.
  apply (session_init 100 (fresh zeroed 65536 20));
    [reflexivity|discriminate..].
Qed.

(** ** The checker on a good heap *)

(** Ends and neighbours in a doubly linked list. *)
Lemma dll_tail_unique m fs h x :
  dll m fs h -> In x fs -> GET_NEXT_FREE m x = NULL -> x = List.last fs NULL.
Proof.
  intros D I E. destruct (in_split _ _ I) as (A & B & ->).
  destruct (dll_links _ _ _ _ _ D) as (_ & LN & _).
  destruct B as [|y B].
  - rewrite List.last_last. reflexivity.
  - exfalso. cbn in LN. rewrite E in LN.
    apply (dllseg_nonnull _ _ _ _ _ y D); [|congruence].
    apply in_or_app. right. right. left. reflexivity.
Qed.

Lemma dll_head_unique m fs h x :
  dll m fs h -> In x fs -> GET_PREV_FREE m x = NULL -> x = hd NULL fs.
Proof.
  intros D I E. destruct (in_split _ _ I) as (A & B & ->).
  destruct (dll_links _ _ _ _ _ D) as (LP & _ & _).
  destruct A as [|y A]; [reflexivity|].
  exfalso. rewrite E in LP.
  apply (dllseg_nonnull _ _ _ _ _ (List.last (y :: A) NULL) D); [|congruence].
  apply in_or_app. left. apply last_In. discriminate.
Qed.

Lemma dll_next_prev m fs h x :
  dll m fs h -> In x fs -> GET_NEXT_FREE m x <> NULL ->
  GET_PREV_FREE m (GET_NEXT_FREE m x) = x.
Proof.
  intros D I N. destruct (in_split _ _ I) as (A & B & ->).
  destruct (dll_links _ _ _ _ _ D) as (_ & LN & _).
  destruct B as [|y B]; [cbn in LN; congruence|]. cbn in LN. rewrite LN.
  replace (A ++ x :: y :: B) with ((A ++ [x]) ++ y :: B) in D
    by (rewrite <- app_assoc; reflexivity).
  destruct (dll_links _ _ _ _ _ D) as (LP & _ & _).
  rewrite LP. apply List.last_last.
Qed.

Lemma dll_prev_next m fs h x :
  dll m fs h -> In x fs -> GET_PREV_FREE m x <> NULL ->
  GET_NEXT_FREE m (GET_PREV_FREE m x) = x.
Proof.
  intros D I N. destruct (in_split _ _ I) as (A & B & ->).
  destruct (dll_links _ _ _ _ _ D) as (LP & _ & _).
  destruct (exists_last (l := A)) as (A' & z & ->).
  { intros ->. cbn in LP. congruence. }
  rewrite List.last_last in LP. rewrite LP.
  rewrite <- app_assoc in D. cbn [app] in D.
  destruct (dll_links _ _ _ _ _ D) as (_ & LN & _). exact LN.
Qed.

Lemma flag_false bit f : flag false bit f = f.
Proof. reflexivity. Qed.

Lemma count_at_bump cnt l i :
  length cnt = Z.to_nat NUM_LISTS -> 0 <= l < NUM_LISTS -> 0 <= i ->
  count_at (bump cnt l) i
  = if i =? l then count_at cnt l + 1 else count_at cnt i.
Proof.
  intros Hl Rl Ri. unfold bump. destruct (i =? l) eqn:E.
  - apply Z.eqb_eq in E. subst i. unfold count_at at 1.
    rewrite list_lookup_insert_eq; [reflexivity|].
    rewrite Hl. unfold NUM_LISTS in *. lia.
  - apply Z.eqb_neq in E. unfold count_at at 1.
    rewrite list_lookup_insert_ne; [reflexivity|].
    intros K. apply Z2Nat.inj in K; lia.
Qed.

Lemma counts_more cnt done link b :
  counts_ok cnt done link -> counts_ok cnt (done ++ [b]) link.
Proof.
  intros [Hl H]. split; [exact Hl|]. intros l Rl.
  destruct (H l Rl) as [E|(E & x & s & I & K)]; [left; exact E|].
  right. split; [exact E|]. exists x, s. split; [|exact K].
  apply in_or_app. left. exact I.
Qed.

Lemma counts_bump cnt done link x s :
  counts_ok cnt done link -> count_at cnt (get_list s) = 0 -> link x = NULL ->
  counts_ok (bump cnt (get_list s)) (done ++ [Blk x s false]) link.
Proof.
  intros [Hl H] E0 Lx. pose proof (get_list_range s) as Rg.
  assert (Rg' : 0 <= get_list s < NUM_LISTS) by (unfold NUM_LISTS; lia).
  split; [unfold bump; rewrite length_insert; exact Hl|].
  intros l Rl. rewrite (count_at_bump cnt (get_list s) l Hl Rg') by lia.
  destruct (l =? get_list s) eqn:E.
  - apply Z.eqb_eq in E. right. split; [lia|]. exists x, s.
    split; [apply in_or_app; right; left; reflexivity|]. auto.
  - destruct (H l Rl) as [E1|(E1 & y & sy & I & K)]; [left; exact E1|].
    right. split; [exact E1|]. exists y, sy. split; [|exact K].
    apply in_or_app. left. exact I.
Qed.

(** One block of a good heap raises no flag. *)
Lemma check_block_good st bs fl acc done b :
  good st bs fl -> In b bs ->
  (forall b', In b' done -> In b' bs /\ b_ptr b' <> b_ptr b) ->
  error_flags acc = 0 ->
  (b_alloc b = false -> free_token acc = 0) ->
  counts_ok (num_tail acc) done (GET_NEXT_FREE (mem st)) ->
  counts_ok (num_head acc) done (GET_PREV_FREE (mem st)) ->
  error_flags (check_block st (b_ptr b) acc) = 0
  /\ free_token (check_block st (b_ptr b) acc) = (if b_alloc b then 0 else 1)
  /\ counts_ok (num_tail (check_block st (b_ptr b) acc)) (done ++ [b])
               (GET_NEXT_FREE (mem st))
  /\ counts_ok (num_head (check_block st (b_ptr b) acc)) (done ++ [b])
               (GET_PREV_FREE (mem st)).
Proof.
  intros (W & Cm & _) Ib Hd Hf Ht Ct Ch.
  destruct b as [x s a]. cbn [b_ptr b_alloc] in *.
  destruct (wf_block _ _ _ _ W Ib) as (ok & Ax & Ms & Rs & Lo & Up & Sx).
  cbn [b_ptr b_size] in Ax, Ms, Rs, Lo, Up, Sx.
  pose proof (block_ok_alloc _ _ ok) as Ea. cbn [b_ptr b_alloc] in Ea.
  destruct (wf_brk _ _ _ W) as [Hb _]. unfold WSIZE in Hb.
  pose proof (wf_start _ _ _ W) as Hs.
  destruct (wf_chain _ _ _ W) as (Hch & Hal & _).
  assert (F1 : negb (ALIGNED (mem st) x) = false)
    by (rewrite ALIGNED_always; reflexivity).
  assert (F2 : negb (BPALIGNED x) = false).
  { unfold BPALIGNED, DSIZE. rewrite Ax. reflexivity. }
  assert (F3 : negb (HEF (mem st) x) = false).
  { unfold HEF, FTRP. rewrite Sx. destruct ok as (H1 & H2 & _).
    cbn [b_ptr b_size] in H1, H2. rewrite H1, H2, Z.eqb_refl. reflexivity. }
  assert (F4 : (x <? mem_heap_lo st)
               || (x + GET_SIZE (mem st) (HDRP x) - DSIZE >? mem_heap_hi st)
               = false).
  { rewrite Sx. unfold mem_heap_lo, mem_heap_hi, DSIZE.
    apply orb_false_iff. split; lia. }
  assert (F5 : (x =? heap_listp st)
               && (negb (GET_SIZE (mem st) (HDRP x) =? 2 * DSIZE)
                   || (GET_ALLOC (mem st) (HDRP x) =? 0)) = false).
  { destruct (Z.eq_dec x (heap_listp st)) as [E|N];
      [|replace (x =? heap_listp st) with false by lia; reflexivity].
    destruct (wf_prologue _ _ _ W) as (rest & Er & _).
    assert (Ip : In (Blk (heap_listp st) (2 * DSIZE) true) bs)
      by (rewrite Er; left; reflexivity).
    pose proof (tiling_ptr_inj _ _ _ _ _ _ Hch Hal Ib Ip E) as K.
    injection K as K1 K2 K3. rewrite Sx, Ea, K2, K3, Z.eqb_refl.
    apply andb_false_r. }
  unfold check_block. cbv zeta. rewrite F1, F2, F3, F4, F5, !flag_false, Hf.
  rewrite Ea, Sx. destruct a.
  - change (1 =? 0) with false. cbv iota.
    cbn [error_flags free_token num_tail num_head].
    split; [reflexivity|]. split; [reflexivity|].
    split; apply counts_more; assumption.
  - change (0 =? 0) with true. cbv iota. rewrite (Ht eq_refl).
    change (0 + 1 >? 1) with false. rewrite flag_false.
    pose proof (get_list_range s) as Rg.
    assert (Rl : 0 <= get_list s < NUM_LISTS) by (unfold NUM_LISTS; lia).
    pose proof (Cm x s Ib) as Il.
    destruct (wf_lists _ _ _ W _ Rl) as [D _].
    assert (T0 : GET_NEXT_FREE (mem st) x = NULL ->
                 count_at (num_tail acc) (get_list s) = 0).
    { intros En. destruct Ct as [_ Ct].
      destruct (Ct _ Rl) as [E|(_ & y & sy & Iy & Gy & Ky)]; [exact E|].
      exfalso. destruct (Hd _ Iy) as [Iy' Ny]. cbn in Ny. apply Ny.
      pose proof (Cm y sy Iy') as Ily. rewrite Gy in Ily.
      rewrite (dll_tail_unique _ _ _ _ D Ily Ky).
      rewrite (dll_tail_unique _ _ _ _ D Il En). reflexivity. }
    assert (H0 : GET_PREV_FREE (mem st) x = NULL ->
                 count_at (num_head acc) (get_list s) = 0).
    { intros En. destruct Ch as [_ Ch].
      destruct (Ch _ Rl) as [E|(_ & y & sy & Iy & Gy & Ky)]; [exact E|].
      exfalso. destruct (Hd _ Iy) as [Iy' Ny]. cbn in Ny. apply Ny.
      pose proof (Cm y sy Iy') as Ily. rewrite Gy in Ily.
      rewrite (dll_head_unique _ _ _ _ D Ily Ky).
      rewrite (dll_head_unique _ _ _ _ D Il En). reflexivity. }
    assert (T1 : GET_NEXT_FREE (mem st) x <> NULL ->
                 negb (GET_PREV_FREE (mem st) (GET_NEXT_FREE (mem st) x) =? x)
                 = false).
    { intros En. rewrite (dll_next_prev _ _ _ _ D Il En), Z.eqb_refl.
      reflexivity. }
    assert (H1 : GET_PREV_FREE (mem st) x <> NULL ->
                 negb (GET_NEXT_FREE (mem st) (GET_PREV_FREE (mem st) x) =? x)
                 = false).
    { intros Ep. rewrite (dll_prev_next _ _ _ _ D Il Ep), Z.eqb_refl.
      reflexivity. }
    destruct (GET_NEXT_FREE (mem st) x =? NULL) eqn:En;
      [apply Z.eqb_eq in En; rewrite (T0 En)
      |apply Z.eqb_neq in En; rewrite (T1 En)];
      (destruct (GET_PREV_FREE (mem st) x =? NULL) eqn:Ep;
       [apply Z.eqb_eq in Ep; rewrite (H0 Ep)
       |apply Z.eqb_neq in Ep; rewrite (H1 Ep)]);
      change (0 >? 1) with false; rewrite ?flag_false;
      cbn [error_flags free_token num_tail num_head];
      (split; [reflexivity|]); (split; [reflexivity|]); split;
      first [apply counts_bump; auto | apply counts_more; assumption].
Qed.

Lemma check_blocks_good st bs fl : forall todo done bp acc fuel,
  good st bs fl -> bs = done ++ todo ->
  chain (mem st) bp todo (eptr st + 8) ->
  (length todo < fuel)%nat ->
  error_flags acc = 0 ->
  free_token acc = 0 \/ (free_token acc = 1 /\ first_alloc todo = true) ->
  no_adjacent_free todo = true ->
  counts_ok (num_tail acc) done (GET_NEXT_FREE (mem st)) ->
  counts_ok (num_head acc) done (GET_PREV_FREE (mem st)) ->
  exists acc', check_blocks fuel st bp acc = Ok acc' /\ error_flags acc' = 0.
Proof.
  induction todo as [|b todo IH];
    intros done bp acc fuel G E Hc Hf H0 Ht Hn Ct Ch;
    (destruct fuel as [|fuel]; [cbn in Hf; lia|]); cbn [check_blocks].
  - cbn in Hc. subst bp. unfold HDRP, WSIZE.
    replace (eptr st + 8 - 2 * 4) with (eptr st) by lia.
    pose proof G as (W & _). destruct (wf_chain _ _ _ W) as (_ & _ & _ & He).
    rewrite GET_SIZE_eq, He. cbn. eauto.
  - pose proof G as (W & _).
    destruct (wf_chain _ _ _ W) as (Hch & Hal & _).
    destruct Hc as (Eb & Hb & Hc).
    pose proof (block_ok_bounds _ _ Hb) as [R M].
    rewrite <- Eb. rewrite (block_ok_size _ _ Hb).
    replace (b_size b >? 0) with true by lia.
    unfold NEXT_BLKP. rewrite (block_ok_size _ _ Hb).
    rewrite naf_cons in Hn. apply andb_true_iff in Hn as [Hn1 Hn2].
    assert (Ib : In b bs) by (rewrite E; apply in_mid).
    assert (Hd : forall b', In b' done -> In b' bs /\ b_ptr b' <> b_ptr b).
    { intros b' I'. split; [rewrite E; apply in_or_app; left; exact I'|].
      rewrite E in Hch. apply chain_app in Hch as (mid & C1 & C2).
      destruct C2 as (Em & _). 
      destruct (chain_In _ _ _ _ _ C1 I') as (ok' & _ & U & _).
      apply block_ok_bounds in ok'. lia. }
    assert (Ht' : b_alloc b = false -> free_token acc = 0).
    { intros Fb. destruct Ht as [Ht|[_ Ht]]; [exact Ht|].
      cbn in Ht. congruence. }
    destruct (check_block_good st bs fl acc done b G Ib Hd H0 Ht' Ct Ch)
      as (K1 & K2 & K3 & K4).
    apply (IH (done ++ [b])); auto.
    + rewrite <- app_assoc. exact E.
    + rewrite <- Eb in Hc. exact Hc.
    + cbn in Hf. lia.
    + rewrite K2. destruct (b_alloc b); [left; reflexivity|].
      right. split; [reflexivity|exact Hn1].
Qed.

(** On a good heap the checker raises no flag. *)
Lemma checkheap_good fuel st bs fl :
  good st bs fl -> (length bs < fuel)%nat -> mm_checkheap fuel st = Ok 0.
Proof.
  intros G Hf. pose proof G as (W & _ & Naf).
  destruct (wf_chain _ _ _ W) as (Hch & _ & _ & He).
  destruct (wf_brk _ _ _ W) as [Hb _]. unfold WSIZE in Hb.
  unfold mm_checkheap, mem_heap_hi. cbv zeta.
  replace (mem_brk st - 1 - 3) with (eptr st) by lia.
  rewrite GET_SIZE_eq, GET_ALLOC_eq, He, (Z.eqb_refl (eptr st)).
  change (negb (1 - 1 mod 8 =? 0) || (1 mod 2 =? 0) || negb true) with false.
  rewrite flag_false.
  destruct (check_blocks_good st bs fl bs [] (heap_listp st)
              (mkAcc 0 (replicate (Z.to_nat NUM_LISTS) 0)
                     (replicate (Z.to_nat NUM_LISTS) 0) 0) fuel G eq_refl Hch Hf
              eq_refl (or_introl eq_refl) Naf) as (acc' & E & F).
  - split; [apply length_replicate|]. intros l Rl. left.
    unfold count_at. cbn [num_tail num_head].
    rewrite lookup_replicate_2; [reflexivity|].
    unfold NUM_LISTS in *. lia.
  - split; [apply length_replicate|]. intros l Rl. left.
    unfold count_at. cbn [num_tail num_head].
    rewrite lookup_replicate_2; [reflexivity|].
    unfold NUM_LISTS in *. lia.
  - rewrite E. cbn [bind]. rewrite F. reflexivity.
Qed.

Lemma session_checkheap fuel fuel' st live :
  session fuel st live ->
  (mem_brk st - heap_listp st) / 16 + 2 <= Z.of_nat fuel' ->
  mm_checkheap fuel' st = Ok 0.
Proof.
  intros S Hf. destruct (session_good fuel st live S) as (bs & fl & G & _).
  pose proof (wf_count _ _ _ (proj1 G)) as Hc.
  apply (checkheap_good fuel' st bs fl G). lia.
Qed.

(** ** free in full; calloc, a failing malloc and the calls of a session *)

(** The tags of a memory admit one tiling only. *)
Lemma block_eq m b b' :
  block_ok m b -> block_ok m b' -> b_ptr b = b_ptr b' -> b = b'.
Proof.
  intros H H' E.
  pose proof (block_ok_size _ _ H) as S1. pose proof (block_ok_size _ _ H') as S2.
  pose proof (block_ok_alloc _ _ H) as A1.
  pose proof (block_ok_alloc _ _ H') as A2.
  destruct b as [p s a], b' as [p' s' a']. cbn in *. subst p'.
  rewrite S1 in S2. rewrite A1 in A2. subst s'.
  destruct a, a'; try reflexivity; discriminate.
Qed.

Lemma chain_unique m : forall bs bs' bp stop,
  chain m bp bs stop -> chain m bp bs' stop -> bs = bs'.
Proof.
  induction bs as [|b bs IH]; intros bs' bp stop H H'.
  - cbn in H. subst stop. destruct bs' as [|b' bs']; [reflexivity|].
    apply chain_nonempty_lt in H'. lia.
  - destruct bs' as [|b' bs'].
    + cbn in H'. subst stop. apply chain_nonempty_lt in H. lia.
    + cbn in H, H'. destruct H as (E & ok & H). destruct H' as (E' & ok' & H').
      assert (Eb : b = b') by (apply (block_eq m); congruence).
      subst b'. f_equal. exact (IH _ _ _ H H').
Qed.

(** A good heap is consistent. *)
Lemma good_link st bs fl l x :
  wf st bs fl -> 0 <= l < NUM_LISTS -> In x (fl l) ->
  link_ok bs (GET_NEXT_FREE (mem st) x) /\ link_ok bs (GET_PREV_FREE (mem st) x).
Proof.
  intros W Rl I. destruct (wf_lists _ _ _ W l Rl) as [D _].
  destruct (in_split _ _ I) as (A & B & E). rewrite E in D.
  destruct (dll_links _ _ _ _ _ D) as (LP & LN & _).
  assert (M : forall y, In y (fl l) -> free_block_of bs y).
  { intros y Iy. destruct (wf_members _ _ _ W l y Rl Iy) as (s & Is & _).
    exists s. exact Is. }
  split.
  - rewrite LN. destruct B as [|y B]; [left; reflexivity|]. right.
    apply M. rewrite E. apply in_or_app. right. right. left. reflexivity.
  - rewrite LP. destruct A as [|a A0]; [left; reflexivity|]. right.
    apply M. rewrite E. apply in_or_app. left. apply last_In. discriminate.
Qed.

Lemma good_consistent st bs fl : good st bs fl -> consistent st bs.
Proof.
  intros (W & Cm & Naf).
  destruct (wf_brk _ _ _ W) as [Hb Hm]. unfold WSIZE in Hb.
  pose proof (wf_room _ _ _ W) as Hr.
  constructor.
  - exact (wf_base _ _ _ W).
  - exact (wf_prologue _ _ _ W).
  - exact (wf_tiled _ _ _ W).
  - lia.
  - exact Naf.
  - intros [x s a] Ib Fb. cbn in Fb. subst a. cbn [b_ptr].
    pose proof (get_list_range s) as Rg.
    apply (good_link st bs fl (get_list s) x W); [unfold NUM_LISTS; lia|].
    exact (Cm x s Ib).
  - split; [exact (wf_len _ _ _ W)|].
    apply List.Forall_forall. intros p Ip.
    destruct (List.In_nth _ _ NULL Ip) as (n & Hn & En).
    rewrite (wf_len _ _ _ W) in Hn.
    assert (Rl : 0 <= Z.of_nat n < NUM_LISTS) by (unfold NUM_LISTS in *; lia).
    destruct (wf_lists _ _ _ W _ Rl) as [D _].
    assert (Eh : list_head st (Z.of_nat n) = p).
    { unfold list_head. rewrite Nat2Z.id, <- nth_lookup. exact En. }
    rewrite Eh in D. pose proof (dllseg_head _ _ _ _ _ D) as Hd.
    destruct (fl (Z.of_nat n)) as [|y r] eqn:Ef; [left; exact Hd|].
    right. cbn in Hd.
    destruct (wf_members _ _ _ W _ y Rl) as (s & Is & _);
      [rewrite Ef; left; reflexivity|].
    exists s. rewrite Hd. exact Is.
Qed.

(** The buckets after [free]: the joined block in the bucket of its size,
    and of the blocks listed before those that are not inside it. *)
Lemma free_buckets st bs fl st' fl' pre P bp s post lo total pre' dP dN post' :
  good st bs fl -> good st' (pre' ++ Blk lo total false :: post') fl' ->
  bs = pre ++ P :: Blk bp s true :: post ->
  pre ++ [P] = pre' ++ dP -> post = dN ++ post' ->
  dP = (if b_alloc P then [] else [P]) ->
  dN = (if first_alloc post then [] else [hd P post]) ->
  lo = (if b_alloc P then bp else b_ptr P) ->
  lo + total = bp + s + (if first_alloc post then 0 else b_size (hd P post)) ->
  forall l y, 0 <= l < NUM_LISTS ->
    (In y (fl' l) <->
     (y = lo /\ l = get_list total)
     \/ (In y (fl l) /\ ~ (lo <= y < lo + total))).
Proof.
  intros (W & Cm & _) (W' & Cm' & _) E Ep Eq EdP EdN Elo Etot l y Rl.
  destruct (wf_chain _ _ _ W) as (Hch & Hal & _).
  destruct (wf_chain _ _ _ W') as (Hch' & Hal' & _).
  set (M := Blk lo total false) in *. set (B := Blk bp s true) in *.
  assert (IM : In M (pre' ++ M :: post')) by apply in_mid.
  destruct (wf_block _ _ _ _ W' IM) as (_ & _ & _ & Rt & _).
  unfold M in Rt. cbn in Rt.
  assert (IP : In P bs) by (rewrite E; apply in_mid).
  assert (IB : In B bs).
  { rewrite E. apply in_or_app. right. right. left. reflexivity. }
  destruct (wf_block _ _ _ _ W IP) as (_ & _ & _ & RP & _).
  destruct (wf_block _ _ _ _ W IB) as (_ & _ & _ & RB & _).
  unfold B in RB. cbn in RB.
  pose proof Hch as Hc. rewrite E in Hc.
  apply chain_app in Hc as (mid & C1 & C2). cbn [chain] in C2.
  destruct C2 as (EP & _ & EB & _ & C3). cbn [b_ptr b_size] in EB, C3.
  assert (Sub : forall b, In b pre' \/ In b post' -> In b bs).
  { intros b [I|I].
    - assert (I2 : In b (pre ++ [P])) by (rewrite Ep; apply in_or_app; auto).
      rewrite E. apply in_app_or in I2 as [I2|[<-|[]]];
        apply in_or_app; [left; exact I2|right; left; reflexivity].
    - rewrite E, Eq. apply in_or_app. right. right. right.
      apply in_or_app. right. exact I. }
  assert (Dec : forall b, In b bs ->
            In b pre' \/ In b dP \/ b = B \/ In b dN \/ In b post').
  { intros b I. rewrite E in I. apply in_app_or in I as [I|[I|[I|I]]].
    - assert (I2 : In b (pre' ++ dP))
        by (rewrite <- Ep; apply in_or_app; auto).
      apply in_app_or in I2. tauto.
    - assert (I2 : In b (pre' ++ dP))
        by (rewrite <- Ep; apply in_or_app; right; left; exact I).
      apply in_app_or in I2. tauto.
    - auto.
    - rewrite Eq in I. apply in_app_or in I. tauto. }
  unfold B, M in *. clear B M. cbn [b_ptr b_size] in EB, C3.
  assert (Ins : forall b, In b dP \/ In b dN -> lo <= b_ptr b < lo + total).
  { intros b [I|I].
    - rewrite EdP in I. destruct (b_alloc P); [destruct I|].
      destruct I as [<-|[]]. subst lo. lia.
    - rewrite EdN in I. destruct (first_alloc post) eqn:Ef; [destruct I|].
      destruct I as [<-|[]].
      destruct post as [|N post0]; [discriminate|]. cbn [hd] in *.
      cbn [chain] in C3. destruct C3 as (EN & okN & _).
      pose proof (block_ok_bounds _ _ okN) as [RN _].
      destruct (b_alloc P); subst lo; lia. }
  split.
  - intros I.
    destruct (wf_members _ _ _ W' l y Rl I) as (sy & Iy & Gy).
    destruct (tiling_apart _ _ _ _ Hch' _ _ Iy IM) as [Ey|D].
    + inversion Ey. subst. left. auto.
    + right. cbn in D.
      destruct (wf_block _ _ _ _ W' Iy) as (_ & _ & _ & Ry & _). cbn in Ry.
      split; [|lia]. rewrite <- Gy. apply Cm. apply Sub.
      apply in_app_or in Iy as [Iy|[Iy|Iy]]; auto.
      inversion Iy. subst. lia.
  - intros [[-> ->]|[I Out]].
    + exact (Cm' lo total IM).
    + destruct (wf_members _ _ _ W l y Rl I) as (sy & Iy & Gy).
      rewrite <- Gy. apply Cm'.
      destruct (Dec _ Iy) as [K|[K|[K|[K|K]]]].
      * apply in_or_app. left. exact K.
      * exfalso. apply Out. exact (Ins _ (or_introl K)).
      * discriminate.
      * exfalso. apply Out. exact (Ins _ (or_intror K)).
      * apply in_or_app. right. right. exact K.
Qed.

(** The joined block heads its list. *)
Lemma free_head st bs fl bp s bs' fl' lo total :
  good st bs fl -> In (Blk bp s true) (tl bs) ->
  good (free st bp) bs' fl' -> In (Blk lo total false) bs' ->
  lo <= bp -> bp + s <= lo + total ->
  list_head (free st bp) (get_list total) = lo.
Proof.
  intros G I (W' & _) IM L1 L2. pose proof G as (W & _).
  destruct (free_merges st bs bp s (good_consistent _ _ _ G) I)
    as (bs2 & lo2 & total2 & [T2 _] & _ & _ & I2 & K1 & K2 & Hd).
  destruct (wf_chain _ _ _ W') as (Hch' & _).
  unfold WSIZE in T2. change (2 * 4) with 8 in T2.
  pose proof (chain_unique _ _ _ _ _ T2 Hch') as Eb. subst bs2.
  apply (in_tl_wf _ _ _ _ W) in I as [_ Hs]. cbn in Hs. unfold MIN_SIZE in Hs.
  destruct (tiling_apart _ _ _ _ Hch' _ _ IM I2) as [E|D].
  - injection E as E1 E2. rewrite E1, E2. exact Hd.
  - cbn in D. lia.
Qed.

(** [free] on a good heap, in full. *)
Lemma free_joins st bs fl bp size :
  good st bs fl -> In (Blk bp size true) (tl bs) ->
  exists pre P post lo total pre' dP dN post' fl',
    bs = pre ++ P :: Blk bp size true :: post
    /\ pre ++ [P] = pre' ++ dP /\ post = dN ++ post'
    /\ dP = (if b_alloc P then [] else [P])
    /\ dN = (if first_alloc post then [] else [hd P post])
    /\ lo = (if b_alloc P then bp else b_ptr P)
    /\ lo + total
       = bp + size + (if first_alloc post then 0 else b_size (hd P post))
    /\ good (free st bp) (pre' ++ Blk lo total false :: post') fl'
    /\ no_adjacent_free (pre' ++ Blk lo total false :: post') = true
    /\ (forall l y, 0 <= l < NUM_LISTS ->
          (In y (fl' l) <->
           (y = lo /\ l = get_list total)
           \/ (In y (fl l) /\ ~ (lo <= y < lo + total))))
    /\ list_head (free st bp) (get_list total) = lo
    /\ mm_checkheap (S (length (pre' ++ Blk lo total false :: post')))
                    (free st bp) = Ok 0.
Proof.
  intros G I.
  destruct (good_free_detail st bs fl bp size G I)
    as (pre & P & post & lo & total & pre' & dP & dN & post' & fl'
        & E & G' & Ep & Eq & EdP & EdN & Elo & Etot).
  exists pre, P, post, lo, total, pre', dP, dN, post', fl'.
  pose proof G as (W & _).
  assert (IP : In P bs) by (rewrite E; apply in_mid).
  destruct (wf_block _ _ _ _ W IP) as (_ & _ & _ & RP & _).
  destruct (wf_chain _ _ _ W) as (Hch & _).
  pose proof Hch as Hc. rewrite E in Hc.
  apply chain_app in Hc as (mid & C1 & C2). cbn [chain] in C2.
  destruct C2 as (EP & _ & EB & _ & C3). cbn [b_ptr b_size] in EB, C3.
  split; [exact E|]. split; [exact Ep|]. split; [exact Eq|].
  split; [exact EdP|]. split; [exact EdN|]. split; [exact Elo|].
  split; [exact Etot|]. split; [exact G'|].
  split; [exact (proj2 (proj2 G'))|].
  split; [exact (free_buckets st bs fl (free st bp) fl' pre P bp size post
                   lo total pre' dP dN post' G G' E Ep Eq EdP EdN Elo Etot)|].
  split.
  - apply (free_head st bs fl bp size _ fl' lo total G I G'); [apply in_mid| |].
    + destruct (b_alloc P); subst lo; lia.
    + rewrite Etot. destruct (first_alloc post) eqn:Ef; [lia|].
      destruct post as [|N post0]; [discriminate|]. cbn [hd].
      cbn [chain] in C3. destruct C3 as (_ & okN & _).
      apply block_ok_bounds in okN. lia.
  - apply (checkheap_good _ _ _ fl' G'). lia.
Qed.

(** [calloc] on a good heap. *)
Lemma calloc_good fuel st bs fl nmemb size :
  good st bs fl -> 0 < nmemb * size <= 2 ^ 64 - 24 ->
  (length bs + 22 < fuel)%nat ->
  (calloc fuel st nmemb size = Fault NullDeref
   /\ malloc fuel st (nmemb * size) = Ok (st, NULL))
  \/ (exists st' p bs' fl' total,
        calloc fuel st nmemb size = Ok (st', p) /\ p <> NULL
        /\ good st' bs' fl' /\ In (Blk p total true) (tl bs')
        /\ nmemb * size + 2 * DSIZE <= total
        /\ (forall a, p <= a < p + nmemb * size -> mem st' a = 0)
        /\ (forall b, b_alloc b = true ->
              (In b bs' <-> In b bs \/ b = Blk p total true))
        /\ (forall q s a, In (Blk q s true) bs -> q - 8 <= a < q + s - 8 ->
                          mem st' a = mem st a)).
Proof.
  intros G Hs Hf. pose proof G as (W & _).
  destruct (malloc_returns fuel st bs fl (nmemb * size) W Hf) as ([st1 bp] & Em).
  destruct (good_malloc fuel st bs fl (nmemb * size) st1 bp G Hs Em)
    as (st2 & p2 & E2 & C).
  rewrite Em in E2. inversion E2. subst st2 p2. clear E2.
  unfold calloc. cbv zeta. rewrite (size_t_small (nmemb * size)) by lia.
  rewrite Em. cbn [bind]. unfold memset.
  replace (nmemb * size =? 0) with false by lia.
  destruct C as [(-> & -> & _)|(Nn & bs' & fl' & total & G' & I' & Rt & Ha
                                 & Fr & By)].
  - left. change (NULL =? NULL) with true. cbn [bind]. auto.
  - right. replace (bp =? NULL) with false by lia. cbn [bind].
    unfold DSIZE in Rt. pose proof G' as (W' & _).
    destruct (wf_chain _ _ _ W') as (Hch' & _).
    assert (Ib' : In (Blk bp total true) bs').
    { apply (in_tl_wf _ _ _ _ W') in I'. tauto. }
    eexists _, bp, bs', fl', total. split; [reflexivity|].
    split; [exact Nn|]. split.
    { apply (good_store st1 bs' fl' _ bp total G' I').
      intros a Na.
      destruct ((bp <=? a) && (a <? bp + nmemb * size)) eqn:Eb;
        [|reflexivity].
      apply andb_true_iff in Eb as [E1 E2]. lia. }
    split; [exact I'|]. split; [unfold DSIZE; lia|]. cbn [mem with_mem].
    split.
    { intros a Ra.
      replace ((bp <=? a) && (a <? bp + nmemb * size)) with true;
        [reflexivity|].
      symmetry. apply andb_true_iff. lia. }
    split; [exact Ha|].
    intros q s a Iq Ra.
    destruct (alloc_outside st bs fl q s a W Iq Ra) as [O L].
    rewrite <- (By a L O).
    destruct ((bp <=? a) && (a <? bp + nmemb * size)) eqn:Eb; [|reflexivity].
    apply andb_true_iff in Eb as [E1 E2]. exfalso.
    assert (Iq' : In (Blk q s true) bs').
    { apply (Ha (Blk q s true) eq_refl). left. exact Iq. }
    destruct (tiling_apart _ _ _ _ Hch' _ _ Iq' Ib') as [E|D].
    + inversion E. subst. exact (Fr _ Iq).
    + cbn in D. lia.
Qed.

(** No free block fits and the region has no room: [malloc] returns null
    and changes nothing. *)
Lemma malloc_no_room_good fuel st bs fl size :
  good st bs fl -> 0 < size <= 2 ^ 64 - 24 ->
  (length bs + 22 < fuel)%nat ->
  (forall x s, In (Blk x s false) bs -> s < align_size size) ->
  mem_max_addr st
  < mem_brk st
    + Z.max CHUNKSIZE (align_size size - SPACE_LEFT (mem st) (eptr st)) ->
  malloc fuel st size = Ok (st, NULL).
Proof.
  intros G Hs Hf Nf Room. pose proof G as (W & _).
  destruct (wf_base _ _ _ W) as [Hpos _].
  destruct (search_start_returns st bs fl (align_size size) fuel W Hf)
    as (r & Er).
  apply (malloc_no_room fuel st size r); [lia|lia|exact Er| |].
  - intros hit ->.
    destruct (search_start_wf _ _ _ _ _ _ W Er)
      as (i & s & _ & _ & Ib & _ & Le).
    specialize (Nf _ _ Ib). lia.
  - destruct (wf_last _ _ _ W) as (pre & P & Eb & _ & SL).
    destruct (align_size_covers size Hs) as (Cv & Mn & Ma & Up).
    unfold MIN_SIZE, DSIZE in *.
    assert (IP : In P bs) by (rewrite Eb; apply in_mid).
    rewrite size_t_small; [exact Room|].
    rewrite SL. split.
    + destruct (b_alloc P) eqn:Ea; cbv iota; [lia|].
      destruct P as [x s a]. cbn in Ea. subst a. specialize (Nf x s IP).
      cbn. lia.
    + destruct (wf_block _ _ _ _ W IP) as (_ & _ & _ & R & _).
      assert (align_size size < 2 ^ 64).
      { unfold align_size, size_t, DSIZE, MIN_SIZE.
        destruct (size <=? 8); [lia|]. zlia. }
      destruct (b_alloc P); cbv iota; lia.
Qed.

(** Every call of a session returns a multiple of 8 and leads to a session
    again. *)
Lemma session_allowed fuel st live c st' p :
  session fuel st live -> allowed live c ->
  do_call fuel st c = Ok (st', p) ->
  p mod 8 = 0 /\ exists live', session fuel st' live'.
Proof.
  intros S A E.
  assert (Hm : forall size, 0 <= size <= 2 ^ 64 - 24 ->
             malloc fuel st size = Ok (st', p) ->
             p mod 8 = 0 /\ exists live', session fuel st' live').
  { intros size Hs Em.
    pose proof (session_malloc fuel st live size st' p S Hs Em) as S'.
    split; [|eauto].
    destruct (p =? NULL) eqn:En.
    - apply Z.eqb_eq in En. subst p. reflexivity.
    - destruct (session_live _ _ _ S') as [Pl _].
      exact (proj1 (Pl p size (or_introl eq_refl))). }
  assert (Hfr : forall q, q = NULL \/ (exists n, In (q, n) live) ->
             exists live', session fuel (free st q) live').
  { intros q [->|(n & I)].
    - exists live. exact S.
    - destruct (in_split _ _ I) as (l1 & l2 & El). rewrite El in S.
      exists (l1 ++ l2). exact (session_free fuel st l1 q n l2 S). }
  destruct c as [size|q|q size|nmemb size]; cbn [do_call allowed] in *.
  - exact (Hm size A E).
  - inversion E. subst st' p. split; [reflexivity|]. exact (Hfr q A).
  - unfold realloc in E. destruct A as [[-> Hs]|[-> Hq]].
    + replace (size =? 0) with false in E by lia.
      change (NULL =? NULL) with true in E. cbv iota in E.
      exact (Hm size ltac:(lia) E).
    + change (0 =? 0) with true in E. cbv iota in E.
      inversion E. subst st' p. split; [reflexivity|]. exact (Hfr q Hq).
  - pose proof (session_calloc fuel st live nmemb size st' p S A E) as S'.
    split; [|eauto].
    destruct (p =? NULL) eqn:En.
    + apply Z.eqb_eq in En. subst p. reflexivity.
    + destruct (session_live _ _ _ S') as [Pl _].
      exact (proj1 (Pl p (nmemb * size) (or_introl eq_refl))).
Qed.

Lemma heap_full_good : good heap_full [Blk 65544 16 true] (fl_of []).
Proof. apply goodb_sound. vm_compute. reflexivity. Qed.

(** ** The claims *)

(** C1 (fails on the code).  The claim: every non-null address returned by
    [malloc] is backed by a block whose payload holds at least the requested
    number of bytes.  On the fresh heap [malloc(2^64-1)] wraps the adjusted
    size to 16 in [align_size], and the call returns 65560 for a block that
    is 16 bytes in all: its payload is empty and its footer tag sits at the
    returned address itself. *)
Theorem malloc_wrapped_request_has_no_payload :
  align_size (2 ^ 64 - 1) = 16 /\
  match malloc 100 heap0 (2 ^ 64 - 1) with
  | Ok (st', bp) =>
      bp = 65560 /\ bp <> NULL /\
      GET_SIZE (mem st') (HDRP bp) = 16 /\
      payload_size (mem st') bp = 0 /\
      FTRP (mem st') bp = bp
  | Fault _ => False
  end.
Proof. vm_compute. repeat split; discriminate. Qed.

(** C2 (fails on the code).  The claim: the bytes of a block survive a
    [realloc] to a larger size, also when the block grows into a free
    predecessor.  In [heap_ABC] the block at 65584 (32 bytes, payload 16)
    follows a free block of 24 bytes; [realloc(65584, 24)] needs 40 bytes,
    merges the two blocks and then calls [memcpy(65560, 65584, 32)], whose
    source and destination overlap. *)
Theorem realloc_grows_backwards_with_memcpy :
  heap_blocks 100 (mem heap_ABC) (heap_listp heap_ABC) = Some blocks_ABC /\
  payload_size (mem heap_ABC) 65584 = 16 /\
  align_size 24 = 40 /\
  snd (coalesce heap_ABC 65584) = 65560 /\
  memcpy (mem (fst (coalesce heap_ABC 65584))) 65560 65584 32
  = Fault Overlap /\
  realloc 100 heap_ABC 65584 24 = Fault Overlap.
Proof. vm_compute. repeat split. Qed.

(** C3.  In a consistent heap, that is a good one (tiled by blocks, every
    bucket a doubly linked list of exactly the free blocks of its size
    class, no two neighbours both free), [free] of an allocated block
    [bp] between its physical neighbours [P] and the head of [post]:
    - the blocks that disappear are exactly those of the two neighbours
      that are free ([dP], [dN]), and one free block from [lo] of [total]
      bytes stands in their place and in that of [bp];
    - the heap is good again, so no two neighbours are both free;
    - the buckets hold the joined block, in the bucket of its size and at
      its head, and of the blocks they held before exactly those that are
      not inside the joined block: the free neighbours have left their
      buckets;
    - mm_checkheap raises no flag, the one for two consecutive free blocks
      included. *)
Theorem free_coalesces_eagerly (st : state) (bs : list blk)
        (fl : Z -> list Z) (bp size : Z) :
  good st bs fl ->
  In (Blk bp size true) (tl bs) ->
  exists pre P post lo total pre' dP dN post' fl',
    bs = pre ++ P :: Blk bp size true :: post
    /\ pre ++ [P] = pre' ++ dP /\ post = dN ++ post'
    /\ dP = (if b_alloc P then [] else [P])
    /\ dN = (if first_alloc post then [] else [hd P post])
    /\ lo = (if b_alloc P then bp else b_ptr P)
    /\ lo + total
       = bp + size + (if first_alloc post then 0 else b_size (hd P post))
    /\ good (free st bp) (pre' ++ Blk lo total false :: post') fl'
    /\ no_adjacent_free (pre' ++ Blk lo total false :: post') = true
    /\ (forall l y, 0 <= l < NUM_LISTS ->
          (In y (fl' l) <->
           (y = lo /\ l = get_list total)
           \/ (In y (fl l) /\ ~ (lo <= y < lo + total))))
    /\ list_head (free st bp) (get_list total) = lo
    /\ mm_checkheap (S (length (pre' ++ Blk lo total false :: post')))
                    (free st bp) = Ok 0.
Proof. exact (free_joins st bs fl bp size). Qed.

(** In [heap_ABC] the block B at 65584 lies between the free block A and
    the allocated block C. *)
Lemma free_coalesces_eagerly_witness :
  exists pre P post lo total pre' dP dN post' fl',
    blocks_ABC = pre ++ P :: Blk 65584 32 true :: post
    /\ pre ++ [P] = pre' ++ dP /\ post = dN ++ post'
    /\ dP = (if b_alloc P then [] else [P])
    /\ dN = (if first_alloc post then [] else [hd P post])
    /\ lo = (if b_alloc P then 65584 else b_ptr P)
    /\ lo + total
       = 65584 + 32 + (if first_alloc post then 0 else b_size (hd P post))
    /\ good (free heap_ABC 65584) (pre' ++ Blk lo total false :: post') fl'
    /\ no_adjacent_free (pre' ++ Blk lo total false :: post') = true
    /\ (forall l y, 0 <= l < NUM_LISTS ->
          (In y (fl' l) <->
           (y = lo /\ l = get_list total)
           \/ (In y (fl_of lists_ABC l) /\ ~ (lo <= y < lo + total))))
    /\ list_head (free heap_ABC 65584) (get_list total) = lo
    /\ mm_checkheap (S (length (pre' ++ Blk lo total false :: post')))
                    (free heap_ABC 65584) = Ok 0.
Proof.
  apply (free_coalesces_eagerly heap_ABC blocks_ABC (fl_of lists_ABC)
           65584 32).
  - exact heap_ABC_good.
  - right. left. reflexivity.
Defined.

(** C4 (fails on the code).  The claim: when the allocation fails,
    [calloc] returns null.  On a heap whose region is used up [malloc(8)]
    returns null, and [calloc(1, 8)] hands that null pointer to [memset]
    with a length of 8. *)
Theorem calloc_writes_through_failed_malloc :
  returned (malloc 100 heap_full 8) = Some NULL /\
  memset (mem heap_full) NULL 0 8 = Fault NullDeref /\
  calloc 100 heap_full 1 8 = Fault NullDeref.
Proof. vm_compute. repeat split. Qed.

(** C5 (fails on the code).  The claim: an overflow of [count * size] or of
    the size-plus-overhead rounding gives a null result and leaves the heap
    alone.  [calloc(2^63+4, 2)] multiplies to 8 modulo 2^64 and allocates,
    growing the heap by a chunk; [malloc(2^64-1)] rounds to 16 and
    allocates as well. *)
Theorem size_overflow_is_left_to_wrap :
  size_t ((2 ^ 63 + 4) * 2) = 8 /\
  match calloc 100 heap0 (2 ^ 63 + 4) 2 with
  | Ok (st', bp) =>
      bp = 65560 /\ bp <> NULL /\ mem_brk st' = mem_brk heap0 + 256
  | Fault _ => False
  end /\
  align_size (2 ^ 64 - 1) = 16 /\
  returned (malloc 100 heap0 (2 ^ 64 - 1)) = Some 65560.
Proof. vm_compute. repeat split; discriminate. Qed.

(** C6 (fails on the code).  The claim: for a requested size whose
    adjusted value is at most the size of the block, [realloc] shrinks the
    block in place, and a new free block covers the freed tail when that
    tail is at least [MIN_SIZE].  For [realloc(65560, 2^64-20)] on the
    1016-byte block of [heap_P] the adjusted size wraps around to 0, which
    is at most 1016, so the shrinking path runs: [split] stamps size 0,
    which writes a zero tag over the footer of the block before (here the
    prologue), and then stamps the 1016 bytes again.  The same address is
    returned, but the block is as large as before and allocated, no free
    block covers the tail of 1016 bytes, the block has stayed in bucket
    10, and mm_checkheap finds the prologue's header and footer differ
    (flag 16). *)
Theorem realloc_shrink_takes_a_wrapped_size :
  let r := realloc 100 heap_P 65560 (2 ^ 64 - 20) in
  let st' := state_after heap_P r in
  heap_blocks 10 (mem heap_P) (heap_listp heap_P) = Some blocks_P /\
  mm_checkheap 10 heap_P = Ok 0 /\
  align_size (2 ^ 64 - 20) = 0 /\
  returned r = Some 65560 /\
  heap_blocks 10 (mem st') (heap_listp st') = Some blocks_P /\
  GET (mem heap_P) 65544 = 17 /\ GET (mem st') 65544 = 0 /\
  list_head st' 10 = 65560 /\
  mm_checkheap 10 st' = Ok 16.
Proof. vm_compute. repeat split. Qed.

(** The shrinking path of [realloc] for the sizes that do not wrap.  For an
    allocated block of a consistent heap and a requested size that is not
    zero and whose adjusted size is at least [MIN_SIZE] and at most the
    block's size, [realloc] returns the address it was given and leaves
    the payload bytes it keeps as they were.  When fewer than [MIN_SIZE]
    bytes would be left over the block keeps its size; otherwise it is cut
    down to the adjusted size and the rest is a new free block that heads
    the list of its size class. *)
Theorem realloc_shrinks_in_place (fuel : nat) (st : state) (bs : list blk)
        (ptr old size : Z) :
  consistent st bs ->
  In (Blk ptr old true) (tl bs) ->
  0 < size < 2 ^ 64 ->
  MIN_SIZE <= align_size size <= old ->
  let newsize := align_size size in
  exists st',
    realloc fuel st ptr size = Ok (st', ptr) /\
    (old - newsize < MIN_SIZE ->
       block_ok (mem st') (Blk ptr old true)
       /\ (forall a, ptr <= a < ptr + old - 2 * DSIZE -> mem st' a = mem st a)
       /\ heap_tiled st' bs) /\
    (MIN_SIZE <= old - newsize ->
       block_ok (mem st') (Blk ptr newsize true)
       /\ block_ok (mem st') (Blk (ptr + newsize) (old - newsize) false)
       /\ list_head st' (get_list (old - newsize)) = ptr + newsize
       /\ (forall a, ptr <= a < ptr + newsize - 2 * DSIZE ->
                     mem st' a = mem st a)
       /\ exists pre post,
            bs = pre ++ Blk ptr old true :: post
            /\ heap_tiled st'
                 (pre ++ Blk ptr newsize true
                      :: Blk (ptr + newsize) (old - newsize) false :: post)).
Proof. exact (realloc_shrink fuel st bs ptr old size). Qed.

(** Scenario C of the specification: [malloc(1000)] gives a block of 1016
    bytes at 65560 and [realloc] of it to 10 bytes cuts it down to 32. *)
Lemma realloc_shrinks_in_place_witness :
  align_size 10 = 32 /\
  exists st',
    realloc 100 heap_P 65560 10 = Ok (st', 65560) /\
    block_ok (mem st') (Blk 65560 32 true) /\
    block_ok (mem st') (Blk 65592 984 false).
Proof.
  split; [reflexivity|].
  destruct (realloc_shrinks_in_place 100 heap_P blocks_P 65560 1016 10)
    as (st' & E & _ & S).
  - exact heap_P_consistent.
  - left. reflexivity.
  - lia.
  - vm_compute. split; discriminate.
  - exists st'. split; [exact E|].
    destruct S as (B1 & B2 & _).
    + vm_compute. discriminate.
    + split; [exact B1|exact B2].
Defined.

(** C7 (fails on the code).  The claim: a bucket with more than one list
    head, or more than one list tail, is reported.  In [heap_two_ends] the
    scan meets two free blocks of bucket 5, at 65560 and at 65608; each has
    a null forward link and a null back link, so the bucket has two heads
    and two tails, and mm_checkheap raises no flag at all: the counters are
    compared before they are incremented, so only a third head or tail is
    reported. *)
Theorem checkheap_misses_two_heads_and_two_tails :
  let m := mem heap_two_ends in
  heap_blocks 100 m (heap_listp heap_two_ends)
  = Some [Blk 65544 16 true; Blk 65560 24 false; Blk 65584 24 true;
          Blk 65608 24 false; Blk 65632 24 true; Blk 65656 160 false] /\
  get_list 24 = 5 /\
  GET_NEXT_FREE m 65560 = NULL /\ GET_NEXT_FREE m 65608 = NULL /\
  GET_PREV_FREE m 65560 = NULL /\ GET_PREV_FREE m 65608 = NULL /\
  mm_checkheap 100 heap_two_ends = Ok 0.
Proof. vm_compute. repeat split. Qed.

(** C8.  On an initialized heap [malloc(0)] returns null and [free(NULL)]
    returns, and both leave the whole allocator state as it was. *)
Theorem boundary_calls_change_nothing (fuel : nat) (st : state) :
  heap_listp st <> 0 ->
  malloc fuel st 0 = Ok (st, NULL) /\ free st NULL = st.
Proof.
  intros H. split; [|reflexivity].
  unfold malloc. apply Z.eqb_neq in H. rewrite H. reflexivity.
Qed.

Lemma boundary_calls_change_nothing_witness :
  heap_listp heap0 <> 0 /\
  malloc 7 heap0 0 = Ok (heap0, NULL) /\ free heap0 NULL = heap0.
Proof.
  assert (H : heap_listp heap0 <> 0) by (vm_compute; discriminate).
  split; [exact H|]. exact (boundary_calls_change_nothing 7 heap0 H).
Defined.

(** C9 (fails on the code).  The claim: every non-null address the
    allocator returns is a multiple of 8.  On [heap_dirty], whose first
    payload address 65560 is a multiple of 8, [malloc(2^64-20)] adjusts the
    size to 0, which clears the prologue footer and leaves the returned
    block on a free list; [malloc(8)] then returns the same address again.
    After both addresses are freed the block reaches past the epilogue, a
    link is read from the raw bytes behind it, and the next [malloc(8)]
    returns 65940, which is 4 modulo 8. *)
Theorem malloc_returns_misaligned_address :
  snd (mm_init (fresh raw_dirty 65536 1048576)) = 0 /\
  (heap_listp heap_dirty + 2 * DSIZE) mod DSIZE = 0 /\
  align_size (2 ^ 64 - 20) = 0 /\
  let s1 := state_after heap_dirty (malloc 100 heap_dirty (2 ^ 64 - 20)) in
  let s2 := state_after heap_dirty (malloc 100 s1 8) in
  returned (malloc 100 heap_dirty (2 ^ 64 - 20)) = Some 65560 /\
  returned (malloc 100 s1 8) = Some 65560 /\
  returned (malloc 100 (free (free s2 65560) 65560) 8) = Some 65940 /\
  65940 mod DSIZE = 4.
Proof. vm_compute. repeat split. Qed.

(** C10 (fails on the code).  The claim: [search_list] reads the bucket
    array at indices 0 to 19 only.  On the fresh heap, where every list is
    empty, the search for 24 bytes goes on until [list] is 20 and reads
    [free_lists[20]], one entry past the array. *)
Theorem search_list_reads_past_the_bucket_array :
  length (free_lists heap0) = Z.to_nat NUM_LISTS /\
  free_lists heap0 !! Z.to_nat NUM_LISTS = None /\
  search_start 100 heap0 24 = Ok (ReadOutOfBounds NUM_LISTS).
Proof. vm_compute. repeat split. Qed.

(** ** Further properties *)

(** A search that ends without a fault either found a block that is large
    enough or read [free_lists[NUM_LISTS]]: the loop bound [NUM_LISTS+1]
    makes the out-of-bounds read the only way out of an unsuccessful
    search. *)
Theorem search_ends_found_or_out_of_bounds (fuel : nat) (st : state)
        (asize : Z) (r : found) :
  length (free_lists st) = Z.to_nat NUM_LISTS ->
  search_start fuel st asize = Ok r ->
  r = ReadOutOfBounds NUM_LISTS
  \/ exists hit, r = Found hit /\ hit <> NULL
                 /\ asize <= GET_SIZE (mem st) (HDRP hit).
Proof. exact (search_start_result fuel st asize r). Qed.

Lemma search_ends_found_or_out_of_bounds_witness :
  ReadOutOfBounds 20 = ReadOutOfBounds NUM_LISTS
  \/ exists hit, ReadOutOfBounds 20 = Found hit /\ hit <> NULL
                 /\ 24 <= GET_SIZE (mem heap0) (HDRP hit).
Proof.
  apply (search_ends_found_or_out_of_bounds 100 heap0 24).
  - vm_compute. reflexivity.
  - vm_compute. reflexivity.
Defined.

(** [calloc] on a good heap, for a product between 1 and 2^64-24 and with
    fuel above the number of blocks plus 22.  When [malloc] finds no room
    the null pointer goes to [memset].  Otherwise [calloc] returns the
    block of [malloc]: the heap is good again, the block is a new
    allocated block with room for the bytes asked for, which are all zero
    and lie between its link word and its footer, and no byte of a block
    that was allocated before has changed. *)
Theorem calloc_zero_fills_the_request (fuel : nat) (st : state)
        (bs : list blk) (fl : Z -> list Z) (nmemb size : Z) :
  good st bs fl -> 0 < nmemb * size <= 2 ^ 64 - 24 ->
  (length bs + 22 < fuel)%nat ->
  (calloc fuel st nmemb size = Fault NullDeref
   /\ malloc fuel st (nmemb * size) = Ok (st, NULL))
  \/ (exists st' p bs' fl' total,
        calloc fuel st nmemb size = Ok (st', p) /\ p <> NULL
        /\ good st' bs' fl' /\ In (Blk p total true) (tl bs')
        /\ nmemb * size + 2 * DSIZE <= total
        /\ (forall a, p <= a < p + nmemb * size -> mem st' a = 0)
        /\ (forall b, b_alloc b = true ->
              (In b bs' <-> In b bs \/ b = Blk p total true))
        /\ (forall q s a, In (Blk q s true) bs -> q - 8 <= a < q + s - 8 ->
                          mem st' a = mem st a)).
Proof. exact (calloc_good fuel st bs fl nmemb size). Qed.

Lemma calloc_zero_fills_the_request_witness :
  (calloc 100 heap0 2 4 = Fault NullDeref
   /\ malloc 100 heap0 (2 * 4) = Ok (heap0, NULL))
  \/ (exists st' p bs' fl' total,
        calloc 100 heap0 2 4 = Ok (st', p) /\ p <> NULL
        /\ good st' bs' fl' /\ In (Blk p total true) (tl bs')
        /\ 2 * 4 + 2 * DSIZE <= total
        /\ (forall a, p <= a < p + 2 * 4 -> mem st' a = 0)
        /\ (forall b, b_alloc b = true ->
              (In b bs' <-> In b [Blk 65544 16 true]
                            \/ b = Blk p total true))
        /\ (forall q s a, In (Blk q s true) [Blk 65544 16 true] ->
                          q - 8 <= a < q + s - 8 ->
                          mem st' a = mem heap0 a)).
Proof.
  apply (calloc_zero_fills_the_request 100 heap0 [Blk 65544 16 true]
           (fl_of []) 2 4).
  - exact heap0_good.
  - lia.
  - cbn. lia.
Defined.

(** For a request that does not wrap around, the adjusted size leaves room
    for the request and the 16 bytes of overhead, is a multiple of 8 and is
    at least [MIN_SIZE]. *)
Theorem align_size_leaves_room (size : Z) :
  0 < size <= 2 ^ 64 - 24 ->
  size + 2 * DSIZE <= align_size size /\ MIN_SIZE <= align_size size
  /\ align_size size mod DSIZE = 0
  /\ align_size size < size + 2 * DSIZE + DSIZE + 1.
Proof. exact (align_size_covers size). Qed.

Lemma align_size_leaves_room_witness :
  1000 + 2 * DSIZE <= align_size 1000 /\ MIN_SIZE <= align_size 1000
  /\ align_size 1000 mod DSIZE = 0
  /\ align_size 1000 < 1000 + 2 * DSIZE + DSIZE + 1.
Proof. apply (align_size_leaves_room 1000). lia. Defined.

(** Every call of a session returns a multiple of 8, null included, and
    leads to a session again, so that this holds along every sequence of
    such calls: [malloc] and [calloc] of sizes that do not wrap, [free] of
    null or of a block held, [realloc(NULL, size)] and [realloc(ptr, 0)],
    with stores of the client into its blocks in between. *)
Theorem returned_addresses_stay_aligned fuel st live c st' p :
  session fuel st live -> allowed live c ->
  do_call fuel st c = Ok (st', p) ->
  p mod 8 = 0 /\ exists live', session fuel st' live'.
Proof. exact (session_allowed fuel st live c st' p). Qed.

Lemma returned_addresses_stay_aligned_witness :
  65616 mod 8 = 0
  /\ exists live',
       session 100 (state_after heap0 (realloc 100 heap_two NULL 100)) live'.
Proof.
  apply (returned_addresses_stay_aligned 100 heap_two
           [(65584, 16); (65560, 8)] (Realloc NULL 100)).
  - exact session_heap_two.
  - left. split; [reflexivity|lia].
  - vm_compute. reflexivity.
Defined.

(** ** The helper routines and the checker *)

(** [get_list] returns the number of binary digits of the size, capped at
    the last list: sizes from [2^(k-1)] up to [2^k - 1] go to list [k], and
    everything from [2^18] on goes to list 19. *)
Theorem get_list_is_bit_length (size : Z) :
  0 < size ->
  get_list size = Z.min (NUM_LISTS - 1) (Z.log2 size + 1).
Proof. exact (get_list_bits size). Qed.

Lemma get_list_is_bit_length_witness :
  get_list 24 = Z.min (NUM_LISTS - 1) (Z.log2 24 + 1).
Proof. apply (get_list_is_bit_length 24). lia. Defined.

(** A larger size never goes to a smaller list, which is why a search that
    starts at the list of the requested size and moves upwards passes no
    list that a fitting block of the requested size class could be in. *)
Theorem get_list_monotone (a b : Z) :
  0 <= a <= b -> get_list a <= get_list b.
Proof. exact (get_list_mono a b). Qed.

Lemma get_list_monotone_witness : get_list 24 <= get_list 4096.
Proof. apply (get_list_monotone 24 4096). lia. Defined.

(** A tag word written with [PUT(p, PACK(size, alloc))] reads back through
    [GET_SIZE] as the size with its low three bits cleared, and, for a size
    that is a multiple of 8, through [GET_ALLOC] as the allocation bit. *)
Theorem tag_round_trip (m : memory) (p size alloc : Z) :
  0 <= size < 2 ^ 32 -> alloc = 0 \/ alloc = 1 ->
  GET_SIZE (PUT m p (PACK size alloc)) p = size - size mod 8
  /\ (size mod 8 = 0 -> GET_ALLOC (PUT m p (PACK size alloc)) p = alloc).
Proof. exact (tag_decodes m p size alloc). Qed.

Lemma tag_round_trip_witness :
  GET_SIZE (PUT zeroed 65552 (PACK 24 1)) 65552 = 24 - 24 mod 8
  /\ (24 mod 8 = 0 -> GET_ALLOC (PUT zeroed 65552 (PACK 24 1)) 65552 = 1).
Proof.
  apply (tag_round_trip zeroed 65552 24 1); [lia|right; reflexivity].
Defined.

(** Free-list links are stored as 32-bit offsets from the block itself: a
    link to a block less than 2^31 bytes away reads back as that block,
    and the offset 0, that is a link of a block to itself, reads back as
    the end of the list. *)
Theorem link_round_trip (m : memory) (bp other : Z) :
  - 2 ^ 31 <= other - bp < 2 ^ 31 ->
  GET_NEXT_FREE (SET_NEXT_FREE m bp other) bp
  = (if other =? bp then NULL else other)
  /\ GET_PREV_FREE (SET_PREV_FREE m bp other) bp
     = (if other =? bp then NULL else other).
Proof.
  intros R. split; [apply next_link_decodes|apply prev_link_decodes]; exact R.
Qed.

Lemma link_round_trip_witness :
  GET_NEXT_FREE (SET_NEXT_FREE (mem heap_ABC) 65560 65640) 65560
  = (if 65640 =? 65560 then NULL else 65640)
  /\ GET_PREV_FREE (SET_PREV_FREE (mem heap_ABC) 65560 65640) 65560
     = (if 65640 =? 65560 then NULL else 65640).
Proof. apply (link_round_trip (mem heap_ABC) 65560 65640). lia. Defined.

(** [set_size] stamps the size, taken modulo 2^32 since a tag is one
    32-bit word, into the header and into the footer that this size
    places, with the allocation bit clear, and changes no other byte. *)
Theorem set_size_stamps_header_and_footer (m : memory) (bp asize : Z) :
  0 <= asize -> asize mod 8 = 0 ->
  let s := asize mod 2 ^ 32 in
  let m' := set_size m bp asize in
  GET m' (HDRP bp) = s /\ GET m' (bp + s - 4 * WSIZE) = s
  /\ forall a, ~ (bp - 8 <= a < bp - 4) -> ~ (bp + s - 16 <= a < bp + s - 12) ->
               m' a = m a.
Proof. exact (set_size_stamps m bp asize). Qed.

Lemma set_size_stamps_header_and_footer_witness :
  let s := (2 ^ 32 + 24) mod 2 ^ 32 in
  let m' := set_size zeroed 65560 (2 ^ 32 + 24) in
  GET m' (HDRP 65560) = s /\ GET m' (65560 + s - 4 * WSIZE) = s
  /\ forall a, ~ (65560 - 8 <= a < 65560 - 4) ->
               ~ (65560 + s - 16 <= a < 65560 + s - 12) ->
               m' a = zeroed a.
Proof.
  apply (set_size_stamps_header_and_footer zeroed 65560 (2 ^ 32 + 24)).
  - lia.
  - reflexivity.
Defined.

(** On a block whose header and footer hold the same tag, [set_alloc] and
    [set_free] set and clear the allocation bit of both tags, keep the
    size, and change no byte outside the two tag words. *)
Theorem set_alloc_and_set_free_flip_both_tags (m : memory) (bp s : Z)
        (a : bool) :
  block_ok m (Blk bp s a) ->
  block_ok (set_alloc m bp) (Blk bp s true)
  /\ block_ok (set_free m bp) (Blk bp s false)
  /\ forall x, ~ (bp - 8 <= x < bp - 4) -> ~ (bp + s - 16 <= x < bp + s - 12) ->
               set_alloc m bp x = m x /\ set_free m bp x = m x.
Proof. exact (set_alloc_free_block m bp s a). Qed.

Lemma set_alloc_and_set_free_flip_both_tags_witness :
  block_ok (set_alloc (mem heap_ABC) 65560) (Blk 65560 24 true)
  /\ block_ok (set_free (mem heap_ABC) 65560) (Blk 65560 24 false)
  /\ forall x, ~ (65560 - 8 <= x < 65560 - 4) ->
               ~ (65560 + 24 - 16 <= x < 65560 + 24 - 12) ->
               set_alloc (mem heap_ABC) 65560 x = mem heap_ABC x
               /\ set_free (mem heap_ABC) 65560 x = mem heap_ABC x.
Proof.
  apply (set_alloc_and_set_free_flip_both_tags (mem heap_ABC) 65560 24 false).
  apply block_okb_sound. vm_compute. reflexivity.
Defined.

(** mm_checkheap never raises its first error flag (block size out of
    alignment): [GET_SIZE] clears the low three bits of the tag, so the
    size it tests is a multiple of 8 whatever the heap holds. *)
Theorem checkheap_never_flags_size_alignment (fuel : nat) (st : state)
        (flags : Z) :
  mm_checkheap fuel st = Ok flags -> Z.testbit flags 0 = false.
Proof. exact (checkheap_bit0 fuel st flags). Qed.

Lemma checkheap_never_flags_size_alignment_witness :
  Z.testbit 0 0 = false.
Proof.
  apply (checkheap_never_flags_size_alignment 100 heap_two_ends 0).
  vm_compute. reflexivity.
Defined.



(** ** mm_init and a failing malloc *)

(** On a region that starts at a non-negative multiple of 8 and has 20
    bytes to hand out, whatever bytes it holds, [mm_init] returns 0 and
    leaves a consistent heap of one block, the prologue, with every free
    list empty, on which mm_checkheap raises no flag; no byte outside the
    20 bytes of prologue and epilogue is written. *)
Theorem mm_init_builds_a_consistent_heap (k : nat) (st : state) :
  mem_brk st mod 8 = 0 -> 0 <= mem_brk st ->
  mem_start_brk st <= mem_brk st -> mem_brk st + 20 <= mem_max_addr st ->
  exists st1,
    mm_init st = (st1, 0)
    /\ heap_listp st1 = mem_brk st + 2 * WSIZE
    /\ mem_brk st1 = mem_brk st + 5 * WSIZE
    /\ consistent st1 [Blk (heap_listp st1) (2 * DSIZE) true]
    /\ free_lists st1 = replicate (Z.to_nat NUM_LISTS) NULL
    /\ mm_checkheap (S (S k)) st1 = Ok 0
    /\ (forall a, a < mem_brk st \/ mem_brk st + 20 <= a ->
                  mem st1 a = mem st a).
Proof.
  intros A P Lo Hi.
  destruct (mm_init_builds st A P Lo Hi)
    as (st1 & E & Hh & He & Hb & Hs & _ & Hf & G0 & G1 & G2 & Fr).
  exists st1. split; [exact E|]. split; [exact Hh|]. split; [exact Hb|].
  split; [exact (mm_init_consistent st st1 A P Lo Hi E)|].
  split; [exact Hf|]. split; [|exact Fr].
  apply checkheap_prologue_only.
  - rewrite Hh. zlia.
  - lia.
  - lia.
  - lia.
  - rewrite Hh. replace (mem_brk st + 8 - 8) with (mem_brk st) by lia. exact G0.
  - rewrite Hh. exact G1.
  - rewrite Hh. replace (mem_brk st + 8 + 8) with (mem_brk st + 16) by lia.
    exact G2.
Qed.

Lemma mm_init_builds_a_consistent_heap_witness :
  exists st1,
    mm_init (fresh raw_dirty 65536 1048576) = (st1, 0)
    /\ heap_listp st1 = 65536 + 2 * WSIZE
    /\ mem_brk st1 = 65536 + 5 * WSIZE
    /\ consistent st1 [Blk (heap_listp st1) (2 * DSIZE) true]
    /\ free_lists st1 = replicate (Z.to_nat NUM_LISTS) NULL
    /\ mm_checkheap 2 st1 = Ok 0
    /\ (forall a, a < 65536 \/ 65536 + 20 <= a -> mem st1 a = raw_dirty a).
Proof.
  apply (mm_init_builds_a_consistent_heap 0 (fresh raw_dirty 65536 1048576)).
  - reflexivity.
  - discriminate.
  - discriminate.
  - discriminate.
Defined.

(** On a good heap, for a request between 1 and 2^64-24 bytes and with
    fuel above the number of blocks plus 22: when no free block is large
    enough and the region has no room for the extension ([CHUNKSIZE]
    bytes, or what the adjusted size needs beyond a free last block if
    that is more), [malloc] returns null and leaves the whole allocator
    state as it was. *)
Theorem malloc_without_room_changes_nothing (fuel : nat) (st : state)
        (bs : list blk) (fl : Z -> list Z) (size : Z) :
  good st bs fl -> 0 < size <= 2 ^ 64 - 24 ->
  (length bs + 22 < fuel)%nat ->
  (forall x s, In (Blk x s false) bs -> s < align_size size) ->
  mem_max_addr st
  < mem_brk st
    + Z.max CHUNKSIZE (align_size size - SPACE_LEFT (mem st) (eptr st)) ->
  malloc fuel st size = Ok (st, NULL).
Proof. exact (malloc_no_room_good fuel st bs fl size). Qed.

Lemma malloc_without_room_changes_nothing_witness :
  malloc 100 heap_full 8 = Ok (heap_full, NULL).
Proof.
  apply (malloc_without_room_changes_nothing 100 heap_full
           [Blk 65544 16 true] (fl_of []) 8).
  - exact heap_full_good.
  - lia.
  - cbn. lia.
  - intros x s [H|[]]. discriminate.
  - vm_compute. reflexivity.
Defined.

(** ** The free lists as doubly linked lists: each routine's contract *)

(** [delete_block] takes exactly one block out of the list of its size
    class.  On a well-formed heap, for a free block [x] of size [s] that is
    in the list [get_list s], the heap is well formed again with [x] gone
    from that list, the other members of the list and all other lists as
    they were; no tag word (the words at multiples of 8) and no byte
    outside the free blocks has changed. *)
Theorem delete_block_unlinks_one_block st bs fl x s :
  wf st bs fl -> In (Blk x s false) bs -> In x (fl (get_list s)) ->
  exists fs',
    (forall y, In y fs' <-> In y (fl (get_list s)) /\ y <> x)
    /\ wf (delete_block st x) bs (bucket_upd fl (get_list s) fs')
    /\ (forall q, q mod 8 = 0 ->
                  GET (mem (delete_block st x)) q = GET (mem st) q)
    /\ (forall a, outside_free bs a -> mem (delete_block st x) a = mem st a).
Proof. exact (wf_delete st bs fl x s). Qed.

Lemma delete_block_unlinks_one_block_witness :
  exists fs',
    (forall y, In y fs' <-> In y (fl_of lists_ABC (get_list 24)) /\ y <> 65560)
    /\ wf (delete_block heap_ABC 65560) blocks_ABC
          (bucket_upd (fl_of lists_ABC) (get_list 24) fs')
    /\ (forall q, q mod 8 = 0 ->
          GET (mem (delete_block heap_ABC 65560)) q = GET (mem heap_ABC) q)
    /\ (forall a, outside_free blocks_ABC a ->
          mem (delete_block heap_ABC 65560) a = mem heap_ABC a).
Proof.
  apply (delete_block_unlinks_one_block heap_ABC blocks_ABC
           (fl_of lists_ABC) 65560 24).
  - exact (proj1 heap_ABC_good).
  - right. left. reflexivity.
  - left. reflexivity.
Defined.

(** [add_block] puts a block at the head of the list of its size class.
    On a well-formed heap, for a free block [x] of size [s] that is in no
    list, the heap is well formed again with [x] in front of the list
    [get_list s] and nothing else moved; no tag word and no byte outside
    the free blocks has changed. *)
Theorem add_block_pushes_at_the_head st bs fl x s :
  wf st bs fl -> In (Blk x s false) bs ->
  (forall l, 0 <= l < NUM_LISTS -> ~ In x (fl l)) ->
  wf (add_block st x) bs
     (bucket_upd fl (get_list s) (x :: fl (get_list s)))
  /\ (forall q, q mod 8 = 0 -> GET (mem (add_block st x)) q = GET (mem st) q)
  /\ (forall a, outside_free bs a -> mem (add_block st x) a = mem st a).
Proof. exact (wf_add st bs fl x s). Qed.

Lemma add_block_pushes_at_the_head_witness :
  wf (add_block heap_A_unlisted 65560) blocks_ABC
     (bucket_upd (fl_of lists_no_A) (get_list 24)
                 (65560 :: fl_of lists_no_A (get_list 24)))
  /\ (forall q, q mod 8 = 0 ->
        GET (mem (add_block heap_A_unlisted 65560)) q
        = GET (mem heap_A_unlisted) q)
  /\ (forall a, outside_free blocks_ABC a ->
        mem (add_block heap_A_unlisted 65560) a = mem heap_A_unlisted a).
Proof.
  apply (add_block_pushes_at_the_head heap_A_unlisted blocks_ABC
           (fl_of lists_no_A) 65560 24).
  - exact heap_A_unlisted_wf.
  - right. left. reflexivity.
  - apply unlistedb_sound. vm_compute. reflexivity.
Defined.

(** [split] followed by [set_alloc], as [malloc] uses them on a listed free
    block [x] of size [s] for an adjusted size [asize <= s]: the block
    pointer is returned unchanged.  When less than [MIN_SIZE] bytes would
    remain, the whole block becomes allocated and leaves its list; otherwise
    the first [asize] bytes become the allocated block and the remaining
    [s - asize] bytes a free block in the list of that size.  Either way
    the heap is well formed and no byte outside the free blocks has
    changed. *)
Theorem split_carves_the_request st bs fl pre x s post asize :
  wf st bs fl -> bs = pre ++ Blk x s false :: post ->
  In x (fl (get_list s)) ->
  asize mod 8 = 0 -> MIN_SIZE <= asize <= s ->
  exists st1 fl' mid,
    split st x asize = (st1, x)
    /\ wf (with_mem st1 (set_alloc (mem st1) x)) (pre ++ mid ++ post) fl'
    /\ ((mid = [Blk x s true] /\ s < asize + MIN_SIZE
         /\ forall i y, 0 <= i < NUM_LISTS ->
              (In y (fl' i) <-> In y (fl i) /\ y <> x))
        \/ (mid = [Blk x asize true; Blk (x + asize) (s - asize) false]
            /\ asize + MIN_SIZE <= s
            /\ forall i y, 0 <= i < NUM_LISTS ->
                 (In y (fl' i) <->
                  (In y (fl i) /\ y <> x)
                  \/ (y = x + asize /\ i = get_list (s - asize)))))
    /\ (forall a, outside_free bs a -> set_alloc (mem st1) x a = mem st a).
Proof. exact (wf_take st bs fl pre x s post asize). Qed.

Lemma split_carves_the_request_witness :
  exists st1 fl' mid,
    split heap_ABC 65640 24 = (st1, 65640)
    /\ wf (with_mem st1 (set_alloc (mem st1) 65640))
          ([Blk 65544 16 true; Blk 65560 24 false; Blk 65584 32 true;
            Blk 65616 24 true] ++ mid ++ []) fl'
    /\ ((mid = [Blk 65640 176 true] /\ 176 < 24 + MIN_SIZE
         /\ forall i y, 0 <= i < NUM_LISTS ->
              (In y (fl' i) <-> In y (fl_of lists_ABC i) /\ y <> 65640))
        \/ (mid = [Blk 65640 24 true; Blk (65640 + 24) (176 - 24) false]
            /\ 24 + MIN_SIZE <= 176
            /\ forall i y, 0 <= i < NUM_LISTS ->
                 (In y (fl' i) <->
                  (In y (fl_of lists_ABC i) /\ y <> 65640)
                  \/ (y = 65640 + 24 /\ i = get_list (176 - 24)))))
    /\ (forall a, outside_free blocks_ABC a ->
          set_alloc (mem st1) 65640 a = mem heap_ABC a).
Proof.
  apply (split_carves_the_request heap_ABC blocks_ABC (fl_of lists_ABC)
           [Blk 65544 16 true; Blk 65560 24 false; Blk 65584 32 true;
            Blk 65616 24 true] 65640 176 [] 24).
  - exact (proj1 heap_ABC_good).
  - reflexivity.
  - left. reflexivity.
  - reflexivity.
  - unfold MIN_SIZE. lia.
Defined.

(** [coalesce] on a free block [x] that is in no list yet, in a heap where
    every other free block is listed and no other two neighbours are both
    free: [x] is joined with those of its two neighbours that are free
    (the blocks [dP] before and [dN] after it that disappear are free
    ones), the joined block starts at [x] or at the free predecessor and
    ends where [x] or the free successor ended, it is in the list of its
    size, and the heap that results is good: well formed, every free block
    listed, no two neighbours free.  Outside the block [x] no byte outside
    the free blocks has changed. *)
Theorem coalesce_joins_free_neighbours st bs fl pre P x s post :
  wf st bs fl -> bs = pre ++ P :: Blk x s false :: post ->
  (forall l, 0 <= l < NUM_LISTS -> ~ In x (fl l)) ->
  (forall y sy, In (Blk y sy false) bs -> y <> x -> In y (fl (get_list sy))) ->
  no_adjacent_free (pre ++ [P]) = true -> no_adjacent_free post = true ->
  MIN_SIZE <= s ->
  exists st' lo total pre' dP dN post' fl',
    coalesce st x = (st', lo)
    /\ good st' (pre' ++ Blk lo total false :: post') fl'
    /\ pre ++ [P] = pre' ++ dP /\ post = dN ++ post'
    /\ (forall b, In b (dP ++ dN) -> b_alloc b = false)
    /\ lo = (if b_alloc P then x else b_ptr P)
    /\ lo + total
       = x + s + (if first_alloc post then 0 else b_size (hd P post))
    /\ (forall a, a < x - 8 \/ x + s - 8 <= a -> outside_free bs a ->
                  mem st' a = mem st a).
Proof. exact (good_coalesce st bs fl pre P x s post). Qed.

Lemma coalesce_joins_free_neighbours_witness :
  exists st' lo total pre' dP dN post' fl',
    coalesce heap_B_marked 65584 = (st', lo)
    /\ good st' (pre' ++ Blk lo total false :: post') fl'
    /\ [Blk 65544 16 true] ++ [Blk 65560 24 false] = pre' ++ dP
    /\ [Blk 65616 24 true; Blk 65640 176 false] = dN ++ post'
    /\ (forall b, In b (dP ++ dN) -> b_alloc b = false)
    /\ lo = (if b_alloc (Blk 65560 24 false) then 65584
             else b_ptr (Blk 65560 24 false))
    /\ lo + total
       = 65584 + 32
         + (if first_alloc [Blk 65616 24 true; Blk 65640 176 false] then 0
            else b_size (hd (Blk 65560 24 false)
                            [Blk 65616 24 true; Blk 65640 176 false]))
    /\ (forall a, a < 65584 - 8 \/ 65584 + 32 - 8 <= a ->
          outside_free blocks_B_marked a ->
          mem st' a = mem heap_B_marked a).
Proof.
  apply (coalesce_joins_free_neighbours heap_B_marked blocks_B_marked
           (fl_of lists_ABC) [Blk 65544 16 true] (Blk 65560 24 false)
           65584 32 [Blk 65616 24 true; Blk 65640 176 false]).
  - exact heap_B_marked_wf.
  - reflexivity.
  - apply unlistedb_sound. vm_compute. reflexivity.
  - intros y sy I N.
    destruct I as [E|[E|[E|[E|[E|[]]]]]]; inversion E; subst.
    + left. reflexivity.
    + lia.
    + left. reflexivity.
  - reflexivity.
  - reflexivity.
  - unfold MIN_SIZE. lia.
Defined.

(** [extend_heap] on a good heap, for an adjusted size that is a multiple
    of 8: either the region cannot grow by the larger of [CHUNKSIZE] and
    what the request needs beyond a free last block, and then null is
    returned and nothing has changed; or, with [set_alloc] applied as
    [malloc] does, the heap is good again, the block returned is a new
    allocated block of at least [asize] bytes, the allocated blocks are
    those of before and this one, and no byte below the old epilogue and
    outside the free blocks has changed. *)
Theorem extend_heap_grows_by_what_is_missing st bs fl asize :
  good st bs fl -> asize mod 8 = 0 -> MIN_SIZE <= asize < 2 ^ 64 ->
  exists st1 bp, extend_heap st asize = (st1, bp)
  /\ ((bp = NULL /\ st1 = st
       /\ mem_max_addr st
          < mem_brk st
            + Z.max CHUNKSIZE
                    (size_t (asize - SPACE_LEFT (mem st) (eptr st))))
      \/ (bp <> NULL /\ exists bs' fl' total,
            good (with_mem st1 (set_alloc (mem st1) bp)) bs' fl'
            /\ In (Blk bp total true) (tl bs') /\ asize <= total
            /\ (forall b, b_alloc b = true ->
                  (In b bs' <-> In b bs \/ b = Blk bp total true))
            /\ (forall s', ~ In (Blk bp s' true) bs)
            /\ (forall a, a < eptr st -> outside_free bs a ->
                          set_alloc (mem st1) bp a = mem st a))).
Proof. exact (good_extend st bs fl asize). Qed.

Lemma extend_heap_grows_by_what_is_missing_witness :
  exists st1 bp, extend_heap heap0 24 = (st1, bp)
  /\ ((bp = NULL /\ st1 = heap0
       /\ mem_max_addr heap0
          < mem_brk heap0
            + Z.max CHUNKSIZE
                    (size_t (24 - SPACE_LEFT (mem heap0) (eptr heap0))))
      \/ (bp <> NULL /\ exists bs' fl' total,
            good (with_mem st1 (set_alloc (mem st1) bp)) bs' fl'
            /\ In (Blk bp total true) (tl bs') /\ 24 <= total
            /\ (forall b, b_alloc b = true ->
                  (In b bs' <-> In b [Blk 65544 16 true]
                                \/ b = Blk bp total true))
            /\ (forall s', ~ In (Blk bp s' true) [Blk 65544 16 true])
            /\ (forall a, a < eptr heap0 ->
                          outside_free [Blk 65544 16 true] a ->
                          set_alloc (mem st1) bp a = mem heap0 a))).
Proof.
  apply (extend_heap_grows_by_what_is_missing heap0 [Blk 65544 16 true]
           (fl_of []) 24).
  - exact heap0_good.
  - reflexivity.
  - unfold MIN_SIZE. lia.
Defined.

(** The search is complete on a good heap: when it ends without a block,
    no free block of the heap, in whatever list, is large enough for the
    request. *)
Theorem search_misses_only_without_a_fit fuel st bs fl asize r :
  good st bs fl -> 0 <= asize ->
  search_start fuel st asize = Ok r -> (forall hit, r <> Found hit) ->
  forall x s, In (Blk x s false) bs -> s < asize.
Proof. exact (search_miss_no_fit fuel st bs fl asize r). Qed.

Lemma search_misses_only_without_a_fit_witness :
  search_start 100 heap_ABC 1000 = Ok (ReadOutOfBounds 20)
  /\ (forall x s, In (Blk x s false) blocks_ABC -> s < 1000).
Proof.
  split; [vm_compute; reflexivity|].
  apply (search_misses_only_without_a_fit 100 heap_ABC blocks_ABC
           (fl_of lists_ABC) 1000 (ReadOutOfBounds 20)).
  - exact heap_ABC_good.
  - lia.
  - vm_compute. reflexivity.
  - discriminate.
Defined.

(** ** free and malloc keep the heap good *)

(** [free] of an allocated block of a good heap leaves a good heap: the
    freed block has become part of one free block, the allocated blocks
    are those of before without the freed one, and outside the freed
    block no byte outside the free blocks has changed. *)
Theorem free_keeps_the_heap_good st bs fl bp s :
  good st bs fl -> In (Blk bp s true) (tl bs) ->
  exists bs' fl' lo total,
    good (free st bp) bs' fl'
    /\ In (Blk lo total false) bs' /\ lo <= bp /\ bp + s <= lo + total
    /\ (forall b, b_alloc b = true ->
          (In b bs' <-> In b bs /\ b <> Blk bp s true))
    /\ (forall a, a < bp - 8 \/ bp + s - 8 <= a -> outside_free bs a ->
                  mem (free st bp) a = mem st a).
Proof. exact (good_free st bs fl bp s). Qed.

Lemma free_keeps_the_heap_good_witness :
  exists bs' fl' lo total,
    good (free heap_ABC 65584) bs' fl'
    /\ In (Blk lo total false) bs' /\ lo <= 65584 /\ 65584 + 32 <= lo + total
    /\ (forall b, b_alloc b = true ->
          (In b bs' <-> In b blocks_ABC /\ b <> Blk 65584 32 true))
    /\ (forall a, a < 65584 - 8 \/ 65584 + 32 - 8 <= a ->
          outside_free blocks_ABC a ->
          mem (free heap_ABC 65584) a = mem heap_ABC a).
Proof.
  apply (free_keeps_the_heap_good heap_ABC blocks_ABC (fl_of lists_ABC)
           65584 32).
  - exact heap_ABC_good.
  - right. left. reflexivity.
Defined.

(** [malloc] on a good heap, for a request between 1 and 2^64-24 bytes and
    with fuel for one step per block and list: the call returns.  Either it
    returns null, the state is unchanged and the region has no room for
    the extension; or the heap is good again, the block returned is a new
    allocated block with at least the requested bytes beside header and
    footer, the allocated blocks are those of before and this one, and no
    byte below the old epilogue and outside the free blocks has changed. *)
Theorem malloc_keeps_the_heap_good fuel st bs fl size :
  good st bs fl -> 0 < size <= 2 ^ 64 - 24 ->
  (length bs + 22 < fuel)%nat ->
  exists st' bp, malloc fuel st size = Ok (st', bp)
  /\ ((bp = NULL /\ st' = st
       /\ mem_max_addr st
          < mem_brk st
            + Z.max CHUNKSIZE
                (size_t (align_size size - SPACE_LEFT (mem st) (eptr st))))
      \/ (bp <> NULL /\ exists bs' fl' total,
            good st' bs' fl'
            /\ In (Blk bp total true) (tl bs') /\ size + 2 * DSIZE <= total
            /\ (forall b, b_alloc b = true ->
                  (In b bs' <-> In b bs \/ b = Blk bp total true))
            /\ (forall s', ~ In (Blk bp s' true) bs)
            /\ (forall a, a < eptr st -> outside_free bs a ->
                          mem st' a = mem st a))).
Proof.
  intros G Hs Hf.
  destruct (malloc_returns fuel st bs fl size (proj1 G) Hf) as ([st' p] & E).
  exact (good_malloc fuel st bs fl size st' p G Hs E).
Qed.

Lemma malloc_keeps_the_heap_good_witness :
  exists st' bp, malloc 100 heap_ABC 100 = Ok (st', bp)
  /\ ((bp = NULL /\ st' = heap_ABC
       /\ mem_max_addr heap_ABC
          < mem_brk heap_ABC
            + Z.max CHUNKSIZE
                (size_t (align_size 100
                         - SPACE_LEFT (mem heap_ABC) (eptr heap_ABC))))
      \/ (bp <> NULL /\ exists bs' fl' total,
            good st' bs' fl'
            /\ In (Blk bp total true) (tl bs') /\ 100 + 2 * DSIZE <= total
            /\ (forall b, b_alloc b = true ->
                  (In b bs' <-> In b blocks_ABC \/ b = Blk bp total true))
            /\ (forall s', ~ In (Blk bp s' true) blocks_ABC)
            /\ (forall a, a < eptr heap_ABC -> outside_free blocks_ABC a ->
                          mem st' a = mem heap_ABC a))).
Proof.
  apply (malloc_keeps_the_heap_good 100 heap_ABC blocks_ABC
           (fl_of lists_ABC) 100).
  - exact heap_ABC_good.
  - lia.
  - cbn. lia.
Defined.

(** ** What a client can rely on *)

(** Along every session, that is after [mm_init] on an 8-aligned region of
    at most 2 GiB and any sequence of [malloc], [calloc] and [free] calls
    and stores of a client that keeps to the rules, the heap is good: it
    is tiled by blocks from the prologue to the epilogue, every list is a
    doubly linked list without repetition of free blocks of its size class,
    every free block is in the list of its size, and no two neighbours are
    both free.  Every block the client holds is an allocated block of this
    heap with room for the bytes asked for, and the blocks it holds have
    different addresses. *)
Theorem session_keeps_the_heap_good fuel st live :
  session fuel st live ->
  exists bs fl, good st bs fl /\ holds bs live /\ List.NoDup (map fst live).
Proof. exact (session_good fuel st live). Qed.

Lemma session_keeps_the_heap_good_witness :
  exists bs fl, good heap_two bs fl /\ holds bs [(65584, 16); (65560, 8)]
                /\ List.NoDup (map fst [(65584, 16); (65560, 8)]).
Proof.
  apply (session_keeps_the_heap_good 100 heap_two).
  exact session_heap_two.
Defined.

(** The blocks a client holds are at multiples of 8, lie between the
    prologue and the break of the region, and never overlap each other. *)
Theorem live_blocks_never_overlap fuel st live :
  session fuel st live ->
  (forall p n, In (p, n) live ->
     p mod 8 = 0 /\ 0 < n /\ heap_listp st + 16 <= p
     /\ p + n + 12 <= mem_brk st)
  /\ (forall l1 p n l2 q k l3, live = l1 ++ (p, n) :: l2 ++ (q, k) :: l3 ->
        p + n <= q \/ q + k <= p).
Proof. exact (session_live fuel st live). Qed.

Lemma live_blocks_never_overlap_witness :
  (forall p n, In (p, n) [(65584, 16); (65560, 8)] ->
     p mod 8 = 0 /\ 0 < n /\ heap_listp heap_two + 16 <= p
     /\ p + n + 12 <= mem_brk heap_two)
  /\ (forall l1 p n l2 q k l3,
        [(65584, 16); (65560, 8)] = l1 ++ (p, n) :: l2 ++ (q, k) :: l3 ->
        p + n <= q \/ q + k <= p).
Proof.
  apply (live_blocks_never_overlap 100 heap_two).
  exact session_heap_two.
Defined.

(** [malloc] in a session, for a request between 1 and 2^64-24 bytes and
    with fuel for one step per 16 bytes of heap: the call returns.  When
    it returns null the state is unchanged.  Otherwise the address is a
    multiple of 8, the requested bytes lie inside the region and overlap
    no block the client holds.  In both cases no byte of a block the
    client holds has changed. *)
Theorem malloc_in_a_session fuel st live size :
  session fuel st live -> 0 < size <= 2 ^ 64 - 24 ->
  (mem_brk st - heap_listp st) / 16 + 24 <= Z.of_nat fuel ->
  exists st' p,
    malloc fuel st size = Ok (st', p)
    /\ (p = NULL -> st' = st)
    /\ (p <> NULL ->
        p mod 8 = 0 /\ heap_listp st' + 16 <= p /\ p + size + 12 <= mem_brk st'
        /\ forall q k, In (q, k) live -> p + size <= q \/ q + k <= p)
    /\ (forall q k a, In (q, k) live -> q <= a < q + k ->
                      mem st' a = mem st a).
Proof. exact (session_malloc_total fuel st live size). Qed.

Lemma malloc_in_a_session_witness :
  exists st' p,
    malloc 100 heap_two 100 = Ok (st', p)
    /\ (p = NULL -> st' = heap_two)
    /\ (p <> NULL ->
        p mod 8 = 0 /\ heap_listp st' + 16 <= p /\ p + 100 + 12 <= mem_brk st'
        /\ forall q k, In (q, k) [(65584, 16); (65560, 8)] ->
                       p + 100 <= q \/ q + k <= p)
    /\ (forall q k a, In (q, k) [(65584, 16); (65560, 8)] -> q <= a < q + k ->
                      mem st' a = mem heap_two a).
Proof.
  apply (malloc_in_a_session 100 heap_two [(65584, 16); (65560, 8)] 100).
  - exact session_heap_two.
  - lia.
  - vm_compute. discriminate.
Defined.

(** [free] of a block the client holds changes no byte of the other blocks
    it holds. *)
Theorem free_in_a_session fuel st live1 p n live2 :
  session fuel st (live1 ++ (p, n) :: live2) ->
  forall q k a, In (q, k) (live1 ++ live2) -> q <= a < q + k ->
                mem (free st p) a = mem st a.
Proof. exact (session_free_frame fuel st live1 p n live2). Qed.

Lemma free_in_a_session_witness :
  mem (free heap_two 65560) 65590 = mem heap_two 65590.
Proof.
  apply (free_in_a_session 100 heap_two [(65584, 16)] 65560 8 []
           session_heap_two 65584 16 65590).
  - left. reflexivity.
  - lia.
Defined.

(** In a session [malloc] fails only for want of room: when it returns
    null for a request between 1 and 2^64-24 bytes, the state is unchanged
    and the region cannot grow by the larger of [CHUNKSIZE] and what the
    adjusted size needs beyond a free last block. *)
Theorem malloc_fails_only_without_room fuel st live size st' :
  session fuel st live -> 0 < size <= 2 ^ 64 - 24 ->
  malloc fuel st size = Ok (st', NULL) ->
  st' = st
  /\ mem_max_addr st
     < mem_brk st
       + Z.max CHUNKSIZE (align_size size - SPACE_LEFT (mem st) (eptr st)).
Proof. exact (session_malloc_null fuel st live size st'). Qed.

Lemma malloc_fails_only_without_room_witness :
  heap_full = heap_full
  /\ mem_max_addr heap_full
     < mem_brk heap_full
       + Z.max CHUNKSIZE
               (align_size 8 - SPACE_LEFT (mem heap_full) (eptr heap_full)).
Proof.
  apply (malloc_fails_only_without_room 100 heap_full [] 8 heap_full).
  - exact session_heap_full.
  - lia.
  - vm_compute. reflexivity.
Defined.

(** Freed memory is used again: after [free] of a block the client holds, a
    [malloc] of at most the bytes that block was asked for succeeds, and
    the break of the region stays where it was before the [free]. *)
Theorem freed_block_is_used_again fuel st live1 p n live2 size st' q :
  session fuel st (live1 ++ (p, n) :: live2) -> 0 < size <= n ->
  malloc fuel (free st p) size = Ok (st', q) ->
  q <> NULL /\ mem_brk st' = mem_brk st.
Proof. exact (session_reuse fuel st live1 p n live2 size st' q). Qed.

Lemma freed_block_is_used_again_witness :
  65560 <> NULL
  /\ mem_brk (state_after heap0 (malloc 100 (free heap_two 65560) 8))
     = mem_brk heap_two.
Proof.
  apply (freed_block_is_used_again 100 heap_two [(65584, 16)] 65560 8 [] 8).
  - exact session_heap_two.
  - lia.
  - vm_compute. reflexivity.
Defined.

(** [calloc] in a session, for a product between 0 and 2^64-24: when it
    returns a block, all the bytes asked for are zero; and it changes no
    byte of a block the client holds. *)
Theorem calloc_in_a_session fuel st live nmemb size st' p :
  session fuel st live -> 0 <= nmemb * size <= 2 ^ 64 - 24 ->
  calloc fuel st nmemb size = Ok (st', p) ->
  (p <> NULL -> forall a, p <= a < p + nmemb * size -> mem st' a = 0)
  /\ (forall q k a, In (q, k) live -> q <= a < q + k -> mem st' a = mem st a).
Proof. exact (session_calloc_frame fuel st live nmemb size st' p). Qed.

Lemma calloc_in_a_session_witness :
  (65584 <> NULL -> forall a, 65584 <= a < 65584 + 2 * 8 ->
     mem (state_after heap0 (calloc 100 heap_one 2 8)) a = 0)
  /\ (forall q k a, In (q, k) [(65560, 8)] -> q <= a < q + k ->
        mem (state_after heap0 (calloc 100 heap_one 2 8)) a = mem heap_one a).
Proof.
  apply (calloc_in_a_session 100 heap_one [(65560, 8)] 2 8).
  - exact session_heap_one.
  - lia.
  - vm_compute. reflexivity.
Defined.

(** The checker accepts every heap of a session: with fuel for one step per
    16 bytes of heap, [mm_checkheap] returns and has set no error flag. *)
Theorem checkheap_accepts_every_session_heap fuel fuel' st live :
  session fuel st live ->
  (mem_brk st - heap_listp st) / 16 + 2 <= Z.of_nat fuel' ->
  mm_checkheap fuel' st = Ok 0.
Proof. exact (session_checkheap fuel fuel' st live). Qed.

Lemma checkheap_accepts_every_session_heap_witness :
  mm_checkheap 100 heap_two = Ok 0.
Proof.
  apply (checkheap_accepts_every_session_heap 100 100 heap_two
           [(65584, 16); (65560, 8)]).
  - exact session_heap_two.
  - vm_compute. discriminate.
Defined.
